(* ===== verification/_CoqProject ===== *)
-Q . S2P
Prelude.v
GoStrings.v
Urls.v
Types.v
Dates.v
Floats.v
World.v
Access.v
Tokens.v
Blog.v
Projects.v
Pipelines.v
Runs.v
Models.v
Agents.v
Registry.v
Store.v
StoreProps.v
Database.v
Postgres.v
Outbox.v
Documents.v
DatabaseProps.v
PostgresProps.v
Contract.v
OutboxProps.v
Auth.v
HttpAccess.v
Platform.v
Integrations.v
Keys.v
Dispatch.v
DispatchProps.v
Handlers.v
ResourceHandlers.v
HandlerProps.v
Sessions.v
SessionProps.v
Kube.v
Dispatcher.v
Operator.v
Workspace.v
KubeProps.v
OperatorProps.v
KubeWitness.v
Feature.v
FeatureProps.v
Serving.v
Storage.v
StorageProps.v
Metrics.v
MetricsProps.v
TraceProxy.v
Console.v
Router.v
RouterProps.v
Cli.v
Gateway.v
Isolation.v
Controllers.v
Integrity.v
OpenApi.v
Copies.v
CopiesProps.v
