(* ===== verification/Prelude.v ===== *)
(** * Nexus control plane: a verification library for its Go services

    This library models the Go part of the repository (src/go): the gateway with
    its two repositories, its roles and its sign-in; the workers, operators and
    small services around it; and proves what they promise.  It reads in the order
    of _CoqProject.  This file is the shared prelude: zero values, record update,
    machine integers, and the list and map lemmas the components share.

    ** The program, and which file models what

    The _gateway_ (cmd/gateway) serves the REST API and the console.  A request
    passes the API token and OIDC layers or the local sessions (internal/auth), then
    CORS, the role rules and the multiplexer (internal/httpapi/server.go), and ends
    in a handler, which works on a _repository_ (internal/store): a JSON file, or
    PostgreSQL with an outbox that a worker publishes to Kafka.  The _integration
    worker_ turns the published commands into Kubernetes objects (the dispatcher of
    internal/integrations), which the _operator_ (internal/operator) reconciles.
    Beside them run the feature gateway, the serving manager, the storage proxy, the
    trace proxy, the metrics collector, and a command-line client.

    - Go itself.  GoStrings: package strings and UTF-8 white space.  Urls: net/url,
      path.Clean and sort.Strings.  Dates: time.Format.  Floats: the verb %g.
      Types: the records of pkg/api/types.go, a field of the struct each.
    - The file repository (internal/store/store.go, workloads.go, access.go,
      tokens.go, blog.go).  World: the state, the process and its environment, and
      persist, load, record, id.  Access, Tokens, Blog, Projects, Pipelines, Runs,
      Models, Agents, Registry: one operation of the repository per definition, with
      its validation and its invariant.  Store: the sum of the operations (op),
      run_op, New, and reachability.  StoreProps: the theorems over all of them.
    - The PostgreSQL repository (postgres.go, workloads.go, outbox.go,
      migrations/001_initial.sql).  Database: tables, statements, transactions, and
      the steps of concurrent sessions.  Postgres: each method as a program of
      database calls.  Outbox: the worker.  Documents: a concrete JSON column.
      DatabaseProps, PostgresProps, OutboxProps: isolation, recording, publication.
      Contract: an abstract repository, which both implementations refine.
    - Who may do what.  Auth: principals, the middleware chain and Allowed.  Keys:
      the signing keys of the identity provider and the verification of a token.
      HttpAccess: projects, scopes and quotas.  Sessions and SessionProps: sign-in
      through the provider, and the local sessions.
    - The handlers of internal/httpapi.  Platform and Integrations: the component
      catalog and the HTTP clients they call.  Handlers, ResourceHandlers, Console:
      a definition per handler, from the decoded request to the response.  Dispatch
      and DispatchProps: pipeline_dispatch.go, the executor as a step relation and
      as a function.  HandlerProps: quotas and visibility.  Router and RouterProps:
      the table of routes, the multiplexer, and what each route asks of a user.
      Gateway: cmd/gateway/main.go, the stack of all these layers.  Isolation: the
      reading endpoints as one family, and what their answers depend on.  Integrity:
      the writing endpoints as one family, and what they leave alone.  OpenApi: the
      document of openapi.go, and that the mux serves every path it lists.
    - Kubernetes.  Kube: pkg/kube/v1alpha1 and the API server.  Dispatcher: the
      commands and the Kafka consumer.  Operator and Workspace: the reconcilers.
      KubeProps, OperatorProps, KubeWitness: their theorems and concrete clusters.
      Controllers: cmd/operator/main.go, which controller reconciles which objects.
      Copies and CopiesProps: the DeepCopyObject methods, over a memory in which
      slices, maps and pointers of several objects may share their cells.
    - The services.  Feature and FeatureProps: internal/feature.  Serving:
      internal/serving and cmd/serving-manager.  Storage and StorageProps:
      internal/storage, cmd/storage-proxy and the gateway's storage handler.
      Metrics and MetricsProps: internal/metrics.  TraceProxy: internal/traceproxy.
      Cli: cmd/cli.

    ** How state and operations correspond to the code

    A struct is a record with the struct's fields under a prefix, int and int64 are
    Z with wrap64 where the code can overflow, float64 is the binary64 of the
    standard library, a map is a gmap, a slice a list.  time.Time is a number of
    nanoseconds; a time that may be the zero time is an option where the code tells
    it apart.  A function that returns an error returns a result, or a value and an
    option of an error.  An operation of the file repository is a function of the
    monad M of World: it passes the world (memory, files, and a counter of the calls
    of the environment) along, so that a failure of any call, at any point, is some
    environment.  A method of the PostgreSQL repository is a program of database
    calls that a step relation interleaves with other sessions, and each call may
    fail before or after it took effect.  Handlers take what encoding/json decoded
    and answer with a value per kind of response.  Locks are modelled by the steps
    they make atomic; what runs outside them is a step of its own (Dispatch,
    Database, and the race of two project creations in HandlerProps).

    ** Parameters

    Code that is not in the repository is a class, and every theorem holds for all
    its instances: Host (clock, files, random bytes, SHA-256, JSON of the state),
    Net (HTTP and JSON of requests), Server and Jsonb and Codec (PostgreSQL and its
    JSON columns), KubeAPI and OperatorEnv (the API server and controller-runtime),
    AuthEnv, OAuth and JwtLibrary (process variables, the OAuth and JWT libraries),
    Engines, Serving, ServingEnv, ServingVariables, ConsoleEnv, CliEnv,
    StorageGateway (process variables and decoders of one service each),
    CommandJson, MetricsJson, FeatureEnv, ObjectXML (decoders), object_store (S3), MetaTypes and
    MetaV1 (the metadata of apimachinery and its copies), OperatorVariables.
    MapOrder is the order in which Go ranges over a map: any permutation of its
    keys, so no theorem depends on it.  The few laws asked of a parameter are named
    where they are used (a clock that never repeats, a server that answers, a JSON
    column that decodes what it encoded), and a witness instantiates each.

    ** What the theorems show

    - The file repository: an invariant of every reachable state
      (repository_invariant), operations that leave no trace when refused, one audit
      event per audited operation, a file that is always a whole state, distinct
      identifiers, the life of a run and of a token.
    - Pipelines: the validator accepts exactly the well-formed acyclic definitions,
      ends, and does not depend on map order; step reports and their verdict.
    - PostgreSQL: in every interleaving and under failures, a changed resource has
      its audit event and outbox row, tenants are separate, what is marked published
      was published; both repositories refine one contract.
    - Access: Allowed is the documented rule of each role; API tokens are confined
      to their services; verified tokens were checked with published keys; nobody
      reaches a route past the gateway but as themselves and within its need
      (gateway_guarded, from the escaped path to the handler); sign-in round trips;
      quotas and visibility of projects; what the reading endpoints answer a user
      depends on nothing outside the user's projects (project_isolation), and the
      writing endpoints change nothing outside them (project_integrity).
    - Execution: the executor starts a job after its dependencies, always ends, and
      leaves the verdict of its jobs.
    - Kubernetes: what a command changes, names, one call of an external system per
      resource, resources within the grant, plans of agents; a deep copy equals the original
      and shares no cell of its own fields with it (resource_copies).
    - Services: Redis stores refine the memory store, signatures verify, storage
      answers depend on granted buckets only, metrics are those measured, and every
      command of the client finds its handler.

    Each property with a hypothesis has a witness that applies it to concrete data.  Where the code
    and its documentation differ, or the code does not do what it means to, a
    theorem or a comment in the file of the component says so.

    ** Bounds and fuel

    The cycle search of Pipelines recurses on fuel: pipeline_fuel is one more than
    the number of jobs, enough since a path of distinct jobs is no longer, and the
    theorems hold without mention of it.  The executor of Dispatch is a relation; a
    bound on its steps is computed from the definition (step_bound in DispatchProps),
    and no run exceeds it.  Loops that never end, of workers and
    pollers, are modelled one turn at a time.  The digits of a float64 are sought up to 17, which always
    suffice for binary64.  Limits of the code (body sizes, pages, quotas, attempts)
    are the code's own constants.

    ** Not modelled, and why

    Listening, signals, timeouts and logging of the processes, and the probes and
    leader election of the operator's manager (no behaviour of their own; what
    controller-runtime does with them is not in the repository); the text of the
    seeded blog post and the console's static files (constant data); protocol upgrades through the trace proxy; expiry of
    Redis keys (the gateway opens its store without one); and everything that is not
    Go: the Python SDK and runtimes, deployment manifests, and documentation. *)

From Stdlib Require Export ZArith Lia.
From Stdlib Require Import SpecFloat.
From stdpp Require Export base tactics decidable gmap strings pretty numbers option.
From stdpp Require Export list.

#[export] Set Default Proof Using "Type".

(** ** Zero values

    A Go function that fails returns the zero value of its result type beside
    the error ([return api.Project{}, err]). *)
Class Zero (A : Type) := zero : A.

#[export] Instance zero_unit : Zero unit := tt.
#[export] Instance zero_string : Zero string := EmptyString.
#[export] Instance zero_Z : Zero Z := 0%Z.
#[export] Instance zero_bool : Zero bool := false.
#[export] Instance zero_list {A} : Zero (list A) := [].
#[export] Instance zero_option {A} : Zero (option A) := None.
#[export] Instance zero_map {A} : Zero (gmap string A) := (∅ : gmap string A).

(** ** Record update

    [r <| f := v |>] is the record [r] with the field [f] replaced.  A record
    that is updated gives its field-by-field copy as an [Eta] instance; the
    setter of a field is read off that copy, so a later projection computes. *)
Class Eta (R : Type) := eta : R → R.
Class Setter {R F : Type} (f : R → F) := set_field : F → R → R.
Arguments set_field {R F} f {_} v r /.

Ltac derive_setter f :=
  lazymatch type of f with
  | ?R → ?F =>
      let g := constr:(λ (v : F) (r : R),
        ltac:(let b := eval hnf in (@eta R _ r) in
              lazymatch b with
              | context C [f r] => let t := context C [v] in exact t
              end)) in
      exact g
  end.

#[export] Hint Extern 0 (Setter ?f) => derive_setter f : typeclass_instances.

Declare Scope go_scope.
Delimit Scope go_scope with go.
Notation "r <| f := v |>" := (set_field f v r)
  (at level 1, f at next level, v at level 200, left associativity,
   format "r  <| f  :=  v |>") : go_scope.
#[global] Open Scope go_scope.

(** ** Machine integers

    Go's [int] and [int64] are 64-bit two's complement numbers here: a value
    is a [Z] and an addition or multiplication wraps. *)
Definition int64_min : Z := (-9223372036854775808)%Z.
Definition int64_max : Z := 9223372036854775807%Z.

Definition wrap64 (z : Z) : Z :=
  ((z + 9223372036854775808) `mod` 18446744073709551616 - 9223372036854775808)%Z.

Definition add64 (a b : Z) : Z := wrap64 (a + b).
Definition mul64 (a b : Z) : Z := wrap64 (a * b).

Definition is_int64 (z : Z) : Prop := (int64_min ≤ z ≤ int64_max)%Z.

Lemma wrap64_id z : is_int64 z → wrap64 z = z.
Proof.
  unfold is_int64, wrap64, int64_min, int64_max. intros ?.
  rewrite Z.mod_small; lia.
Qed.

Lemma wrap64_range z : is_int64 (wrap64 z).
Proof.
  unfold is_int64, wrap64, int64_min, int64_max.
  pose proof (Z.mod_pos_bound (z + 9223372036854775808) 18446744073709551616). lia.
Qed.

(** ** float64

    IEEE binary64 numbers, as Rocq's own specification of them. *)
Abbreviation float64 := spec_float.
#[export] Instance zero_float : Zero float64 := S754_zero false.

Definition float_add (a b : float64) : float64 := SFadd 53 1024 a b.
Definition float_ltb (a b : float64) : bool := SFltb a b.

(** ** Lists updated by index: the shape of the store's search loops *)

Section list_facts.
Context {A : Type}.
Implicit Types (l : list A) (P Q : A → Prop).

(** The value a successful search returns sits at the index it returns. *)
Lemma list_find_hit P `{∀ x, Decision (P x)} l i x :
  list_find P l = Some (i, x) → l !! i = Some x ∧ P x.
Proof. intros (?&?&?)%list_find_Some. auto. Qed.

Lemma list_find_miss P `{∀ x, Decision (P x)} l x :
  list_find P l = None → x ∈ l → ¬ P x.
Proof. intros HN Hx. apply list_find_None in HN. exact (proj1 (Forall_forall _ _) HN x Hx). Qed.

Lemma elem_of_insert_inv l i (x y : A) : y ∈ <[i := x]> l → y = x ∨ y ∈ l.
Proof.
  intros [j Hj]%list_elem_of_lookup.
  apply list_lookup_insert_Some in Hj as [(?&?&?)|(?&?)]; [by left|right].
  by eapply list_elem_of_lookup_2.
Qed.

Lemma Forall_insert_at Q l i x : Forall Q l → Q x → Forall Q (<[i := x]> l).
Proof. rewrite !Forall_forall. intros Hl Hx y [->|?]%elem_of_insert_inv; auto. Qed.

Lemma Forall_lookup_at Q l i x : Forall Q l → l !! i = Some x → Q x.
Proof. intros HQ Hx. by eapply Forall_lookup_1. Qed.

(** An update in place keeps a property of the elements if it keeps it of the
    updated one. *)
Lemma Forall_update Q l i x y :
  l !! i = Some x → Forall Q l → (Q x → Q y) → Forall Q (<[i := y]> l).
Proof. intros Hx HQ Hy. apply Forall_insert_at; [done|]. by eapply Hy, Forall_lookup_at. Qed.

(** Removing one element by index: [append(l[:i], l[i+1:]...)]. *)
Definition remove_at (i : nat) (l : list A) : list A := take i l ++ drop (S i) l.

Lemma remove_at_sublist i l : sublist (remove_at i l) l.
Proof.
  unfold remove_at. revert i. induction l as [|x l IH]; intros [|i]; simpl.
  - constructor.
  - constructor.
  - rewrite drop_0. by apply sublist_cons.
  - by apply sublist_skip.
Qed.

Lemma Forall_remove_at Q i l : Forall Q l → Forall Q (remove_at i l).
Proof.
  rewrite !Forall_forall. intros HQ x Hx. apply HQ.
  eapply elem_of_sublist; [exact Hx | apply remove_at_sublist].
Qed.
End list_facts.

(** Uniqueness of a key over a list of records. *)
Section keyed.
Context {A K : Type} (key : A → K).

Definition keys_unique (l : list A) : Prop := NoDup (key <$> l).

Lemma keys_unique_cons x l :
  keys_unique l → (∀ y, y ∈ l → key y ≠ key x) → keys_unique (x :: l).
Proof.
  intros Hl Hx. unfold keys_unique in *. simpl. constructor; [|done].
  intros (y&Hy&Hin)%list_elem_of_fmap. by apply (Hx y Hin).
Qed.

Lemma keys_unique_eq l x y : keys_unique l → x ∈ l → y ∈ l → key x = key y → x = y.
Proof.
  unfold keys_unique. intros Hl [i Hi]%list_elem_of_lookup [j Hj]%list_elem_of_lookup Hk.
  assert (i = j) as ->; [|congruence].
  eapply NoDup_lookup; [exact Hl|..]; rewrite list_lookup_fmap; [by rewrite Hi|].
  rewrite Hj. simpl. congruence.
Qed.

Lemma keys_unique_insert l i x y :
  keys_unique l → l !! i = Some x → key y = key x → keys_unique (<[i := y]> l).
Proof.
  unfold keys_unique. intros Hl Hx Hk.
  rewrite list_fmap_insert, Hk, list_insert_id; [done|].
  by rewrite list_lookup_fmap, Hx.
Qed.

(** The updated element may also change its key, to one no other element has. *)
Lemma keys_unique_insert_new l i y :
  keys_unique l → (∀ j z, l !! j = Some z → key z = key y → j = i) →
  keys_unique (<[i := y]> l).
Proof.
  unfold keys_unique. intros Hl Hnew.
  apply NoDup_alt. intros a b k Ha Hb.
  apply list_lookup_fmap_Some in Ha as (za&->&Ha).
  apply list_lookup_fmap_Some in Hb as (zb&Hk&Hb).
  apply list_lookup_insert_Some in Ha as [(->&->&?)|(Hia&Ha)];
    apply list_lookup_insert_Some in Hb as [(->&->&?)|(Hib&Hb)]; [done|..].
  - exfalso. apply Hib. symmetry. by apply (Hnew b zb).
  - exfalso. apply Hia. symmetry. by apply (Hnew a za).
  - eapply NoDup_alt; [exact Hl | by rewrite list_lookup_fmap, Ha
                       | by rewrite list_lookup_fmap, Hb, Hk].
Qed.

Lemma keys_unique_remove_at i l : keys_unique l → keys_unique (remove_at i l).
Proof.
  unfold keys_unique. intros Hl. eapply sublist_NoDup; [exact Hl|].
  unfold remove_at. rewrite fmap_app.
  rewrite fmap_take, fmap_drop. apply remove_at_sublist.
Qed.
End keyed.

(** ** Automation

    [go_lists] holds the list facts the invariants need, [go_values] the facts on
    single values the components export; [go_split] performs
    the case analysis of an operation: every guard, search and result. *)
Create HintDb go_lists discriminated.
Create HintDb go_values discriminated.
#[export] Hint Resolve Forall_insert_at Forall_remove_at keys_unique_remove_at
  Forall_cons_2 : go_lists.

Ltac go_split :=
  repeat (first [progress (simplify_eq/=) | case_decide | case_match]).
