(* ===== verification/GoStrings.v ===== *)
(** * Go's [strings] package, on byte strings

    A Go string is a sequence of bytes; [string] is one here too, and [len] is
    [String.length].  White space is the full Unicode set, recognised on its
    UTF-8 encodings.  Case mapping, to lower
    and to upper case, covers ASCII and the non-ASCII runes whose lower case or
    fold is an ASCII letter; every other rune is left as it is, which a caller of
    the program can only tell from [EqualFold] on two non-ASCII letters and from
    the digest in a shortened Kubernetes name. *)

From Stdlib Require Import Ascii.
From S2P Require Import Prelude.

Open Scope string_scope.

(** ** Bytes *)

Definition byte_is (n : N) (a : ascii) : bool := (N_of_ascii a =? n)%N.
Definition byte_in (lo hi : N) (a : ascii) : bool :=
  ((lo <=? N_of_ascii a) && (N_of_ascii a <=? hi))%N.

Definition is_lower (a : ascii) : bool := byte_in 97 122 a.
Definition is_upper (a : ascii) : bool := byte_in 65 90 a.
Definition is_digit (a : ascii) : bool := byte_in 48 57 a.
Definition is_lower_alnum (a : ascii) : bool := is_lower a || is_digit a.

Definition upper_hex (n : N) : ascii := ascii_of_N (if (n <? 10)%N then 48 + n else 55 + n)%N.

Fixpoint all_bytes (P : ascii → bool) (s : string) : bool :=
  match s with EmptyString => true | String a s' => P a && all_bytes P s' end.

(** ** [unicode.IsSpace], by the length of the encoding *)

Definition space1 (a : ascii) : bool := byte_in 9 13 a || byte_is 32 a.

Definition space2 (a b : ascii) : bool :=
  byte_is 194 a && (byte_is 133 b || byte_is 160 b).

Definition space3 (a b c : ascii) : bool :=
  (byte_is 225 a && byte_is 154 b && byte_is 128 c)
  || (byte_is 226 a && byte_is 128 b
      && (byte_in 128 138 c || byte_in 168 169 c || byte_is 175 c))
  || (byte_is 226 a && byte_is 129 b && byte_is 159 c)
  || (byte_is 227 a && byte_is 128 b && byte_is 128 c).

(** ** Trimming *)

Section trim.
Context (p1 : ascii → bool) (p2 : ascii → ascii → bool)
        (p3 : ascii → ascii → ascii → bool).

(** Drop leading encodings accepted by [p1], [p2] or [p3]. *)
Fixpoint trim_with (s : string) : string :=
  match s with
  | String a s1 =>
      if p1 a then trim_with s1 else
      match s1 with
      | String b s2 =>
          if p2 a b then trim_with s2 else
          match s2 with
          | String c s3 => if p3 a b c then trim_with s3 else s
          | EmptyString => s
          end
      | EmptyString => s
      end
  | EmptyString => s
  end.

(** No accepted encoding starts the string. *)
Definition trimmed (s : string) : bool :=
  match s with
  | String a s1 =>
      negb (p1 a) &&
      match s1 with
      | String b s2 =>
          negb (p2 a b) &&
          match s2 with String c _ => negb (p3 a b c) | EmptyString => true end
      | EmptyString => true
      end
  | EmptyString => true
  end.
End trim.

Definition TrimLeftSpace (s : string) : string := trim_with space1 space2 space3 s.

Definition TrimRightSpace (s : string) : string :=
  String.rev (trim_with space1 (λ b a, space2 a b) (λ c b a, space3 a b c) (String.rev s)).

Definition TrimSpace (s : string) : string := TrimRightSpace (TrimLeftSpace s).

(** [strings.Trim(s, cut)] for a one-byte cut set. *)
Definition TrimLeftByte (c : ascii) (s : string) : string :=
  trim_with (Ascii.eqb c) (λ _ _, false) (λ _ _ _, false) s.
Definition TrimRightByte (c : ascii) (s : string) : string :=
  String.rev (TrimLeftByte c (String.rev s)).
Definition TrimByte (c : ascii) (s : string) : string := TrimRightByte c (TrimLeftByte c s).

(** ** Searching *)

Definition HasPrefix (s p : string) : bool := String.prefix p s.
Definition HasSuffix (s p : string) : bool := String.prefix (String.rev p) (String.rev s).

Fixpoint Contains (s sub : string) : bool :=
  String.prefix sub s || match s with String _ s' => Contains s' sub | EmptyString => false end.

Fixpoint contains_byte (a : ascii) (s : string) : bool :=
  match s with String b s' => Ascii.eqb a b || contains_byte a s' | EmptyString => false end.

Fixpoint ContainsAny (s chars : string) : bool :=
  match s with String a s' => contains_byte a chars || ContainsAny s' chars | EmptyString => false end.

(** ** Splitting *)

Fixpoint split_acc (sep : ascii) (acc s : string) : list string :=
  match s with
  | EmptyString => [String.rev acc]
  | String a s' =>
      if Ascii.eqb a sep then String.rev acc :: split_acc sep EmptyString s'
      else split_acc sep (String a acc) s'
  end.

(** [strings.Split(s, sep)] for a one-byte separator. *)
Definition Split (s : string) (sep : ascii) : list string := split_acc sep EmptyString s.

Definition flush (acc : string) : list string :=
  match acc with EmptyString => [] | _ => [String.rev acc] end.

Fixpoint fields_acc (acc s : string) : list string :=
  match s with
  | EmptyString => flush acc
  | String a s1 =>
      if space1 a then flush acc ++ fields_acc EmptyString s1 else
      match s1 with
      | EmptyString => flush (String a acc)
      | String b s2 =>
          if space2 a b then flush acc ++ fields_acc EmptyString s2 else
          match s2 with
          | EmptyString => fields_acc (String a acc) s1
          | String c s3 =>
              if space3 a b c then flush acc ++ fields_acc EmptyString s3
              else fields_acc (String a acc) s1
          end
      end
  end.

Definition Fields (s : string) : list string := fields_acc EmptyString s.

Fixpoint Join (parts : list string) (sep : string) : string :=
  match parts with
  | [] => ""
  | [p] => p
  | p :: rest => p ++ sep ++ Join rest sep
  end.

(** ** Case *)

Definition lower_byte (a : ascii) : ascii :=
  if is_upper a then ascii_of_N (N_of_ascii a + 32) else a.

(** [unicode.ToLower]: U+212A (Kelvin) is "k" and U+0130 is "i". *)
Fixpoint ToLower (s : string) : string :=
  match s with
  | EmptyString => EmptyString
  | String a s1 =>
      match s1 with
      | String b s2 =>
          if byte_is 196 a && byte_is 176 b then String "i" (ToLower s2) else
          match s2 with
          | String c s3 =>
              if byte_is 226 a && byte_is 132 b && byte_is 170 c
              then String "k" (ToLower s3)
              else String (lower_byte a) (ToLower s1)
          | EmptyString => String (lower_byte a) (ToLower s1)
          end
      | EmptyString => String (lower_byte a) (ToLower s1)
      end
  end.

Definition upper_byte (a : ascii) : ascii :=
  if is_lower a then ascii_of_N (N_of_ascii a - 32) else a.

(** [unicode.ToUpper]: U+0131 is "I" and U+017F is "S". *)
Fixpoint ToUpper (s : string) : string :=
  match s with
  | EmptyString => EmptyString
  | String a s1 =>
      match s1 with
      | String b s2 =>
          if byte_is 196 a && byte_is 177 b then String "I" (ToUpper s2) else
          if byte_is 197 a && byte_is 191 b then String "S" (ToUpper s2)
          else String (upper_byte a) (ToUpper s1)
      | EmptyString => String (upper_byte a) (ToUpper s1)
      end
  end.

(** [strings.ReplaceAll] of one byte. *)
Fixpoint ReplaceByte (c : ascii) (by_ : string) (s : string) : string :=
  match s with
  | EmptyString => ""
  | String a s' => (if Ascii.eqb a c then by_ else String a "") ++ ReplaceByte c by_ s'
  end.

(** The representative of a string's folding class: U+212A folds to "k" and
    U+017F to "s". *)
Fixpoint fold_case (s : string) : string :=
  match s with
  | EmptyString => EmptyString
  | String a s1 =>
      match s1 with
      | String b s2 =>
          if byte_is 197 a && byte_is 191 b then String "s" (fold_case s2) else
          match s2 with
          | String c s3 =>
              if byte_is 226 a && byte_is 132 b && byte_is 170 c
              then String "k" (fold_case s3)
              else String (lower_byte a) (fold_case s1)
          | EmptyString => String (lower_byte a) (fold_case s1)
          end
      | EmptyString => String (lower_byte a) (fold_case s1)
      end
  end.

Definition EqualFold (s t : string) : Prop := fold_case s = fold_case t.
#[export] Instance EqualFold_dec s t : Decision (EqualFold s t).
Proof. unfold EqualFold. apply _. Defined.
#[export] Instance EqualFold_equiv : Equivalence EqualFold.
Proof. split; unfold EqualFold; [done|congruence..]. Qed.

(** ** Lemmas *)

Lemma str_app_cons a s t : String a s ++ t = String a (s ++ t).
Proof. done. Qed.
Lemma str_app_nil_l s : "" ++ s = s.
Proof. done. Qed.

Ltac str_simpl := repeat (rewrite ?str_app_cons, ?str_app_nil_l in *; simpl in *).

Lemma str_app_nil_r s : s ++ "" = s.
Proof. induction s as [|a s IH]; str_simpl; congruence. Qed.

Lemma str_app_assoc s t u : s ++ (t ++ u) = (s ++ t) ++ u.
Proof. induction s as [|a s IH]; str_simpl; congruence. Qed.

Lemma str_app_inj s t u : s ++ t = s ++ u → t = u.
Proof. induction s as [|a s IH]; str_simpl; [done|]. intros [= ?]. auto. Qed.

Lemma str_length_app s t : String.length (s ++ t) = String.length s + String.length t.
Proof. induction s as [|a s IH]; str_simpl; congruence. Qed.

Lemma str_rev_acc s t : String.rev_app s t = String.rev s ++ t.
Proof.
  unfold String.rev. revert t. induction s as [|a s IH]; intros t; str_simpl; [done|].
  rewrite (IH (String a t)), (IH (String a "")), <-str_app_assoc. done.
Qed.

Lemma str_rev_cons a s : String.rev (String a s) = String.rev s ++ String a "".
Proof. unfold String.rev at 1. simpl. apply str_rev_acc. Qed.

Lemma str_rev_app s t : String.rev (s ++ t) = String.rev t ++ String.rev s.
Proof.
  induction s as [|a s IH]; str_simpl; [by rewrite str_app_nil_r|].
  by rewrite !str_rev_cons, IH, str_app_assoc.
Qed.

Lemma str_rev_involutive s : String.rev (String.rev s) = s.
Proof.
  induction s as [|a s IH]; [done|]. by rewrite str_rev_cons, str_rev_app, IH.
Qed.

Lemma prefix_app p t : String.prefix p (p ++ t) = true.
Proof. induction p as [|a p IH]; str_simpl; [by destruct t|]. by destruct (ascii_dec a a). Qed.

Lemma prefix_inv p s : String.prefix p s = true → ∃ t, s = p ++ t.
Proof.
  revert s. induction p as [|a p IH]; intros s Hp; [by exists s|].
  destruct s as [|b s]; simpl in Hp; [done|].
  destruct (ascii_dec a b) as [->|]; [|done].
  destruct (IH s Hp) as [t ->]. exists t. by str_simpl.
Qed.

Lemma HasPrefix_spec s p : HasPrefix s p = true ↔ ∃ t, s = p ++ t.
Proof. split; [apply prefix_inv|]. intros [t ->]. apply prefix_app. Qed.

Lemma HasPrefix_app p t : HasPrefix (p ++ t) p = true.
Proof. apply prefix_app. Qed.

Lemma forall_bytes (P : ascii → bool) :
  forallb P (ascii_of_nat <$> seq 0 256) = true → ∀ a, P a = true.
Proof.
  rewrite forallb_forall. intros Hall a. rewrite <- (ascii_nat_embedding a). apply Hall.
  apply list_elem_of_In, list_elem_of_fmap. exists (nat_of_ascii a). split; [done|].
  apply elem_of_seq. pose proof (nat_ascii_bounded a). lia.
Qed.

Lemma all_bytes_app P s s' : all_bytes P (s ++ s') = all_bytes P s && all_bytes P s'.
Proof. induction s as [|a s IH]; [done|]. simpl. by rewrite IH, andb_assoc. Qed.

Lemma all_bytes_impl (P Q : ascii → bool) s :
  (∀ a, P a = true → Q a = true) → all_bytes P s = true → all_bytes Q s = true.
Proof. intros HPQ. induction s; [done|]. simpl. rewrite !andb_true_iff. naive_solver. Qed.

Lemma all_bytes_contains P s c : P c = false → all_bytes P s = true → contains_byte c s = false.
Proof.
  intros Hc. induction s as [|a s IH]; [done|]. simpl. intros [Ha Hs]%andb_true_iff.
  rewrite IH by done. destruct (Ascii.eqb_spec c a); [congruence|done].
Qed.

Section trim_facts.
Context (p1 : ascii → bool) (p2 : ascii → ascii → bool)
        (p3 : ascii → ascii → ascii → bool).
Abbreviation trim := (trim_with p1 p2 p3).
Abbreviation ok := (trimmed p1 p2 p3).

(** Strong induction on strings that follows [trim_with]'s three-byte steps. *)
Lemma string_lt_ind (P : string → Prop) :
  (∀ s, (∀ t, String.length t < String.length s → P t) → P s) → ∀ s, P s.
Proof. intros HP s. apply (well_founded_induction (well_founded_ltof _ String.length)), HP. Qed.

Lemma trim_trimmed s : ok (trim s) = true.
Proof.
  induction s as [s IH] using string_lt_ind.
  destruct s as [|a s1]; [done|]. cbn [trim_with].
  destruct (p1 a) eqn:E1; [apply IH; simpl; lia|].
  destruct s1 as [|b s2]; [simpl; by rewrite E1|].
  destruct (p2 a b) eqn:E2; [apply IH; simpl; lia|].
  destruct s2 as [|c s3]; [simpl; by rewrite E1, E2|].
  destruct (p3 a b c) eqn:E3; [apply IH; simpl; lia|].
  simpl. by rewrite E1, E2, E3.
Qed.

Lemma trim_id s : ok s = true → trim s = s.
Proof. destruct s as [|a [|b [|c s]]]; simpl; repeat case_match; done. Qed.

Lemma trim_suffix s : ∃ u, s = u ++ trim s.
Proof.
  induction s as [s IH] using string_lt_ind.
  destruct s as [|a s1]; [by exists ""|].
  cbn [trim_with].
  destruct (p1 a).
  { destruct (IH s1) as [u Hu]; [simpl; lia|]. exists (String a u). str_simpl. by rewrite <-Hu. }
  destruct s1 as [|b s2]; [by exists ""|].
  destruct (p2 a b).
  { destruct (IH s2) as [u Hu]; [simpl; lia|]. exists (String a (String b u)). str_simpl. by rewrite <-Hu. }
  destruct s2 as [|c s3]; [by exists ""|].
  destruct (p3 a b c); [|by exists ""].
  destruct (IH s3) as [u Hu]; [simpl; lia|].
  exists (String a (String b (String c u))). str_simpl. by rewrite <-Hu.
Qed.

(** A prefix of a trimmed string is trimmed. *)
Lemma trimmed_prefix s t : ok (s ++ t) = true → ok s = true.
Proof.
  destruct s as [|a [|b [|c s]]]; str_simpl; rewrite ?andb_true_iff; [done|..]; naive_solver.
Qed.
End trim_facts.

Lemma TrimSpace_idemp s : TrimSpace (TrimSpace s) = TrimSpace s.
Proof.
  unfold TrimSpace at 1. unfold TrimLeftSpace.
  rewrite trim_id.
  - unfold TrimSpace, TrimRightSpace. rewrite str_rev_involutive.
    f_equal. apply trim_id, trim_trimmed.
  - unfold TrimSpace, TrimRightSpace.
    set (u := TrimLeftSpace s).
    destruct (trim_suffix space1 (λ b a, space2 a b) (λ c b a, space3 a b c) (String.rev u))
      as [v Hv].
    apply (f_equal String.rev) in Hv. rewrite str_rev_involutive, str_rev_app in Hv.
    eapply trimmed_prefix. rewrite <-Hv. apply trim_trimmed.
Qed.

(** ** Lemmas on [Split] and [Join] *)

Lemma split_acc_app c acc s t :
  split_acc c acc (s ++ String c t) = (split_acc c acc s ++ Split t c)%list.
Proof.
  revert acc. induction s as [|a s IH]; intros acc.
  - rewrite str_app_nil_l. simpl. by rewrite Ascii.eqb_refl.
  - rewrite str_app_cons. simpl. destruct (Ascii.eqb a c); [|apply IH]. by rewrite IH.
Qed.

Lemma Split_app c s t : Split (s ++ String c t) c = (Split s c ++ Split t c)%list.
Proof. apply split_acc_app. Qed.

Lemma split_acc_none c acc s :
  contains_byte c s = false → split_acc c acc s = [String.rev acc ++ s].
Proof.
  revert acc. induction s as [|a s IH]; intros acc; simpl; [by rewrite str_app_nil_r|].
  rewrite Ascii.eqb_sym. intros [-> Hs]%orb_false_iff. rewrite IH by done.
  by rewrite str_rev_cons, <-str_app_assoc, str_app_cons, str_app_nil_l.
Qed.

Lemma Split_none c s : contains_byte c s = false → Split s c = [s].
Proof. intros Hs. unfold Split. by rewrite split_acc_none, str_app_nil_l. Qed.

Lemma Split_Join c parts :
  parts ≠ [] → Forall (λ p, contains_byte c p = false) parts →
  Split (Join parts (String c "")) c = parts.
Proof.
  intros Hne Hp. induction Hp as [|p [|q parts] Hc Hrest IH]; [done|by apply Split_none|].
  change (Join (p :: q :: parts) (String c "")) with (p ++ String c "" ++ Join (q :: parts) (String c "")).
  rewrite str_app_cons, str_app_nil_l, Split_app, Split_none, IH by done. done.
Qed.

(** The parts of a split hold no separator. *)
Lemma split_acc_parts c acc s :
  contains_byte c (String.rev acc) = false → Forall (λ p, contains_byte c p = false) (split_acc c acc s).
Proof.
  revert acc. induction s as [|a s IH]; intros acc Hacc; simpl; [by constructor|].
  destruct (Ascii.eqb a c) eqn:E; [by constructor; [|apply IH]|].
  apply IH. rewrite str_rev_cons. rewrite Ascii.eqb_sym in E. clear IH.
  induction (String.rev acc) as [|b t IHt].
  - rewrite str_app_nil_l. simpl. by rewrite E.
  - rewrite str_app_cons. simpl in *. apply orb_false_iff in Hacc as [-> ?]. auto.
Qed.

Lemma Split_parts c s : Forall (λ p, contains_byte c p = false) (Split s c).
Proof. by apply split_acc_parts. Qed.

(** What was split joins back. *)
Lemma split_acc_cons c acc s : ∃ x l, split_acc c acc s = x :: l.
Proof.
  revert acc. induction s as [|a s IH]; intros acc; cbn [split_acc]; [by eexists _, _|].
  destruct (Ascii.eqb a c); [by eexists _, _|apply IH].
Qed.

Lemma Join_Split c s : Join (Split s c) (String c "") = s.
Proof.
  unfold Split. enough (∀ acc, Join (split_acc c acc s) (String c "") = String.rev acc ++ s) as H
    by (by rewrite H).
  induction s as [|a s IH]; intros acc; cbn [split_acc]; [by rewrite str_app_nil_r|].
  destruct (Ascii.eqb_spec a c) as [->|Hne].
  - specialize (IH ""). destruct (split_acc_cons c "" s) as (x&l&E). rewrite E in IH |- *.
    change (String.rev acc ++ String c "" ++ Join (x :: l) (String c "") = String.rev acc ++ String c s).
    by rewrite IH.
  - by rewrite IH, str_rev_cons, <-str_app_assoc.
Qed.
