(* ===== verification/Urls.v ===== *)
(** * Go's [net/url]

    What [url.Parse], [URL.String], [URL.RequestURI] and [URL.Query] make of
    the URLs the program is given: the endpoints of its configuration, the
    addresses of Git repositories, the return addresses of the login handlers
    and the queries of its requests.  An IPv6 host is read as Go 1.25.0 reads
    it, which does not look at its digits. *)

From Stdlib Require Import Ascii.
From stdpp Require Import sorting.
From S2P Require Import Prelude GoStrings.

Open Scope string_scope.

Record url := mkUrl {
  u_Scheme : string;
  u_Opaque : string;
  (** A user name and, if one is set, a password. *)
  u_User : option (string * option string);
  u_Host : string;
  u_Path : string;
  u_RawPath : string;
  u_OmitHost : bool;
  u_ForceQuery : bool;
  u_RawQuery : string;
  u_Fragment : string;
  u_RawFragment : string
}.
#[export] Instance eta_url : Eta url := λ u,
  mkUrl (u_Scheme u) (u_Opaque u) (u_User u) (u_Host u) (u_Path u) (u_RawPath u) (u_OmitHost u)
    (u_ForceQuery u) (u_RawQuery u) (u_Fragment u) (u_RawFragment u).
#[export] Instance zero_url : Zero url := mkUrl "" "" None "" "" "" false false "" "" "".

(** ** Bytes *)

Definition is_letter (a : ascii) : bool := is_lower a || is_upper a.

(** [stringContainsCTLByte] *)
Definition is_ctl (a : ascii) : bool := (N_of_ascii a <? 32)%N || byte_is 127 a.

(** Bytes that stand for themselves in a query, a path, a user name, a fragment
    or a host ([shouldEscape]), and those an encoded path or fragment may hold. *)
Definition query_byte (a : ascii) : bool :=
  is_letter a || is_digit a || contains_byte a "-_.~".
Definition path_byte (a : ascii) : bool :=
  is_letter a || is_digit a || contains_byte a "-_.~$&+,/:;=@".
Definition user_byte (a : ascii) : bool :=
  is_letter a || is_digit a || contains_byte a "-_.~$&+,;=".
Definition fragment_byte (a : ascii) : bool :=
  is_letter a || is_digit a || contains_byte a "-_.~$&+,/:;=?@!()*".
Definition host_byte (a : ascii) : bool :=
  is_letter a || is_digit a || contains_byte a "-_.~!$&'()*+,;=:[]<>" || byte_is 34 a.
Definition encoded_path_byte (a : ascii) : bool :=
  path_byte a || contains_byte a "!'()*[]%".
Definition encoded_fragment_byte (a : ascii) : bool :=
  fragment_byte a || contains_byte a "'[]%".

Definition userinfo_byte (a : ascii) : bool :=
  is_letter a || is_digit a || contains_byte a "-._:~!$&'()*+,;=%@".

Definition hex_digit (a : ascii) : option N :=
  let n := N_of_ascii a in
  if is_digit a then Some (n - 48)%N else
  if byte_in 97 102 a then Some (n - 87)%N else
  if byte_in 65 70 a then Some (n - 55)%N else None.

(** ** Escapes *)

(** [unescape], of a path, a fragment or a user name. *)
Fixpoint unescape_path (s : string) : option string :=
  match s with
  | EmptyString => Some ""
  | String a s1 =>
      if byte_is 37 a then
        match s1 with
        | String h (String l s2) =>
            h ← hex_digit h; l ← hex_digit l;
            String (ascii_of_N (16 * h + l)) <$> unescape_path s2
        | _ => None
        end
      else String a <$> unescape_path s1
  end.

(** [unescape] of a query: a plus sign is a space. *)
Fixpoint QueryUnescape (s : string) : option string :=
  match s with
  | EmptyString => Some ""
  | String a s1 =>
      if byte_is 37 a then
        match s1 with
        | String h (String l s2) =>
            h ← hex_digit h; l ← hex_digit l;
            String (ascii_of_N (16 * h + l)) <$> QueryUnescape s2
        | _ => None
        end
      else String (if byte_is 43 a then " "%char else a) <$> QueryUnescape s1
  end.

(** [unescape] of a host, or of the zone of an IPv6 one: a byte that a host may
    not hold is refused, and an escape stands for a byte that is not ASCII, for a
    percent sign or, in a zone, for a space or any byte a host may hold. *)
Fixpoint unescape_host (zone : bool) (s : string) : option string :=
  match s with
  | EmptyString => Some ""
  | String a s1 =>
      if byte_is 37 a then
        match s1 with
        | String h (String l s2) =>
            h ← hex_digit h; l ← hex_digit l;
            let b := ascii_of_N (16 * h + l) in
            if byte_is 37 b
               || (if zone then byte_is 32 b || host_byte b else (8 <=? h)%N)
            then String b <$> unescape_host zone s2 else None
        | _ => None
        end
      else if (N_of_ascii a <? 128)%N && negb (host_byte a) then None
      else String a <$> unescape_host zone s1
  end.

(** [escape]: a byte that does not stand for itself is a percent sign and two
    hexadecimal digits. *)
Definition percent (a : ascii) : string :=
  let n := N_of_ascii a in
  String "%" (String (upper_hex (n / 16)) (String (upper_hex (n mod 16)) "")).

Section escape.
Context (itself : ascii → bool).
Fixpoint escape (s : string) : string :=
  match s with
  | EmptyString => ""
  | String a s' => (if itself a then String a "" else percent a) ++ escape s'
  end.
End escape.

Abbreviation escape_path := (escape path_byte).

Fixpoint QueryEscape (s : string) : string :=
  match s with
  | EmptyString => ""
  | String a s' =>
      (if byte_is 32 a then "+" else if query_byte a then String a "" else percent a)
      ++ QueryEscape s'
  end.

(** ** Cutting *)

(** [strings.Cut] at the first byte [c]: what is before it, and after it. *)
Fixpoint cut (c : ascii) (s : string) : string * option string :=
  match s with
  | EmptyString => ("", None)
  | String a s' =>
      if Ascii.eqb a c then ("", Some s')
      else let '(before, after) := cut c s' in (String a before, after)
  end.

Definition after (r : string * option string) : string := default "" r.2.

(** The bytes after the last [c]: [s] from [strings.LastIndex]. *)
Definition cut_last (c : ascii) (s : string) : option (string * string) :=
  match cut c (String.rev s) with
  | (_, None) => None
  | (back, Some front) => Some (String.rev front, String.rev back)
  end.

(** [s] cut at the first [%25], which the second part starts with. *)
Fixpoint cut_zone (s : string) : string * option string :=
  match s with
  | EmptyString => ("", None)
  | String a s' =>
      if HasPrefix s "%25" then ("", Some s)
      else let '(before, zone) := cut_zone s' in (String a before, zone)
  end.

(** ** [url.Parse] *)

(** The loop of [getScheme]: its error, no scheme, or the scheme and the rest. *)
Fixpoint scheme_loop (first : bool) (s : string) : option (option (string * string)) :=
  match s with
  | EmptyString => Some None
  | String a s' =>
      let next : option (option (string * string)) :=
        option_map (option_map (λ '(scheme, rest), (String a scheme, rest)))
          (scheme_loop false s') in
      if is_letter a then next else
      if is_digit a || contains_byte a "+-." then if first then Some None else next else
      if Ascii.eqb a ":" then if first then None else Some (Some ("", s')) else Some None
  end.

Definition getScheme (raw : string) : option (string * string) :=
  default ("", raw) <$> scheme_loop true raw.

Definition validOptionalPort (port : string) : bool :=
  match port with
  | EmptyString => true
  | String a digits => Ascii.eqb a ":" && all_bytes is_digit digits
  end.

Definition parseHost (host : string) : option string :=
  if HasPrefix host "[" then
    '(address, port) ← cut_last "]" host;
    if negb (validOptionalPort port) then None else
    match cut_zone address with
    | (_, None) => unescape_host false host
    | (address, Some zone) =>
        address ← unescape_host false address;
        zone ← unescape_host true zone;
        port ← unescape_host false (String "]" port);
        Some (address ++ zone ++ port)
    end
  else
    match cut_last ":" host with
    | Some (_, port) => if all_bytes is_digit port then unescape_host false host else None
    | None => unescape_host false host
    end.

(** [parseAuthority]: the user information, if any, and the host. *)
Definition parseAuthority (authority : string) : option (option (string * option string) * string) :=
  match cut_last "@" authority with
  | None => host ← parseHost authority; Some (None, host)
  | Some (userinfo, host) =>
      host ← parseHost host;
      if negb (all_bytes userinfo_byte userinfo) then None else
      let '(username, password) := cut ":" userinfo in
      username ← unescape_path username;
      match password with
      | None => Some (Some (username, None), host)
      | Some password =>
          password ← unescape_path password; Some (Some (username, Some password), host)
      end
  end.

(** [setPath] *)
Definition setPath (p : string) (u : url) : option url :=
  path ← unescape_path p;
  Some (u <|u_Path := path|> <|u_RawPath := if decide (escape_path path = p) then "" else p|>).

(** [parse], of a reference that no request line gave. *)
Definition parse (raw : string) : option url :=
  if negb (all_bytes (λ a, negb (is_ctl a)) raw) then None else
  if decide (raw = "*") then Some (zero <|u_Path := "*"|>) else
  '(scheme, rest) ← getScheme raw;
  let u := zero <|u_Scheme := ToLower scheme|> in
  let '(before, query) := cut "?" rest in
  let '(rest, u) :=
    if decide (query = Some "") then (before, u <|u_ForceQuery := true|>)
    else (before, u <|u_RawQuery := default "" query|>) in
  if negb (HasPrefix rest "/") && bool_decide (scheme ≠ "")
  then Some (u <|u_Opaque := rest|>) else
  if negb (HasPrefix rest "/") && contains_byte ":" (fst (cut "/" rest)) then None else
  if (bool_decide (scheme ≠ "") || negb (HasPrefix rest "///")) && HasPrefix rest "//" then
    let '(authority, path) := cut "/" (String.substring 2 (String.length rest - 2) rest) in
    '(user, host) ← parseAuthority authority;
    setPath (match path with Some path => String "/" path | None => "" end)
      (u <|u_User := user|> <|u_Host := host|>)
  else setPath rest (u <|u_OmitHost := bool_decide (scheme ≠ "")|>).

(** [setFragment] *)
Definition setFragment (f : string) (u : url) : option url :=
  fragment ← unescape_path f;
  Some (u <|u_Fragment := fragment|>
          <|u_RawFragment := if decide (escape fragment_byte fragment = f) then "" else f|>).

(** [url.Parse] *)
Definition Parse (raw : string) : option url :=
  let '(raw, fragment) := cut "#" raw in
  u ← parse raw;
  if decide (default "" fragment = "") then Some u else setFragment (default "" fragment) u.

(** [IsAbs] *)
Definition IsAbs (u : url) : Prop := u_Scheme u ≠ "".
#[export] Instance IsAbs_dec u : Decision (IsAbs u).
Proof. unfold IsAbs. apply _. Defined.

(** ** [URL.RequestURI], [URL.String] *)

Definition EscapedPath (u : url) : string :=
  if decide (u_RawPath u ≠ "" ∧ all_bytes encoded_path_byte (u_RawPath u) = true
             ∧ unescape_path (u_RawPath u) = Some (u_Path u))
  then u_RawPath u else
  if decide (u_Path u = "*") then "*" else escape_path (u_Path u).

Definition EscapedFragment (u : url) : string :=
  if decide (u_RawFragment u ≠ "" ∧ all_bytes encoded_fragment_byte (u_RawFragment u) = true
             ∧ unescape_path (u_RawFragment u) = Some (u_Fragment u))
  then u_RawFragment u else escape fragment_byte (u_Fragment u).

(** The question mark and the query, if there is one. *)
Definition query_part (u : url) : string :=
  if decide (u_ForceQuery u = true ∨ u_RawQuery u ≠ "") then "?" ++ u_RawQuery u else "".

Definition RequestURI (u : url) : string :=
  (if decide (u_Opaque u = "")
   then let p := EscapedPath u in if decide (p = "") then "/" else p
   else if HasPrefix (u_Opaque u) "//" then u_Scheme u ++ ":" ++ u_Opaque u else u_Opaque u)
  ++ query_part u.

(** [Userinfo.String], and the at sign. *)
Definition user_part (user : option (string * option string)) : string :=
  match user with
  | None => ""
  | Some (name, password) =>
      escape user_byte name
      ++ match password with Some p => ":" ++ escape user_byte p | None => "" end ++ "@"
  end.

Definition authority_part (u : url) : string :=
  if decide (u_Scheme u = "" ∧ u_Host u = "" ∧ u_User u = None) then "" else
  if decide (u_OmitHost u = true ∧ u_Host u = "" ∧ u_User u = None) then "" else
  (if decide (u_Host u = "" ∧ u_Path u = "" ∧ u_User u = None) then "" else "//")
  ++ user_part (u_User u) ++ escape host_byte (u_Host u).

Definition url_String (u : url) : string :=
  let scheme := if decide (u_Scheme u = "") then "" else u_Scheme u ++ ":" in
  let rest :=
    if decide (u_Opaque u ≠ "") then scheme ++ u_Opaque u else
    let start := scheme ++ authority_part u in
    let p := EscapedPath u in
    let slash := if decide (p ≠ "" ∧ HasPrefix p "/" = false ∧ u_Host u ≠ "") then "/" else "" in
    let dot := if decide (start ++ slash = "" ∧ contains_byte ":" (fst (cut "/" p)) = true)
               then "./" else "" in
    start ++ slash ++ dot ++ p in
  rest ++ query_part u
  ++ (if decide (u_Fragment u = "") then "" else "#" ++ EscapedFragment u).

(** ** [url.Values] *)

Abbreviation Values := (gmap string (list string)).

(** One parameter of [ParseQuery]; a malformed one is left out. *)
Definition add_parameter (m : Values) (parameter : string) : Values :=
  if contains_byte ";" parameter then m else
  if decide (parameter = "") then m else
  let '(key, value) := cut "=" parameter in
  match QueryUnescape key, QueryUnescape (default "" value) with
  | Some key, Some value => <[key := app (default [] (m !! key)) [value]]> m
  | _, _ => m
  end.

(** [URL.Query] of a raw query. *)
Definition ParseQuery (raw : string) : Values := foldl add_parameter ∅ (Split raw "&").

Definition Values_Get (m : Values) (key : string) : string :=
  match m !! key with Some (v :: _) => v | _ => "" end.

Definition Values_Set (key value : string) (m : Values) : Values := <[key := [value]]> m.

(** [sort.Strings], in the byte order of strings. *)
Abbreviation string_le := stdpp.strings.String.le.
Definition sort_Strings (l : list string) : list string := merge_sort string_le l.

(** ** [path.Clean]

    The segments of a rooted path: without the empty ones and the dots, each
    pair of dots removing the segment before it. *)
Definition clean_step (segments : list string) (segment : string) : list string :=
  if decide (segment = "" ∨ segment = ".") then segments else
  if decide (segment = "..") then removelast segments else app segments [segment].

Definition clean_segments (path : string) : list string := foldl clean_step [] (Split path "/").

(** ** Lemmas *)

Lemma all_bytes_cut P c s :
  all_bytes P s = true →
  all_bytes P (cut c s).1 = true ∧ all_bytes P (after (cut c s)) = true.
Proof.
  unfold after. induction s as [|a s IH]; [done|]. simpl. rewrite andb_true_iff. intros [Ha Hs].
  destruct (Ascii.eqb a c); [done|]. destruct (cut c s) as [b t]. simpl in *.
  rewrite Ha. naive_solver.
Qed.

Lemma cut_before c s : contains_byte c (cut c s).1 = false.
Proof.
  induction s as [|a s IH]; [done|]. simpl. destruct (Ascii.eqb a c) eqn:E; [done|].
  destruct (cut c s) as [b t]. simpl in *. rewrite IH, Ascii.eqb_sym, E. done.
Qed.

Lemma cut_none c s : all_bytes (λ a, negb (Ascii.eqb a c)) s = true → cut c s = (s, None).
Proof.
  induction s as [|a s IH]; [done|]. simpl. intros [Ha%negb_true_iff Hs]%andb_true_iff.
  by rewrite Ha, IH.
Qed.

Lemma cut_at c s t : all_bytes (λ a, negb (Ascii.eqb a c)) s = true →
  cut c (s ++ String c t) = (s, Some t).
Proof.
  induction s as [|a s IH]; simpl; [by rewrite Ascii.eqb_refl|].
  intros [Ha%negb_true_iff Hs]%andb_true_iff. by rewrite Ha, IH.
Qed.

(** The bytes an escape is made of. *)
Lemma escape_bytes (itself P : ascii → bool) s :
  (∀ a, itself a = true → P a = true) → (∀ a, all_bytes P (percent a) = true) →
  all_bytes P (escape itself s) = true.
Proof.
  intros Hi Hp. induction s as [|a s IH]; [done|]. simpl. rewrite all_bytes_app, IH, andb_true_r.
  destruct (itself a) eqn:Ha; [|apply Hp]. simpl. by rewrite (Hi a).
Qed.

(** A string of bytes that stand for themselves is its own escape. *)
Lemma escape_id (itself : ascii → bool) s : all_bytes itself s = true → escape itself s = s.
Proof.
  induction s as [|a s IH]; [done|]. simpl. intros [-> Hs]%andb_true_iff. by rewrite IH.
Qed.

Lemma percent_bytes (P : ascii → bool) :
  P "%"%char = true → (∀ a, is_digit a || is_upper a = true → P a = true) →
  ∀ a, all_bytes P (percent a) = true.
Proof.
  intros Hp Hd a. apply (all_bytes_impl (λ a, Ascii.eqb a "%" || (is_digit a || is_upper a))).
  - intros b [->%Ascii.eqb_eq|Hb]%orb_true_iff; auto.
  - by apply (forall_bytes (λ a, all_bytes (λ a, Ascii.eqb a "%" || (is_digit a || is_upper a)) (percent a))).
Qed.

Lemma escape_path_bytes s : all_bytes encoded_path_byte (escape_path s) = true.
Proof.
  apply escape_bytes.
  - intros a Ha. unfold encoded_path_byte. by rewrite Ha.
  - by apply (forall_bytes (λ a, all_bytes encoded_path_byte (percent a))).
Qed.

Lemma EscapedPath_bytes u : all_bytes encoded_path_byte (EscapedPath u) = true.
Proof.
  unfold EscapedPath. case_decide as H; [apply H|]. case_decide; [done|]. apply escape_path_bytes.
Qed.

(** A byte of an encoded path is no control byte, and no backslash. *)
Lemma encoded_path_byte_plain a :
  encoded_path_byte a = true → is_ctl a = false ∧ Ascii.eqb "\" a = false
    ∧ Ascii.eqb "?" a = false ∧ Ascii.eqb "#" a = false.
Proof.
  intros Ha.
  assert (implb (encoded_path_byte a) (negb (is_ctl a) && negb (Ascii.eqb "\" a)
    && negb (Ascii.eqb "?" a) && negb (Ascii.eqb "#" a)) = true) as H.
  { apply (forall_bytes (λ a, implb (encoded_path_byte a) (negb (is_ctl a) && negb (Ascii.eqb "\" a)
      && negb (Ascii.eqb "?" a) && negb (Ascii.eqb "#" a)))). vm_compute. reflexivity. }
  rewrite Ha in H. simpl in H. rewrite !andb_true_iff, !negb_true_iff in H. naive_solver.
Qed.

(** An escape reads back as the byte. *)
Lemma unescape_percent a s : unescape_path (percent a ++ s) = String a <$> unescape_path s.
Proof. by destruct a as [[] [] [] [] [] [] [] []]. Qed.

Lemma unescape_escape (itself : ascii → bool) s :
  itself "%"%char = false → unescape_path (escape itself s) = Some s.
Proof.
  intros Hp. induction s as [|a s IH]; [done|]. simpl. destruct (itself a) eqn:Ha.
  - rewrite str_app_cons, str_app_nil_l. cbn [unescape_path]. destruct (byte_is 37 a) eqn:E; [|by rewrite IH].
    apply N.eqb_eq in E. rewrite <-(ascii_N_embedding a), E in Ha. change (itself "%"%char = true) in Ha. congruence.
  - by rewrite unescape_percent, IH.
Qed.

Lemma unescape_escape_path s : unescape_path (escape_path s) = Some s.
Proof. by apply unescape_escape. Qed.

(** The encoded path of a URL that [setPath] made reads back as its path. *)
Lemma EscapedPath_path p u u' :
  setPath p u = Some u' → u_Path u' ≠ "*" → unescape_path (EscapedPath u') = Some (u_Path u').
Proof.
  intros _ Hstar. unfold EscapedPath. case_decide as H; [apply H|]. rewrite decide_False by done.
  apply unescape_escape_path.
Qed.

(** ** Queries *)

Lemma QueryUnescape_percent a s : QueryUnescape (percent a ++ s) = String a <$> QueryUnescape s.
Proof. by destruct a as [[] [] [] [] [] [] [] []]. Qed.

Lemma QueryUnescape_byte a s :
  query_byte a = true → QueryUnescape (String a s) = String a <$> QueryUnescape s.
Proof.
  intros Ha. simpl.
  assert (implb (query_byte a) (negb (byte_is 37 a) && negb (byte_is 43 a)) = true) as H.
  { by apply (forall_bytes (λ a, implb (query_byte a) (negb (byte_is 37 a) && negb (byte_is 43 a)))). }
  rewrite Ha in H. simpl in H. apply andb_true_iff in H as [->%negb_true_iff ->%negb_true_iff]. done.
Qed.

Lemma ReplaceByte_app c b s t : ReplaceByte c b (s ++ t) = ReplaceByte c b s ++ ReplaceByte c b t.
Proof.
  induction s as [|a s IH]; [by rewrite !str_app_nil_l|].
  rewrite str_app_cons. cbn [ReplaceByte]. by rewrite IH, str_app_assoc.
Qed.

Lemma ReplaceByte_none c b s : contains_byte c s = false → ReplaceByte c b s = s.
Proof.
  induction s as [|a s IH]; [done|]. simpl. rewrite Ascii.eqb_sym.
  intros [-> Hs]%orb_false_iff. by rewrite IH.
Qed.

Lemma QueryUnescape_escape s : QueryUnescape (QueryEscape s) = Some s.
Proof.
  induction s as [|a s IH]; [done|]. cbn [QueryEscape]. destruct (byte_is 32 a) eqn:E.
  - apply N.eqb_eq in E. rewrite str_app_cons, str_app_nil_l. cbn. rewrite IH.
    by rewrite <-(ascii_N_embedding a), E.
  - destruct (query_byte a) eqn:Ha.
    + by rewrite str_app_cons, str_app_nil_l, QueryUnescape_byte, IH.
    + by rewrite QueryUnescape_percent, IH.
Qed.

(** A query value written with [%20] for a space. *)
Definition escape_value (v : string) : string := ReplaceByte "+" "%20" (QueryEscape v).

Lemma escape_value_cons a v :
  escape_value (String a v) = (if query_byte a then String a "" else percent a) ++ escape_value v.
Proof.
  unfold escape_value. cbn [QueryEscape]. rewrite ReplaceByte_app. f_equal.
  by destruct a as [[] [] [] [] [] [] [] []].
Qed.

Lemma QueryUnescape_value v : QueryUnescape (escape_value v) = Some v.
Proof.
  induction v as [|a v IH]; [done|]. rewrite escape_value_cons. destruct (query_byte a) eqn:Ha.
  - by rewrite str_app_cons, str_app_nil_l, QueryUnescape_byte, IH.
  - by rewrite QueryUnescape_percent, IH.
Qed.

(** The bytes of an encoded query, separators aside. *)
Definition encoded_query_byte (a : ascii) : bool := query_byte a || contains_byte a "+%".

Lemma percent_encoded a : all_bytes encoded_query_byte (percent a) = true.
Proof. by apply (forall_bytes (λ a, all_bytes encoded_query_byte (percent a))). Qed.

Lemma QueryEscape_bytes s : all_bytes encoded_query_byte (QueryEscape s) = true.
Proof.
  induction s as [|a s IH]; [done|]. cbn [QueryEscape]. rewrite all_bytes_app, IH, andb_true_r.
  destruct (byte_is 32 a); [done|]. destruct (query_byte a) eqn:Ha; [|apply percent_encoded].
  simpl. unfold encoded_query_byte. by rewrite Ha.
Qed.

Lemma escape_value_bytes s : all_bytes encoded_query_byte (escape_value s) = true.
Proof.
  induction s as [|a s IH]; [done|]. rewrite escape_value_cons, all_bytes_app, IH, andb_true_r.
  destruct (query_byte a) eqn:Ha; [|apply percent_encoded].
  simpl. unfold encoded_query_byte. by rewrite Ha.
Qed.

(** ** A URL reads back *)

(** Bytes that delimit no part of a URL. *)
Definition part_byte (a : ascii) : bool :=
  negb (is_ctl a) && negb (contains_byte a "#?/@").
Definition query_text_byte (a : ascii) : bool := negb (is_ctl a) && negb (Ascii.eqb a "#").

(** An absolute URL of a server, whose path needs no escapes of its own. *)
Record server_url (u : url) : Prop := {
  server_scheme : all_bytes is_lower (u_Scheme u) = true ∧ u_Scheme u ≠ "";
  server_opaque : u_Opaque u = "";
  server_user : u_User u = None;
  server_host : all_bytes part_byte (u_Host u) = true ∧ u_Host u ≠ ""
                ∧ parseHost (u_Host u) = Some (u_Host u) ∧ escape host_byte (u_Host u) = u_Host u;
  server_path : u_RawPath u = "";
  server_fragment : u_Fragment u = ""
}.

Lemma scheme_loop_lower s rest :
  all_bytes is_lower s = true →
  scheme_loop false (s ++ String ":" rest) = Some (Some (s, rest)).
Proof.
  induction s as [|a s IH]; [done|]. simpl. intros [Ha Hs]%andb_true_iff.
  unfold is_letter. by rewrite Ha, IH.
Qed.

Lemma getScheme_lower s rest :
  all_bytes is_lower s = true → s ≠ "" → getScheme (s ++ String ":" rest) = Some (s, rest).
Proof.
  destruct s as [|a s]; [done|]. intros Hs _. unfold getScheme.
  assert (scheme_loop true (String a s ++ String ":" rest)
          = scheme_loop false (String a s ++ String ":" rest)) as ->; [|by rewrite scheme_loop_lower].
  simpl in *. apply andb_true_iff in Hs as [Ha _]. unfold is_letter. by rewrite Ha.
Qed.

Lemma ToLower_lower s : all_bytes is_lower s = true → ToLower s = s.
Proof.
  assert (∀ a, is_lower a = true → lower_byte a = a) as Hb.
  { intros a Ha. assert (implb (is_lower a) (Ascii.eqb (lower_byte a) a) = true) as H.
    { by apply (forall_bytes (λ a, implb (is_lower a) (Ascii.eqb (lower_byte a) a))). }
    rewrite Ha in H. by apply Ascii.eqb_eq. }
  assert (∀ a n, is_lower a = true → (122 < n)%N → byte_is n a = false) as Hn.
  { unfold is_lower, byte_in, byte_is. intros a n Ha Hn.
    apply andb_true_iff in Ha as [_ Ha%N.leb_le]. apply N.eqb_neq. lia. }
  induction s as [|a [|b [|c s]] IH]; [done|..]; cbn [all_bytes]; rewrite ?andb_true_iff.
  - intros [Ha _]. simpl. by rewrite Hb.
  - intros (Ha&Hs). cbn [ToLower]. rewrite (Hn a 196%N), (Hb a) by done. cbn. f_equal.
    apply IH. cbn [all_bytes]. by rewrite !andb_true_iff.
  - intros (Ha&Hs). cbn [ToLower]. rewrite (Hn a 196%N), (Hn a 226%N), (Hb a) by done. cbn [andb].
    f_equal. apply IH. cbn [all_bytes]. by rewrite !andb_true_iff.
Qed.

Lemma cut_last_none c s : contains_byte c s = false → cut_last c s = None.
Proof.
  intros Hs. unfold cut_last. rewrite cut_none; [done|].
  assert (Hrev : ∀ t, contains_byte c t = false → all_bytes (λ a, negb (Ascii.eqb a c)) (String.rev t) = true).
  { clear. induction t as [|a t IH]; [done|]. simpl. intros [Ha Ht]%orb_false_iff.
    rewrite str_rev_cons, all_bytes_app, IH by done. simpl. by rewrite Ascii.eqb_sym, Ha. }
  by apply Hrev.
Qed.

Lemma EscapedPath_plain u :
  u_RawPath u = "" → HasPrefix (u_Path u) "/" = true → EscapedPath u = escape_path (u_Path u).
Proof.
  intros Hraw Hp. unfold EscapedPath. rewrite decide_False by (intros [H _]; by apply H).
  rewrite decide_False; [done|]. intros H. by rewrite H in Hp.
Qed.

Lemma escape_path_slash p : HasPrefix p "/" = true → ∃ q, escape_path p = String "/" q.
Proof. intros [q ->]%HasPrefix_spec. by eexists. Qed.

Definition server_String (u : url) : string :=
  u_Scheme u ++ String ":" (String "/" (String "/" (u_Host u ++ escape_path (u_Path u) ++ query_part u))).

Lemma url_String_server u :
  server_url u → HasPrefix (u_Path u) "/" = true → url_String u = server_String u.
Proof.
  intros [[_ Hs] Ho Hu (_&Hh&_&Hesc) Hraw Hf] Hp. unfold url_String, server_String.
  rewrite Ho, (decide_False (P := "" ≠ "")), (decide_False (P := u_Scheme u = "")), EscapedPath_plain by
    (done || by intros []).
  destruct (escape_path_slash _ Hp) as [q ->].
  unfold authority_part. rewrite Hu, Hf.
  rewrite !(decide_False (P := _ ∧ u_Host u = "" ∧ _)), (decide_False (P := u_Host u = "" ∧ _)),
    (decide_False (P := _ ∧ HasPrefix _ _ = false ∧ _)), (decide_False (P := _ ∧ contains_byte _ _ = true)),
    (decide_True (P := "" = "")), Hesc.
  1: cbn [user_part]; by rewrite !str_app_nil_l, !str_app_nil_r, <-!str_app_assoc.
  all: first [done | naive_solver | intros [H _]; by destruct (u_Scheme u) | intros (_&H&_); by destruct q].
Qed.

Lemma path_byte_part a :
  encoded_path_byte a = true → query_text_byte a = true ∧ Ascii.eqb a "?" = false.
Proof.
  intros Ha. assert (implb (encoded_path_byte a) (query_text_byte a && negb (Ascii.eqb a "?")) = true) as H.
  { by apply (forall_bytes (λ a, implb (encoded_path_byte a) (query_text_byte a && negb (Ascii.eqb a "?")))). }
  rewrite Ha in H. simpl in H. by apply andb_true_iff in H as [? ?%negb_true_iff].
Qed.

Lemma lower_part a : is_lower a = true → part_byte a = true ∧ Ascii.eqb a "*" = false.
Proof.
  intros Ha. assert (implb (is_lower a) (part_byte a && negb (Ascii.eqb a "*")) = true) as H.
  { by apply (forall_bytes (λ a, implb (is_lower a) (part_byte a && negb (Ascii.eqb a "*")))). }
  rewrite Ha in H. simpl in H. by apply andb_true_iff in H as [? ?%negb_true_iff].
Qed.

Lemma part_text a :
  part_byte a = true →
  query_text_byte a = true ∧ Ascii.eqb a "?" = false ∧ Ascii.eqb a "/" = false ∧ Ascii.eqb a "@" = false.
Proof.
  unfold part_byte, query_text_byte. cbn [contains_byte].
  rewrite !andb_true_iff, !negb_true_iff, !orb_false_iff. naive_solver.
Qed.

Definition not_byte (c : ascii) (a : ascii) : bool := negb (Ascii.eqb a c).

Lemma not_byte_contains c s : all_bytes (not_byte c) s = true → contains_byte c s = false.
Proof. apply all_bytes_contains. unfold not_byte. by rewrite Ascii.eqb_refl. Qed.

Lemma server_text u :
  server_url u → HasPrefix (u_Path u) "/" = true → all_bytes query_text_byte (u_RawQuery u) = true →
  all_bytes query_text_byte (server_String u) = true.
Proof.
  intros [[Hs _] _ _ (Hh&_) _ _] _ Hq. unfold server_String. rewrite !all_bytes_app. cbn [all_bytes].
  rewrite !all_bytes_app, !andb_true_iff. repeat split.
  - eapply all_bytes_impl, Hs. intros a Ha. by apply part_text, lower_part.
  - eapply all_bytes_impl, Hh. apply part_text.
  - eapply all_bytes_impl, escape_path_bytes. apply path_byte_part.
  - unfold query_part. by case_decide.
Qed.

Lemma part_cut c s t :
  (∀ a, part_byte a = true → Ascii.eqb a c = false) → all_bytes part_byte s = true →
  all_bytes (not_byte c) t = true → all_bytes (not_byte c) (s ++ t) = true.
Proof.
  intros Hc Hs Ht. rewrite all_bytes_app, Ht, andb_true_r. eapply all_bytes_impl, Hs.
  intros a Ha. unfold not_byte. by rewrite Hc.
Qed.

Lemma parse_authority_path u' host p :
  all_bytes part_byte host = true → parseHost host = Some host → HasPrefix p "/" = true →
  (let '(authority, path) := cut "/" (host ++ escape_path p) in
   '(user, h) ← parseAuthority authority;
   setPath (match path with Some path => String "/" path | None => "" end)
     (u' <|u_User := user|> <|u_Host := h|>))
  = Some (u' <|u_User := None|> <|u_Host := host|> <|u_Path := p|> <|u_RawPath := ""|>).
Proof.
  intros Hh Hhost Hp. destruct (escape_path_slash p Hp) as [q Hq]. rewrite Hq, cut_at.
  2: { eapply all_bytes_impl, Hh. intros a Ha. by destruct (part_text a Ha) as (_&_&->&_). }
  unfold parseAuthority. rewrite cut_last_none.
  2: { apply not_byte_contains. eapply all_bytes_impl, Hh. intros a Ha. unfold not_byte.
       by destruct (part_text a Ha) as (_&_&_&->). }
  rewrite Hhost. cbn [mbind option_bind]. unfold setPath.
  rewrite <-Hq, unescape_escape_path. cbn [mbind option_bind].
  by rewrite (decide_True (P := escape_path p = escape_path p)).
Qed.

(** A server's URL, written and parsed, has the host, the path and the query it
    was written from. *)
Definition same_url (u u' : url) : Prop :=
  u_Host u' = u_Host u ∧ u_Path u' = u_Path u ∧ EscapedPath u' = EscapedPath u
  ∧ u_RawQuery u' = u_RawQuery u.

Lemma cut_query u :
  server_url u → HasPrefix (u_Path u) "/" = true →
  cut "?" (String "/" (String "/" (u_Host u ++ escape_path (u_Path u) ++ query_part u)))
  = ("//" ++ (u_Host u ++ escape_path (u_Path u)),
     if decide (u_ForceQuery u = true ∨ u_RawQuery u ≠ "") then Some (u_RawQuery u) else None).
Proof.
  intros [_ _ _ (Hh&_) _ _] _.
  assert (all_bytes (not_byte "?") ("//" ++ (u_Host u ++ escape_path (u_Path u))) = true) as H.
  { rewrite str_app_cons, str_app_cons, str_app_nil_l. cbn [all_bytes].
    rewrite part_cut; [done| |done|].
    - intros a Ha. by destruct (part_text a Ha) as (_&->&_).
    - eapply all_bytes_impl, escape_path_bytes. intros a Ha. unfold not_byte.
      by destruct (path_byte_part a Ha) as [_ ->]. }
  assert (String "/" (String "/" (u_Host u ++ escape_path (u_Path u) ++ query_part u))
          = ("//" ++ (u_Host u ++ escape_path (u_Path u))) ++ query_part u) as ->.
  { rewrite <-!str_app_assoc, !str_app_cons, str_app_nil_l. done. }
  unfold query_part. case_decide; [by apply cut_at|]. rewrite str_app_nil_r. by apply cut_none.
Qed.

Lemma substring_rest s : String.substring 2 (String.length ("//" ++ s) - 2) ("//" ++ s) = s.
Proof.
  rewrite !str_app_cons, str_app_nil_l. cbn [String.length]. rewrite Nat.sub_succ, Nat.sub_succ, Nat.sub_0_r.
  cbn [String.substring]. induction s as [|a s IH]; [done|]. cbn. by rewrite IH.
Qed.

Lemma Parse_String u :
  server_url u → HasPrefix (u_Path u) "/" = true → all_bytes query_text_byte (u_RawQuery u) = true →
  ∃ u', Parse (url_String u) = Some u' ∧ same_url u u'.
Proof.
  intros Hu Hp Hq. rewrite url_String_server by done.
  pose proof (server_text u Hu Hp Hq) as Htext. unfold Parse. rewrite cut_none.
  2: { eapply all_bytes_impl, Htext. by intros a [_ Ha]%andb_true_iff. }
  unfold parse.
  rewrite (all_bytes_impl _ _ _ (λ a Ha, proj1 (andb_prop _ _ Ha)) Htext). cbn [negb].
  rewrite decide_False.
  2: { destruct Hu as [[Hs Hne] _ _ _ _ _]. unfold server_String. destruct (u_Scheme u) as [|a s]; [done|].
       cbn [all_bytes] in Hs. apply andb_true_iff in Hs as [Ha _].
       apply lower_part in Ha as [_ Ha]. rewrite str_app_cons. intros [= -> _]. done. }
  pose proof (cut_query u Hu Hp) as Hcut. unfold server_String.
  destruct Hu as [[Hs Hne] Ho Hn (Hh&Hhe&Hhost&_) Hraw Hf].
  rewrite getScheme_lower by done. cbn [mbind option_bind]. rewrite Hcut, ToLower_lower by done. cbv zeta.
  set (v := if decide (_ = Some "") then _ else _).
  assert (v = ("//" ++ (u_Host u ++ escape_path (u_Path u)),
               zero <|u_Scheme := u_Scheme u|> <|u_ForceQuery := u_ForceQuery v.2|>
               <|u_RawQuery := u_RawQuery u|>)) as ->.
  { subst v. repeat case_decide; simpl; try congruence; f_equal; f_equal; destruct (u_RawQuery u); naive_solver. }
  set (f := u_ForceQuery v.2). clearbody f. clear v.
  assert (HasPrefix ("//" ++ (u_Host u ++ escape_path (u_Path u))) "/" = true) as -> by done.
  assert (HasPrefix ("//" ++ (u_Host u ++ escape_path (u_Path u))) "//" = true) as -> by apply HasPrefix_app.
  rewrite (bool_decide_eq_true_2 (u_Scheme u ≠ "")) by done. cbn [negb andb orb].
  rewrite substring_rest, parse_authority_path by done. cbn [mbind option_bind default].
  rewrite (decide_True (P := "" = "")) by done. eexists. split; [done|].
  repeat split; try done. cbn. by rewrite !EscapedPath_plain.
Qed.

(** The part of a query for one parameter. *)
Definition query_pair (p : string * string) : string :=
  QueryEscape p.1 ++ "=" ++ escape_value p.2.

Lemma query_pair_without c p :
  encoded_query_byte c = false → c ≠ "="%char → contains_byte c (query_pair p) = false.
Proof.
  intros Hc Heq. apply (all_bytes_contains (λ a, encoded_query_byte a || Ascii.eqb a "=")).
  { rewrite Hc. by apply Ascii.eqb_neq. }
  assert (∀ s, all_bytes encoded_query_byte s = true →
          all_bytes (λ a, encoded_query_byte a || Ascii.eqb a "=") s = true) as H.
  { intros s. apply all_bytes_impl. by intros a ->. }
  unfold query_pair. rewrite !all_bytes_app, (H _ (QueryEscape_bytes _)), (H _ (escape_value_bytes _)).
  done.
Qed.

Lemma add_query_pair m p :
  add_parameter m (query_pair p) = <[p.1 := app (default [] (m !! p.1)) [p.2]]> m.
Proof.
  unfold add_parameter. rewrite query_pair_without by done. rewrite decide_False.
  2: { unfold query_pair. by destruct (QueryEscape p.1). }
  unfold query_pair. rewrite str_app_cons, str_app_nil_l, cut_at.
  2: { eapply all_bytes_impl, QueryEscape_bytes. intros a Ha.
       assert (implb (encoded_query_byte a) (negb (Ascii.eqb a "=")) = true) as H.
       { by apply (forall_bytes (λ a, implb (encoded_query_byte a) (negb (Ascii.eqb a "=")))). }
       by rewrite Ha in H. }
  rewrite QueryUnescape_escape. cbn [default from_option id]. by rewrite QueryUnescape_value.
Qed.

(** A query of encoded parameters parses as the parameters, in order. *)
Lemma ParseQuery_pairs ps :
  ParseQuery (Join (query_pair <$> ps) "&")
  = foldl (λ m p, <[p.1 := app (default [] (m !! p.1)) [p.2]]> m) ∅ ps.
Proof.
  unfold ParseQuery. destruct ps as [|p ps]; [done|]. rewrite Split_Join.
  - generalize (∅ : Values) as m. generalize (p :: ps) as l. clear.
    induction l as [|p l IH]; intros m; [done|]. cbn [fmap list_fmap foldl]. by rewrite add_query_pair, IH.
  - done.
  - apply Forall_fmap, Forall_true. intros q. by apply query_pair_without.
Qed.

(** ** Sorted strings *)

(** Sorting depends on the elements only, not on their order. *)
Lemma sort_Strings_perm l l' : l ≡ₚ l' → sort_Strings l = sort_Strings l'.
Proof.
  intros Hl. apply (StronglySorted_unique string_le);
    [apply StronglySorted_merge_sort; apply _..|].
  unfold sort_Strings. by rewrite !merge_sort_Permutation.
Qed.

Lemma sort_Strings_idemp l : sort_Strings (sort_Strings l) = sort_Strings l.
Proof. apply sort_Strings_perm, merge_sort_Permutation. Qed.

Lemma sort_Strings_nil l : sort_Strings l = [] → l = [].
Proof.
  intros H. apply Permutation_nil. rewrite <-H. unfold sort_Strings. apply merge_sort_Permutation.
Qed.

Lemma ParseQuery_nonempty raw k vs : ParseQuery raw !! k = Some vs → vs ≠ [].
Proof.
  unfold ParseQuery. generalize (Split raw "&").
  assert (∀ l (m : Values), (∀ k vs, m !! k = Some vs → vs ≠ []) →
    ∀ k vs, foldl add_parameter m l !! k = Some vs → vs ≠ []) as H.
  { clear. induction l as [|p l IH]; intros m Hm; [done|]. cbn [foldl]. apply IH.
    unfold add_parameter. repeat case_match; try done. intros k' vs' [[_ <-]|[_ ?]]%lookup_insert_Some.
    - by intros [_ ?]%app_eq_nil.
    - by eapply Hm. }
  intros l. apply H. intros k' vs'. by rewrite lookup_empty.
Qed.
