(* ===== verification/Types.v ===== *)
(** * The wire contracts of the control plane (pkg/api/types.go)

    One record per Go struct, in dependency order, with the struct's fields in
    their order.  A field [F] of a struct is the projection [p_F], [p] being the
    struct's prefix.  [int] and [int64] are [Z], [time.Time] is the number of
    nanoseconds since the epoch (UTC), a pointer is an [option], a map is a
    [gmap] (a nil map is the empty one) and a slice is a list (nil is the empty
    one). *)

From S2P Require Import Prelude.

Definition Time : Type := Z.
#[export] Instance zero_time : Zero Time := 0%Z.
#[export] Instance time_eq_dec : EqDecision Time := Z.eq_dec.

#[local] Set Warnings "-register-all".

(** A value of Go's [any] as the program builds or decodes them: the JSON
    shapes, with machine integers and times beside [float64] numbers. *)
Inductive any : Type :=
  | ANull
  | ABool (b : bool)
  | AInt (z : Z)
  | AFloat (f : float64)
  | AStr (s : string)
  | ATime (t : Time)
  | AList (l : list any)
  | AObj (kvs : list (string * any)).

Record StorageGrant := mkStorageGrant {
  sg_SizeGB : Z;
  sg_Buckets : list string
}.
#[export] Instance zero_StorageGrant : Zero StorageGrant := mkStorageGrant zero zero.
#[export] Instance eta_StorageGrant : Eta StorageGrant := λ r,
  mkStorageGrant (sg_SizeGB r) (sg_Buckets r).

Record ComputeGrant := mkComputeGrant {
  cg_Profile : string;
  cg_VCPUs : Z;
  cg_MemoryGB : Z;
  cg_GPUs : Z;
  cg_GPUType : string;
  cg_MaxVMs : Z;
  cg_MaxProjects : Z;
  cg_MaxRuns : Z;
  cg_MaxFunctions : Z
}.
#[export] Instance zero_ComputeGrant : Zero ComputeGrant := mkComputeGrant zero zero zero zero zero zero zero zero zero.
#[export] Instance eta_ComputeGrant : Eta ComputeGrant := λ r,
  mkComputeGrant (cg_Profile r) (cg_VCPUs r) (cg_MemoryGB r) (cg_GPUs r) (cg_GPUType r)
    (cg_MaxVMs r) (cg_MaxProjects r) (cg_MaxRuns r) (cg_MaxFunctions r).

Record UserAccess := mkUserAccess {
  ua_Subject : string;
  ua_Email : string;
  ua_Role : string;
  ua_Services : list string;
  ua_ProjectIDs : list string;
  ua_Storage : StorageGrant;
  ua_Compute : ComputeGrant;
  ua_Disabled : bool;
  ua_CreatedAt : Time;
  ua_UpdatedAt : Time
}.
#[export] Instance zero_UserAccess : Zero UserAccess := mkUserAccess zero zero zero zero zero zero zero zero zero zero.
#[export] Instance eta_UserAccess : Eta UserAccess := λ r,
  mkUserAccess (ua_Subject r) (ua_Email r) (ua_Role r) (ua_Services r) (ua_ProjectIDs r)
    (ua_Storage r) (ua_Compute r) (ua_Disabled r) (ua_CreatedAt r) (ua_UpdatedAt r).

Record ResourceProfile := mkResourceProfile {
  rp_Name : string;
  rp_Label : string;
  rp_Description : string;
  rp_Compute : ComputeGrant;
  rp_StorageGB : Z
}.
#[export] Instance zero_ResourceProfile : Zero ResourceProfile := mkResourceProfile zero zero zero zero zero.
#[export] Instance eta_ResourceProfile : Eta ResourceProfile := λ r,
  mkResourceProfile (rp_Name r) (rp_Label r) (rp_Description r) (rp_Compute r)
    (rp_StorageGB r).

Record UpsertUserAccessRequest := mkUpsertUserAccessRequest {
  uar_Email : string;
  uar_Role : string;
  uar_Services : list string;
  uar_ProjectIDs : list string;
  uar_Storage : StorageGrant;
  uar_Compute : ComputeGrant;
  uar_Disabled : bool
}.
#[export] Instance zero_UpsertUserAccessRequest : Zero UpsertUserAccessRequest := mkUpsertUserAccessRequest zero zero zero zero zero zero zero.
#[export] Instance eta_UpsertUserAccessRequest : Eta UpsertUserAccessRequest := λ r,
  mkUpsertUserAccessRequest (uar_Email r) (uar_Role r) (uar_Services r) (uar_ProjectIDs r)
    (uar_Storage r) (uar_Compute r) (uar_Disabled r).

Record AccessRequest := mkAccessRequest {
  acr_ID : string;
  acr_Subject : string;
  acr_Email : string;
  acr_Reason : string;
  acr_RequestedServices : list string;
  acr_Status : string;
  acr_Reviewer : string;
  acr_ReviewNote : string;
  acr_CreatedAt : Time;
  acr_UpdatedAt : Time
}.
#[export] Instance zero_AccessRequest : Zero AccessRequest := mkAccessRequest zero zero zero zero zero zero zero zero zero zero.
#[export] Instance eta_AccessRequest : Eta AccessRequest := λ r,
  mkAccessRequest (acr_ID r) (acr_Subject r) (acr_Email r) (acr_Reason r)
    (acr_RequestedServices r) (acr_Status r) (acr_Reviewer r) (acr_ReviewNote r)
    (acr_CreatedAt r) (acr_UpdatedAt r).

Record CreateAccessRequest := mkCreateAccessRequest {
  car_Reason : string;
  car_RequestedServices : list string
}.
#[export] Instance zero_CreateAccessRequest : Zero CreateAccessRequest := mkCreateAccessRequest zero zero.
#[export] Instance eta_CreateAccessRequest : Eta CreateAccessRequest := λ r,
  mkCreateAccessRequest (car_Reason r) (car_RequestedServices r).

Record ReviewAccessRequest := mkReviewAccessRequest {
  rar_Status : string;
  rar_Note : string
}.
#[export] Instance zero_ReviewAccessRequest : Zero ReviewAccessRequest := mkReviewAccessRequest zero zero.
#[export] Instance eta_ReviewAccessRequest : Eta ReviewAccessRequest := λ r,
  mkReviewAccessRequest (rar_Status r) (rar_Note r).

Record APIToken := mkAPIToken {
  tok_ID : string;
  tok_Subject : string;
  tok_Name : string;
  tok_Prefix : string;
  tok_SecretHash : string;
  tok_Services : list string;
  tok_ProjectIDs : list string;
  tok_CreatedAt : Time;
  tok_ExpiresAt : Time;
  tok_LastUsedAt : option Time;
  tok_RevokedAt : option Time
}.
#[export] Instance zero_APIToken : Zero APIToken := mkAPIToken zero zero zero zero zero zero zero zero zero zero zero.
#[export] Instance eta_APIToken : Eta APIToken := λ r,
  mkAPIToken (tok_ID r) (tok_Subject r) (tok_Name r) (tok_Prefix r) (tok_SecretHash r)
    (tok_Services r) (tok_ProjectIDs r) (tok_CreatedAt r) (tok_ExpiresAt r)
    (tok_LastUsedAt r) (tok_RevokedAt r).

Record CreateAPITokenRequest := mkCreateAPITokenRequest {
  ctr_Name : string;
  ctr_Services : list string;
  ctr_ProjectIDs : list string;
  ctr_ExpiresInDays : Z
}.
#[export] Instance zero_CreateAPITokenRequest : Zero CreateAPITokenRequest := mkCreateAPITokenRequest zero zero zero zero.
#[export] Instance eta_CreateAPITokenRequest : Eta CreateAPITokenRequest := λ r,
  mkCreateAPITokenRequest (ctr_Name r) (ctr_Services r) (ctr_ProjectIDs r)
    (ctr_ExpiresInDays r).

Record CreatedAPIToken := mkCreatedAPIToken {
  ctk_Token : APIToken;
  ctk_Secret : string
}.
#[export] Instance zero_CreatedAPIToken : Zero CreatedAPIToken := mkCreatedAPIToken zero zero.
#[export] Instance eta_CreatedAPIToken : Eta CreatedAPIToken := λ r,
  mkCreatedAPIToken (ctk_Token r) (ctk_Secret r).

Record BlogPost := mkBlogPost {
  bp_ID : string;
  bp_Slug : string;
  bp_Title : string;
  bp_Summary : string;
  bp_Content : string;
  bp_Author : string;
  bp_Tags : list string;
  bp_Status : string;
  bp_CreatedAt : Time;
  bp_UpdatedAt : Time;
  bp_PublishedAt : option Time
}.
#[export] Instance zero_BlogPost : Zero BlogPost := mkBlogPost zero zero zero zero zero zero zero zero zero zero zero.
#[export] Instance eta_BlogPost : Eta BlogPost := λ r,
  mkBlogPost (bp_ID r) (bp_Slug r) (bp_Title r) (bp_Summary r) (bp_Content r) (bp_Author
    r) (bp_Tags r) (bp_Status r) (bp_CreatedAt r) (bp_UpdatedAt r) (bp_PublishedAt r).

Record UpsertBlogPostRequest := mkUpsertBlogPostRequest {
  ubr_Slug : string;
  ubr_Title : string;
  ubr_Summary : string;
  ubr_Content : string;
  ubr_Author : string;
  ubr_Tags : list string;
  ubr_Status : string
}.
#[export] Instance zero_UpsertBlogPostRequest : Zero UpsertBlogPostRequest := mkUpsertBlogPostRequest zero zero zero zero zero zero zero.
#[export] Instance eta_UpsertBlogPostRequest : Eta UpsertBlogPostRequest := λ r,
  mkUpsertBlogPostRequest (ubr_Slug r) (ubr_Title r) (ubr_Summary r) (ubr_Content r)
    (ubr_Author r) (ubr_Tags r) (ubr_Status r).

Record GitRepository := mkGitRepository {
  git_URL : string;
  git_Provider : string;
  git_DefaultBranch : string;
  git_LastCommit : string;
  git_SyncedAt : option Time
}.
#[export] Instance zero_GitRepository : Zero GitRepository := mkGitRepository zero zero zero zero zero.
#[export] Instance eta_GitRepository : Eta GitRepository := λ r,
  mkGitRepository (git_URL r) (git_Provider r) (git_DefaultBranch r) (git_LastCommit r)
    (git_SyncedAt r).

Record Project := mkProject {
  prj_ID : string;
  prj_Name : string;
  prj_Description : string;
  prj_Template : string;
  prj_Namespace : string;
  prj_Status : string;
  prj_CreatedAt : Time;
  prj_OwnerSubject : string;
  prj_Repository : option GitRepository
}.
#[export] Instance zero_Project : Zero Project := mkProject zero zero zero zero zero zero zero zero zero.
#[export] Instance eta_Project : Eta Project := λ r,
  mkProject (prj_ID r) (prj_Name r) (prj_Description r) (prj_Template r) (prj_Namespace r)
    (prj_Status r) (prj_CreatedAt r) (prj_OwnerSubject r) (prj_Repository r).

Record CreateProjectRequest := mkCreateProjectRequest {
  cpr_Name : string;
  cpr_Description : string;
  cpr_Template : string;
  cpr_RepositoryURL : string;
  cpr_DefaultBranch : string;
  cpr_OwnerSubject : string
}.
#[export] Instance zero_CreateProjectRequest : Zero CreateProjectRequest := mkCreateProjectRequest zero zero zero zero zero zero.
#[export] Instance eta_CreateProjectRequest : Eta CreateProjectRequest := λ r,
  mkCreateProjectRequest (cpr_Name r) (cpr_Description r) (cpr_Template r)
    (cpr_RepositoryURL r) (cpr_DefaultBranch r) (cpr_OwnerSubject r).

Record SetProjectRepositoryRequest := mkSetProjectRepositoryRequest {
  spr_URL : string;
  spr_DefaultBranch : string;
  spr_LastCommit : string
}.
#[export] Instance zero_SetProjectRepositoryRequest : Zero SetProjectRepositoryRequest := mkSetProjectRepositoryRequest zero zero zero.
#[export] Instance eta_SetProjectRepositoryRequest : Eta SetProjectRepositoryRequest := λ r,
  mkSetProjectRepositoryRequest (spr_URL r) (spr_DefaultBranch r) (spr_LastCommit r).

Record PipelineStep := mkPipelineStep {
  stp_Name : string;
  stp_Status : string;
  stp_Image : string;
  stp_DependsOn : list string;
  stp_Progress : Z
}.
#[export] Instance zero_PipelineStep : Zero PipelineStep := mkPipelineStep zero zero zero zero zero.
#[export] Instance eta_PipelineStep : Eta PipelineStep := λ r,
  mkPipelineStep (stp_Name r) (stp_Status r) (stp_Image r) (stp_DependsOn r) (stp_Progress
    r).

Record RunLog := mkRunLog {
  log_Timestamp : Time;
  log_Step : string;
  log_Level : string;
  log_Message : string
}.
#[export] Instance zero_RunLog : Zero RunLog := mkRunLog zero zero zero zero.
#[export] Instance eta_RunLog : Eta RunLog := λ r,
  mkRunLog (log_Timestamp r) (log_Step r) (log_Level r) (log_Message r).

Record PipelineRun := mkPipelineRun {
  run_ID : string;
  run_ProjectID : string;
  run_Name : string;
  run_Status : string;
  run_Progress : Z;
  run_CreatedAt : Time;
  run_UpdatedAt : Time;
  run_ParentRunID : string;
  run_EngineRunID : string;
  run_DefinitionID : string;
  run_ExecutionMode : string;
  run_Parameters : gmap string any;
  run_Steps : list PipelineStep;
  run_Logs : list RunLog
}.
#[export] Instance zero_PipelineRun : Zero PipelineRun := mkPipelineRun zero zero zero zero zero zero zero zero zero zero zero zero zero zero.
#[export] Instance eta_PipelineRun : Eta PipelineRun := λ r,
  mkPipelineRun (run_ID r) (run_ProjectID r) (run_Name r) (run_Status r) (run_Progress r)
    (run_CreatedAt r) (run_UpdatedAt r) (run_ParentRunID r) (run_EngineRunID r)
    (run_DefinitionID r) (run_ExecutionMode r) (run_Parameters r) (run_Steps r) (run_Logs
    r).

Record UpdateRunStepRequest := mkUpdateRunStepRequest {
  urs_Step : string;
  urs_Status : string;
  urs_Message : string
}.
#[export] Instance zero_UpdateRunStepRequest : Zero UpdateRunStepRequest := mkUpdateRunStepRequest zero zero zero.
#[export] Instance eta_UpdateRunStepRequest : Eta UpdateRunStepRequest := λ r,
  mkUpdateRunStepRequest (urs_Step r) (urs_Status r) (urs_Message r).

Record SubmitPipelineRequest := mkSubmitPipelineRequest {
  sub_ProjectID : string;
  sub_Name : string;
  sub_DefinitionID : string;
  sub_Parameters : gmap string any
}.
#[export] Instance zero_SubmitPipelineRequest : Zero SubmitPipelineRequest := mkSubmitPipelineRequest zero zero zero zero.
#[export] Instance eta_SubmitPipelineRequest : Eta SubmitPipelineRequest := λ r,
  mkSubmitPipelineRequest (sub_ProjectID r) (sub_Name r) (sub_DefinitionID r)
    (sub_Parameters r).

Record JobResources := mkJobResources {
  jr_CPU : string;
  jr_Memory : string;
  jr_GPU : Z
}.
#[export] Instance zero_JobResources : Zero JobResources := mkJobResources zero zero zero.
#[export] Instance eta_JobResources : Eta JobResources := λ r,
  mkJobResources (jr_CPU r) (jr_Memory r) (jr_GPU r).

Record PipelineJob := mkPipelineJob {
  job_Name : string;
  job_Kind : string;
  job_Function : string;
  job_Image : string;
  job_Command : list string;
  job_DependsOn : list string;
  job_Environment : gmap string string;
  job_Resources : JobResources;
  job_Retries : Z
}.
#[export] Instance zero_PipelineJob : Zero PipelineJob := mkPipelineJob zero zero zero zero zero zero zero zero zero.
#[export] Instance eta_PipelineJob : Eta PipelineJob := λ r,
  mkPipelineJob (job_Name r) (job_Kind r) (job_Function r) (job_Image r) (job_Command r)
    (job_DependsOn r) (job_Environment r) (job_Resources r) (job_Retries r).

Record PipelineDefinition := mkPipelineDefinition {
  pd_ID : string;
  pd_ProjectID : string;
  pd_Name : string;
  pd_Version : string;
  pd_ExecutionMode : string;
  pd_Jobs : list PipelineJob;
  pd_RepositoryURL : string;
  pd_CommitSHA : string;
  pd_CreatedAt : Time;
  pd_UpdatedAt : Time
}.
#[export] Instance zero_PipelineDefinition : Zero PipelineDefinition := mkPipelineDefinition zero zero zero zero zero zero zero zero zero zero.
#[export] Instance eta_PipelineDefinition : Eta PipelineDefinition := λ r,
  mkPipelineDefinition (pd_ID r) (pd_ProjectID r) (pd_Name r) (pd_Version r)
    (pd_ExecutionMode r) (pd_Jobs r) (pd_RepositoryURL r) (pd_CommitSHA r) (pd_CreatedAt
    r) (pd_UpdatedAt r).

Record UpsertPipelineDefinitionRequest := mkUpsertPipelineDefinitionRequest {
  upd_ProjectID : string;
  upd_Name : string;
  upd_Version : string;
  upd_ExecutionMode : string;
  upd_Jobs : list PipelineJob;
  upd_RepositoryURL : string;
  upd_CommitSHA : string
}.
#[export] Instance zero_UpsertPipelineDefinitionRequest : Zero UpsertPipelineDefinitionRequest := mkUpsertPipelineDefinitionRequest zero zero zero zero zero zero zero.
#[export] Instance eta_UpsertPipelineDefinitionRequest : Eta UpsertPipelineDefinitionRequest := λ r,
  mkUpsertPipelineDefinitionRequest (upd_ProjectID r) (upd_Name r) (upd_Version r)
    (upd_ExecutionMode r) (upd_Jobs r) (upd_RepositoryURL r) (upd_CommitSHA r).

Record Function := mkFunction {
  fn_Name : string;
  fn_ProjectID : string;
  fn_Image : string;
  fn_Status : string;
  fn_Replicas : Z;
  fn_EnvVars : gmap string string;
  fn_Labels : gmap string string;
  fn_Annotations : gmap string string;
  fn_CPU : string;
  fn_Memory : string;
  fn_OwnerSubject : string;
  fn_CreatedAt : Time;
  fn_UpdatedAt : Time
}.
#[export] Instance zero_Function : Zero Function := mkFunction zero zero zero zero zero zero zero zero zero zero zero zero zero.
#[export] Instance eta_Function : Eta Function := λ r,
  mkFunction (fn_Name r) (fn_ProjectID r) (fn_Image r) (fn_Status r) (fn_Replicas r)
    (fn_EnvVars r) (fn_Labels r) (fn_Annotations r) (fn_CPU r) (fn_Memory r)
    (fn_OwnerSubject r) (fn_CreatedAt r) (fn_UpdatedAt r).

Record DeployFunctionRequest := mkDeployFunctionRequest {
  dfr_ProjectID : string;
  dfr_Name : string;
  dfr_Image : string;
  dfr_EnvVars : gmap string string;
  dfr_Labels : gmap string string;
  dfr_Annotations : gmap string string;
  dfr_CPU : string;
  dfr_Memory : string
}.
#[export] Instance zero_DeployFunctionRequest : Zero DeployFunctionRequest := mkDeployFunctionRequest zero zero zero zero zero zero zero zero.
#[export] Instance eta_DeployFunctionRequest : Eta DeployFunctionRequest := λ r,
  mkDeployFunctionRequest (dfr_ProjectID r) (dfr_Name r) (dfr_Image r) (dfr_EnvVars r)
    (dfr_Labels r) (dfr_Annotations r) (dfr_CPU r) (dfr_Memory r).

Record Component := mkComponent {
  cmp_Name : string;
  cmp_Category : string;
  cmp_Status : string;
  cmp_Description : string;
  cmp_URL : string
}.
#[export] Instance zero_Component : Zero Component := mkComponent zero zero zero zero zero.
#[export] Instance eta_Component : Eta Component := λ r,
  mkComponent (cmp_Name r) (cmp_Category r) (cmp_Status r) (cmp_Description r) (cmp_URL r).

Record Model := mkModel {
  mdl_ID : string;
  mdl_ProjectID : string;
  mdl_Name : string;
  mdl_Version : string;
  mdl_Stage : string;
  mdl_ArtifactURI : string;
  mdl_Metrics : gmap string float64;
  mdl_CreatedAt : Time;
  mdl_GateStatus : string;
  mdl_DeploymentStatus : string;
  mdl_CanaryWeight : Z;
  mdl_EndpointURL : string;
  mdl_PreviousStage : string
}.
#[export] Instance zero_Model : Zero Model := mkModel zero zero zero zero zero zero zero zero zero zero zero zero zero.
#[export] Instance eta_Model : Eta Model := λ r,
  mkModel (mdl_ID r) (mdl_ProjectID r) (mdl_Name r) (mdl_Version r) (mdl_Stage r)
    (mdl_ArtifactURI r) (mdl_Metrics r) (mdl_CreatedAt r) (mdl_GateStatus r)
    (mdl_DeploymentStatus r) (mdl_CanaryWeight r) (mdl_EndpointURL r) (mdl_PreviousStage
    r).

Record RegisterModelRequest := mkRegisterModelRequest {
  rmr_ProjectID : string;
  rmr_Name : string;
  rmr_Version : string;
  rmr_ArtifactURI : string;
  rmr_Metrics : gmap string float64
}.
#[export] Instance zero_RegisterModelRequest : Zero RegisterModelRequest := mkRegisterModelRequest zero zero zero zero zero.
#[export] Instance eta_RegisterModelRequest : Eta RegisterModelRequest := λ r,
  mkRegisterModelRequest (rmr_ProjectID r) (rmr_Name r) (rmr_Version r) (rmr_ArtifactURI
    r) (rmr_Metrics r).

Record PromoteModelRequest := mkPromoteModelRequest {
  pmr_Stage : string
}.
#[export] Instance zero_PromoteModelRequest : Zero PromoteModelRequest := mkPromoteModelRequest zero.
#[export] Instance eta_PromoteModelRequest : Eta PromoteModelRequest := λ r,
  mkPromoteModelRequest (pmr_Stage r).

Record DeployModelRequest := mkDeployModelRequest {
  dmr_CanaryWeight : Z
}.
#[export] Instance zero_DeployModelRequest : Zero DeployModelRequest := mkDeployModelRequest zero.
#[export] Instance eta_DeployModelRequest : Eta DeployModelRequest := λ r,
  mkDeployModelRequest (dmr_CanaryWeight r).

Record Agent := mkAgent {
  agt_ID : string;
  agt_ProjectID : string;
  agt_Name : string;
  agt_Version : string;
  agt_Image : string;
  agt_GraphModule : string;
  agt_LLMBackend : string;
  agt_Status : string;
  agt_Replicas : Z;
  agt_CanaryWeight : Z;
  agt_Tools : list string;
  agt_CreatedAt : Time
}.
#[export] Instance zero_Agent : Zero Agent := mkAgent zero zero zero zero zero zero zero zero zero zero zero zero.
#[export] Instance eta_Agent : Eta Agent := λ r,
  mkAgent (agt_ID r) (agt_ProjectID r) (agt_Name r) (agt_Version r) (agt_Image r)
    (agt_GraphModule r) (agt_LLMBackend r) (agt_Status r) (agt_Replicas r)
    (agt_CanaryWeight r) (agt_Tools r) (agt_CreatedAt r).

Record DeployAgentRequest := mkDeployAgentRequest {
  dar_ProjectID : string;
  dar_Name : string;
  dar_Version : string;
  dar_Image : string;
  dar_GraphModule : string;
  dar_LLMBackend : string;
  dar_Replicas : Z;
  dar_Tools : list string
}.
#[export] Instance zero_DeployAgentRequest : Zero DeployAgentRequest := mkDeployAgentRequest zero zero zero zero zero zero zero zero.
#[export] Instance eta_DeployAgentRequest : Eta DeployAgentRequest := λ r,
  mkDeployAgentRequest (dar_ProjectID r) (dar_Name r) (dar_Version r) (dar_Image r)
    (dar_GraphModule r) (dar_LLMBackend r) (dar_Replicas r) (dar_Tools r).

Record TrafficRequest := mkTrafficRequest {
  tr_CanaryWeight : Z
}.
#[export] Instance zero_TrafficRequest : Zero TrafficRequest := mkTrafficRequest zero.
#[export] Instance eta_TrafficRequest : Eta TrafficRequest := λ r,
  mkTrafficRequest (tr_CanaryWeight r).

Record Tool := mkTool {
  tool_ID : string;
  tool_Name : string;
  tool_Version : string;
  tool_Description : string;
  tool_Tags : list string;
  tool_InputSchema : gmap string any;
  tool_Status : string;
  tool_CreatedAt : Time
}.
#[export] Instance zero_Tool : Zero Tool := mkTool zero zero zero zero zero zero zero zero.
#[export] Instance eta_Tool : Eta Tool := λ r,
  mkTool (tool_ID r) (tool_Name r) (tool_Version r) (tool_Description r) (tool_Tags r)
    (tool_InputSchema r) (tool_Status r) (tool_CreatedAt r).

Record RegisterToolRequest := mkRegisterToolRequest {
  rtr_Name : string;
  rtr_Version : string;
  rtr_Description : string;
  rtr_Tags : list string;
  rtr_InputSchema : gmap string any
}.
#[export] Instance zero_RegisterToolRequest : Zero RegisterToolRequest := mkRegisterToolRequest zero zero zero zero zero.
#[export] Instance eta_RegisterToolRequest : Eta RegisterToolRequest := λ r,
  mkRegisterToolRequest (rtr_Name r) (rtr_Version r) (rtr_Description r) (rtr_Tags r)
    (rtr_InputSchema r).

Record Connection := mkConnection {
  con_ID : string;
  con_Name : string;
  con_Type : string;
  con_Endpoint : string;
  con_SecretRef : string;
  con_Status : string;
  con_CreatedAt : Time;
  con_CheckedAt : option Time;
  con_Message : string
}.
#[export] Instance zero_Connection : Zero Connection := mkConnection zero zero zero zero zero zero zero zero zero.
#[export] Instance eta_Connection : Eta Connection := λ r,
  mkConnection (con_ID r) (con_Name r) (con_Type r) (con_Endpoint r) (con_SecretRef r)
    (con_Status r) (con_CreatedAt r) (con_CheckedAt r) (con_Message r).

Record CreateConnectionRequest := mkCreateConnectionRequest {
  ccr_Name : string;
  ccr_Type : string;
  ccr_Endpoint : string;
  ccr_SecretRef : string
}.
#[export] Instance zero_CreateConnectionRequest : Zero CreateConnectionRequest := mkCreateConnectionRequest zero zero zero zero.
#[export] Instance eta_CreateConnectionRequest : Eta CreateConnectionRequest := λ r,
  mkCreateConnectionRequest (ccr_Name r) (ccr_Type r) (ccr_Endpoint r) (ccr_SecretRef r).

Record ReadinessItem := mkReadinessItem {
  ri_Key : string;
  ri_Label : string;
  ri_Status : string;
  ri_Description : string;
  ri_Action : string
}.
#[export] Instance zero_ReadinessItem : Zero ReadinessItem := mkReadinessItem zero zero zero zero zero.
#[export] Instance eta_ReadinessItem : Eta ReadinessItem := λ r,
  mkReadinessItem (ri_Key r) (ri_Label r) (ri_Status r) (ri_Description r) (ri_Action r).

Record Readiness := mkReadiness {
  rdy_Percent : Z;
  rdy_Ready : bool;
  rdy_Items : list ReadinessItem
}.
#[export] Instance zero_Readiness : Zero Readiness := mkReadiness zero zero zero.
#[export] Instance eta_Readiness : Eta Readiness := λ r,
  mkReadiness (rdy_Percent r) (rdy_Ready r) (rdy_Items r).

Record AgentSession := mkAgentSession {
  ses_ID : string;
  ses_AgentID : string;
  ses_UserID : string;
  ses_Status : string;
  ses_CurrentNode : string;
  ses_Turns : Z;
  ses_InputTokens : Z;
  ses_OutputTokens : Z;
  ses_CostUSD : float64;
  ses_StartedAt : Time;
  ses_UpdatedAt : Time
}.
#[export] Instance zero_AgentSession : Zero AgentSession := mkAgentSession zero zero zero zero zero zero zero zero zero zero zero.
#[export] Instance eta_AgentSession : Eta AgentSession := λ r,
  mkAgentSession (ses_ID r) (ses_AgentID r) (ses_UserID r) (ses_Status r) (ses_CurrentNode
    r) (ses_Turns r) (ses_InputTokens r) (ses_OutputTokens r) (ses_CostUSD r)
    (ses_StartedAt r) (ses_UpdatedAt r).

Record AgentTrace := mkAgentTrace {
  tra_ID : string;
  tra_AgentID : string;
  tra_SessionID : string;
  tra_Name : string;
  tra_Status : string;
  tra_DurationMS : Z;
  tra_Tokens : Z;
  tra_Metadata : gmap string any;
  tra_CreatedAt : Time
}.
#[export] Instance zero_AgentTrace : Zero AgentTrace := mkAgentTrace zero zero zero zero zero zero zero zero zero.
#[export] Instance eta_AgentTrace : Eta AgentTrace := λ r,
  mkAgentTrace (tra_ID r) (tra_AgentID r) (tra_SessionID r) (tra_Name r) (tra_Status r)
    (tra_DurationMS r) (tra_Tokens r) (tra_Metadata r) (tra_CreatedAt r).

Record RecordTraceRequest := mkRecordTraceRequest {
  rtq_AgentID : string;
  rtq_SessionID : string;
  rtq_UserID : string;
  rtq_Name : string;
  rtq_Status : string;
  rtq_CurrentNode : string;
  rtq_DurationMS : Z;
  rtq_InputTokens : Z;
  rtq_OutputTokens : Z;
  rtq_CostUSD : float64;
  rtq_Metadata : gmap string any
}.
#[export] Instance zero_RecordTraceRequest : Zero RecordTraceRequest := mkRecordTraceRequest zero zero zero zero zero zero zero zero zero zero zero.
#[export] Instance eta_RecordTraceRequest : Eta RecordTraceRequest := λ r,
  mkRecordTraceRequest (rtq_AgentID r) (rtq_SessionID r) (rtq_UserID r) (rtq_Name r)
    (rtq_Status r) (rtq_CurrentNode r) (rtq_DurationMS r) (rtq_InputTokens r)
    (rtq_OutputTokens r) (rtq_CostUSD r) (rtq_Metadata r).

Record FeatureField := mkFeatureField {
  ff_Name : string;
  ff_Type : string
}.
#[export] Instance zero_FeatureField : Zero FeatureField := mkFeatureField zero zero.
#[export] Instance eta_FeatureField : Eta FeatureField := λ r,
  mkFeatureField (ff_Name r) (ff_Type r).

Record FeatureView := mkFeatureView {
  fv_ID : string;
  fv_Name : string;
  fv_Entity : string;
  fv_Fields : list FeatureField;
  fv_Tags : list string;
  fv_Source : string;
  fv_TTLSeconds : Z;
  fv_Status : string;
  fv_OnlineEntityCount : Z;
  fv_MaterializedAt : option Time;
  fv_CreatedAt : Time
}.
#[export] Instance zero_FeatureView : Zero FeatureView := mkFeatureView zero zero zero zero zero zero zero zero zero zero zero.
#[export] Instance eta_FeatureView : Eta FeatureView := λ r,
  mkFeatureView (fv_ID r) (fv_Name r) (fv_Entity r) (fv_Fields r) (fv_Tags r) (fv_Source
    r) (fv_TTLSeconds r) (fv_Status r) (fv_OnlineEntityCount r) (fv_MaterializedAt r)
    (fv_CreatedAt r).

Record ApplyFeatureViewRequest := mkApplyFeatureViewRequest {
  afr_Name : string;
  afr_Entity : string;
  afr_Fields : list FeatureField;
  afr_Tags : list string;
  afr_Source : string;
  afr_TTLSeconds : Z
}.
#[export] Instance zero_ApplyFeatureViewRequest : Zero ApplyFeatureViewRequest := mkApplyFeatureViewRequest zero zero zero zero zero zero.
#[export] Instance eta_ApplyFeatureViewRequest : Eta ApplyFeatureViewRequest := λ r,
  mkApplyFeatureViewRequest (afr_Name r) (afr_Entity r) (afr_Fields r) (afr_Tags r)
    (afr_Source r) (afr_TTLSeconds r).

Record MaterializationReport := mkMaterializationReport {
  mr_EntityCount : Z
}.
#[export] Instance zero_MaterializationReport : Zero MaterializationReport := mkMaterializationReport zero.
#[export] Instance eta_MaterializationReport : Eta MaterializationReport := λ r,
  mkMaterializationReport (mr_EntityCount r).

Record InvokeAgentRequest := mkInvokeAgentRequest {
  iar_Message : string;
  iar_SessionID : string;
  iar_UserID : string
}.
#[export] Instance zero_InvokeAgentRequest : Zero InvokeAgentRequest := mkInvokeAgentRequest zero zero zero.
#[export] Instance eta_InvokeAgentRequest : Eta InvokeAgentRequest := λ r,
  mkInvokeAgentRequest (iar_Message r) (iar_SessionID r) (iar_UserID r).

Record AgentUsage := mkAgentUsage {
  use_Sessions : Z;
  use_Active : Z;
  use_InputTokens : Z;
  use_OutputTokens : Z;
  use_CostUSD : float64
}.
#[export] Instance zero_AgentUsage : Zero AgentUsage := mkAgentUsage zero zero zero zero zero.
#[export] Instance eta_AgentUsage : Eta AgentUsage := λ r,
  mkAgentUsage (use_Sessions r) (use_Active r) (use_InputTokens r) (use_OutputTokens r)
    (use_CostUSD r).

Record AuditEvent := mkAuditEvent {
  evt_ID : string;
  evt_Action : string;
  evt_Resource : string;
  evt_ResourceID : string;
  evt_Actor : string;
  evt_Metadata : gmap string any;
  evt_CreatedAt : Time
}.
#[export] Instance zero_AuditEvent : Zero AuditEvent := mkAuditEvent zero zero zero zero zero zero zero.
#[export] Instance eta_AuditEvent : Eta AuditEvent := λ r,
  mkAuditEvent (evt_ID r) (evt_Action r) (evt_Resource r) (evt_ResourceID r) (evt_Actor r)
    (evt_Metadata r) (evt_CreatedAt r).

Record CatalogItem := mkCatalogItem {
  cat_Name : string;
  cat_Version : string;
  cat_Status : string;
  cat_Kind : string;
  cat_Metadata : list string
}.
#[export] Instance zero_CatalogItem : Zero CatalogItem := mkCatalogItem zero zero zero zero zero.
#[export] Instance eta_CatalogItem : Eta CatalogItem := λ r,
  mkCatalogItem (cat_Name r) (cat_Version r) (cat_Status r) (cat_Kind r) (cat_Metadata r).

Record Dashboard := mkDashboard {
  dsh_Projects : Z;
  dsh_ActiveRuns : Z;
  dsh_Healthy : Z;
  dsh_Total : Z;
  dsh_RecentRuns : list PipelineRun;
  dsh_OnboardingPct : Z
}.
#[export] Instance zero_Dashboard : Zero Dashboard := mkDashboard zero zero zero zero zero zero.
#[export] Instance eta_Dashboard : Eta Dashboard := λ r,
  mkDashboard (dsh_Projects r) (dsh_ActiveRuns r) (dsh_Healthy r) (dsh_Total r)
    (dsh_RecentRuns r) (dsh_OnboardingPct r).

Record APIError := mkAPIError {
  ape_Error : string;
  ape_Message : string
}.
#[export] Instance zero_APIError : Zero APIError := mkAPIError zero zero.
#[export] Instance eta_APIError : Eta APIError := λ r,
  mkAPIError (ape_Error r) (ape_Message r).

Record Page (T : Type) := mkPage {
  pg_Items : list T;
  pg_Total : Z
}.
Arguments mkPage {T} _ _.
Arguments pg_Items {T} _.
Arguments pg_Total {T} _.
