(* ===== verification/Dates.v ===== *)
(** * Go's [time.Format], in UTC

    The layouts the program formats its times in: the compact ones of AWS's
    signatures and those of RFC 3339. *)

From Stdlib Require Import Ascii.
From S2P Require Import Prelude GoStrings Types.

Open Scope string_scope.

(** ** Dates and times

    The civil date of a day number counted from the epoch, in eras of 400 years
    that start on the first of March. *)
Definition civil (days : Z) : Z * Z * Z :=
  let z := (days + 719468)%Z in
  let era := (z / 146097)%Z in
  let doe := (z mod 146097)%Z in
  let yoe := ((doe - doe / 1460 + doe / 36524 - doe / 146096) / 365)%Z in
  let doy := (doe - (365 * yoe + yoe / 4 - yoe / 100))%Z in
  let mp := ((5 * doy + 2) / 153)%Z in
  let d := (doy - (153 * mp + 2) / 5 + 1)%Z in
  let m := (if mp <? 10 then mp + 3 else mp - 9)%Z in
  (yoe + era * 400 + (if m <=? 2 then 1 else 0), m, d)%Z.

(** [appendInt]: the decimal digits, filled with zeros to a width. *)
Definition padded (width : nat) (n : Z) : string :=
  let digits := pretty (Z.to_N (Z.abs n)) in
  (if (n <? 0)%Z then "-" else "")
  ++ String.concat "" (replicate (width - String.length digits) "0") ++ digits.

Definition day : Z := 86400000000000.
Definition second : Z := 1000000000.

(** [now.Format("20060102")], [now.Format("20060102T150405Z")] *)
Definition format_date (t : Time) : string :=
  let '(y, m, d) := civil (t / day) in padded 4 y ++ padded 2 m ++ padded 2 d.

Definition format_timestamp (t : Time) : string :=
  let s := ((t mod day) / second)%Z in
  format_date t ++ "T" ++ padded 2 (s / 3600) ++ padded 2 ((s / 60) mod 60) ++ padded 2 (s mod 60) ++ "Z".

(** [time.RFC3339] *)
Definition format_rfc3339 (t : Time) : string :=
  let '(y, m, d) := civil (t / day) in
  let s := ((t mod day) / second)%Z in
  padded 4 y ++ "-" ++ padded 2 m ++ "-" ++ padded 2 d ++ "T" ++ padded 2 (s / 3600) ++ ":"
  ++ padded 2 ((s / 60) mod 60) ++ ":" ++ padded 2 (s mod 60).

(** The fraction of a second, without the zeros that end it. *)
Definition fraction (t : Time) : string :=
  let n := (t mod second)%Z in
  if decide (n = 0)%Z then "" else "." ++ TrimRightByte "0"%char (padded 9 n).

(** [t.Format(time.RFC3339)], [t.Format(time.RFC3339Nano)] *)
Definition RFC3339 (t : Time) : string := format_rfc3339 t ++ "Z".
Definition RFC3339Nano (t : Time) : string := format_rfc3339 t ++ fraction t ++ "Z".

(** ** No slash is written *)

Definition no_slash (s : string) : Prop := contains_byte "/" s = false.

Lemma no_slash_app s t : no_slash s → no_slash t → no_slash (s ++ t).
Proof.
  unfold no_slash. intros Hs Ht. induction s as [|a s IH]; [by rewrite str_app_nil_l|].
  rewrite str_app_cons. cbn [contains_byte] in *. apply orb_false_iff in Hs as [-> Hs]. auto.
Qed.

Lemma pretty_N_go_no_slash x s : no_slash s → no_slash (pretty_N_go x s).
Proof.
  revert s. induction (N.lt_wf_0 x) as [x _ IH]; intros s Hs.
  destruct (decide (0 < x)%N) as [Hx|Hx].
  - rewrite pretty_N_go_step by done. apply IH; [by apply N.div_lt|].
    unfold no_slash, pretty_N_char. cbn [contains_byte]. rewrite Hs. by repeat case_match.
  - assert (x = 0)%N as -> by lia. by rewrite pretty_N_go_0.
Qed.

Lemma padded_no_slash width n : no_slash (padded width n).
Proof.
  unfold padded. apply no_slash_app; [by case_match|]. apply no_slash_app.
  - generalize (width - String.length (pretty (Z.to_N (Z.abs n)))) as k. intros k.
    induction k as [|[|k] IH]; [done|done|]. by apply (no_slash_app "0").
  - unfold pretty, pretty_N. case_decide; [done|]. by apply pretty_N_go_no_slash.
Qed.

Lemma format_date_no_slash t : no_slash (format_date t).
Proof.
  unfold format_date. destruct (civil _) as [[y m] d].
  auto using no_slash_app, padded_no_slash.
Qed.

