(* ===== verification/Floats.v ===== *)
(** * Decimal text of a float64

    [strconv.FormatFloat] with the shortest digits that read back as the same
    number, in the form [fmt]'s verb [%g] writes: plain for decimal exponents
    from -4 to 5, with an exponent outside. *)

From Stdlib Require Import Ascii SpecFloat.
From S2P Require Import Prelude GoStrings.

Open Scope string_scope.

(** [float64(n)] of an [int]. *)
Definition float_of_int (n : Z) : float64 := binary_normalize 53 1024 n 0 false.
Definition float_one : float64 := float_of_int 1.

(** The number of decimal digits of the integer part of [n/d], at least one. *)
Fixpoint digits_of (fuel : nat) (n : Z) : Z :=
  match fuel with
  | O => 0
  | S fuel => if (n <? 10)%Z then 1 else (1 + digits_of fuel (n / 10))%Z
  end.

(** The decimal point of [n/d]: [10^(dp-1) <= n/d < 10^dp]. *)
Fixpoint leading_zeros (fuel : nat) (n d : Z) : Z :=
  match fuel with
  | O => 0
  | S fuel => if (d <=? 10 * n)%Z then 0 else (1 + leading_zeros fuel (10 * n) d)%Z
  end.

Definition decimal_point (n d : Z) : Z :=
  if (d <=? n)%Z then digits_of 400 (n / d) else (- leading_zeros 400 n d)%Z.

(** [10^k] applied to a fraction. *)
Definition scaled (n d k : Z) : Z * Z :=
  if (0 <=? k)%Z then (n * 10 ^ k, d)%Z else (n, d * 10 ^ (- k))%Z.

(** [roundShortest]: the first number of digits at which the number cut short, or
    the next one up, lies between the bounds half-way to its neighbours, which
    belong to it when [inclusive]; the nearer one if both do. *)
Fixpoint shortest (fuel : nat) (digits dp lo n hi d : Z) (inclusive : bool) : Z * Z :=
  let '(n', d') := scaled n d (digits - dp) in
  let down := (n' / d')%Z in
  let within_lo c := let '(l, dl) := scaled lo d (digits - dp) in
                     (if inclusive then l <=? c * dl else l <? c * dl)%Z in
  let within_hi c := let '(h, dh) := scaled hi d (digits - dp) in
                     (if inclusive then c * dh <=? h else c * dh <? h)%Z in
  let okdown := within_lo down in
  let okup := within_hi (down + 1)%Z in
  let rest := (2 * (n' - down * d') ?= d')%Z in
  let nearest := match rest with
                 | Lt => down | Gt => (down + 1)%Z
                 | Eq => if Z.even down then down else (down + 1)%Z
                 end in
  match okdown, okup with
  | true, true => (nearest, digits)
  | true, false => (down, digits)
  | false, true => ((down + 1)%Z, digits)
  | false, false => match fuel with
                    | O => (nearest, digits)
                    | S fuel => shortest fuel (digits + 1) dp lo n hi d inclusive
                    end
  end.

(** The digits of a positive number, and where its decimal point is. *)
Definition float_digits (m : positive) (e : Z) : string * Z :=
  let m := Zpos m in
  let '(scale, d) := if (2 <=? e)%Z then (2 ^ (e - 2), 1)%Z else (1, 2 ^ (2 - e))%Z in
  let lo := if ((m =? 2 ^ 52) && (-1074 <? e))%Z then (4 * m - 1)%Z else (4 * m - 2)%Z in
  let n := (4 * m * scale)%Z in
  let dp := decimal_point n d in
  let '(c, digits) := shortest 17 1 dp (lo * scale) n ((4 * m + 2) * scale) d (Z.even m) in
  let text := pretty c in
  (TrimRightByte "0" text, (dp + Z.of_nat (String.length text) - digits)%Z).

Definition zeros (n : Z) : string := String.concat "" (replicate (Z.to_nat n) "0").

(** [fmtE], [fmtF] *)
Definition format_e (digits : string) (dp : Z) : string :=
  let exp := (dp - 1)%Z in
  let size := pretty (Z.abs exp) in
  match digits with
  | EmptyString => ""
  | String a rest => String a (if decide (rest = "") then "" else "." ++ rest)
  end ++ "e" ++ (if (exp <? 0)%Z then "-" else "+")
  ++ zeros (2 - Z.of_nat (String.length size)) ++ size.

Definition format_f (digits : string) (dp : Z) : string :=
  let nd := Z.of_nat (String.length digits) in
  if (dp <=? 0)%Z then "0." ++ zeros (- dp) ++ digits else
  if (nd <=? dp)%Z then digits ++ zeros (dp - nd) else
  String.substring 0 (Z.to_nat dp) digits ++ "."
  ++ String.substring (Z.to_nat dp) (Z.to_nat (nd - dp)) digits.

(** [fmt.Sprintf("%g", f)] *)
Definition format_g (f : float64) : string :=
  let sign (s : bool) := if s then "-" else "" in
  match f with
  | S754_zero s => sign s ++ "0"
  | S754_infinity s => (if s then "-" else "+") ++ "Inf"
  | S754_nan => "NaN"
  | S754_finite s m e =>
      let '(digits, dp) := float_digits m e in
      sign s ++ (if ((dp - 1 <? -4) || (6 <=? dp - 1))%Z then format_e digits dp else format_f digits dp)
  end.

(** The text of some numbers, the tests' among them: 0.42, 4.2, 0.1, a third,
    the smallest and the largest float64. *)
Example format_g_examples :
  format_g <$> [zero; float_one; float_of_int 1200; float_of_int 1000000; float_of_int (-123456);
                S754_finite false 7566047373982433 (-54); S754_finite false 4728779608739021 (-50);
                S754_finite false 7205759403792794 (-56); S754_finite false 6004799503160661 (-54);
                S754_finite false 1 (-1074); S754_finite false 9007199254740991 971]
  = ["0"; "1"; "1200"; "1e+06"; "-123456"; "0.42"; "4.2"; "0.1"; "0.3333333333333333"; "5e-324";
     "1.7976931348623157e+308"].
Proof. vm_compute. reflexivity. Qed.
