(* ===== verification/World.v ===== *)
(** * The store's process: state, environment and effects (internal/store/store.go)

    [state] is what the file repository keeps in memory, [Host] what its
    process asks of the environment (clock, file system, random source, JSON,
    SHA-256) and [M] the state-passing monad its operations run
    in.  Every call of the environment advances [w_tick], the index at which
    the environment's answers are read. *)

From Stdlib Require Import Ascii.
From S2P Require Import Prelude GoStrings Types.

Open Scope string_scope.

(** ** Errors *)

(** [ErrNotFound] and [ErrConflict] are the store's sentinel errors; [ErrMsg]
    is an [errors.New] or [fmt.Errorf] value; [ErrIO] is an error of the
    environment, returned as it came. *)
Inductive gerror : Type :=
  | ErrNotFound
  | ErrConflict
  | ErrMsg (message : string)
  | ErrIO (message : string).

#[export] Instance gerror_eq_dec : EqDecision gerror.
Proof. solve_decision. Defined.

Definition is_io (e : gerror) : bool := match e with ErrIO _ => true | _ => false end.

(** [err.Error()] *)
Definition error_text (e : gerror) : string :=
  match e with
  | ErrNotFound => "resource not found"
  | ErrConflict => "resource already exists"
  | ErrMsg message | ErrIO message => message
  end.

(** What a validation returns: its normalised request, or the error. *)
Inductive result (A : Type) : Type :=
  | Ok (a : A)
  | Err (e : gerror).
Arguments Ok {A} a.
Arguments Err {A} e.

#[export] Instance result_ret : MRet result := @Ok.
#[export] Instance result_fmap : FMap result :=
  λ A B f r, match r with Ok a => Ok (f a) | Err e => Err e end.
#[export] Instance result_bind : MBind result :=
  λ A B f r, match r with Ok a => f a | Err e => Err e end.

Lemma result_bind_Ok {A B} (f : A → result B) (r : result A) b :
  r ≫= f = Ok b ↔ ∃ a, r = Ok a ∧ f a = Ok b.
Proof. destruct r; simpl; naive_solver. Qed.

(** ** The repository's state *)

Record state := mkState {
  st_UserAccess : list UserAccess;
  st_AccessRequests : list AccessRequest;
  st_APITokens : list APIToken;
  st_BlogPosts : list BlogPost;
  st_Projects : list Project;
  st_Runs : list PipelineRun;
  st_Definitions : list PipelineDefinition;
  st_Functions : list Function;
  st_Models : list Model;
  st_Agents : list Agent;
  st_Tools : list Tool;
  st_Connections : list Connection;
  st_Audit : list AuditEvent;
  st_Sessions : list AgentSession;
  st_Traces : list AgentTrace;
  st_Features : list FeatureView
}.
#[export] Instance zero_state : Zero state :=
  mkState [] [] [] [] [] [] [] [] [] [] [] [] [] [] [] [].
#[export] Instance eta_state : Eta state := λ d,
  mkState (st_UserAccess d) (st_AccessRequests d) (st_APITokens d) (st_BlogPosts d)
    (st_Projects d) (st_Runs d) (st_Definitions d) (st_Functions d) (st_Models d)
    (st_Agents d) (st_Tools d) (st_Connections d) (st_Audit d) (st_Sessions d)
    (st_Traces d) (st_Features d).

(** ** The environment *)

Class Host := {
  (** [time.Now()], per call. *)
  clock : nat → Time;
  (** [os.MkdirAll], [os.Rename]: the error of the call, if any. *)
  os_mkdir_error : nat → option string;
  os_rename_error : nat → option string;
  (** [os.WriteFile]: on failure, its error and what it left in the file. *)
  os_write_error : nat → option (string * option string);
  (** [os.ReadFile] on an existing file. *)
  os_read_error : nat → option string;
  (** [json.MarshalIndent] of the state, and [json.Unmarshal] into an empty one. *)
  json_marshal : state → option string;
  json_unmarshal : string → state * option string;
  (** [rand.Read] into [n] bytes. *)
  rand_read : nat → nat → option string;
  (** [sha256.Sum256], as its 32 bytes. *)
  sha256_sum : string → string
}.

(** ** The process and its monad *)

Record world := mkWorld {
  w_tick : nat;
  w_path : string;
  w_data : state;
  w_files : gmap string string
}.
#[export] Instance eta_world : Eta world := λ w,
  mkWorld (w_tick w) (w_path w) (w_data w) (w_files w).

Definition M (A : Type) : Type := world → A * world.

#[export] Instance M_ret : MRet M := λ A a w, (a, w).
#[export] Instance M_bind : MBind M := λ A B f m w, let '(a, w') := m w in f a w'.

Definition data : M state := λ w, (w_data w, w).
Definition path : M string := λ w, (w_path w, w).
Definition put_data (d : state) : M unit := λ w, (tt, w <|w_data := d|>).
Definition modify (f : state → state) : M unit := λ w, (tt, w <|w_data := f (w_data w)|>).

(** Read one answer of the environment. *)
Definition ask {A} (answer : nat → A) : M A :=
  λ w, (answer (w_tick w), w <|w_tick := S (w_tick w)|>).

Definition read_file (p : string) : M (option string) := λ w, (w_files w !! p, w).
Definition write_file (p raw : string) : M unit :=
  λ w, (tt, w <|w_files := <[p := raw]> (w_files w)|>).
Definition rename_file (src dst : string) : M unit :=
  λ w, match w_files w !! src with
       | Some raw => (tt, w <|w_files := <[dst := raw]> (delete src (w_files w))|>)
       | None => (tt, w)
       end.

(** An operation's results: a value and an error, as the Go code returns them. *)
Abbreviation R A := (M (A * option gerror)).

Section process.
Context `{Host}.

(** [time.Now().UTC()] *)
Definition now : M Time := ask clock.

(** [id(prefix)]: [fmt.Sprintf("%s-%d", prefix, time.Now().UnixNano())] *)
Definition id_at (prefix : string) (t : Time) : string := prefix ++ "-" ++ pretty t.
Definition id (prefix : string) : M string := t ← now; mret (id_at prefix t).

Definition tmp_of (p : string) : string := p ++ ".tmp".

(** [persist]: write the whole state beside the file, then rename over it. *)
Definition persist : M (option gerror) :=
  p ← path;
  if decide (p = "") then mret None else
  e ← ask os_mkdir_error;
  match e with
  | Some msg => mret (Some (ErrIO msg))
  | None =>
      d ← data;
      match json_marshal d with
      | None => mret (Some (ErrIO "json"))
      | Some raw =>
          e ← ask os_write_error;
          match e with
          | Some (msg, partial) =>
              _ ← match partial with Some junk => write_file (tmp_of p) junk | None => mret tt end;
              mret (Some (ErrIO msg))
          | None =>
              _ ← write_file (tmp_of p) raw;
              e ← ask os_rename_error;
              match e with
              | Some msg => mret (Some (ErrIO msg))
              | None => _ ← rename_file (tmp_of p) p; mret None
              end
          end
      end
  end.

(** [return v, s.persist()] *)
Definition finish {A} (v : A) : R A := err ← persist; mret (v, err).

(** [return v, err] *)
Definition fail {A} (e : gerror) `{Zero A} : R A :=
  mret (M := M) (zero, Some e).

(** [load]: a missing file is an empty state. *)
Definition load : M (option gerror) :=
  p ← path;
  f ← read_file p;
  match f with
  | None => mret None
  | Some raw =>
      e ← ask os_read_error;
      match e with
      | Some msg => mret (Some (ErrIO msg))
      | None =>
          let '(d, err) := json_unmarshal raw in
          _ ← put_data d;
          mret (ErrIO <$> err)
      end
  end.

(** [record]: prepend one audit event. *)
Definition record (action resource resourceID actor : string)
    (metadata : gmap string any) : M unit :=
  let actor := if decide (actor = "") then "anonymous" else actor in
  evt_id ← id "evt";
  created ← now;
  let event := mkAuditEvent evt_id action resource resourceID actor metadata created in
  modify (λ d, d <|st_Audit := event :: st_Audit d|>).
End process.

(** [hasProject] *)
Definition hasProject (values : list Project) (id : string) : Prop :=
  Exists (λ v, prj_ID v = id) values.
#[export] Instance hasProject_dec values id : Decision (hasProject values id).
Proof. unfold hasProject. apply _. Defined.

(** [first] *)
Definition first (values : list string) : string :=
  match values with v :: _ => v | [] => "" end.

(** [clone] returns a slice of its own; values are immutable here. *)
Definition clone {T} (values : list T) : list T := [] ++ values.

(** [slug]: runs of lower-case letters and digits joined by single dashes.
    The builder and the [dash] flag of the loop are its state; the builder
    holds the bytes written so far, last first. *)
Fixpoint slug_loop (s : string) (dash : bool) (b : string) : string :=
  match s with
  | EmptyString => b
  | String a s' =>
      if is_lower_alnum a then slug_loop s' false (String a b)
      else if negb dash && negb (String.length b =? 0)%nat
           then slug_loop s' true (String "-"%char b)
           else slug_loop s' dash b
  end.

Definition slug (value : string) : string :=
  TrimByte "-"%char (String.rev (slug_loop (ToLower (TrimSpace value)) false "")).

(** ** What the primitives leave alone *)

Ltac run_M := unfold mbind, M_bind, mret, M_ret in *; simpl in *.

(** What a call of [persist] from [w] leaves in [w'], whichever way it ends:
    memory untouched, and the file either as it was or replaced as a whole. *)
Record persisted `{Host} (w : world) (r : option gerror) (w' : world) : Prop := {
  per_data : w_data w' = w_data w;
  per_path : w_path w' = w_path w;
  per_tick : (w_tick w ≤ w_tick w')%nat;
  per_error : ∀ e, r = Some e → is_io e = true;
  per_kept : r ≠ None ∨ w_path w = "" → w_files w' !! w_path w = w_files w !! w_path w;
  per_written : r = None → w_path w ≠ "" →
    ∃ raw, json_marshal (w_data w) = Some raw ∧ w_files w' !! w_path w = Some raw
}.

Section process_facts.
Context `{Host}.

Lemma tmp_of_ne p : tmp_of p ≠ p.
Proof.
  unfold tmp_of. intros Heq. apply (f_equal String.length) in Heq.
  rewrite str_length_app in Heq. simpl in Heq. lia.
Qed.

Lemma persist_persisted w : persisted w (persist w).1 (persist w).2.
Proof.
  pose proof (tmp_of_ne (w_path w)) as Htmp.
  unfold persist, path, data, ask, write_file, rename_file. run_M.
  repeat (case_match; run_M; simplify_eq/=); split; simpl; try done; try lia;
    try naive_solver; intros; simplify_map_eq; try done.
  eauto.
Qed.

End process_facts.


(** ** Weakest preconditions

    [wp m w Q]: run from [w], [m] ends with a value and a process that satisfy
    [Q].  The rules below let a proof walk through an operation; the tactic
    [wp_run] applies them until the next guard or search. *)
Definition wp {A} (m : M A) (w : world) (Q : A → world → Prop) : Prop := Q (m w).1 (m w).2.

(** The event [record] prepends. *)
Definition event_of `{Host} (k : nat) (action resource resourceID actor : string)
    (metadata : gmap string any) : AuditEvent :=
  mkAuditEvent (id_at "evt" (clock k)) action resource resourceID
    (if decide (actor = "") then "anonymous" else actor) metadata (clock (S k)).

Section wp_rules.
Context `{Host}.
Implicit Types w : world.

Lemma wp_mono {A} (m : M A) w (Q Q' : A → world → Prop) :
  wp m w Q → (∀ a w', Q a w' → Q' a w') → wp m w Q'.
Proof. unfold wp. auto. Qed.

Lemma wp_ret {A} (a : A) w Q : Q a w → wp (mret (M := M) a) w Q.
Proof. done. Qed.

Lemma wp_bind {A B} (m : M A) (f : A → M B) w Q :
  wp m w (λ a w', wp (f a) w' Q) → wp (m ≫= f) w Q.
Proof. unfold wp, mbind, M_bind. by destruct (m w). Qed.

Lemma wp_data w Q : Q (w_data w) w → wp data w Q.
Proof. done. Qed.

Lemma wp_modify f w Q : Q tt (w <|w_data := f (w_data w)|>) → wp (modify f) w Q.
Proof. done. Qed.

Lemma wp_now w Q : Q (clock (w_tick w)) (w <|w_tick := S (w_tick w)|>) → wp now w Q.
Proof. done. Qed.

Lemma wp_ask {A} (f : nat → A) w Q :
  Q (f (w_tick w)) (w <|w_tick := S (w_tick w)|>) → wp (ask f) w Q.
Proof. done. Qed.

Lemma wp_id prefix w Q :
  Q (id_at prefix (clock (w_tick w))) (w <|w_tick := S (w_tick w)|>) → wp (id prefix) w Q.
Proof. done. Qed.

Lemma wp_fail {A} e `{Zero A} w Q : Q (zero, Some e) w → wp (fail (A := A) e) w Q.
Proof. done. Qed.

Lemma wp_record action resource resourceID actor metadata w Q :
  Q tt (w <|w_data := (w_data w) <|st_Audit :=
              event_of (w_tick w) action resource resourceID actor metadata
              :: st_Audit (w_data w)|>|>
          <|w_tick := S (S (w_tick w))|>) →
  wp (record action resource resourceID actor metadata) w Q.
Proof. done. Qed.

Lemma wp_persist w Q : (∀ r w', persisted w r w' → Q r w') → wp persist w Q.
Proof. intros HQ. apply HQ, persist_persisted. Qed.

Lemma wp_finish {A} (v : A) w Q :
  (∀ r w', persisted w r w' → Q (v, r) w') → wp (finish v) w Q.
Proof. intros HQ. apply wp_bind, wp_persist. intros r w' Hper. by apply HQ. Qed.
End wp_rules.

(** One step of a proof by [wp]: a rule, or the case analysis of the guard,
    search or match the operation branches on. *)
Ltac wp_rule :=
  lazymatch goal with
  | |- wp (mret _) _ _ => apply wp_ret
  | |- wp (mbind _ _) _ _ => apply wp_bind
  | |- wp data _ _ => apply wp_data
  | |- wp (modify _) _ _ => apply wp_modify
  | |- wp now _ _ => apply wp_now
  | |- wp (ask _) _ _ => apply wp_ask
  | |- wp (id _) _ _ => apply wp_id
  | |- wp (fail _) _ _ => apply wp_fail
  | |- wp (record _ _ _ _ _) _ _ => apply wp_record
  | |- wp persist _ _ => apply wp_persist; let Hd := fresh "Hper" in intros ? ? Hd
  | |- wp (finish _) _ _ => apply wp_finish; let Hd := fresh "Hper" in intros ? ? Hd
  end.

Ltac wp_case :=
  lazymatch goal with
  | |- wp (if decide ?P then _ else _) _ _ => destruct (decide P)
  | |- wp (match ?x with _ => _ end) _ _ => destruct x eqn:?
  | |- wp (let '(_, _) := ?x in _) _ _ => destruct x eqn:?
  end.

Ltac wp_run := repeat first [progress (cbn beta zeta) | wp_rule | wp_case].

(** ** Generated identifiers

    An identifier is a prefix and a reading of the clock.  Where the clock never
    repeats, an identifier generated now differs from every earlier one. *)
Class DistinctClock `{Host} : Prop := clock_inj : Inj (=) (=) clock.

(** The keys of [l] are distinct, and none is an identifier of tick [k] or later. *)
Definition fresh_keys `{Host} {A} (key : A → string) (prefix : string) (k : nat) (l : list A)
    : Prop :=
  keys_unique key l ∧ ∀ j, (k ≤ j)%nat → id_at prefix (clock j) ∉ key <$> l.

Lemma id_at_inj prefix : Inj (=) (=) (id_at prefix).
Proof.
  intros t t' Heq. unfold id_at in Heq. by apply str_app_inj, str_app_inj, (inj pretty) in Heq.
Qed.

Section fresh.
Context `{Host} `{!DistinctClock} {A} (key : A → string) (prefix : string).
Implicit Types l : list A.

Lemma fresh_keys_mono k k' l :
  fresh_keys key prefix k l → (k ≤ k')%nat → fresh_keys key prefix k' l.
Proof. intros [Hu Hf] Hk. split; [done|]. intros j Hj. apply Hf. lia. Qed.

Lemma fresh_keys_cons k k0 k' x l :
  fresh_keys key prefix k l → key x = id_at prefix (clock k0) → (k ≤ k0)%nat → (k0 < k')%nat →
  fresh_keys key prefix k' (x :: l).
Proof using All.
  intros [Hu Hf] Hx Hk Hk'. split.
  - apply keys_unique_cons; [done|]. intros y Hy Heq. apply (Hf k0 Hk).
    apply list_elem_of_fmap. exists y. split; [congruence|done].
  - intros j Hj. simpl. intros [Heq|Hin]%elem_of_cons; [|by eapply Hf; [|done]; lia].
    rewrite Hx in Heq. apply id_at_inj, clock_inj in Heq. lia.
Qed.

Lemma fresh_keys_insert k i x y l :
  fresh_keys key prefix k l → l !! i = Some x → key y = key x →
  fresh_keys key prefix k (<[i := y]> l).
Proof.
  intros [Hu Hf] Hx Hk. split; [by eapply keys_unique_insert|].
  intros j Hj. rewrite list_fmap_insert, Hk, list_insert_id; [by apply Hf|].
  by rewrite list_lookup_fmap, Hx.
Qed.

Lemma fresh_keys_remove_at k i l :
  fresh_keys key prefix k l → fresh_keys key prefix k (remove_at i l).
Proof.
  intros [Hu Hf]. split; [by apply keys_unique_remove_at|].
  intros j Hj (x&Hx&Hin)%list_elem_of_fmap. apply (Hf j Hj). apply list_elem_of_fmap.
  exists x. split; [done|]. eapply elem_of_sublist; [exact Hin|apply remove_at_sublist].
Qed.

(** Distinct keys make a search by key find the element itself. *)
Lemma fresh_keys_lookup k l i j x y :
  fresh_keys key prefix k l → l !! i = Some x → l !! j = Some y → key x = key y → i = j.
Proof.
  intros [Hu _] Hi Hj Hk. eapply NoDup_lookup; [exact Hu|..]; rewrite list_lookup_fmap;
    [by rewrite Hi|rewrite Hj; simpl; congruence].
Qed.
End fresh.

(** ** A concrete environment

    A clock that ticks once per reading, a disk that never fails and an
    encoding of the state by its number of projects: an environment to evaluate
    the operations in. *)
Definition quiet_host : Host := {|
  clock := λ k, Z.of_nat k;
  os_mkdir_error := λ _, None;
  os_rename_error := λ _, None;
  os_write_error := λ _, None;
  os_read_error := λ _, None;
  json_marshal := λ d, Some (pretty (length (st_Projects d)));
  json_unmarshal := λ raw, (zero, if decide (raw = "junk") then Some "bad json" else None);
  rand_read := λ k n, Some (String.concat "" (replicate n "r"));
  sha256_sum := λ s, s
|}.

Lemma quiet_clock : DistinctClock (H := quiet_host).
Proof. intros k k'. simpl. lia. Qed.

(** A process before it opens its repository, on a disk with the given files. *)
Definition booting (p : string) (files : gmap string string) : world := mkWorld 0 p zero files.
