(* ===== verification/Access.v ===== *)
(** * User access profiles and access requests (internal/store/access.go, store.go)

    Validation of an administrator's grant, the resource profiles, the table of
    grants and the queue of access requests. *)

From S2P Require Import Prelude GoStrings Types World.

Open Scope string_scope.

(** ** [unique]: trimmed, non-empty, first occurrences *)

Fixpoint unique_loop (values : list string) (seen : gset string) : list string :=
  match values with
  | [] => []
  | value :: rest =>
      let value := TrimSpace value in
      if decide (value ≠ "" ∧ value ∉ seen)
      then value :: unique_loop rest ({[value]} ∪ seen)
      else unique_loop rest seen
  end.

Definition unique (values : list string) : list string := unique_loop values ∅.

(** ** The service and profile catalogs *)

Definition validServices : list string := [
  "overview"; "projects"; "pipelines"; "models"; "agents"; "features";
  "storage"; "realtime"; "catalog"; "platform"; "functions"; "git"; "workbench"; "ide"
].

Definition ResourceProfiles : list ResourceProfile := [
  mkResourceProfile "starter" "Starter" "Notebook exploration and small development runs"
    (mkComputeGrant "starter" 2 4 0 "" 1 2 1 3) 25;
  mkResourceProfile "team" "Team" "Daily model development and shared pipelines"
    (mkComputeGrant "team" 4 8 0 "" 2 5 3 10) 100;
  mkResourceProfile "power" "Power" "Large training runs and production delivery"
    (mkComputeGrant "power" 8 16 0 "" 4 10 6 25) 250;
  mkResourceProfile "gpu" "GPU" "Accelerated model and generative AI development"
    (mkComputeGrant "gpu" 8 32 1 "nvidia.com/gpu" 2 10 4 15) 500;
  mkResourceProfile "custom" "Custom" "Set each resource boundary explicitly"
    (mkComputeGrant "custom" 0 0 0 "" 0 0 0 0) 0
].

(** ** Validation *)

Definition applyResourceProfile (req : UpsertUserAccessRequest)
    : result UpsertUserAccessRequest :=
  let profile := TrimSpace (cg_Profile (uar_Compute req)) in
  let '(profile, req) :=
    if decide (profile = "")
    then ("custom", req <|uar_Compute := (uar_Compute req) <|cg_Profile := "custom"|>|>)
    else (profile, req) in
  match list_find (λ candidate, rp_Name candidate = profile) ResourceProfiles with
  | Some (_, candidate) =>
      if decide (profile = "custom") then Ok req
      else Ok (req <|uar_Compute := rp_Compute candidate|>
                   <|uar_Storage := (uar_Storage req) <|sg_SizeGB := rp_StorageGB candidate|>|>)
  | None => Err (ErrMsg ("unknown resource profile: " ++ profile))
  end.

(** The first service of [services] that is not in the catalog. *)
Definition unknown_service (services : list string) : option string :=
  snd <$> list_find (λ service, service ∉ validServices) services.

Definition negative_limit (s : StorageGrant) (c : ComputeGrant) : Prop :=
  (sg_SizeGB s < 0 ∨ cg_VCPUs c < 0 ∨ cg_MemoryGB c < 0 ∨ cg_GPUs c < 0 ∨ cg_MaxVMs c < 0
   ∨ cg_MaxProjects c < 0 ∨ cg_MaxRuns c < 0 ∨ cg_MaxFunctions c < 0)%Z.
#[export] Instance negative_limit_dec s c : Decision (negative_limit s c).
Proof. unfold negative_limit. apply _. Defined.

Definition validateAccess (subject : string) (req : UpsertUserAccessRequest)
    : result UserAccess :=
  let subject := TrimSpace subject in
  if decide (subject = "") then Err (ErrMsg "subject is required") else
  let req := if decide (uar_Role req = "") then req <|uar_Role := "user"|> else req in
  if decide (uar_Role req ≠ "admin" ∧ uar_Role req ≠ "user")
  then Err (ErrMsg "role must be admin or user") else
  let req := req <|uar_Services := unique (uar_Services req)|>
                 <|uar_ProjectIDs := unique (uar_ProjectIDs req)|> in
  let req := req <|uar_Storage :=
                   (uar_Storage req) <|sg_Buckets := unique (sg_Buckets (uar_Storage req))|>|> in
  match unknown_service (uar_Services req) with
  | Some service => Err (ErrMsg ("unknown service: " ++ service))
  | None =>
      req ← applyResourceProfile req;
      if decide (negative_limit (uar_Storage req) (uar_Compute req))
      then Err (ErrMsg "resource limits cannot be negative")
      else Ok (mkUserAccess subject (TrimSpace (uar_Email req)) (uar_Role req)
                 (uar_Services req) (uar_ProjectIDs req) (uar_Storage req) (uar_Compute req)
                 (uar_Disabled req) zero zero)
  end.

Definition validateAccessRequest (req : CreateAccessRequest) : result CreateAccessRequest :=
  let req := req <|car_Reason := TrimSpace (car_Reason req)|>
                 <|car_RequestedServices := unique (car_RequestedServices req)|> in
  if decide (String.length (car_Reason req) < 10)
  then Err (ErrMsg "reason must contain at least 10 characters") else
  if decide (length (car_RequestedServices req) = 0)
  then Err (ErrMsg "at least one service is required") else
  match unknown_service (car_RequestedServices req) with
  | Some service => Err (ErrMsg ("unknown service: " ++ service))
  | None => Ok req
  end.

(** ** Operations *)

Section operations.
Context `{Host}.

Definition UserAccess_all : M (list UserAccess) := d ← data; mret (clone (st_UserAccess d)).

Definition AccessFor (subject : string) : R UserAccess :=
  d ← data;
  match list_find (λ access, ua_Subject access = subject) (st_UserAccess d) with
  | Some (_, access) => mret (access, None)
  | None => fail ErrNotFound
  end.

Definition UpsertUserAccess (subject : string) (req : UpsertUserAccessRequest)
    (actor : string) : R UserAccess :=
  match validateAccess subject req with
  | Err e => fail e
  | Ok access =>
      t ← now;
      let access := access <|ua_UpdatedAt := t|> in
      d ← data;
      match list_find (λ a, ua_Subject a = subject) (st_UserAccess d) with
      | Some (i, existing) =>
          let access := access <|ua_CreatedAt := ua_CreatedAt existing|> in
          _ ← modify (λ d, d <|st_UserAccess := <[i := access]> (st_UserAccess d)|>);
          _ ← record "access.updated" "user_access" subject actor ∅;
          finish access
      | None =>
          let access := access <|ua_CreatedAt := t|> in
          _ ← modify (λ d, d <|st_UserAccess := access :: st_UserAccess d|>);
          _ ← record "access.created" "user_access" subject actor ∅;
          finish access
      end
  end.

Definition DeleteUserAccess (subject actor : string) : R unit :=
  d ← data;
  match list_find (λ a, ua_Subject a = subject) (st_UserAccess d) with
  | Some (i, _) =>
      _ ← modify (λ d, d <|st_UserAccess := remove_at i (st_UserAccess d)|>);
      _ ← record "access.deleted" "user_access" subject actor ∅;
      finish tt
  | None => fail ErrNotFound
  end.

Definition AccessRequests : M (list AccessRequest) :=
  d ← data; mret (clone (st_AccessRequests d)).

Definition AccessRequestsFor (subject : string) : M (list AccessRequest) :=
  d ← data; mret (filter (λ request, acr_Subject request = subject) (st_AccessRequests d)).

Definition CreateAccessRequest_op (subject email : string) (req : CreateAccessRequest)
    : R AccessRequest :=
  match validateAccessRequest req with
  | Err e => fail e
  | Ok req =>
      d ← data;
      if decide (Exists (λ r, acr_Subject r = subject ∧ acr_Status r = "pending")
                   (st_AccessRequests d))
      then fail (ErrMsg "a pending access request already exists")
      else
        t ← now;
        rid ← id "access-request";
        let request := mkAccessRequest rid subject email (car_Reason req)
                         (car_RequestedServices req) "pending" "" "" t t in
        _ ← modify (λ d, d <|st_AccessRequests := request :: st_AccessRequests d|>);
        _ ← record "access.requested" "access_request" rid subject ∅;
        finish request
  end.

Definition ReviewAccessRequest_op (requestID : string) (req : ReviewAccessRequest)
    (reviewer : string) : R AccessRequest :=
  if decide (rar_Status req ≠ "approved" ∧ rar_Status req ≠ "rejected")
  then fail (ErrMsg "status must be approved or rejected") else
  d ← data;
  match list_find (λ r, acr_ID r = requestID) (st_AccessRequests d) with
  | Some (i, request) =>
      if decide (acr_Status request ≠ "pending")
      then fail (ErrMsg "access request has already been reviewed") else
      t ← now;
      let request := request <|acr_Status := rar_Status req|> <|acr_Reviewer := reviewer|>
                       <|acr_ReviewNote := TrimSpace (rar_Note req)|>
                       <|acr_UpdatedAt := t|> in
      _ ← modify (λ d, d <|st_AccessRequests := <[i := request]> (st_AccessRequests d)|>);
      _ ← record ("access.request_" ++ rar_Status req) "access_request" requestID reviewer ∅;
      finish request
  | None => fail ErrNotFound
  end.
End operations.

(** ** Invariants *)

Definition services_ok (services : list string) : Prop :=
  NoDup services ∧ services ⊆ validServices.

Record access_ok (access : UserAccess) : Prop := {
  acc_subject : ua_Subject access ≠ "" ∧ TrimSpace (ua_Subject access) = ua_Subject access;
  acc_role : ua_Role access ∈ ["admin"; "user"];
  acc_services : services_ok (ua_Services access);
  acc_limits : ¬ negative_limit (ua_Storage access) (ua_Compute access);
  acc_profile : ∃ profile, profile ∈ ResourceProfiles
    ∧ rp_Name profile = TrimSpace (cg_Profile (ua_Compute access))
    ∧ (rp_Name profile ≠ "custom" → ua_Compute access = rp_Compute profile
                                    ∧ sg_SizeGB (ua_Storage access) = rp_StorageGB profile)
}.

Definition request_statuses : list string := ["pending"; "approved"; "rejected"].

Record request_ok (request : AccessRequest) : Prop := {
  arq_status : acr_Status request ∈ request_statuses;
  arq_services : services_ok (acr_RequestedServices request);
  arq_some : acr_RequestedServices request ≠ [];
  arq_reason : (10 ≤ String.length (acr_Reason request))%nat
}.

(** The subjects with a request under review. *)
Definition pending_subjects (requests : list AccessRequest) : list string :=
  acr_Subject <$> filter (λ r, acr_Status r = "pending") requests.

(** ** Lemmas *)

Lemma unique_loop_spec values seen :
  NoDup (unique_loop values seen)
  ∧ ∀ x, x ∈ unique_loop values seen
         ↔ x ≠ "" ∧ x ∉ seen ∧ ∃ v, v ∈ values ∧ TrimSpace v = x.
Proof.
  revert seen. induction values as [|v values IH]; intros seen.
  - split; [constructor|]. intros x. split; [by intros ?%not_elem_of_nil|].
    intros (_&_&v&Hv&_). by apply not_elem_of_nil in Hv.
  - cbn [unique_loop]; cbv zeta. case_decide as Hv.
    + destruct (IH ({[TrimSpace v]} ∪ seen)) as [Hnd Hin]. split.
      * constructor; [|done]. rewrite Hin. intros (_&Hn&_).
        apply Hn, elem_of_union_l, elem_of_singleton. done.
      * intros x. rewrite elem_of_cons, Hin. destruct Hv as [Hne Hseen]. split.
        -- intros [->|(Hx&[_ Hs]%not_elem_of_union&u&Hu&Hux)]; split_and!; try done.
           ++ exists v. split; [left|done].
           ++ exists u. split; [by right|done].
        -- intros (Hx&Hs&u&[->|Hu]%elem_of_cons&<-); [by left|].
           destruct (decide (TrimSpace u = TrimSpace v)) as [|Hn]; [by left|right].
           split_and!; [done| |by exists u]. apply not_elem_of_union.
           split; [by apply not_elem_of_singleton|done].
    + destruct (IH seen) as [Hnd Hin]. split; [done|]. intros x. rewrite Hin. split.
      * intros (?&?&u&?&?). split_and!; [done..|]. exists u. split; [by right|done].
      * intros (Hx&Hs&u&[->|Hu]%elem_of_cons&<-); [by destruct Hv|].
        split_and!; [done..|by exists u].
Qed.

Lemma unique_NoDup values : NoDup (unique values).
Proof. apply unique_loop_spec. Qed.

Lemma elem_of_unique values x :
  x ∈ unique values ↔ x ≠ "" ∧ ∃ v, v ∈ values ∧ TrimSpace v = x.
Proof. unfold unique. rewrite (proj2 (unique_loop_spec values ∅)). set_solver. Qed.

Lemma unknown_service_None services :
  unknown_service services = None → services ⊆ validServices.
Proof.
  unfold unknown_service. intros Hn%fmap_None s Hs.
  eapply list_find_miss in Hn; [|exact Hs]. by apply dec_stable in Hn.
Qed.

Lemma applyResourceProfile_Ok req req' :
  applyResourceProfile req = Ok req' →
  uar_Role req' = uar_Role req ∧ uar_Services req' = uar_Services req
  ∧ ∃ profile, profile ∈ ResourceProfiles
      ∧ rp_Name profile = TrimSpace (cg_Profile (uar_Compute req'))
      ∧ (rp_Name profile ≠ "custom" → uar_Compute req' = rp_Compute profile
           ∧ sg_SizeGB (uar_Storage req') = rp_StorageGB profile).
Proof.
  unfold applyResourceProfile. cbv zeta.
  set (p := TrimSpace (cg_Profile (uar_Compute req))).
  assert (∀ profile, profile ∈ ResourceProfiles →
            TrimSpace (cg_Profile (rp_Compute profile)) = rp_Name profile) as Hcatalog.
  { apply Forall_forall. by repeat constructor. }
  destruct (decide (p = "")) as [Hp|Hp].
  - cbn. intros [= <-]. split; [done|]. split; [done|].
    exists (mkResourceProfile "custom" "Custom" "Set each resource boundary explicitly"
      (mkComputeGrant "custom" 0 0 0 "" 0 0 0 0) 0). split_and!; [|done|done].
    repeat (first [left | right]).
  - destruct (list_find _ _) as [[i profile]|] eqn:Hf; [|done].
    apply list_find_hit in Hf as [Hi Hname]. apply list_elem_of_lookup_2 in Hi.
    case_decide as Hc; intros [= <-]; (split; [done|]; split; [done|]); exists profile.
    + split_and!; [done|by rewrite Hname|]. intros Hne. by rewrite Hname, Hc in Hne.
    + split_and!; [done|by symmetry; apply Hcatalog|done].
Qed.

Lemma validateAccess_Ok subject req access :
  validateAccess subject req = Ok access →
  access_ok access ∧ ua_Subject access = TrimSpace subject.
Proof.
  unfold validateAccess. cbv zeta. case_decide as Hsub; [done|].
  set (req1 := if decide (uar_Role req = "") then _ else _).
  case_decide as Hrole; [done|]. simpl. case_match eqn:Hsrv; [done|].
  intros (req2&(Hr&Hs&Hprofile)%applyResourceProfile_Ok&Hrest)%result_bind_Ok.
  case_decide as Hneg; [done|]. injection Hrest as <-. simpl in *.
  split; [|done]. split; simpl.
  - by rewrite TrimSpace_idemp.
  - rewrite Hr. apply not_and_l in Hrole as [?%dec_stable|?%dec_stable]; set_solver.
  - rewrite Hs. split; [apply unique_NoDup|by apply unknown_service_None].
  - done.
  - done.
Qed.

Lemma validateAccessRequest_Ok req req' :
  validateAccessRequest req = Ok req' →
  (10 ≤ String.length (car_Reason req'))%nat ∧ services_ok (car_RequestedServices req')
  ∧ car_RequestedServices req' ≠ [].
Proof.
  unfold validateAccessRequest. cbv zeta. case_decide as Hlen; [done|].
  case_decide as Hsome; [done|]. case_match eqn:Hsrv; [done|]. intros [= <-].
  simpl in *. split_and!; [lia| |by destruct (unique _)].
  split; [apply unique_NoDup|by apply unknown_service_None].
Qed.

Lemma pending_subjects_cons request requests :
  pending_subjects (request :: requests)
  = if decide (acr_Status request = "pending")
    then acr_Subject request :: pending_subjects requests else pending_subjects requests.
Proof. unfold pending_subjects. rewrite filter_cons. by case_decide. Qed.

(** A review takes a request out of the pending ones. *)
Lemma pending_subjects_insert i request requests :
  acr_Status request ≠ "pending" →
  sublist (pending_subjects (<[i := request]> requests)) (pending_subjects requests).
Proof.
  intros Hr. revert i. induction requests as [|r requests IH]; intros [|i]; simpl;
    rewrite ?pending_subjects_cons; [constructor..| |].
  - rewrite decide_False by done. case_decide; [by apply sublist_cons|done].
  - case_decide; [by apply sublist_skip|done].
Qed.

Lemma elem_of_pending_subjects subject requests :
  subject ∈ pending_subjects requests
  ↔ Exists (λ r, acr_Subject r = subject ∧ acr_Status r = "pending") requests.
Proof.
  unfold pending_subjects. rewrite list_elem_of_fmap, Exists_exists.
  split; [intros (r&->&[??]%list_elem_of_filter); eauto|].
  intros (r&?&<-&?). exists r. split; [done|]. by apply list_elem_of_filter.
Qed.

(** ** Values the operations store *)

Lemma access_ok_times access created updated :
  access_ok access → access_ok (access <|ua_CreatedAt := created|> <|ua_UpdatedAt := updated|>).
Proof. by intros []. Qed.

Lemma stored_access_ok subject req access created updated :
  validateAccess subject req = Ok access →
  access_ok (access <|ua_CreatedAt := created|> <|ua_UpdatedAt := updated|>).
Proof. intros [? _]%validateAccess_Ok. by apply access_ok_times. Qed.

Lemma new_request_ok rid subject email req req' t :
  validateAccessRequest req = Ok req' →
  request_ok (mkAccessRequest rid subject email (car_Reason req')
                (car_RequestedServices req') "pending" "" "" t t).
Proof. intros (?&?&?)%validateAccessRequest_Ok. split; simpl; [left|done..]. Qed.

Lemma reviewed_request_ok status reviewer note t request :
  ¬ (status ≠ "approved" ∧ status ≠ "rejected") → request_ok request →
  request_ok (request <|acr_Status := status|> <|acr_Reviewer := reviewer|>
                <|acr_ReviewNote := note|> <|acr_UpdatedAt := t|>).
Proof.
  intros Hs []. split; simpl; try done.
  apply not_and_l in Hs as [->%dec_stable| ->%dec_stable]; by apply (bool_decide_unpack _).
Qed.

#[export] Hint Resolve new_request_ok : go_values.
#[export] Hint Extern 1 (access_ok _) => eapply stored_access_ok : go_values.
#[export] Hint Extern 1 (request_ok _) => eapply reviewed_request_ok : go_values.
