(* ===== verification/Tokens.v ===== *)
(** * Personal API tokens (internal/store/tokens.go)

    Token requests, the generation of a secret and its digest, and the
    lifecycle of a stored token: created, resolved from a bearer secret,
    revoked. *)

From Stdlib Require Import Ascii.
From S2P Require Import Prelude GoStrings Types World Access.

Open Scope string_scope.

(** ** Encodings: [encoding/hex] and [base64.RawURLEncoding] *)

Definition hex_alphabet : string := "0123456789abcdef".
Definition base64url_alphabet : string :=
  "ABCDEFGHIJKLMNOPQRSTUVWXYZabcdefghijklmnopqrstuvwxyz0123456789-_".

Definition char_at (alphabet : string) (n : N) : ascii :=
  default "0"%char (String.get (N.to_nat n) alphabet).

Fixpoint hex_encode (s : string) : string :=
  match s with
  | EmptyString => EmptyString
  | String a s' =>
      let n := N_of_ascii a in
      String (char_at hex_alphabet (n / 16)) (String (char_at hex_alphabet (n mod 16))
        (hex_encode s'))
  end.

Fixpoint base64url_encode (s : string) : string :=
  let sym := char_at base64url_alphabet in
  match s with
  | EmptyString => EmptyString
  | String a EmptyString =>
      let x := N_of_ascii a in
      String (sym (x / 4)) (String (sym ((x mod 4) * 16)) EmptyString)
  | String a (String b EmptyString) =>
      let x := N_of_ascii a in let y := N_of_ascii b in
      String (sym (x / 4)) (String (sym ((x mod 4) * 16 + y / 16))
        (String (sym ((y mod 16) * 4)) EmptyString))
  | String a (String b (String c s')) =>
      let x := N_of_ascii a in let y := N_of_ascii b in let z := N_of_ascii c in
      String (sym (x / 4)) (String (sym ((x mod 4) * 16 + y / 16))
        (String (sym ((y mod 16) * 4 + z / 64)) (String (sym (z mod 64))
          (base64url_encode s'))))
  end%N.

(** ** Requests *)

(** The first requested service a token may not carry. *)
Definition invalid_scope (services : list string) : option string :=
  snd <$> list_find (λ service, service ∉ validServices ∨ service = "workbench"
                                ∨ service = "ide") services.

Definition validateTokenRequest (req : CreateAPITokenRequest) : result CreateAPITokenRequest :=
  let req := req <|ctr_Name := TrimSpace (ctr_Name req)|>
                 <|ctr_Services := unique (ctr_Services req)|>
                 <|ctr_ProjectIDs := unique (ctr_ProjectIDs req)|> in
  if decide (String.length (ctr_Name req) < 3)
  then Err (ErrMsg "token name must contain at least 3 characters") else
  if decide (length (ctr_Services req) = 0)
  then Err (ErrMsg "at least one service scope is required") else
  if decide (ctr_ExpiresInDays req < 1 ∨ 365 < ctr_ExpiresInDays req)%Z
  then Err (ErrMsg "expiry must be between 1 and 365 days") else
  match invalid_scope (ctr_Services req) with
  | Some service => Err (ErrMsg ("invalid API service scope: " ++ service))
  | None => Ok req
  end.

(** [time.Duration(days) * 24 * time.Hour], in nanoseconds. *)
Definition days_duration (days : Z) : Z := mul64 (mul64 days 24) 3600000000000.

(** ** Secrets *)

Record generated := mkGenerated {
  gen_id : string; gen_prefix : string; gen_secret : string; gen_hash : string
}.

Section operations.
Context `{Host}.

Definition secret_digest (secret : string) : string := hex_encode (sha256_sum secret).

Definition generateAPIToken : M (result generated) :=
  random ← ask (λ k, rand_read k 32);
  match random with
  | None => mret (Err (ErrIO "rand"))
  | Some random =>
      idRandom ← ask (λ k, rand_read k 8);
      match idRandom with
      | None => mret (Err (ErrIO "rand"))
      | Some idRandom =>
          let idValue := "tok-" ++ hex_encode idRandom in
          let prefix := "nxs_" ++ hex_encode (String.substring 0 4 idRandom) in
          let secret := prefix ++ "_" ++ base64url_encode random in
          mret (Ok (mkGenerated idValue prefix secret (secret_digest secret)))
      end
  end.

Definition tokenMatches (stored : APIToken) (secret : string) : Prop :=
  tok_SecretHash stored = secret_digest secret.
#[export] Instance tokenMatches_dec stored secret : Decision (tokenMatches stored secret).
Proof. unfold tokenMatches. apply _. Defined.

Definition APITokensFor (subject : string) : M (list APIToken) :=
  d ← data; mret (filter (λ token, tok_Subject token = subject) (st_APITokens d)).

Definition CreateAPIToken (subject : string) (req : CreateAPITokenRequest)
    : R CreatedAPIToken :=
  match validateTokenRequest req with
  | Err e => fail e
  | Ok req =>
      g ← generateAPIToken;
      match g with
      | Err e => fail e
      | Ok g =>
          t ← now;
          let expires := (t + days_duration (ctr_ExpiresInDays req))%Z in
          let token := mkAPIToken (gen_id g) subject (ctr_Name req) (gen_prefix g)
                         (gen_hash g) (ctr_Services req) (ctr_ProjectIDs req) t expires
                         None None in
          _ ← modify (λ d, d <|st_APITokens := token :: st_APITokens d|>);
          _ ← record "api_token.created" "api_token" (tok_ID token) subject
                (<["services" := AList (AStr <$> tok_Services token)]>
                 {["expires_at" := ATime (tok_ExpiresAt token)]});
          finish (mkCreatedAPIToken token (gen_secret g))
      end
  end.

Definition RevokeAPIToken (subject tokenID : string) : R unit :=
  d ← data;
  match list_find (λ t, tok_ID t = tokenID ∧ tok_Subject t = subject) (st_APITokens d) with
  | Some (i, token) =>
      match tok_RevokedAt token with
      | None =>
          t ← now;
          let token := token <|tok_RevokedAt := Some t|> in
          _ ← modify (λ d, d <|st_APITokens := <[i := token]> (st_APITokens d)|>);
          _ ← record "api_token.revoked" "api_token" tokenID subject ∅;
          finish tt
      | Some _ => finish tt
      end
  | None => fail ErrNotFound
  end.

(** A stored token that the secret opens at time [t]. *)
Definition token_opens (secret : string) (t : Time) (token : APIToken) : Prop :=
  HasPrefix secret (tok_Prefix token ++ "_") = true ∧ tok_RevokedAt token = None
  ∧ (t < tok_ExpiresAt token)%Z ∧ tokenMatches token secret.
#[export] Instance token_opens_dec secret t token : Decision (token_opens secret t token).
Proof. unfold token_opens. apply _. Defined.

Definition ResolveAPIToken (secret : string) : R APIToken :=
  t ← now;
  d ← data;
  match list_find (token_opens secret t) (st_APITokens d) with
  | Some (i, token) =>
      let token := token <|tok_LastUsedAt := Some t|> in
      _ ← modify (λ d, d <|st_APITokens := <[i := token]> (st_APITokens d)|>);
      _ ← persist;
      mret (token, None)
  | None => fail ErrNotFound
  end.
End operations.

(** ** Invariants *)

Record token_ok (token : APIToken) : Prop := {
  tkn_name : (3 ≤ String.length (tok_Name token))%nat;
  tkn_services : services_ok (tok_Services token);
  tkn_some : tok_Services token ≠ [];
  tkn_api : Forall (λ s, s ≠ "workbench" ∧ s ≠ "ide") (tok_Services token);
  tkn_expiry : ∃ days, (1 ≤ days ≤ 365)%Z
    ∧ tok_ExpiresAt token = (tok_CreatedAt token + days * 86400000000000)%Z
}.

Lemma days_duration_exact days :
  (1 ≤ days ≤ 365)%Z → days_duration days = (days * 86400000000000)%Z.
Proof.
  intros Hd. unfold days_duration, mul64.
  rewrite (wrap64_id (days * 24)), wrap64_id by (unfold is_int64, int64_min, int64_max; lia). lia.
Qed.

Lemma invalid_scope_None services :
  invalid_scope services = None →
  services ⊆ validServices ∧ Forall (λ s, s ≠ "workbench" ∧ s ≠ "ide") services.
Proof.
  unfold invalid_scope. intros Hn%fmap_None. rewrite Forall_forall.
  assert (∀ s, s ∈ services → s ∈ validServices ∧ s ≠ "workbench" ∧ s ≠ "ide") as Hall.
  { intros s Hs. eapply list_find_miss in Hn; [|exact Hs].
    apply Decidable.not_or in Hn as [Hv%dec_stable Hn].
    apply Decidable.not_or in Hn as [??]. done. }
  split; intros s Hs; by apply Hall.
Qed.

Lemma validateTokenRequest_Ok req req' :
  validateTokenRequest req = Ok req' →
  (3 ≤ String.length (ctr_Name req'))%nat ∧ services_ok (ctr_Services req')
  ∧ ctr_Services req' ≠ [] ∧ Forall (λ s, s ≠ "workbench" ∧ s ≠ "ide") (ctr_Services req')
  ∧ (1 ≤ ctr_ExpiresInDays req' ≤ 365)%Z.
Proof.
  unfold validateTokenRequest. cbv zeta. case_decide as Hlen; [done|].
  case_decide as Hsome; [done|]. case_decide as Hdays; [done|].
  case_match eqn:Hscope; [done|]. intros [= <-]. simpl in *.
  apply invalid_scope_None in Hscope as [??].
  split_and!; [lia| |by destruct (unique _)|done|lia|lia].
  split; [apply unique_NoDup|done].
Qed.

(** ** Values the operations store *)

Lemma new_token_ok tid subject prefix hash req req' t :
  validateTokenRequest req = Ok req' →
  token_ok (mkAPIToken tid subject (ctr_Name req') prefix hash (ctr_Services req')
              (ctr_ProjectIDs req') t (t + days_duration (ctr_ExpiresInDays req'))%Z None None).
Proof.
  intros (?&?&?&?&?)%validateTokenRequest_Ok. split; simpl; try done.
  exists (ctr_ExpiresInDays req'). by rewrite days_duration_exact.
Qed.

Lemma used_token_ok t token : token_ok token → token_ok (token <|tok_LastUsedAt := t|>).
Proof. by intros []. Qed.

Lemma revoked_token_ok t token : token_ok token → token_ok (token <|tok_RevokedAt := t|>).
Proof. by intros []. Qed.

#[export] Hint Resolve new_token_ok : go_values.
#[export] Hint Extern 1 (token_ok _) => eapply used_token_ok : go_values.
#[export] Hint Extern 1 (token_ok _) => eapply revoked_token_ok : go_values.

(** What a successful creation leaves in the repository. *)
Record created_stored `{Host} (subject : string) (req : CreateAPITokenRequest)
    (created : CreatedAPIToken) (w : world) : Prop := {
  cs_first : ∃ rest, st_APITokens (w_data w) = ctk_Token created :: rest;
  cs_prefix : HasPrefix (ctk_Secret created) (tok_Prefix (ctk_Token created) ++ "_") = true;
  cs_live : tok_RevokedAt (ctk_Token created) = None;
  cs_digest : tokenMatches (ctk_Token created) (ctk_Secret created);
  cs_subject : tok_Subject (ctk_Token created) = subject;
  cs_services : tok_Services (ctk_Token created) = unique (ctr_Services req);
  cs_projects : tok_ProjectIDs (ctk_Token created) = unique (ctr_ProjectIDs req)
}.

Lemma validateTokenRequest_scopes req req' :
  validateTokenRequest req = Ok req' →
  ctr_Services req' = unique (ctr_Services req) ∧ ctr_ProjectIDs req' = unique (ctr_ProjectIDs req).
Proof. unfold validateTokenRequest. cbv zeta. repeat case_decide; try done. by case_match; intros [= <-]. Qed.

Lemma CreateAPIToken_stored `{Host} subject req w :
  wp (CreateAPIToken subject req) w (λ r w', r.2 = None → created_stored subject req r.1 w').
Proof.
  unfold CreateAPIToken, generateAPIToken. wp_run; simpl; try done.
  intros _. destruct Hper as [Hd _ _ _ _ _].
  apply validateTokenRequest_scopes in Heqr as [??].
  split; simpl; try done.
  - rewrite Hd. by eexists.
  - rewrite str_app_assoc. apply HasPrefix_app.
Qed.

(** How a stored token may change: its holder, scopes, digest and expiry never,
    and once revoked it stays so. *)
Record token_succ (token token' : APIToken) : Prop := {
  ts_identity : tok_ID token' = tok_ID token ∧ tok_Subject token' = tok_Subject token
    ∧ tok_SecretHash token' = tok_SecretHash token ∧ tok_Prefix token' = tok_Prefix token;
  ts_scopes : tok_Services token' = tok_Services token
    ∧ tok_ProjectIDs token' = tok_ProjectIDs token ∧ tok_ExpiresAt token' = tok_ExpiresAt token;
  ts_revoked : is_Some (tok_RevokedAt token) → tok_RevokedAt token' = tok_RevokedAt token
}.

#[export] Instance token_succ_preorder : PreOrder token_succ.
Proof.
  split; [by split|].
  intros t1 t2 t3 [(?&?&?&?) (?&?&?) Hr] [(?&?&?&?) (?&?&?) Hr'].
  split; [split_and!; congruence..|]. intros Hs.
  assert (tok_RevokedAt t2 = tok_RevokedAt t1) as Heq by auto.
  rewrite Hr'; [done|by rewrite Heq].
Qed.

(** ** Properties *)

(** C18: a bearer secret resolves to the first stored token it opens (matching
    prefix and digest, not revoked, not expired at the moment of the call),
    with its use recorded on that token alone; a secret that opens none is not
    found and changes nothing. *)
Theorem token_resolution `{Host} secret w :
  let t := clock (w_tick w) in
  let opens token := HasPrefix secret (tok_Prefix token ++ "_") = true ∧ tok_RevokedAt token = None
                     ∧ (t < tok_ExpiresAt token)%Z ∧ tok_SecretHash token = secret_digest secret in
  wp (ResolveAPIToken secret) w (λ '(token, err) w',
    (err = None ∧ ∃ i stored, st_APITokens (w_data w) !! i = Some stored
      ∧ opens stored
      ∧ (∀ j earlier, (j < i)%nat → st_APITokens (w_data w) !! j = Some earlier → ¬ opens earlier)
      ∧ token = stored <|tok_LastUsedAt := Some t|>
      ∧ w_data w' = (w_data w) <|st_APITokens := <[i := token]> (st_APITokens (w_data w))|>)
    ∨ err = Some ErrNotFound ∧ token = zero ∧ w_data w' = w_data w
      ∧ ∀ stored, stored ∈ st_APITokens (w_data w) → ¬ opens stored).
Proof.
  unfold ResolveAPIToken. apply wp_bind, wp_now, wp_bind, wp_data. simpl.
  destruct (list_find _ _) as [[i stored]|] eqn:Hf.
  - apply list_find_Some in Hf as (Hi&Ho&Hfirst). wp_run.
    destruct Hper as [-> _ _ _ _ _]. simpl. left. split; [done|]. exists i, stored. split_and!; try apply Ho; try done.
    intros j earlier Hj He Hopens. by eapply Hfirst.
  - apply wp_fail. right. split_and!; try done. intros stored Hs Ho. by eapply list_find_miss in Hf.
Qed.

(** C19: the secret handed out with a new token opens that token: presented before
    the token expires it resolves to it, with the subject and scopes asked for. *)
Theorem token_roundtrip `{Host} subject req w created w1 :
  CreateAPIToken subject req w = ((created, None), w1) →
  (clock (w_tick w1) < tok_ExpiresAt (ctk_Token created))%Z →
  wp (ResolveAPIToken (ctk_Secret created)) w1 (λ '(token, err) _,
    err = None ∧ tok_ID token = tok_ID (ctk_Token created) ∧ tok_Subject token = subject
    ∧ tok_Services token = unique (ctr_Services req)
    ∧ tok_ProjectIDs token = unique (ctr_ProjectIDs req)).
Proof.
  intros Hc Ht. pose proof (CreateAPIToken_stored subject req w) as Hs.
  unfold wp in Hs. rewrite Hc in Hs. destruct (Hs eq_refl) as [[rest Hrest] Hp Hr Hh <- <- <-].
  simpl in *. unfold ResolveAPIToken. apply wp_bind, wp_now, wp_bind, wp_data. simpl.
  rewrite Hrest. simpl. rewrite decide_True; [|by split_and!].
  wp_run. done.
Qed.

(** ** Witnesses *)

Definition ci_request : CreateAPITokenRequest :=
  mkCreateAPITokenRequest "ci token" ["pipelines"] [] 30.

Lemma token_roundtrip_witness :
  let '((created, err), w1) :=
    CreateAPIToken (H := quiet_host) "alice" ci_request (booting "" ∅) in
  err = None
  ∧ wp (ResolveAPIToken (H := quiet_host) (ctk_Secret created)) w1 (λ '(token, err) _,
      err = None ∧ tok_ID token = tok_ID (ctk_Token created) ∧ tok_Subject token = "alice"
      ∧ tok_Services token = unique ["pipelines"] ∧ tok_ProjectIDs token = unique []).
Proof.
  destruct (CreateAPIToken _ _ _) as [[created err] w1] eqn:Hc.
  assert (err = None) as -> by (vm_compute in Hc; congruence).
  split; [reflexivity|].
  apply (token_roundtrip (H := quiet_host) "alice" ci_request (booting "" ∅) created w1 Hc).
  vm_compute in Hc. injection Hc as <- <-. vm_compute. reflexivity.
Defined.
