(* ===== verification/Blog.v ===== *)
(** * Blog posts (internal/store/blog.go) *)

From S2P Require Import Prelude GoStrings Types World Access.

Open Scope string_scope.

Definition validateBlog (req : UpsertBlogPostRequest) : result UpsertBlogPostRequest :=
  let req := req <|ubr_Slug := slug (ubr_Slug req)|>
                 <|ubr_Title := TrimSpace (ubr_Title req)|>
                 <|ubr_Summary := TrimSpace (ubr_Summary req)|>
                 <|ubr_Content := TrimSpace (ubr_Content req)|>
                 <|ubr_Author := TrimSpace (ubr_Author req)|>
                 <|ubr_Tags := unique (ubr_Tags req)|> in
  if decide (String.length (ubr_Title req) < 5 ∨ String.length (ubr_Summary req) < 20
             ∨ String.length (ubr_Content req) < 100)
  then Err (ErrMsg "title, summary, and substantial content are required") else
  let req := if decide (ubr_Slug req = "") then req <|ubr_Slug := slug (ubr_Title req)|> else req in
  let req := if decide (ubr_Author req = "")
             then req <|ubr_Author := "Nexus Engineering"|> else req in
  let req := if decide (ubr_Status req = "") then req <|ubr_Status := "draft"|> else req in
  if decide (ubr_Status req ≠ "draft" ∧ ubr_Status req ≠ "published")
  then Err (ErrMsg "status must be draft or published")
  else Ok req.

Section operations.
Context `{Host}.

Definition BlogPosts : M (list BlogPost) := d ← data; mret (clone (st_BlogPosts d)).

Definition BlogPost_get (identifier : string) : R BlogPost :=
  d ← data;
  match list_find (λ post, bp_ID post = identifier ∨ bp_Slug post = identifier)
          (st_BlogPosts d) with
  | Some (_, post) => mret (post, None)
  | None => fail ErrNotFound
  end.

Definition UpsertBlogPost (postID : string) (req : UpsertBlogPostRequest) (actor : string)
    : R BlogPost :=
  match validateBlog req with
  | Err e => fail e
  | Ok req =>
      t ← now;
      d ← data;
      if decide (Exists (λ post, bp_Slug post = ubr_Slug req ∧ bp_ID post ≠ postID)
                   (st_BlogPosts d))
      then fail ErrConflict else
      match list_find (λ post, bp_ID post = postID) (st_BlogPosts d) with
      | Some (i, post) =>
          let published := if decide (ubr_Status req = "published" ∧ bp_PublishedAt post = None)
                           then Some t else bp_PublishedAt post in
          let post := post <|bp_Slug := ubr_Slug req|> <|bp_Title := ubr_Title req|>
                        <|bp_Summary := ubr_Summary req|> <|bp_Content := ubr_Content req|>
                        <|bp_Author := ubr_Author req|> <|bp_Tags := ubr_Tags req|>
                        <|bp_Status := ubr_Status req|> <|bp_UpdatedAt := t|>
                        <|bp_PublishedAt := published|> in
          _ ← modify (λ d, d <|st_BlogPosts := <[i := post]> (st_BlogPosts d)|>);
          _ ← record "blog.updated" "blog_post" (bp_ID post) actor
                {["status" := AStr (bp_Status post)]};
          finish post
      | None =>
          pid ← id "blog";
          let published := if decide (ubr_Status req = "published") then Some t else None in
          let post := mkBlogPost pid (ubr_Slug req) (ubr_Title req) (ubr_Summary req)
                        (ubr_Content req) (ubr_Author req) (ubr_Tags req) (ubr_Status req)
                        t t published in
          _ ← modify (λ d, d <|st_BlogPosts := post :: st_BlogPosts d|>);
          _ ← record "blog.created" "blog_post" (bp_ID post) actor
                {["status" := AStr (bp_Status post)]};
          finish post
      end
  end.

Definition DeleteBlogPost (postID actor : string) : R unit :=
  d ← data;
  match list_find (λ post, bp_ID post = postID) (st_BlogPosts d) with
  | Some (i, _) =>
      _ ← modify (λ d, d <|st_BlogPosts := remove_at i (st_BlogPosts d)|>);
      _ ← record "blog.deleted" "blog_post" postID actor ∅;
      finish tt
  | None => fail ErrNotFound
  end.
End operations.

(** ** Invariants *)

Record post_ok (post : BlogPost) : Prop := {
  post_title : (5 ≤ String.length (bp_Title post))%nat;
  post_summary : (20 ≤ String.length (bp_Summary post))%nat;
  post_content : (100 ≤ String.length (bp_Content post))%nat;
  post_author : bp_Author post ≠ "";
  post_status : bp_Status post ∈ ["draft"; "published"];
  post_published : bp_Status post = "published" → is_Some (bp_PublishedAt post)
}.

Lemma validateBlog_Ok req req' :
  validateBlog req = Ok req' →
  (5 ≤ String.length (ubr_Title req'))%nat ∧ (20 ≤ String.length (ubr_Summary req'))%nat
  ∧ (100 ≤ String.length (ubr_Content req'))%nat ∧ ubr_Author req' ≠ ""
  ∧ ubr_Status req' ∈ ["draft"; "published"].
Proof.
  unfold validateBlog. cbv zeta. case_decide as Hlen; [done|]. simpl in Hlen.
  apply Decidable.not_or in Hlen as [Ht [Hs Hc]%Decidable.not_or].
  set (req1 := if decide (ubr_Slug _ = "") then _ else _).
  assert (ubr_Title req1 = TrimSpace (ubr_Title req)
    ∧ ubr_Summary req1 = TrimSpace (ubr_Summary req)
    ∧ ubr_Content req1 = TrimSpace (ubr_Content req)) as (Ht1&Hs1&Hc1)
    by (unfold req1; by case_decide).
  set (req2 := if decide (ubr_Author _ = "") then _ else _).
  assert (ubr_Title req2 = ubr_Title req1 ∧ ubr_Summary req2 = ubr_Summary req1
    ∧ ubr_Content req2 = ubr_Content req1 ∧ ubr_Author req2 ≠ "") as (Ht2&Hs2&Hc2&Ha)
    by (unfold req2; by case_decide).
  set (req3 := if decide (ubr_Status _ = "") then _ else _).
  assert (ubr_Title req3 = ubr_Title req2 ∧ ubr_Summary req3 = ubr_Summary req2
    ∧ ubr_Content req3 = ubr_Content req2 ∧ ubr_Author req3 = ubr_Author req2)
    as (Ht3&Hs3&Hc3&Ha3) by (unfold req3; by case_decide).
  case_decide as Hst; [done|]. intros [= <-].
  rewrite Ht3, Ht2, Ht1, Hs3, Hs2, Hs1, Hc3, Hc2, Hc1, Ha3.
  split_and!; [lia|lia|lia|done|].
  apply not_and_l in Hst as [Heq%dec_stable|Heq%dec_stable]; rewrite Heq; repeat constructor.
Qed.

(** ** Values the operations store *)

Lemma updated_post_ok req req' post t :
  validateBlog req = Ok req' → post_ok post →
  post_ok (post <|bp_Slug := ubr_Slug req'|> <|bp_Title := ubr_Title req'|>
             <|bp_Summary := ubr_Summary req'|> <|bp_Content := ubr_Content req'|>
             <|bp_Author := ubr_Author req'|> <|bp_Tags := ubr_Tags req'|>
             <|bp_Status := ubr_Status req'|> <|bp_UpdatedAt := t|>
             <|bp_PublishedAt := if decide (ubr_Status req' = "published"
                                            ∧ bp_PublishedAt post = None)
                                 then Some t else bp_PublishedAt post|>).
Proof.
  intros (?&?&?&?&?)%validateBlog_Ok []. split; simpl; try done.
  intros Hs. case_decide as Hp; [by eexists|].
  destruct (bp_PublishedAt post); [by eexists|]. by destruct Hp.
Qed.

Lemma new_post_ok pid req req' t :
  validateBlog req = Ok req' →
  post_ok (mkBlogPost pid (ubr_Slug req') (ubr_Title req') (ubr_Summary req')
             (ubr_Content req') (ubr_Author req') (ubr_Tags req') (ubr_Status req') t t
             (if decide (ubr_Status req' = "published") then Some t else None)).
Proof.
  intros (?&?&?&?&?)%validateBlog_Ok. split; simpl; try done.
  intros Hs. rewrite decide_True by done. by eexists.
Qed.

#[export] Hint Resolve new_post_ok : go_values.
#[export] Hint Extern 1 (post_ok _) => eapply updated_post_ok : go_values.

(** ** Slugs *)

(** Where identifiers are distinct, the guard of an upsert keeps slugs so too. *)
Lemma slug_update posts i post post' postID :
  keys_unique bp_Slug posts → keys_unique bp_ID posts →
  posts !! i = Some post → bp_ID post = postID →
  ¬ Exists (λ p, bp_Slug p = bp_Slug post' ∧ bp_ID p ≠ postID) posts →
  keys_unique bp_Slug (<[i := post']> posts).
Proof.
  intros Hs Hid Hi Hp Hn. apply keys_unique_insert_new; [done|]. intros j z Hj Hz.
  destruct (decide (bp_ID z = postID)) as [Heq|Hne].
  - eapply NoDup_lookup; [exact Hid|..]; rewrite list_lookup_fmap; [by rewrite Hj|].
    rewrite Hi. simpl. congruence.
  - destruct Hn. apply Exists_exists. exists z. split; [|done].
    by eapply list_elem_of_lookup_2.
Qed.

Lemma slug_new posts post postID :
  keys_unique bp_Slug posts → list_find (λ p, bp_ID p = postID) posts = None →
  ¬ Exists (λ p, bp_Slug p = bp_Slug post ∧ bp_ID p ≠ postID) posts →
  keys_unique bp_Slug (post :: posts).
Proof.
  intros Hs Hf Hn. apply keys_unique_cons; [done|]. intros y Hy Heq.
  destruct Hn. apply Exists_exists. exists y. split_and!; try done.
  by eapply list_find_miss in Hf.
Qed.
