(* ===== verification/Projects.v ===== *)
(** * Projects and their Git repositories (internal/store/store.go, workloads.go) *)

From S2P Require Import Prelude GoStrings Urls Types World.

Open Scope string_scope.

Definition newline_tab_chars : string :=
  String (Ascii.ascii_of_N 10) (String (Ascii.ascii_of_N 13)
    (String (Ascii.ascii_of_N 9) " ")).

Section operations.
Context `{Host}.

Definition git_provider (raw : string) : string :=
  let lower := ToLower raw in
  if Contains lower "github.com" then "github" else
  if Contains lower "gitlab.com" then "gitlab" else
  if Contains lower "bitbucket.org" then "bitbucket" else "git".

(** The URL is an SSH one, or HTTPS without embedded credentials. *)
Definition git_url_error (raw : string) : option gerror :=
  if HasPrefix raw "git@" then
    if negb (Contains raw ":") || ContainsAny raw newline_tab_chars
    then Some (ErrMsg "invalid SSH repository URL") else None
  else
    match Parse raw with
    | None => Some (ErrMsg "repository URL must use HTTPS or the git@host:path SSH form")
    | Some parsed =>
        if decide (u_Scheme parsed ≠ "https" ∨ u_Host parsed = "")
        then Some (ErrMsg "repository URL must use HTTPS or the git@host:path SSH form")
        else if decide (u_User parsed ≠ None)
        then Some (ErrMsg "repository credentials must not be embedded in the URL")
        else None
    end.

Definition validateGitRepository (req : SetProjectRepositoryRequest) : result GitRepository :=
  let raw := TrimSpace (spr_URL req) in
  if decide (raw = "") then Err (ErrMsg "repository URL is required") else
  match git_url_error raw with
  | Some e => Err e
  | None =>
      let branch := TrimSpace (spr_DefaultBranch req) in
      let branch := if decide (branch = "") then "main" else branch in
      if ContainsAny branch " ~^:?*[\" || HasPrefix branch "-" || Contains branch ".."
      then Err (ErrMsg "invalid default branch")
      else Ok (mkGitRepository raw (git_provider raw) branch (TrimSpace (spr_LastCommit req)) None)
  end.

Definition Projects : M (list Project) := d ← data; mret (clone (st_Projects d)).

Definition Project_get (projectID : string) : R Project :=
  d ← data;
  match list_find (λ p, prj_ID p = projectID) (st_Projects d) with
  | Some (_, p) => mret (p, None)
  | None => fail ErrNotFound
  end.

Definition CreateProject (req : CreateProjectRequest) (actor : list string) : R Project :=
  let name := TrimSpace (cpr_Name req) in
  if decide (String.length name < 3)
  then fail (ErrMsg "name must contain at least 3 characters") else
  let template := if decide (cpr_Template req = "") then "tabular-classification"
                  else cpr_Template req in
  d ← data;
  if decide (Exists (λ v, EqualFold (prj_Name v) name) (st_Projects d))
  then fail ErrConflict else
  pid ← id "prj";
  created ← now;
  let repository :=
    if decide (TrimSpace (cpr_RepositoryURL req) = "") then Ok None
    else Some <$> validateGitRepository
                    (mkSetProjectRepositoryRequest (cpr_RepositoryURL req)
                       (cpr_DefaultBranch req) "") in
  match repository with
  | Err e => fail e
  | Ok repository =>
      let p := mkProject pid name (TrimSpace (cpr_Description req)) template (slug name)
                 "ready" created (cpr_OwnerSubject req) repository in
      _ ← modify (λ d, d <|st_Projects := p :: st_Projects d|>);
      _ ← record "project.created" "project" (prj_ID p) (first actor) ∅;
      finish p
  end.

Definition SetProjectRepository (projectID : string) (req : SetProjectRepositoryRequest)
    (actor : string) : R Project :=
  match validateGitRepository req with
  | Err e => fail e
  | Ok repository =>
      d ← data;
      match list_find (λ p, prj_ID p = projectID) (st_Projects d) with
      | Some (i, p) =>
          t ← now;
          let repository := repository <|git_SyncedAt := Some t|> in
          let p := p <|prj_Repository := Some repository|> in
          _ ← modify (λ d, d <|st_Projects := <[i := p]> (st_Projects d)|>);
          _ ← record "project.repository_updated" "project" projectID actor
                {["provider" := AStr (git_Provider repository)]};
          finish p
      | None => fail ErrNotFound
      end
  end.
End operations.

(** ** Invariants *)

(** Two projects never have names that differ in case only. *)
Definition project_key (p : Project) : string := fold_case (prj_Name p).

Record project_ok (p : Project) : Prop := {
  proj_name : (3 ≤ String.length (prj_Name p))%nat;
  proj_template : prj_Template p ≠ "";
  proj_status : prj_Status p = "ready"
}.

Lemma new_project_ok pid name description template namespace t owner repository :
  ¬ (String.length name < 3)%nat →
  project_ok (mkProject pid name description
    (if decide (template = "") then "tabular-classification" else template) namespace "ready"
    t owner repository).
Proof. intros Hn. split; simpl; [lia|by case_decide|done]. Qed.

Lemma updated_project_ok p repository :
  project_ok p → project_ok (p <|prj_Repository := repository|>).
Proof. by intros []. Qed.

#[export] Hint Resolve new_project_ok : go_values.
#[export] Hint Extern 1 (project_ok _) => eapply updated_project_ok : go_values.
