(* ===== verification/Pipelines.v ===== *)
(** * Pipeline definitions (internal/store/workloads.go)

    The validation of a pipeline definition, its search for cycles in the job
    graph, and the stored definitions.  The search is the code's depth-first
    [visit] over two sets of marks; fuel stands for its recursion, and
    [visit_spec] shows that one more than the number of jobs is enough. *)

From Stdlib Require Import Ascii.
From S2P Require Import Prelude GoStrings Types World.

Open Scope string_scope.

(** ** The regular expressions *)

Definition quantity_suffixes : list string := [""; "m"; "Mi"; "Gi"].

Fixpoint quantity_tail (s : string) : bool :=
  match s with
  | String d s' => if is_digit d then quantity_tail s' else bool_decide (s ∈ quantity_suffixes)
  | EmptyString => true
  end.

(** [^[1-9][0-9]*(m|Mi|Gi)?$] *)
Definition resourceQuantity (s : string) : bool :=
  match s with
  | String d s' => byte_in 49 57 d && quantity_tail s'
  | EmptyString => false
  end.

Definition is_label_byte (a : ascii) : bool := is_lower_alnum a || byte_is 45 a.

Fixpoint label_tail (s : string) : bool :=
  match s with
  | EmptyString => true
  | String a EmptyString => is_lower_alnum a
  | String a s' => is_label_byte a && label_tail s'
  end.

(** [^[a-z0-9](?:[a-z0-9-]{0,61}[a-z0-9])?$] *)
Definition functionName (s : string) : bool :=
  match s with
  | String a s' => is_lower_alnum a && label_tail s' && (String.length s' <=? 62)%nat
  | EmptyString => false
  end.

(** ** Iteration over a map

    [range] visits every key of a map once, in an order the language leaves
    open. *)
Class MapOrder := {
  map_order : ∀ {V : Type}, gmap string V → list string;
  map_order_perm : ∀ {V} (m : gmap string V), map_order m ≡ₚ (map_to_list m).*1
}.

(** The order in which [map_to_list] lists a map. *)
Definition listed_order : MapOrder := {|
  map_order := λ V m, (map_to_list m).*1;
  map_order_perm := λ V m, reflexivity _
|}.

(** ** The search for cycles *)

(** The maps [visiting] and [visited], as the sets of their true keys. *)
Record marks := mkMarks { visiting : gset string; visited : gset string }.
#[export] Instance eta_marks : Eta marks := λ m, mkMarks (visiting m) (visited m).

(** [for ... { if !visit(name) { return false } }] *)
Fixpoint visit_all (visit : string → marks → option (bool * marks))
    (names : list string) (m : marks) : option (bool * marks) :=
  match names with
  | [] => Some (true, m)
  | name :: rest =>
      match visit name m with
      | Some (true, m) => visit_all visit rest m
      | r => r
      end
  end.

Definition job_parents (byName : gmap string PipelineJob) (name : string) : list string :=
  match byName !! name with Some job => job_DependsOn job | None => [] end.

Fixpoint visit (byName : gmap string PipelineJob) (fuel : nat) (name : string) (m : marks)
    : option (bool * marks) :=
  match fuel with
  | O => None
  | S fuel =>
      if decide (name ∈ visiting m) then Some (false, m) else
      if decide (name ∈ visited m) then Some (true, m) else
      let m := m <|visiting := {[name]} ∪ visiting m|> in
      match visit_all (visit byName fuel) (job_parents byName name) m with
      | Some (true, m) =>
          Some (true, m <|visiting := visiting m ∖ {[name]}|>
                        <|visited := {[name]} ∪ visited m|>)
      | r => r
      end
  end.

(** ** Validation *)

Definition valid_modes : list string := ["prefect"; "functions"].

(** One turn of the first loop: the guards on a job whose name and kind are
    already trimmed. *)
Definition check_job (mode : string) (job : PipelineJob) (known : gset string)
    : option gerror :=
  if decide (job_Name job = "" ∨ job_Name job ∈ known)
  then Some (ErrMsg "job names must be non-empty and unique") else
  if decide (job_Kind job ≠ "function" ∧ job_Kind job ≠ "container")
  then Some (ErrMsg "job kind must be function or container") else
  if decide (job_Kind job = "function" ∧ TrimSpace (job_Function job) = "")
  then Some (ErrMsg "function jobs require function") else
  if decide (job_Kind job = "container" ∧ TrimSpace (job_Image job) = "")
  then Some (ErrMsg "container jobs require image") else
  if decide (mode = "functions" ∧ job_Kind job ≠ "function")
  then Some (ErrMsg "functions execution mode only accepts function jobs") else
  if decide (jr_CPU (job_Resources job) ≠ "" ∧ resourceQuantity (jr_CPU (job_Resources job)) = false)
  then Some (ErrMsg "job CPU must be a Kubernetes quantity such as 500m or 2") else
  if decide (jr_Memory (job_Resources job) ≠ ""
             ∧ resourceQuantity (jr_Memory (job_Resources job)) = false)
  then Some (ErrMsg "job memory must be a quantity such as 512Mi or 2Gi") else
  if decide (job_Retries job < 0 ∨ jr_GPU (job_Resources job) < 0)%Z
  then Some (ErrMsg "job retries and GPU count cannot be negative") else None.

Definition trim_job (job : PipelineJob) : PipelineJob :=
  job <|job_Name := TrimSpace (job_Name job)|> <|job_Kind := TrimSpace (job_Kind job)|>.

Fixpoint check_jobs (mode : string) (jobs : list PipelineJob) (known : gset string)
    : result (list PipelineJob * gset string) :=
  match jobs with
  | [] => Ok ([], known)
  | job :: rest =>
      let job := trim_job job in
      match check_job mode job known with
      | Some e => Err e
      | None =>
          '(rest, known) ← check_jobs mode rest ({[job_Name job]} ∪ known);
          Ok (job :: rest, known)
      end
  end.

(** A dependency that is the job itself or names no job. *)
Definition bad_dependency (known : gset string) (job : PipelineJob) : Prop :=
  Exists (λ dependency, dependency = job_Name job ∨ dependency ∉ known) (job_DependsOn job).
#[export] Instance bad_dependency_dec known job : Decision (bad_dependency known job).
Proof. unfold bad_dependency. apply _. Defined.

(** [byName[job.Name] = job], job after job. *)
Definition jobs_byName (jobs : list PipelineJob) : gmap string PipelineJob :=
  foldl (λ m job, <[job_Name job := job]> m) ∅ jobs.

Definition pipeline_fuel (jobs : list PipelineJob) : nat := S (length jobs).

(** A request without an execution mode asks for Prefect. *)
Definition default_mode (req : UpsertPipelineDefinitionRequest)
    : UpsertPipelineDefinitionRequest :=
  if decide (upd_ExecutionMode req = "") then req <|upd_ExecutionMode := "prefect"|> else req.

Section validation.
Context `{MapOrder}.

Definition validatePipelineDefinition (req : UpsertPipelineDefinitionRequest)
    : result UpsertPipelineDefinitionRequest :=
  let req := req <|upd_Name := TrimSpace (upd_Name req)|>
                 <|upd_Version := TrimSpace (upd_Version req)|> in
  if decide (upd_ProjectID req = "" ∨ upd_Name req = "" ∨ upd_Version req = ""
             ∨ length (upd_Jobs req) = 0%nat)
  then Err (ErrMsg "project_id, name, version and at least one job are required") else
  let req := default_mode req in
  if decide (upd_ExecutionMode req ≠ "prefect" ∧ upd_ExecutionMode req ≠ "functions")
  then Err (ErrMsg "execution_mode must be prefect or functions") else
  '(jobs, known) ← check_jobs (upd_ExecutionMode req) (upd_Jobs req) ∅;
  let req := req <|upd_Jobs := jobs|> in
  if decide (Exists (bad_dependency known) (upd_Jobs req))
  then Err (ErrMsg "job dependencies must reference another job") else
  let byName := jobs_byName (upd_Jobs req) in
  match visit_all (visit byName (pipeline_fuel (upd_Jobs req))) (map_order byName)
          (mkMarks ∅ ∅) with
  | Some (true, _) => Ok req
  | Some (false, _) => Err (ErrMsg "pipeline graph contains a cycle")
  | None => Err (ErrMsg "out of fuel")
  end.
End validation.

(** ** The stored definitions *)

Definition pipelineDefinitionFrom (values : list PipelineDefinition) (definitionID : string)
    : result PipelineDefinition :=
  match list_find (λ definition, pd_ID definition = definitionID) values with
  | Some (_, definition) => Ok definition
  | None => Err ErrNotFound
  end.

(** The definition an upsert updates: the one with the given ID or, without an
    ID, the one of the same project, name and version. *)
Definition updates_definition (definitionID : string) (req : UpsertPipelineDefinitionRequest)
    (v : PipelineDefinition) : Prop :=
  pd_ID v = definitionID
  ∨ (definitionID = "" ∧ pd_ProjectID v = upd_ProjectID req ∧ pd_Name v = upd_Name req
     ∧ pd_Version v = upd_Version req).
#[export] Instance updates_definition_dec definitionID req v :
  Decision (updates_definition definitionID req v).
Proof. unfold updates_definition. apply _. Defined.

Section operations.
Context `{Host} `{MapOrder}.

Definition PipelineDefinitions : M (list PipelineDefinition) :=
  d ← data; mret (clone (st_Definitions d)).

Definition PipelineDefinition_get (definitionID : string) : R PipelineDefinition :=
  d ← data;
  match pipelineDefinitionFrom (st_Definitions d) definitionID with
  | Ok definition => mret (definition, None)
  | Err e => fail e
  end.

Definition UpsertPipelineDefinition (definitionID : string)
    (req : UpsertPipelineDefinitionRequest) (actor : string) : R PipelineDefinition :=
  match validatePipelineDefinition req with
  | Err e => fail e
  | Ok req =>
      d ← data;
      if decide (¬ hasProject (st_Projects d) (upd_ProjectID req)) then fail ErrNotFound else
      t ← now;
      match list_find (updates_definition definitionID req) (st_Definitions d) with
      | Some (i, definition) =>
          let definition := definition <|pd_Name := upd_Name req|>
            <|pd_Version := upd_Version req|> <|pd_ExecutionMode := upd_ExecutionMode req|>
            <|pd_Jobs := upd_Jobs req|> <|pd_RepositoryURL := upd_RepositoryURL req|>
            <|pd_CommitSHA := upd_CommitSHA req|> <|pd_UpdatedAt := t|> in
          _ ← modify (λ d, d <|st_Definitions := <[i := definition]> (st_Definitions d)|>);
          _ ← record "pipeline_definition.updated" "pipeline_definition" (pd_ID definition)
                actor ∅;
          finish definition
      | None =>
          did ← id "pipe";
          let definition := mkPipelineDefinition did (upd_ProjectID req) (upd_Name req)
            (upd_Version req) (upd_ExecutionMode req) (upd_Jobs req) (upd_RepositoryURL req)
            (upd_CommitSHA req) t t in
          _ ← modify (λ d, d <|st_Definitions := definition :: st_Definitions d|>);
          _ ← record "pipeline_definition.created" "pipeline_definition" (pd_ID definition)
                actor ∅;
          finish definition
      end
  end.
End operations.

(** [stepsFromDefinition]: the steps a run of the definition starts with. *)
Definition stepsFromDefinition (definition : PipelineDefinition) : list PipelineStep :=
  (λ job,
     let image := if decide (job_Kind job = "function")
                  then "function://" ++ job_Function job else job_Image job in
     mkPipelineStep (job_Name job) "pending" image (job_DependsOn job) 0)
  <$> pd_Jobs definition.

(** ** The job graph *)

(** [depends byName b a]: job [b] waits for job [a], read off the search's map. *)
Definition depends (byName : gmap string PipelineJob) (child parent : string) : Prop :=
  parent ∈ job_parents byName child.

Definition acyclic (byName : gmap string PipelineJob) : Prop :=
  ∀ name, ¬ tc (depends byName) name name.

(** The same relation, read off the list of jobs. *)
Definition waits_for (jobs : list PipelineJob) (child parent : string) : Prop :=
  ∃ job, job ∈ jobs ∧ job_Name job = child ∧ parent ∈ job_DependsOn job.

(** What the validation promises of the definitions it accepts. *)
Record job_ok (mode : string) (job : PipelineJob) : Prop := {
  ok_name : job_Name job ≠ "" ∧ TrimSpace (job_Name job) = job_Name job;
  ok_kind : job_Kind job = "function" ∨ job_Kind job = "container";
  ok_function : job_Kind job = "function" → TrimSpace (job_Function job) ≠ "";
  ok_image : job_Kind job = "container" → TrimSpace (job_Image job) ≠ "";
  ok_mode : mode = "functions" → job_Kind job = "function";
  ok_cpu : jr_CPU (job_Resources job) = "" ∨ resourceQuantity (jr_CPU (job_Resources job)) = true;
  ok_memory : jr_Memory (job_Resources job) = ""
              ∨ resourceQuantity (jr_Memory (job_Resources job)) = true;
  ok_retries : (0 ≤ job_Retries job)%Z;
  ok_gpu : (0 ≤ jr_GPU (job_Resources job))%Z
}.

Record jobs_ok (mode : string) (jobs : list PipelineJob) : Prop := {
  jobs_each : Forall (job_ok mode) jobs;
  jobs_distinct : keys_unique job_Name jobs;
  jobs_deps : ∀ job dep, job ∈ jobs → dep ∈ job_DependsOn job →
                dep ≠ job_Name job ∧ dep ∈ job_Name <$> jobs;
  jobs_acyclic : ∀ name, ¬ tc (waits_for jobs) name name
}.

Record definition_ok (req : UpsertPipelineDefinitionRequest) : Prop := {
  def_project : upd_ProjectID req ≠ "";
  def_name : upd_Name req ≠ "" ∧ TrimSpace (upd_Name req) = upd_Name req;
  def_version : upd_Version req ≠ "" ∧ TrimSpace (upd_Version req) = upd_Version req;
  def_mode : upd_ExecutionMode req ∈ valid_modes;
  def_some_job : upd_Jobs req ≠ [];
  def_jobs : jobs_ok (upd_ExecutionMode req) (upd_Jobs req)
}.

Record stored_ok (definition : PipelineDefinition) : Prop := {
  sto_names : pd_Name definition ≠ "" ∧ pd_Version definition ≠ "";
  sto_mode : pd_ExecutionMode definition ∈ valid_modes;
  sto_some : pd_Jobs definition ≠ [];
  sto_jobs : jobs_ok (pd_ExecutionMode definition) (pd_Jobs definition)
}.

(** The request as the validation hands it back: trimmed, with its default. *)
Definition normalized (req : UpsertPipelineDefinitionRequest)
    : UpsertPipelineDefinitionRequest :=
  req <|upd_Name := TrimSpace (upd_Name req)|> <|upd_Version := TrimSpace (upd_Version req)|>
      <|upd_ExecutionMode := if decide (upd_ExecutionMode req = "") then "prefect"
                             else upd_ExecutionMode req|>
      <|upd_Jobs := trim_job <$> upd_Jobs req|>.

(** ** The search decides acyclicity *)

Lemma elem_of_map_order `{MapOrder} {V} (m : gmap string V) k :
  k ∈ map_order m ↔ k ∈ dom m.
Proof.
  rewrite map_order_perm, elem_of_dom, list_elem_of_fmap. split.
  - intros ([k' v]&->&Hkv%elem_of_map_to_list). by exists v.
  - intros [v Hv]. exists (k, v). by rewrite elem_of_map_to_list.
Qed.

Section search.
Context (byName : gmap string PipelineJob).

Let child_of (parent child : string) : Prop := depends byName child parent.

(** A name from which no infinite chain of dependencies starts. *)
Definition grounded (name : string) : Prop := Acc child_of name.

Lemma grounded_no_cycle name : grounded name → ¬ tc (depends byName) name name.
Proof.
  induction 1 as [name _ IH]. intros Hc.
  assert (∃ p, depends byName name p ∧ rtc (depends byName) p name) as (p&Hp&Hr).
  { inversion Hc; subst; eexists; split; eauto using tc_rtc. }
  apply (IH p Hp). eapply tc_rtc_l; [exact Hr | by apply tc_once].
Qed.

(** Every visited name is grounded. *)
Definition marks_ok (m : marks) : Prop := ∀ name, name ∈ visited m → grounded name.

(** The open names all lead to the name about to be visited. *)
Definition open_before (name : string) (m : marks) : Prop :=
  ∀ g, g ∈ visiting m → tc (depends byName) g name.

Definition room (m : marks) : nat := size (dom byName ∖ visiting m).

(** What a search that ends reports. *)
Definition search_result (names : list string) (m : marks) (r : option (bool * marks)) : Prop :=
  ∃ b m', r = Some (b, m')
    ∧ if b then visiting m' = visiting m ∧ marks_ok m' ∧ (∀ n, n ∈ names → grounded n)
      else ∃ n, tc (depends byName) n n.

Definition visit_ok (f : string → marks → option (bool * marks)) (k : nat) : Prop :=
  ∀ name m, marks_ok m → open_before name m → (room m < k)%nat →
    search_result [name] m (f name m).

Lemma visit_all_spec f k names m :
  visit_ok f k → marks_ok m → (room m < k)%nat →
  (∀ n, n ∈ names → open_before n m) →
  search_result names m (visit_all f names m).
Proof.
  intros Hf. revert m. induction names as [|n names IH]; intros m Hm Hk Hopen; simpl.
  - exists true, m. split; [done|]. split_and!; [done|done|]. by intros n ?%not_elem_of_nil.
  - destruct (Hf n m) as (b&m'&->&Hb); [done|apply Hopen; left|done|].
    destruct b; [|exists false, m'; split; [done|exact Hb]].
    destruct Hb as (Hv&Hm'&Hn).
    destruct (IH m') as (b&m''&->&Hb); [done|..].
    + unfold room. by rewrite Hv.
    + intros x Hx g. rewrite Hv. apply Hopen. by right.
    + exists b, m''. split; [done|]. destruct b; [|done].
      destruct Hb as (Hv'&?&Hns). split_and!; [congruence|done|].
      intros x [->|Hx]%elem_of_cons; [apply Hn; left|by apply Hns].
Qed.

Lemma room_open name m :
  name ∈ dom byName → name ∉ visiting m →
  (room (m <|visiting := {[name]} ∪ visiting m|>) < room m)%nat.
Proof. intros ??. unfold room. apply subset_size. simpl. set_solver. Qed.

Lemma visit_spec fuel : visit_ok (visit byName fuel) fuel.
Proof.
  induction fuel as [|fuel IH]; intros name m Hm Hopen Hk; [lia|]. cbn [visit]; cbv zeta.
  case_decide as Hg. { exists false, m. split; [done|]. exists name. by apply Hopen. }
  case_decide as Hd.
  { exists true, m. split; [done|]. split_and!; [done|done|].
    intros n ->%list_elem_of_singleton. by apply Hm. }
  set (m1 := m <|visiting := _|>).
  assert (search_result (job_parents byName name) m1
            (visit_all (visit byName fuel) (job_parents byName name) m1)) as (b&m'&->&Hb).
  { destruct (byName !! name) as [job|] eqn:Hj.
    - eapply visit_all_spec; [exact IH | done | |].
      + assert (room m1 < room m)%nat; [|lia].
        apply room_open; [apply elem_of_dom; eauto | done].
      + intros p Hp g. simpl. intros [->%elem_of_singleton|Hg']%elem_of_union.
        * by apply tc_once.
        * eapply tc_r; [by apply Hopen | exact Hp].
    - unfold job_parents. rewrite Hj. exists true, m1. split; [done|].
      split_and!; [done|done|]. by intros n ?%not_elem_of_nil. }
  destruct b; [|exists false, m'; split; [done|exact Hb]].
  destruct Hb as (Hv&Hm'&Hps). eexists true, _. split; [done|].
  assert (grounded name) as Hname by (by constructor).
  split_and!; simpl.
  - rewrite Hv. unfold m1. simpl. set_solver.
  - intros n. simpl. intros [->%elem_of_singleton|?]%elem_of_union; [done|by apply Hm'].
  - by intros n ->%list_elem_of_singleton.
Qed.

(** With the marks empty and room for every name, the search answers, and
    answers [true] exactly on an acyclic graph. *)
Lemma search_decides `{MapOrder} fuel :
  (size (dom byName) < fuel)%nat →
  ∃ b m, visit_all (visit byName fuel) (map_order byName) (mkMarks ∅ ∅) = Some (b, m)
    ∧ (if b then acyclic byName else ∃ name, tc (depends byName) name name).
Proof.
  intros Hf.
  destruct (visit_all_spec (visit byName fuel) fuel (map_order byName) (mkMarks ∅ ∅))
    as (b&m&->&Hb); [apply visit_spec|done| |done|].
  { unfold room. simpl. by rewrite difference_empty_L. }
  exists b, m. split; [done|]. destruct b; [|exact Hb].
  - destruct Hb as (_&_&Hall). intros n Hn.
    destruct (byName !! n) as [job|] eqn:Hj.
    + apply (grounded_no_cycle n); [|done]. apply Hall, elem_of_map_order, elem_of_dom. eauto.
    + assert (∃ p, depends byName n p) as [p Hp] by (inversion Hn; eauto).
      unfold depends, job_parents in Hp. rewrite Hj in Hp. by apply not_elem_of_nil in Hp.
Qed.
End search.

(** ** The map of jobs by name *)

Lemma jobs_byName_app jobs m :
  foldl (λ m job, <[job_Name job := job]> m) m jobs = jobs_byName jobs ∪ m.
Proof.
  unfold jobs_byName. induction jobs as [|job jobs IH] using rev_ind; simpl.
  - by rewrite (left_id_L ∅ (∪)).
  - by rewrite !foldl_app, IH; simpl; rewrite insert_union_l.
Qed.

Lemma jobs_byName_cons job jobs :
  jobs_byName (job :: jobs) = jobs_byName jobs ∪ {[job_Name job := job]}.
Proof. unfold jobs_byName at 1. simpl. apply jobs_byName_app. Qed.

Lemma dom_jobs_byName jobs : dom (jobs_byName jobs) = list_to_set (job_Name <$> jobs).
Proof.
  induction jobs as [|job jobs IH]; [apply dom_empty_L|].
  rewrite jobs_byName_cons, dom_union_L, dom_singleton_L, IH. simpl. set_solver.
Qed.

Lemma size_jobs_byName jobs : (size (dom (jobs_byName jobs)) < pipeline_fuel jobs)%nat.
Proof.
  rewrite dom_jobs_byName. unfold pipeline_fuel.
  rewrite <- (length_fmap job_Name jobs). generalize (job_Name <$> jobs). intros l.
  assert (size (list_to_set l : gset string) ≤ length l)%nat; [|lia].
  induction l as [|x l IH]; simpl; [done|].
  rewrite size_union_alt, size_singleton.
  assert (size (list_to_set l ∖ {[x]} : gset string) ≤ size (list_to_set l : gset string))%nat
    by (apply subseteq_size; set_solver). lia.
Qed.

Lemma lookup_jobs_byName jobs job :
  keys_unique job_Name jobs → job ∈ jobs → jobs_byName jobs !! job_Name job = Some job.
Proof.
  induction jobs as [|j jobs IH]; intros Hu Hin; [by apply not_elem_of_nil in Hin|].
  unfold keys_unique in Hu. simpl in Hu. apply NoDup_cons in Hu as [Hj Hu].
  rewrite jobs_byName_cons. apply elem_of_cons in Hin as [->|Hin].
  - rewrite lookup_union_r; [apply lookup_singleton_eq|].
    apply not_elem_of_dom. rewrite dom_jobs_byName. by rewrite elem_of_list_to_set.
  - by apply lookup_union_Some_l, IH.
Qed.

Lemma lookup_jobs_byName_inv jobs name job :
  jobs_byName jobs !! name = Some job → job ∈ jobs ∧ job_Name job = name.
Proof.
  induction jobs as [|j jobs IH]; [done|]. rewrite jobs_byName_cons.
  intros [?|[_ [<- <-]%lookup_singleton_Some]]%lookup_union_Some_raw; [|split; [left|done]].
  destruct IH as [??]; [done|]. split; [by right|done].
Qed.

Lemma depends_waits_for jobs child parent :
  keys_unique job_Name jobs →
  depends (jobs_byName jobs) child parent ↔ waits_for jobs child parent.
Proof.
  intros Hu. unfold depends, job_parents, waits_for. split.
  - destruct (jobs_byName jobs !! child) as [job|] eqn:Hj; [|by intros ?%not_elem_of_nil].
    apply lookup_jobs_byName_inv in Hj as [??]. eauto.
  - intros (job&Hin&<-&Hp). by rewrite lookup_jobs_byName.
Qed.

Lemma acyclic_waits_for jobs :
  keys_unique job_Name jobs →
  acyclic (jobs_byName jobs) ↔ ∀ name, ¬ tc (waits_for jobs) name name.
Proof.
  intros Hu. unfold acyclic.
  split; intros Ha name Hc; apply (Ha name); revert Hc; apply tc_congruence with (f := λ x, x);
    intros x y; by rewrite depends_waits_for.
Qed.

(** ** The guards on jobs *)

Lemma check_job_None mode job known :
  check_job mode (trim_job job) known = None
  ↔ job_ok mode (trim_job job) ∧ job_Name (trim_job job) ∉ known.
Proof.
  pose proof (TrimSpace_idemp (job_Name job)) as Ht. unfold check_job. split.
  - intros Hc.
    do 8 (case_decide as Hguard; [discriminate|revert Hguard]).
    rewrite !not_and_l. simpl.
    intros Hneg Hmem Hcpu Hmode Himg Hfn Hkind [Hname Hknown]%Decidable.not_or.
    split; [|done]. split; simpl.
    + by rewrite Ht.
    + destruct Hkind as [?%dec_stable|?%dec_stable]; auto.
    + intros ?. by destruct Hfn.
    + intros ?. by destruct Himg.
    + intros ?. by destruct Hmode as [|?%dec_stable].
    + destruct Hcpu as [?%dec_stable|?%not_false_iff_true]; auto.
    + destruct Hmem as [?%dec_stable|?%not_false_iff_true]; auto.
    + lia.
    + lia.
  - intros [[Hname Hkind Hfn Himg Hmode Hcpu Hmem Hret Hgpu] Hk].
    rewrite !decide_False; [done|..]; try tauto; try lia; try (intros [? ?]; intuition congruence).
Qed.

Lemma union_known (name : string) (names : list string) (known : gset string) :
  list_to_set names ∪ ({[name]} ∪ known) = list_to_set (name :: names) ∪ known.
Proof. simpl. set_solver. Qed.

Lemma check_jobs_Ok mode jobs known jobs' known' :
  check_jobs mode jobs known = Ok (jobs', known')
  ↔ jobs' = trim_job <$> jobs ∧ known' = list_to_set (job_Name <$> jobs') ∪ known
    ∧ Forall (job_ok mode) jobs' ∧ keys_unique job_Name jobs'
    ∧ (∀ job, job ∈ jobs' → job_Name job ∉ known).
Proof.
  revert known jobs' known'. induction jobs as [|job jobs IH]; intros known jobs' known'.
  - simpl. unfold keys_unique. split.
    + intros [= <- <-]. split_and!; [done|set_solver|done|constructor|set_solver].
    + intros (->&->&_). simpl. f_equal. f_equal. set_solver.
  - cbn [check_jobs]; cbv zeta.
    destruct (check_job mode (trim_job job) known) as [e|] eqn:Hc.
    + split; [done|]. intros (->&->&Hall&Hu&Hk). exfalso.
      apply Forall_cons in Hall as [Hj _].
      assert (check_job mode (trim_job job) known = None); [|congruence].
      apply check_job_None. split; [done|]. apply Hk. simpl. left.
    + apply check_job_None in Hc as [Hj Hn].
      rewrite result_bind_Ok. split.
      * intros ([rest known1]&Hr&[= <- <-]). apply IH in Hr as (->&->&Hall&Hu&Hk).
        assert (∀ y, y ∈ trim_job <$> jobs →
                  job_Name y ≠ job_Name (trim_job job) ∧ job_Name y ∉ known) as Hk'.
        { intros y Hy. apply Hk, not_elem_of_union in Hy as [?%not_elem_of_singleton ?]. done. }
        split_and!; [done|apply union_known|by constructor|..].
        -- apply keys_unique_cons; [done|]. intros y Hy. by apply Hk'.
        -- intros x [->|Hx]%elem_of_cons; [done|]. by apply Hk'.
      * intros (->&->&Hall&Hu&Hk). rewrite fmap_cons in *. apply Forall_cons in Hall as [_ Hall].
        unfold keys_unique in Hu. rewrite fmap_cons in Hu. apply NoDup_cons in Hu as [Hj' Hu].
        eexists (_, _). split; [apply IH; split_and!; [reflexivity..|done|exact Hu|]|].
        -- intros x Hx. apply not_elem_of_union. split; [|apply Hk; by right].
           intros Heq%elem_of_singleton. apply Hj'. apply list_elem_of_fmap. exists x. by split.
        -- by rewrite union_known.
Qed.

(** ** What the validation accepts *)

Lemma search_jobs `{MapOrder} jobs :
  ∃ b m, visit_all (visit (jobs_byName jobs) (pipeline_fuel jobs))
           (map_order (jobs_byName jobs)) (mkMarks ∅ ∅) = Some (b, m)
         ∧ (if b then acyclic (jobs_byName jobs)
            else ∃ name, tc (depends (jobs_byName jobs)) name name).
Proof. apply search_decides, size_jobs_byName. Qed.

Lemma bad_dependencies mode jobs known :
  known = list_to_set (job_Name <$> jobs) →
  Forall (job_ok mode) jobs → keys_unique job_Name jobs →
  jobs_ok mode jobs ↔ ¬ Exists (bad_dependency known) jobs ∧ acyclic (jobs_byName jobs).
Proof.
  intros -> Hall Hu. split.
  - intros [_ _ Hdeps Ha]. split; [|by apply acyclic_waits_for].
    intros (job&Hjob&(dep&Hdep&Hbad)%Exists_exists)%Exists_exists.
    destruct (Hdeps job dep) as [? Hin]; [done|done|].
    destruct Hbad as [?|Hn]; [done|]. apply Hn. by rewrite elem_of_list_to_set.
  - intros [Hbad Ha]. split; [done|done| |by apply acyclic_waits_for].
    intros job dep Hjob Hdep.
    destruct (decide (dep ≠ job_Name job ∧ dep ∈ job_Name <$> jobs)) as [|Hn]; [done|].
    destruct Hbad. apply Exists_exists. exists job. split; [done|].
    apply Exists_exists. exists dep. split; [done|].
    apply not_and_l in Hn as [?%dec_stable|Hn]; [by left|right].
    by rewrite elem_of_list_to_set.
Qed.

Lemma trim_job_idemp job : trim_job (trim_job job) = trim_job job.
Proof. unfold trim_job. simpl. by rewrite !TrimSpace_idemp. Qed.

Lemma normalized_idemp req : normalized (normalized req) = normalized req.
Proof.
  unfold normalized. simpl. rewrite !TrimSpace_idemp, <- list_fmap_compose.
  f_equal; [by repeat case_decide|].
  apply list_fmap_ext. intros ? job _. apply trim_job_idemp.
Qed.

Lemma default_mode_normalized req :
  default_mode (req <|upd_Name := TrimSpace (upd_Name req)|>
                    <|upd_Version := TrimSpace (upd_Version req)|>)
  = (normalized req) <|upd_Jobs := upd_Jobs req|>.
Proof. unfold default_mode, normalized. simpl. by destruct (decide _). Qed.

(** The validation of a request that passed the guards before the jobs. *)
Lemma validate_jobs `{MapOrder} (req : UpsertPipelineDefinitionRequest) jobs known :
  let r := (normalized req) <|upd_Jobs := upd_Jobs req|> in
  check_jobs (upd_ExecutionMode r) (upd_Jobs r) ∅ = Ok (jobs, known) →
  jobs = upd_Jobs (normalized req) ∧ known = list_to_set (job_Name <$> jobs)
  ∧ Forall (job_ok (upd_ExecutionMode (normalized req))) jobs ∧ keys_unique job_Name jobs.
Proof.
  intros r (->&->&?&?&_)%check_jobs_Ok. split_and!; [done| |done|done].
  by rewrite (right_id_L ∅ (∪)).
Qed.

#[local] Arguments visit : simpl never.
#[local] Arguments visit_all : simpl never.

Section theorems.
Context `{MapOrder}.
Implicit Types req : UpsertPipelineDefinitionRequest.

Lemma validate_Ok_normalized req req' :
  validatePipelineDefinition req = Ok req' ↔ definition_ok (normalized req) ∧ req' = normalized req.
Proof.
  unfold validatePipelineDefinition. cbv zeta. split.
  - case_decide as Hreq; [discriminate|]. simpl in Hreq.
    apply Decidable.not_or in Hreq as [Hp [Hn [Hv Hj]%Decidable.not_or]%Decidable.not_or].
    rewrite default_mode_normalized.
    case_decide as Hmode; [discriminate|].
    intros ([jobs known]&Hc&Hrest)%result_bind_Ok.
    apply validate_jobs in Hc as (->&->&Hall&Hu). simpl in Hrest.
    case_decide as Hbad; [discriminate|].
    destruct (search_jobs (trim_job <$> upd_Jobs req)) as (b&m&Hs&Hb).
    rewrite Hs in Hrest. destruct b; [|discriminate]. injection Hrest as <-.
    split; [|done]. split; simpl.
    + done.
    + by rewrite TrimSpace_idemp.
    + by rewrite TrimSpace_idemp.
    + apply not_and_l in Hmode as [?%dec_stable|?%dec_stable]; simpl in *; set_solver.
    + intros Hnil. apply Hj. by destruct (upd_Jobs req).
    + eapply bad_dependencies; [reflexivity|done|done|]. by split.
  - intros [[Hp [Hn _] [Hv _] Hmode Hj Hjobs] ->].
    rewrite decide_False.
    2: { intros [?|[?|[?|Hnil%nil_length_inv]]]; [done..|].
         apply Hj. simpl in *. by rewrite Hnil. }
    rewrite default_mode_normalized.
    simpl. rewrite decide_False.
    2: { intros []. unfold valid_modes in Hmode. set_solver. }
    pose proof Hjobs as [Hall Hu _ _].
    rewrite (proj2 (check_jobs_Ok _ _ _ (trim_job <$> upd_Jobs req)
      (list_to_set (job_Name <$> (trim_job <$> upd_Jobs req)) ∪ ∅))); [simpl|set_solver].
    destruct (proj1 (bad_dependencies _ _ _ eq_refl Hall Hu) Hjobs) as [Hbad Ha].
    rewrite (right_id_L ∅ (∪)), decide_False; [|done].
    destruct (search_jobs (trim_job <$> upd_Jobs req)) as (b&m&->&Hb).
    destruct b; [done|]. destruct Hb as [n Hcyc]. by destruct (Ha n).
Qed.
End theorems.

(** ** Values the operations store *)

Lemma validate_Ok `{MapOrder} req req' :
  validatePipelineDefinition req = Ok req' → definition_ok req'.
Proof. intros [? ->]%validate_Ok_normalized. done. Qed.

Lemma updated_definition_ok `{MapOrder} req req' definition t :
  validatePipelineDefinition req = Ok req' →
  stored_ok (definition <|pd_Name := upd_Name req'|> <|pd_Version := upd_Version req'|>
    <|pd_ExecutionMode := upd_ExecutionMode req'|> <|pd_Jobs := upd_Jobs req'|>
    <|pd_RepositoryURL := upd_RepositoryURL req'|> <|pd_CommitSHA := upd_CommitSHA req'|>
    <|pd_UpdatedAt := t|>).
Proof. intros [? [? _] [? _] ???]%validate_Ok. by split. Qed.

Lemma new_definition_ok `{MapOrder} did req req' t :
  validatePipelineDefinition req = Ok req' →
  stored_ok (mkPipelineDefinition did (upd_ProjectID req') (upd_Name req') (upd_Version req')
    (upd_ExecutionMode req') (upd_Jobs req') (upd_RepositoryURL req') (upd_CommitSHA req') t t).
Proof. intros [? [? _] [? _] ???]%validate_Ok. by split. Qed.

#[export] Hint Resolve new_definition_ok : go_values.
#[export] Hint Extern 1 (stored_ok _) => eapply updated_definition_ok : go_values.

(** ** Properties *)

(** The search's verdict, whatever the order it visits the names in. *)
Lemma search_verdict `{O1 : MapOrder} `{O2 : MapOrder} jobs :
  ∃ b m1 m2,
    visit_all (visit (jobs_byName jobs) (pipeline_fuel jobs))
      (map_order (MapOrder := O1) (jobs_byName jobs)) (mkMarks ∅ ∅) = Some (b, m1)
    ∧ visit_all (visit (jobs_byName jobs) (pipeline_fuel jobs))
        (map_order (MapOrder := O2) (jobs_byName jobs)) (mkMarks ∅ ∅) = Some (b, m2)
    ∧ (if b then acyclic (jobs_byName jobs)
       else ∃ name, tc (depends (jobs_byName jobs)) name name).
Proof.
  destruct (@search_jobs O1 jobs) as (b1&m1&H1&Hb1), (@search_jobs O2 jobs) as (b2&m2&H2&Hb2).
  exists b1, m1, m2. split_and!; [done| |done].
  assert (b1 = b2) as ->; [|done].
  destruct b1, b2; try done.
  - destruct Hb2 as [n Hn]. by destruct (Hb1 n).
  - destruct Hb1 as [n Hn]. by destruct (Hb2 n).
Qed.

Lemma check_job_known mode job known e :
  check_job mode job known = Some e → e ∉ [ErrMsg "out of fuel"; ErrMsg "pipeline graph contains a cycle"].
Proof.
  unfold check_job. intros He. repeat case_decide; simplify_eq/=; set_solver.
Qed.

Lemma check_jobs_known mode jobs known e :
  check_jobs mode jobs known = Err e → e ∉ [ErrMsg "out of fuel"; ErrMsg "pipeline graph contains a cycle"].
Proof.
  revert known. induction jobs as [|job jobs IH]; intros known; [done|].
  cbn [check_jobs]; cbv zeta. destruct (check_job _ _ _) eqn:Hc.
  - intros [= ->]. by eapply check_job_known.
  - destruct (check_jobs _ jobs _) as [[??]|e'] eqn:Hr; [done|]. intros [= ->]. by eapply IH.
Qed.

(** C2: the validation of a pipeline definition accepts exactly the well-formed
    ones (unique trimmed job names, known kinds, images, functions, quantities
    and counts, dependencies on other existing jobs, no cycle of dependencies),
    and returns the trimmed request with its default execution mode. *)
Theorem pipeline_validation_accepts `{MapOrder} req req' :
  validatePipelineDefinition req = Ok req'
  ↔ definition_ok (normalized req) ∧ req' = normalized req.
Proof. apply validate_Ok_normalized. Qed.

(** C3: the validation always ends with a verdict of its own (the fuel given to
    the search is enough on every input), its cycle error names a real cycle of
    the job graph, and Go's unspecified map iteration order never shows. *)
Theorem pipeline_validation_verdict (O1 O2 : MapOrder) req :
  validatePipelineDefinition (H := O1) req = validatePipelineDefinition (H := O2) req
  ∧ validatePipelineDefinition (H := O1) req ≠ Err (ErrMsg "out of fuel")
  ∧ (validatePipelineDefinition (H := O1) req = Err (ErrMsg "pipeline graph contains a cycle") →
     ∃ name, tc (waits_for (trim_job <$> upd_Jobs req)) name name).
Proof.
  unfold validatePipelineDefinition. cbv zeta.
  case_decide; [done|]. case_decide; [done|]. rewrite default_mode_normalized.
  destruct (check_jobs _ _ _) as [[jobs known]|e] eqn:Hc; simpl.
  2: { apply check_jobs_known in Hc. split_and!; [done|..]; intros [= ->]; set_solver. }
  apply validate_jobs in Hc as (->&_&Hall&Hu). simpl.
  case_decide; [done|].
  destruct (search_verdict (O1 := O1) (O2 := O2) (trim_job <$> upd_Jobs req))
    as (b&m1&m2&->&->&Hb).
  destruct b; [done|]. split_and!; [done..|]. intros _.
  destruct Hb as [n Hn]. exists n. revert Hn. apply tc_congruence with (f := λ x, x).
  intros x y. by apply depends_waits_for.
Qed.

(** Validating what the validation returned changes nothing. *)
Theorem pipeline_validation_idempotent `{MapOrder} req req' :
  validatePipelineDefinition req = Ok req' → validatePipelineDefinition req' = Ok req'.
Proof.
  rewrite !validate_Ok_normalized. intros [Hok ->]. by rewrite normalized_idemp.
Qed.

(** ** Witnesses *)

Definition churn_request : UpsertPipelineDefinitionRequest :=
  mkUpsertPipelineDefinitionRequest "prj-demo" " churn " "v1" ""
    [mkPipelineJob "prepare" "container" "" "busybox" [] [] ∅ (mkJobResources "500m" "1Gi" 0) 0;
     mkPipelineJob " train " "function" "train" "" [] ["prepare"] ∅ (mkJobResources "" "" 0) 2]
    "" "".

Lemma pipeline_validation_idempotent_witness :
  validatePipelineDefinition (H := listed_order) churn_request = Ok (normalized churn_request)
  ∧ validatePipelineDefinition (H := listed_order) (normalized churn_request)
    = Ok (normalized churn_request).
Proof.
  assert (validatePipelineDefinition (H := listed_order) churn_request
          = Ok (normalized churn_request)) as Hok by (vm_compute; reflexivity).
  split; [exact Hok|].
  exact (pipeline_validation_idempotent (H := listed_order) churn_request _ Hok).
Defined.
