(* ===== verification/Runs.v ===== *)
(** * Pipeline runs (internal/store/store.go, workloads.go)

    Submission, cancellation, retry and the reports of the executing pipeline:
    each report moves one step and recomputes the run's status and progress. *)

From Stdlib Require Import Ascii.
From S2P Require Import Prelude GoStrings Types World Pipelines.

Open Scope string_scope.

(** ** Steps *)

Definition runner_image : string := "mlaiops/pipeline-runner:latest".

Definition defaultSteps (status : string) : list PipelineStep :=
  let steps := [
    mkPipelineStep "validate-data" status runner_image [] 0;
    mkPipelineStep "train-model" status runner_image ["validate-data"] 0;
    mkPipelineStep "evaluate" status runner_image ["train-model"] 0;
    mkPipelineStep "register-model" status runner_image ["evaluate"] 0
  ] in
  if decide (status = "succeeded") then (λ s, s <|stp_Progress := 100%Z|>) <$> steps else steps.

Definition resetSteps (previous : list PipelineStep) : list PipelineStep :=
  (λ s, s <|stp_Status := "pending"|> <|stp_Progress := 0%Z|>) <$> previous.

Definition step_statuses : list string := ["pending"; "running"; "succeeded"; "failed"; "skipped"].

Definition validStepStatus (status : string) : bool := bool_decide (status ∈ step_statuses).

Definition stepMessage (req : UpdateRunStepRequest) : string :=
  if decide (urs_Message req ≠ "") then urs_Message req
  else "step " ++ urs_Step req ++ " " ++ urs_Status req.

(** A step that has nothing left to do. *)
Definition step_done (status : string) : Prop := status = "succeeded" ∨ status = "skipped".
#[export] Instance step_done_dec status : Decision (step_done status).
Proof. unfold step_done. apply _. Defined.

(** What a report does to the step it names. *)
Definition report_step (req : UpdateRunStepRequest) (step : PipelineStep) : PipelineStep :=
  let step := step <|stp_Status := urs_Status req|> in
  if decide (step_done (urs_Status req)) then step <|stp_Progress := 100%Z|> else step.

(** The first loop of [applyStepTransition]: update the step or append it. *)
Definition set_step (req : UpdateRunStepRequest) (steps : list PipelineStep)
    : list PipelineStep :=
  match list_find (λ step, stp_Name step = urs_Step req) steps with
  | Some (i, step) => <[i := report_step req step]> steps
  | None => steps ++ [report_step req (mkPipelineStep (urs_Step req) (urs_Status req) "" [] 0)]
  end.

(** The second loop: how many steps have a status of the given kind. *)
Definition count_steps (P : string → Prop) `{∀ s, Decision (P s)} (steps : list PipelineStep) : Z :=
  Z.of_nat (length (filter (λ step, P (stp_Status step)) steps)).

Definition applyStepTransition (run : PipelineRun) (req : UpdateRunStepRequest) : PipelineRun :=
  let run := run <|run_Steps := set_step req (run_Steps run)|> in
  let completed := count_steps step_done (run_Steps run) in
  let failed := count_steps (λ s, s = "failed") (run_Steps run) in
  let running := count_steps (λ s, s = "running") (run_Steps run) in
  let total := Z.of_nat (length (run_Steps run)) in
  let run := if decide (0 < total)%Z
             then run <|run_Progress := Z.quot (mul64 completed 100) total|> else run in
  if decide (0 < failed)%Z then run <|run_Status := "failed"|> else
  if decide (completed = total) then run <|run_Status := "succeeded"|> <|run_Progress := 100%Z|> else
  if decide (0 < running ∨ 0 < completed)%Z then run <|run_Status := "running"|> else run.

(** [fmt]'s [%q] on text: a quoted string with the escapes of a Go literal.
    Bytes from 128 up stand for printable UTF-8 and stay as they are. *)
Definition dquote : ascii := ascii_of_N 34.
Definition backslash : ascii := ascii_of_N 92.
Definition hex_digit (n : N) : ascii :=
  ascii_of_N (if (n <? 10)%N then 48 + n else 87 + n)%N.

Definition quote_byte (a : ascii) : string :=
  let n := N_of_ascii a in
  let esc c := String backslash (String c "") in
  if decide (a = dquote ∨ a = backslash) then esc a else
  match n with
  | 7 => esc "a" | 8 => esc "b" | 9 => esc "t" | 10 => esc "n"
  | 11 => esc "v" | 12 => esc "f" | 13 => esc "r"
  | _ => if decide (n < 32 ∨ n = 127)%N
         then esc "x" ++ String (hex_digit (n / 16)) (String (hex_digit (n mod 16)) "")
         else String a ""
  end%N%char.

Fixpoint quote_body (s : string) : string :=
  match s with EmptyString => "" | String a s' => quote_byte a ++ quote_body s' end.

Definition quote (s : string) : string := String dquote (quote_body s ++ String dquote "").

(** ** Runs *)

Definition terminal (status : string) : Prop :=
  status = "cancelled" ∨ status = "failed" ∨ status = "succeeded".
#[export] Instance terminal_dec status : Decision (terminal status).
Proof. unfold terminal. apply _. Defined.

(** What a report at time [t] does to its run: a terminal run keeps its state,
    late reports are only logged. *)
Definition report_run (t : Time) (req : UpdateRunStepRequest) (run : PipelineRun)
    : PipelineRun :=
  let level := if decide (urs_Status req = "failed") then "error" else "info" in
  let run := run <|run_Logs := app (run_Logs run)
                    [mkRunLog t (urs_Step req) level (stepMessage req)]|> in
  if decide (terminal (run_Status run)) then run
  else (applyStepTransition run req) <|run_UpdatedAt := t|>.

(** Where a submitted run gets its steps, mode and default name from. *)
Definition submission (d : state) (req : SubmitPipelineRequest)
    : result (list PipelineStep * string * string) :=
  if decide (sub_DefinitionID req ≠ "") then
    match pipelineDefinitionFrom (st_Definitions d) (sub_DefinitionID req) with
    | Err _ => Err ErrNotFound
    | Ok definition =>
        if decide (pd_ProjectID definition ≠ sub_ProjectID req) then Err ErrNotFound
        else Ok (stepsFromDefinition definition, pd_ExecutionMode definition,
                 if decide (TrimSpace (sub_Name req) = "") then pd_Name definition
                 else sub_Name req)
    end
  else Ok (defaultSteps "pending", "prefect", sub_Name req).

Section operations.
Context `{Host}.

Definition Runs : M (list PipelineRun) := d ← data; mret (clone (st_Runs d)).

Definition SubmitPipeline (req : SubmitPipelineRequest) (actor : list string) : R PipelineRun :=
  d ← data;
  if decide (¬ hasProject (st_Projects d) (sub_ProjectID req)) then fail ErrNotFound else
  match submission d req with
  | Err e => fail e
  | Ok (steps, mode, name) =>
      let name := if decide (TrimSpace name = "") then "training-pipeline" else name in
      t ← now;
      rid ← id "run";
      let run := mkPipelineRun rid (sub_ProjectID req) (TrimSpace name) "queued" 0 t t "" ""
                   (sub_DefinitionID req) mode (sub_Parameters req) steps
                   [mkRunLog t "" "info" "Run accepted by control plane"] in
      _ ← modify (λ d, d <|st_Runs := run :: st_Runs d|>);
      _ ← record "pipeline.submitted" "pipeline_run" (run_ID run) (first actor) ∅;
      finish run
  end.

Definition Run_get (runID : string) : R PipelineRun :=
  d ← data;
  match list_find (λ run, run_ID run = runID) (st_Runs d) with
  | Some (_, run) => mret (run, None)
  | None => fail ErrNotFound
  end.

Definition CancelRun (runID actor : string) : R PipelineRun :=
  d ← data;
  match list_find (λ run, run_ID run = runID) (st_Runs d) with
  | Some (i, run) =>
      if decide (run_Status run = "succeeded" ∨ run_Status run = "failed")
      then fail (ErrMsg "completed runs cannot be cancelled") else
      t ← now;
      t' ← now;
      let run := run <|run_Status := "cancelled"|> <|run_UpdatedAt := t|>
        <|run_Logs := app (run_Logs run)
           [mkRunLog t' "" "warning" ("Run cancelled by " ++ actor)]|> in
      _ ← modify (λ d, d <|st_Runs := <[i := run]> (st_Runs d)|>);
      _ ← record "pipeline.cancelled" "pipeline_run" runID actor ∅;
      finish run
  | None => fail ErrNotFound
  end.

Definition RetryRun (runID actor : string) : R PipelineRun :=
  d ← data;
  match list_find (λ run, run_ID run = runID) (st_Runs d) with
  | Some (_, previous) =>
      t ← now;
      let steps := resetSteps (run_Steps previous) in
      rid ← id "run";
      let run := mkPipelineRun rid (run_ProjectID previous) (run_Name previous) "queued" 0 t t
                   (run_ID previous) "" (run_DefinitionID previous) (run_ExecutionMode previous)
                   (run_Parameters previous) steps
                   [mkRunLog t "" "info" ("Retry created from " ++ run_ID previous)] in
      _ ← modify (λ d, d <|st_Runs := run :: st_Runs d|>);
      _ ← record "pipeline.retried" "pipeline_run" (run_ID run) actor
            {["parent_run_id" := AStr (run_ID previous)]};
      finish run
  | None => fail ErrNotFound
  end.

Definition SetRunEngine (runID engineRunID : string) : R PipelineRun :=
  d ← data;
  match list_find (λ run, run_ID run = runID) (st_Runs d) with
  | Some (i, run) =>
      t ← now;
      let run := run <|run_EngineRunID := engineRunID|> <|run_UpdatedAt := t|> in
      _ ← modify (λ d, d <|st_Runs := <[i := run]> (st_Runs d)|>);
      finish run
  | None => fail ErrNotFound
  end.

Definition UpdateRunStep (runID : string) (req : UpdateRunStepRequest) (actor : string)
    : R PipelineRun :=
  if decide (urs_Step req = "" ∨ urs_Status req = "")
  then fail (ErrMsg "step and status are required") else
  if negb (validStepStatus (urs_Status req))
  then fail (ErrMsg ("invalid step status " ++ quote (urs_Status req))) else
  d ← data;
  match list_find (λ run, run_ID run = runID) (st_Runs d) with
  | Some (i, run) =>
      t ← now;
      let run := report_run t req run in
      _ ← modify (λ d, d <|st_Runs := <[i := run]> (st_Runs d)|>);
      finish run
  | None => fail ErrNotFound
  end.
End operations.

(** ** A run's verdict, as its documentation states it *)

(** Any failed step fails the run, the run succeeds only when every step has
    finished, and it is running once a step runs or has finished. *)
Definition run_verdict (previous : string) (statuses : list string) : string :=
  if decide ("failed" ∈ statuses) then "failed" else
  if decide (Forall step_done statuses) then "succeeded" else
  if decide (Exists (λ s, s = "running" ∨ step_done s) statuses) then "running" else previous.

Definition progress_ok (run : PipelineRun) : Prop :=
  (0 ≤ run_Progress run ≤ 100)%Z.

(** Few enough steps for [completed * 100] to fit an [int]. *)
Definition few_steps (steps : list PipelineStep) : Prop :=
  (Z.of_nat (length steps) * 100 ≤ int64_max)%Z.

(** A report as [UpdateRunStep] treats it: a terminal run ignores it. *)
Definition deliver (run : PipelineRun) (req : UpdateRunStepRequest) : PipelineRun :=
  if decide (terminal (run_Status run)) then run else applyStepTransition run req.

Definition success (name : string) : UpdateRunStepRequest :=
  mkUpdateRunStepRequest name "succeeded" "".

(** ** Counting steps *)

Section counting.
Context (P : string → Prop) `{∀ s, Decision (P s)}.

Lemma count_steps_pos steps :
  (0 < count_steps P steps)%Z ↔ Exists P (stp_Status <$> steps).
Proof.
  unfold count_steps. rewrite Exists_fmap. split.
  - intros Hlt. destruct (filter _ steps) as [|s l] eqn:Hf; [simpl in Hlt; lia|].
    assert (s ∈ filter (λ step, P (stp_Status step)) steps) as Hs by (rewrite Hf; left).
    apply list_elem_of_filter in Hs as [??]. apply Exists_exists. by exists s.
  - intros (s&Hs&HP)%Exists_exists.
    assert (s ∈ filter (λ step, P (stp_Status step)) steps) as Hf
      by by apply list_elem_of_filter.
    destruct (filter _ steps); [by apply not_elem_of_nil in Hf|simpl; lia].
Qed.

Lemma count_steps_le steps : (0 ≤ count_steps P steps ≤ Z.of_nat (length steps))%Z.
Proof. unfold count_steps. pose proof (length_filter (λ s, P (stp_Status s)) steps). lia. Qed.

Lemma count_steps_all steps :
  count_steps P steps = Z.of_nat (length steps) ↔ Forall P (stp_Status <$> steps).
Proof.
  unfold count_steps. rewrite Forall_fmap. split.
  - intros Hl%Nat2Z.inj. apply Forall_forall. intros s Hs.
    destruct (decide (P (stp_Status s))) as [|Hn]; [done|].
    pose proof (length_filter_lt (λ s, P (stp_Status s)) steps s Hs Hn). lia.
  - intros Hall. f_equal. induction Hall as [|s l Hs _ IH]; [done|].
    rewrite filter_cons_True by done. simpl. by rewrite IH.
Qed.
End counting.

Lemma set_step_nonempty req steps : set_step req steps ≠ [].
Proof.
  unfold set_step. destruct (list_find _ steps) as [[i s]|] eqn:Hf.
  - apply list_find_hit in Hf as [Hi _]. intros Hn.
    apply (f_equal length) in Hn. rewrite length_insert in Hn.
    apply lookup_lt_Some in Hi. simpl in Hn. lia.
  - by destruct steps.
Qed.

(** The counters of the code compute the documented verdict. *)
Lemma count_verdict {A} steps (failed succeeded running idle : A) :
  (if decide (0 < count_steps (λ s, s = "failed") steps)%Z then failed else
   if decide (count_steps step_done steps = Z.of_nat (length steps)) then succeeded else
   if decide (0 < count_steps (λ s, s = "running") steps ∨ 0 < count_steps step_done steps)%Z
   then running else idle)
  = (if decide ("failed" ∈ stp_Status <$> steps) then failed else
     if decide (Forall step_done (stp_Status <$> steps)) then succeeded else
     if decide (Exists (λ s, s = "running" ∨ step_done s) (stp_Status <$> steps))
     then running else idle).
Proof.
  assert (0 < count_steps (λ s, s = "failed") steps ↔ "failed" ∈ stp_Status <$> steps)%Z as Hf.
  { rewrite count_steps_pos, Exists_exists. naive_solver. }
  rewrite (decide_ext _ _ _ _ Hf), (decide_ext _ _ _ _ (count_steps_all step_done steps)).
  erewrite (decide_ext (_ ∨ _)); [done|].
  rewrite !count_steps_pos. split; [apply Exists_or|apply Exists_or_inv].
Qed.

Lemma applyStepTransition_steps run req :
  run_Steps (applyStepTransition run req) = set_step req (run_Steps run).
Proof. unfold applyStepTransition. by repeat (case_decide; simpl). Qed.

Lemma applyStepTransition_same run req :
  run_ID (applyStepTransition run req) = run_ID run
  ∧ run_ProjectID (applyStepTransition run req) = run_ProjectID run
  ∧ run_Logs (applyStepTransition run req) = run_Logs run.
Proof. unfold applyStepTransition. by repeat (case_decide; simpl). Qed.

Lemma applyStepTransition_status run req :
  run_Status (applyStepTransition run req)
  = run_verdict (run_Status run) (stp_Status <$> set_step req (run_Steps run)).
Proof.
  unfold applyStepTransition, run_verdict. cbv zeta. simpl.
  set (run2 := if decide (0 < Z.of_nat _)%Z then _ else _).
  assert (run_Steps run2 = set_step req (run_Steps run) ∧ run_Status run2 = run_Status run)
    as [Hsteps Hstatus] by (unfold run2; by case_decide).
  rewrite Hsteps, count_verdict. by repeat (case_decide; simpl).
Qed.

Lemma applyStepTransition_progress run req :
  few_steps (set_step req (run_Steps run)) →
  progress_ok (applyStepTransition run req)
  ∧ (run_Progress (applyStepTransition run req) = 100%Z
     ↔ Forall step_done (stp_Status <$> set_step req (run_Steps run))).
Proof.
  unfold applyStepTransition, progress_ok, few_steps. cbv zeta. simpl. intros Hfew.
  pose proof (set_step_nonempty req (run_Steps run)) as Hne.
  set (steps := set_step req (run_Steps run)) in *.
  assert (0 < Z.of_nat (length steps))%Z as Hpos by (destruct steps; [done|simpl; lia]).
  rewrite (decide_True _ _ Hpos). simpl.
  pose proof (count_steps_le step_done steps) as Hle.
  rewrite <- (count_steps_all step_done steps).
  unfold mul64. rewrite wrap64_id by (unfold is_int64, int64_min, int64_max in *; lia).
  set (c := count_steps step_done steps) in *. set (n := Z.of_nat (length steps)) in *.
  assert (Z.quot (c * 100) n = 100 ↔ c = n)%Z as Hq.
  { rewrite Z.quot_div_nonneg by lia. split; [|intros ->; rewrite Z.mul_comm; by apply Z.div_mul; lia].
    intros Hd. pose proof (Z.mul_div_le (c * 100) n Hpos). lia. }
  assert (0 ≤ Z.quot (c * 100) n ≤ 100)%Z as Hb.
  { rewrite Z.quot_div_nonneg by lia. split; [apply Z.div_pos; lia|].
    apply Z.div_le_upper_bound; lia. }
  repeat (case_decide; simpl); split; first [exact Hb|exact Hq|lia|tauto].
Qed.

(** ** Delivering reports *)

Definition step_key : PipelineStep → string := stp_Name.

(** With unique names, a report moves exactly the step it names. *)
Lemma set_step_map req steps :
  keys_unique step_key steps → urs_Step req ∈ step_key <$> steps →
  set_step req steps
  = (λ s, if decide (stp_Name s = urs_Step req) then report_step req s else s) <$> steps.
Proof.
  intros Hu Hin. unfold set_step.
  destruct (list_find _ steps) as [[i x]|] eqn:Hf.
  - apply list_find_hit in Hf as [Hi Hx]. apply list_eq. intros j.
    rewrite list_lookup_insert, list_lookup_fmap.
    case_decide as Hn; [destruct Hn as [<- _]|].
    + rewrite Hi. simpl. by rewrite (decide_True _ _ Hx).
    + destruct (steps !! j) as [y|] eqn:Hj; simpl; [|done].
      rewrite decide_False; [done|]. intros Hy. apply Hn.
      assert (i = j) as <-; [|split; [done|by eapply lookup_lt_Some]].
      eapply NoDup_lookup; [exact Hu|..]; rewrite list_lookup_fmap; [rewrite Hi|rewrite Hj];
        simpl; [reflexivity|unfold step_key; congruence].
  - exfalso. apply list_elem_of_fmap in Hin as (s&Hs&Hin).
    eapply list_find_miss in Hf; [|exact Hin]. by apply Hf.
Qed.

Lemma set_step_names req steps :
  keys_unique step_key steps → urs_Step req ∈ step_key <$> steps →
  step_key <$> set_step req steps = step_key <$> steps.
Proof.
  intros. rewrite set_step_map by done. rewrite <- list_fmap_compose.
  apply list_fmap_ext. intros ? s _. unfold step_key, report_step. simpl.
  by repeat (case_decide; simpl).
Qed.

(** The state of a run part of whose steps have reported success. *)
Record partly_done (names : list string) (todo : string → Prop) (run : PipelineRun) : Prop := {
  pd_names : step_key <$> run_Steps run = names;
  pd_todo : ∀ s, s ∈ run_Steps run → todo (stp_Name s) → stp_Status s = "pending";
  pd_done : ∀ s, s ∈ run_Steps run → ¬ todo (stp_Name s) → stp_Status s = "succeeded"
}.

Lemma partly_done_success names todo run name :
  NoDup names → partly_done names todo run → name ∈ names →
  partly_done names (λ n, todo n ∧ n ≠ name) (applyStepTransition run (success name)).
Proof.
  intros Hnd [Hnames Htodo Hdone] Hin.
  assert (keys_unique step_key (run_Steps run)) as Hu by (unfold keys_unique; by rewrite Hnames).
  assert (urs_Step (success name) ∈ step_key <$> run_Steps run) as Hin' by by rewrite Hnames.
  split; rewrite applyStepTransition_steps.
  - rewrite set_step_names; done.
  - rewrite set_step_map by done. intros s (s0&->&Hs0)%list_elem_of_fmap. simpl.
    case_decide as Hn; simpl; [by intros [_ ?]|]. intros [? _]. by apply Htodo.
  - rewrite set_step_map by done. intros s (s0&->&Hs0)%list_elem_of_fmap. simpl.
    case_decide as Hn; simpl; [done|]. intros Ht. apply Hdone; [done|]. by intros ?; apply Ht.
Qed.

Lemma partly_done_status names todo `{∀ n, Decision (todo n)} run name :
  NoDup names → partly_done names todo run → name ∈ names →
  ((∃ n, n ∈ names ∧ todo n ∧ n ≠ name) →
     run_Status (applyStepTransition run (success name)) = "running")
  ∧ ((∀ n, n ∈ names → todo n → n = name) →
     run_Status (applyStepTransition run (success name)) = "succeeded").
Proof.
  intros Hnd Hp Hin. pose proof (partly_done_success _ _ _ _ Hnd Hp Hin) as [Hn Ht Hd].
  rewrite applyStepTransition_steps in *. rewrite applyStepTransition_status.
  set (steps := set_step (success name) (run_Steps run)) in *.
  assert (∀ s, s ∈ steps → stp_Status s = "pending" ∨ stp_Status s = "succeeded") as Hps.
  { intros s Hs. destruct (decide (todo (stp_Name s) ∧ stp_Name s ≠ name)); auto. }
  assert (∀ n, n ∈ names → ∃ s, s ∈ steps ∧ stp_Name s = n) as Hstep.
  { intros n. rewrite <- Hn. intros (s&->&Hs)%list_elem_of_fmap. eauto. }
  unfold run_verdict. rewrite decide_False.
  2: { intros (s&Hs&[Hf|Hf]%Hps)%list_elem_of_fmap; congruence. }
  split; intros Hc.
  - destruct Hc as (n&Hnn&Htodo&Hne). destruct (Hstep n Hnn) as (s&Hs&<-).
    rewrite decide_False.
    2: { intros Hall. rewrite Forall_fmap, Forall_forall in Hall. apply Hall in Hs as Hds.
         simpl in Hds. rewrite (Ht s) in Hds by done. by destruct Hds. }
    rewrite decide_True; [done|]. apply Exists_fmap, Exists_exists.
    destruct (Hstep name Hin) as (s'&Hs'&<-). exists s'. split; [done|right; left].
    apply Hd; [done|]. by intros [_ ?].
  - rewrite decide_True; [done|]. apply Forall_fmap, Forall_forall. intros s Hs. left.
    apply Hd; [done|]. intros [Htodo Hne]. apply Hne, Hc; [|done].
    rewrite <- Hn. apply list_elem_of_fmap. by exists s.
Qed.

(** The run after the first reports of a list, each a success. *)
Definition after_successes (run : PipelineRun) (reported : list string) : PipelineRun :=
  foldl (λ r name, deliver r (success name)) run reported.

(** Fewer names than there are leave one out. *)
Lemma left_out (names reported : list string) :
  NoDup names → (length reported < length names)%nat → ∃ n, n ∈ names ∧ n ∉ reported.
Proof.
  intros Hnd Hlt. destruct (decide (Exists (λ n, n ∉ reported) names)) as [He|Hn].
  - apply Exists_exists in He as (n&?&?). eauto.
  - exfalso. assert (names ⊆+ reported) as Hs%submseteq_length; [|lia].
    apply NoDup_submseteq; [done|]. intros n Hin.
    destruct (decide (n ∈ reported)) as [|Hout]; [done|]. destruct Hn.
    apply Exists_exists. eauto.
Qed.

Section completion.
Context (run : PipelineRun) (names : list string).
Hypothesis Hnd : NoDup names.
Hypothesis Hnames : step_key <$> run_Steps run = names.
Hypothesis Hpend : ∀ s, s ∈ run_Steps run → stp_Status s = "pending".
Hypothesis Hnt : ¬ terminal (run_Status run).

Lemma after_successes_running reported :
  NoDup reported → reported ⊆ names → (length reported < length names)%nat →
  partly_done names (λ n, n ∉ reported) (after_successes run reported)
  ∧ run_Status (after_successes run reported)
    = (if decide (reported = []) then run_Status run else "running").
Proof using All.
  unfold after_successes. induction reported as [|n reported IH] using rev_ind;
    intros Hu Hsub Hlt.
  - simpl. split; [split|]; [done| | |done].
    + intros s Hs _. by apply Hpend.
    + intros s Hs Hn. destruct Hn. apply not_elem_of_nil.
  - rewrite foldl_app. cbn [foldl]. rewrite length_app in Hlt. simpl in Hlt.
    apply NoDup_app in Hu as (Hu&_&_).
    destruct IH as [Hp Hst]; [done| |lia|]; [set_solver|].
    set (r := foldl _ run reported) in *.
    assert (n ∈ names) as Hn by set_solver.
    assert (¬ terminal (run_Status r)) as Hr.
    { rewrite Hst. case_decide; [done|]. by intros [|[|]]. }
    unfold deliver. rewrite decide_False by done.
    destruct (left_out names (reported ++ [n])) as (m&Hm&Hout);
      [done|rewrite length_app; simpl; lia|].
    split.
    + destruct (partly_done_success _ _ _ _ Hnd Hp Hn) as [? Ht Hd].
      split; [done|..]; intros s Hs Hx; [apply Ht|apply Hd]; set_solver.
    + rewrite (proj1 (partly_done_status _ _ _ _ Hnd Hp Hn)).
      * by rewrite decide_False by by destruct reported.
      * exists m. set_solver.
Qed.

Lemma after_successes_complete reported :
  reported ≡ₚ names → names ≠ [] → run_Status (after_successes run reported) = "succeeded".
Proof using All.
  intros Hperm Hne.
  destruct reported as [|n reported _] using rev_ind.
  { by apply Permutation_nil_l in Hperm. }
  assert (NoDup (reported ++ [n])) as Hu by by rewrite Hperm.
  apply NoDup_app in Hu as (Hu&Hnew&_).
  assert (∀ x, x ∈ names ↔ x ∈ reported ∨ x = n) as Hin.
  { intros x. rewrite <- Hperm. set_solver. }
  destruct (after_successes_running reported) as [Hp Hst]; [done|set_solver| |].
  { rewrite <- Hperm, length_app. simpl. lia. }
  unfold after_successes in *. rewrite foldl_app. cbn [foldl].
  set (r := foldl _ run reported) in *.
  unfold deliver. rewrite decide_False.
  - apply (proj2 (partly_done_status _ _ _ n Hnd Hp ltac:(set_solver))). set_solver.
  - rewrite Hst. case_decide; [done|]. by intros [|[|]].
Qed.
End completion.

Lemma hasProject_elem values id : hasProject values id ↔ id ∈ prj_ID <$> values.
Proof.
  unfold hasProject. rewrite Exists_exists, list_elem_of_fmap. naive_solver.
Qed.

Lemma pipelineDefinitionFrom_Ok values definitionID definition :
  pipelineDefinitionFrom values definitionID = Ok definition →
  definition ∈ values ∧ pd_ID definition = definitionID.
Proof.
  unfold pipelineDefinitionFrom. destruct (list_find _ _) as [[i d]|] eqn:Hf; [|done].
  intros [= <-]. apply list_find_hit in Hf as [Hi ?]. split; [|done].
  by eapply list_elem_of_lookup_2.
Qed.

(** ** Invariants *)

Definition run_statuses : list string := ["queued"; "running"; "succeeded"; "failed"; "cancelled"].

Record run_ok (run : PipelineRun) : Prop := {
  rs_status : run_Status run ∈ run_statuses;
  rs_steps : Forall (λ s, stp_Status s ∈ step_statuses) (run_Steps run);
  rs_succeeded : run_Status run = "succeeded" →
    Forall step_done (stp_Status <$> run_Steps run) ∧ run_Progress run = 100%Z;
  rs_failed : run_Status run = "failed" → "failed" ∈ stp_Status <$> run_Steps run;
  rs_progress : few_steps (run_Steps run) → progress_ok run
}.

Lemma set_step_statuses req steps :
  urs_Status req ∈ step_statuses → Forall (λ s, stp_Status s ∈ step_statuses) steps →
  Forall (λ s, stp_Status s ∈ step_statuses) (set_step req steps).
Proof.
  intros Hreq Hall.
  assert (∀ s, stp_Status (report_step req s) ∈ step_statuses) as Hrep
    by (intros s; unfold report_step; by case_decide).
  unfold set_step. destruct (list_find _ steps) as [[i s]|].
  - by apply Forall_insert_at.
  - apply Forall_app. split; [done|]. by constructor.
Qed.

Lemma run_verdict_cases previous statuses :
  let v := run_verdict previous statuses in
  (v = "succeeded" → previous = "succeeded" ∨ Forall step_done statuses)
  ∧ (v = "failed" → previous = "failed" ∨ "failed" ∈ statuses)
  ∧ (v ∈ ["failed"; "succeeded"; "running"; previous]).
Proof. unfold run_verdict. repeat case_decide; split_and!; try done; auto; repeat constructor. Qed.

Lemma applyStepTransition_succeeded run req :
  run_Status run ≠ "succeeded" → run_Status (applyStepTransition run req) = "succeeded" →
  run_Progress (applyStepTransition run req) = 100%Z.
Proof. unfold applyStepTransition. by repeat (case_decide; simpl). Qed.

Lemma applyStepTransition_ok run req :
  run_ok run → ¬ terminal (run_Status run) → urs_Status req ∈ step_statuses →
  run_ok (applyStepTransition run req).
Proof.
  intros [Hs Hst _ _ _] Hnt Hreq.
  pose proof (run_verdict_cases (run_Status run) (stp_Status <$> set_step req (run_Steps run)))
    as (Hsucc&Hfail&Hin).
  pose proof (applyStepTransition_status run req) as Hv.
  split; rewrite ?applyStepTransition_steps.
  - rewrite Hv. simpl in Hin. rewrite !elem_of_cons in Hin.
    destruct Hin as [->|[->|[->|[->|[]%not_elem_of_nil]]]]; [..|done];
      by apply (bool_decide_unpack _).
  - by apply set_step_statuses.
  - intros Hr. split.
    + destruct Hsucc as [?|?]; [congruence| |done]. destruct Hnt. by right; right.
    + apply applyStepTransition_succeeded; [|done]. intros Hx. apply Hnt. by right; right.
  - intros Hr. destruct Hfail as [?|?]; [congruence| |done]. destruct Hnt. by right; left.
  - intros Hfew. by apply applyStepTransition_progress.
Qed.

Lemma report_run_ok t req run :
  run_ok run → urs_Status req ∈ step_statuses → run_ok (report_run t req run).
Proof.
  intros Hok Hreq. unfold report_run. cbv zeta.
  set (run1 := run <|run_Logs := _|>).
  assert (run_ok run1) as Hok1 by (destruct Hok; by split).
  case_decide as Ht; [done|].
  by destruct (applyStepTransition_ok run1 req Hok1 Ht Hreq); split.
Qed.

Lemma report_run_same t req run :
  run_ID (report_run t req run) = run_ID run
  ∧ run_ProjectID (report_run t req run) = run_ProjectID run.
Proof.
  unfold report_run. cbv zeta. case_decide; [done|].
  by destruct (applyStepTransition_same
    (run <|run_Logs := app (run_Logs run) [mkRunLog t (urs_Step req)
       (if decide (urs_Status req = "failed") then "error" else "info") (stepMessage req)]|>)
    req) as (?&?&_).
Qed.

Lemma pending_steps_ok run :
  run_Status run = "queued" → run_Progress run = 0%Z →
  Forall (λ s, stp_Status s = "pending") (run_Steps run) → run_ok run.
Proof.
  intros Hs Hp Hall. split; rewrite ?Hs; try done.
  - left.
  - eapply Forall_impl; [exact Hall|]. intros s ->. left.
  - intros _. unfold progress_ok. lia.
Qed.

Lemma submission_pending d req steps mode name :
  submission d req = Ok (steps, mode, name) → Forall (λ s, stp_Status s = "pending") steps.
Proof.
  unfold submission. case_decide.
  - destruct (pipelineDefinitionFrom _ _) as [definition|]; [|done].
    case_decide; [done|]. intros [= <- _ _].
    apply Forall_fmap, Forall_forall. done.
  - intros [= <- _ _]. by repeat constructor.
Qed.

(** ** Values the operations store *)

Lemma submitted_run_ok rid pid name t did params d req steps mode name' logs :
  submission d req = Ok (steps, mode, name') →
  run_ok (mkPipelineRun rid pid name "queued" 0 t t "" "" did mode params steps logs).
Proof. intros Hs%submission_pending. by apply pending_steps_ok. Qed.

Lemma cancelled_run_ok t logs run :
  run_ok run →
  run_ok (run <|run_Status := "cancelled"|> <|run_UpdatedAt := t|> <|run_Logs := logs|>).
Proof. intros []. split; simpl; try done. by apply (bool_decide_unpack _). Qed.

Lemma retried_run_ok rid pid name t parent did mode params previous logs :
  run_ok (mkPipelineRun rid pid name "queued" 0 t t parent "" did mode params
            (resetSteps previous) logs).
Proof. apply pending_steps_ok; [done..|]. by apply Forall_fmap, Forall_forall. Qed.

Lemma engine_run_ok t engine run :
  run_ok run → run_ok (run <|run_EngineRunID := engine|> <|run_UpdatedAt := t|>).
Proof. by intros []. Qed.

Lemma valid_report_run_ok t req run :
  negb (validStepStatus (urs_Status req)) = false → run_ok run → run_ok (report_run t req run).
Proof.
  intros Hv Hok. apply report_run_ok; [done|].
  unfold validStepStatus in Hv. by apply negb_false_iff, bool_decide_eq_true in Hv.
Qed.

#[export] Hint Resolve submitted_run_ok retried_run_ok valid_report_run_ok : go_values.
#[export] Hint Extern 1 (run_ok _) => eapply cancelled_run_ok : go_values.
#[export] Hint Extern 1 (run_ok _) => eapply engine_run_ok : go_values.

(** ** Properties *)


(** C5: a run that starts from the default steps or from those of a valid
    definition succeeds exactly when every one of its steps has reported
    success, in whatever order: it shows [running] until the last report. *)
Theorem run_completes definition run reported :
  jobs_ok (pd_ExecutionMode definition) (pd_Jobs definition) → pd_Jobs definition ≠ [] →
  (run_Steps run = defaultSteps "pending" ∨ run_Steps run = stepsFromDefinition definition) →
  run_Status run = "queued" →
  NoDup reported → reported ⊆ step_key <$> run_Steps run →
  run_Status (after_successes run reported)
  = if decide (reported = []) then "queued" else
    if decide (length reported < length (run_Steps run))%nat then "running" else "succeeded".
Proof.
  intros Hjobs Hne Hsteps Hq Hu Hsub.
  assert (NoDup (step_key <$> run_Steps run)) as Hnd.
  { destruct Hsteps as [->| ->]; [by apply (bool_decide_unpack _)|].
    unfold stepsFromDefinition. rewrite <- list_fmap_compose. apply Hjobs. }
  assert (∀ s, s ∈ run_Steps run → stp_Status s = "pending") as Hpend.
  { apply Forall_forall. destruct Hsteps as [->| ->]; [by repeat constructor|].
    apply Forall_fmap, Forall_forall. done. }
  assert (¬ terminal (run_Status run)) as Hnt by (rewrite Hq; by intros [|[|]]).
  pose proof (after_successes_running run _ Hnd eq_refl Hpend Hnt reported Hu Hsub) as Hrun.
  rewrite length_fmap in Hrun. case_decide as Hr; [by rewrite Hr|].
  case_decide as Hlt.
  - destruct (Hrun Hlt) as [_ ->]. by repeat case_decide.
  - assert (reported ≡ₚ step_key <$> run_Steps run) as Hperm.
    { apply submseteq_length_Permutation; [by apply NoDup_submseteq|].
      rewrite length_fmap. lia. }
    eapply after_successes_complete; [done..|]. intros Hnil. rewrite Hnil in Hperm.
    by apply Permutation_nil_r in Hperm.
Qed.

(** A submission answers "not found" without effect exactly when the project
    is unknown or the named definition is unknown or of another project; else
    it queues one run, at progress 0, whose steps are all pending and are the
    definition's jobs with their dependencies (or the default template). *)
Theorem submit_run `{Host} req actor w :
  let d := w_data w in
  wp (SubmitPipeline req actor) w (λ '(run, err) w',
    (err = Some ErrNotFound ∧ run = zero ∧ w_data w' = d
     ∧ (sub_ProjectID req ∉ prj_ID <$> st_Projects d
        ∨ (sub_DefinitionID req ≠ ""
           ∧ ∀ definition, pipelineDefinitionFrom (st_Definitions d) (sub_DefinitionID req)
                           = Ok definition → pd_ProjectID definition ≠ sub_ProjectID req)))
    ∨ ((∀ e, err = Some e → is_io e = true)
       ∧ st_Runs (w_data w') = run :: st_Runs d
       ∧ sub_ProjectID req ∈ prj_ID <$> st_Projects d
       ∧ run_ProjectID run = sub_ProjectID req ∧ run_Status run = "queued"
       ∧ run_Progress run = 0%Z ∧ run_Name run ≠ ""
       ∧ (if decide (sub_DefinitionID req = "") then run_Steps run = defaultSteps "pending"
          else ∃ definition, definition ∈ st_Definitions d ∧ pd_ID definition = run_DefinitionID run
               ∧ pd_ProjectID definition = sub_ProjectID req
               ∧ run_ExecutionMode run = pd_ExecutionMode definition
               ∧ run_Steps run = stepsFromDefinition definition))).
Proof.
  unfold SubmitPipeline. apply wp_bind, wp_data. cbv zeta.
  case_decide as Hp.
  { apply wp_fail. left. split_and!; try done. left. by rewrite <- hasProject_elem. }
  destruct (submission (w_data w) req) as [[[steps mode] name]|e] eqn:Hs.
  - set (name' := if decide (TrimSpace name = "") then _ else _).
    assert (TrimSpace name' ≠ "") as Hname by (unfold name'; by case_decide).
    wp_run. simpl in *. right.
    destruct Hper as [-> _ _ ? _ _]. simpl.
    split_and!; try done; [by apply hasProject_elem|].
    unfold submission in Hs. revert Hs. case_decide as Hid.
    + destruct (pipelineDefinitionFrom _ _) as [definition|] eqn:Hdef; [|done].
      case_decide as Hproj; [done|]. intros [= <- <- <-]. rewrite decide_False by done.
      apply pipelineDefinitionFrom_Ok in Hdef as [??].
      exists definition. by split_and!.
    + intros [= <- <- <-]. by rewrite decide_True.
  - apply wp_fail. left. unfold submission in Hs. revert Hs.
    case_decide as Hid; [|done].
    destruct (pipelineDefinitionFrom _ _) as [definition|e'] eqn:Hdef.
    + case_decide as Hproj; [|done]. intros [= <-]. split_and!; try done.
      right. split; [done|]. by intros ? [= <-].
    + intros [= <-]. split_and!; try done. right. by split.
Qed.

(** Retrying a run queues a new run of the same project, name, definition and
    steps, every step pending again, that names the old one as its parent, and
    leaves the old run as it was. *)
Theorem retry_run `{Host} runID actor w i previous :
  list_find (λ run, run_ID run = runID) (st_Runs (w_data w)) = Some (i, previous) →
  wp (RetryRun runID actor) w (λ '(run, err) w',
    (∀ e, err = Some e → is_io e = true)
    ∧ st_Runs (w_data w') = run :: st_Runs (w_data w)
    ∧ run_ParentRunID run = runID ∧ run_Status run = "queued" ∧ run_Progress run = 0%Z
    ∧ run_ProjectID run = run_ProjectID previous ∧ run_Name run = run_Name previous
    ∧ run_DefinitionID run = run_DefinitionID previous
    ∧ stp_Name <$> run_Steps run = stp_Name <$> run_Steps previous
    ∧ stp_DependsOn <$> run_Steps run = stp_DependsOn <$> run_Steps previous
    ∧ Forall (λ s, stp_Status s = "pending" ∧ stp_Progress s = 0%Z) (run_Steps run)).
Proof.
  intros Hf. apply list_find_hit in Hf as Hi. destruct Hi as [_ Hid].
  unfold RetryRun. wp_run; simpl in *; simplify_eq/=.
  destruct Hper as [-> _ _ ? _ _]. simpl.
  unfold resetSteps. rewrite <- !list_fmap_compose.
  split_and!; try done. apply Forall_fmap, Forall_forall. done.
Qed.

(** ** Witnesses *)

#[local] Existing Instance quiet_host.

Definition queued_run : PipelineRun :=
  mkPipelineRun "run-1" "prj-1" "nightly" "queued" 0 0%Z 0%Z "" "" "" "prefect" ∅
    (defaultSteps "pending") [].
Definition one_run : world :=
  (booting "" ∅) <|w_data := zero <|st_Runs := [queued_run]|>|>.
Definition two_jobs : PipelineDefinition :=
  mkPipelineDefinition "pipe-1" "prj-1" "churn" "v1" "prefect" (upd_Jobs (normalized churn_request))
    "" "" 0%Z 0%Z.


Lemma run_completes_witness :
  run_Status (after_successes (queued_run <|run_Steps := stepsFromDefinition two_jobs|>)
                ["train"; "prepare"]) = "succeeded"
  ∧ run_Status (after_successes (queued_run <|run_Steps := stepsFromDefinition two_jobs|>)
                ["train"]) = "running".
Proof.
  assert (jobs_ok "prefect" (pd_Jobs two_jobs)) as Hjobs.
  { apply (validate_Ok (H := listed_order) churn_request (normalized churn_request)).
    vm_compute. reflexivity. }
  split.
  - etransitivity; [apply (run_completes two_jobs
      (queued_run <|run_Steps := stepsFromDefinition two_jobs|>) ["train"; "prepare"])
      |vm_compute; reflexivity];
      [exact Hjobs|done|by right|done|..]; by apply (bool_decide_unpack _).
  - etransitivity; [apply (run_completes two_jobs
      (queued_run <|run_Steps := stepsFromDefinition two_jobs|>) ["train"])
      |vm_compute; reflexivity];
      [exact Hjobs|done|by right|done|..]; by apply (bool_decide_unpack _).
Defined.

Lemma retry_run_witness :
  wp (RetryRun "run-1" "alice") one_run (λ '(run, err) w',
    st_Runs (w_data w') = [run; queued_run] ∧ run_ParentRunID run = "run-1"
    ∧ stp_Name <$> run_Steps run
      = ["validate-data"; "train-model"; "evaluate"; "register-model"]).
Proof.
  eapply wp_mono; [apply (retry_run "run-1" "alice" one_run 0 queued_run); vm_compute; reflexivity|].
  intros [run err] w' (_&Hr&Hp&_&_&_&_&_&Hn&_). by split_and!.
Defined.
