(* ===== verification/Models.v ===== *)
(** * The model registry (internal/store/store.go)

    Registration with its evaluation gate, promotion, deployment, the live
    endpoint and rollback. *)

From S2P Require Import Prelude GoStrings Types World.
From Stdlib Require Import SpecFloat.

Open Scope string_scope.

(** The [float64] nearest to 0.8. *)
Definition gate_threshold : float64 := S754_finite false 7205759403792794 (-53).

(** The evaluation gate: a model fails it with a known accuracy under 0.8. *)
Definition model_gate (metrics : gmap string float64) : string :=
  match metrics !! "accuracy" with
  | Some accuracy => if float_ltb accuracy gate_threshold then "failed" else "passed"
  | None => "passed"
  end.

Definition model_stages : list string := ["staging"; "production"; "archived"].

Definition endpoint_of (name : string) : string := "/v1/models/" ++ name ++ ":predict".

Section operations.
Context `{Host}.

Definition Models : M (list Model) := d ← data; mret (clone (st_Models d)).

Definition RegisterModel (req : RegisterModelRequest) (actor : string) : R Model :=
  d ← data;
  if decide (¬ hasProject (st_Projects d) (rmr_ProjectID req)) then fail ErrNotFound else
  if decide (rmr_Name req = "" ∨ rmr_Version req = "" ∨ rmr_ArtifactURI req = "")
  then fail (ErrMsg "name, version and artifact_uri are required") else
  if decide (Exists (λ v, mdl_Name v = rmr_Name req ∧ mdl_Version v = rmr_Version req)
               (st_Models d))
  then fail ErrConflict else
  mid ← id "mdl";
  created ← now;
  let m := mkModel mid (rmr_ProjectID req) (rmr_Name req) (rmr_Version req) "candidate"
             (rmr_ArtifactURI req) (rmr_Metrics req) created (model_gate (rmr_Metrics req))
             "not_deployed" 0 "" "" in
  _ ← modify (λ d, d <|st_Models := m :: st_Models d|>);
  _ ← record "model.registered" "model" (mdl_ID m) actor ∅;
  finish m.

Definition PromoteModel (modelID stage actor : string) : R Model :=
  if decide (stage ∉ model_stages)
  then fail (ErrMsg "stage must be staging, production or archived") else
  d ← data;
  match list_find (λ m, mdl_ID m = modelID) (st_Models d) with
  | Some (i, m) =>
      if decide (stage = "production" ∧ mdl_GateStatus m = "failed")
      then fail (ErrMsg "model evaluation gates have not passed") else
      let m := m <|mdl_PreviousStage := mdl_Stage m|> <|mdl_Stage := stage|> in
      _ ← modify (λ d, d <|st_Models := <[i := m]> (st_Models d)|>);
      _ ← record "model.promoted" "model" modelID actor {["stage" := AStr stage]};
      finish m
  | None => fail ErrNotFound
  end.

Definition DeployModel (modelID : string) (weight : Z) (actor : string) : R Model :=
  if decide (weight < 0 ∨ 100 < weight)%Z
  then fail (ErrMsg "canary_weight must be between 0 and 100") else
  d ← data;
  match list_find (λ m, mdl_ID m = modelID) (st_Models d) with
  | Some (i, m) =>
      if decide (mdl_GateStatus m ≠ "passed")
      then fail (ErrMsg "model evaluation gates have not passed") else
      let m := m <|mdl_DeploymentStatus := "deploying"|> <|mdl_CanaryWeight := weight|>
                 <|mdl_EndpointURL := endpoint_of (mdl_Name m)|> in
      _ ← modify (λ d, d <|st_Models := <[i := m]> (st_Models d)|>);
      _ ← record "model.deployed" "model" modelID actor {["canary_weight" := AInt weight]};
      finish m
  | None => fail ErrNotFound
  end.

Definition SetModelEndpoint (modelID endpoint status : string) : R Model :=
  d ← data;
  match list_find (λ m, mdl_ID m = modelID) (st_Models d) with
  | Some (i, m) =>
      let m := m <|mdl_EndpointURL := endpoint|> <|mdl_DeploymentStatus := status|> in
      _ ← modify (λ d, d <|st_Models := <[i := m]> (st_Models d)|>);
      finish m
  | None => fail ErrNotFound
  end.

Definition RollbackModel (modelID actor : string) : R Model :=
  d ← data;
  match list_find (λ m, mdl_ID m = modelID) (st_Models d) with
  | Some (i, m) =>
      if decide (mdl_PreviousStage m = "")
      then fail (ErrMsg "no previous stage is available") else
      let m := m <|mdl_Stage := mdl_PreviousStage m|> <|mdl_PreviousStage := mdl_Stage m|>
                 <|mdl_DeploymentStatus := "rolled_back"|> <|mdl_CanaryWeight := 0%Z|> in
      _ ← modify (λ d, d <|st_Models := <[i := m]> (st_Models d)|>);
      _ ← record "model.rolled_back" "model" modelID actor ∅;
      finish m
  | None => fail ErrNotFound
  end.
End operations.

(** ** Invariants *)

Definition model_key (m : Model) : string * string := (mdl_Name m, mdl_Version m).

Record model_ok (m : Model) : Prop := {
  mod_gate : mdl_GateStatus m = model_gate (mdl_Metrics m);
  mod_stage : mdl_Stage m ∈ "candidate" :: model_stages;
  mod_previous : mdl_PreviousStage m = "" ∨ mdl_PreviousStage m ∈ "candidate" :: model_stages;
  mod_production : mdl_Stage m = "production" ∨ mdl_PreviousStage m = "production" →
                   mdl_GateStatus m = "passed";
  mod_canary : (0 ≤ mdl_CanaryWeight m ≤ 100)%Z;
  mod_names : mdl_Name m ≠ "" ∧ mdl_Version m ≠ "" ∧ mdl_ArtifactURI m ≠ ""
}.

Lemma model_gate_cases metrics :
  model_gate metrics = "passed" ∨ model_gate metrics = "failed".
Proof. unfold model_gate. repeat case_match; auto. Qed.

(** ** What each update does to a model *)

Lemma promote_ok m (stage : string) :
  model_ok m → ¬ (stage ∉ model_stages) →
  ¬ (stage = "production" ∧ mdl_GateStatus m = "failed") →
  model_ok (m <|mdl_PreviousStage := mdl_Stage m|> <|mdl_Stage := stage|>).
Proof.
  intros [Hg Hs Hp Hprod Hc Hn] Hst%dec_stable Hgate. split; simpl; try done.
  - by right.
  - by right.
  - intros [Hx|Hx]; [|by apply Hprod; left].
    destruct (model_gate_cases (mdl_Metrics m)); [congruence|]. destruct Hgate. split; congruence.
Qed.

Lemma deploy_ok m weight :
  model_ok m → ¬ (weight < 0 ∨ 100 < weight)%Z →
  model_ok (m <|mdl_DeploymentStatus := "deploying"|> <|mdl_CanaryWeight := weight|>
              <|mdl_EndpointURL := endpoint_of (mdl_Name m)|>).
Proof. intros [] Hw. split; simpl; try done. lia. Qed.

Lemma endpoint_ok m endpoint status :
  model_ok m → model_ok (m <|mdl_EndpointURL := endpoint|> <|mdl_DeploymentStatus := status|>).
Proof. intros []. by split. Qed.

Lemma rollback_ok m :
  model_ok m → mdl_PreviousStage m ≠ "" →
  model_ok (m <|mdl_Stage := mdl_PreviousStage m|> <|mdl_PreviousStage := mdl_Stage m|>
              <|mdl_DeploymentStatus := "rolled_back"|> <|mdl_CanaryWeight := 0%Z|>).
Proof.
  intros [Hg Hs Hp Hprod Hc Hn] Hne. split; simpl; try done.
  - by destruct Hp.
  - by right.
  - intros [?|?]; apply Hprod; auto.
Qed.

Lemma new_model_ok mid pid name version uri metrics t :
  ¬ (name = "" ∨ version = "" ∨ uri = "") →
  model_ok (mkModel mid pid name version "candidate" uri metrics t (model_gate metrics)
              "not_deployed" 0 "" "").
Proof.
  intros Hn. split; simpl; try done; [left|by left|by intros [|]|tauto].
Qed.

#[export] Hint Resolve new_model_ok : go_values.
#[export] Hint Extern 1 (model_ok _) => eapply promote_ok : go_values.
#[export] Hint Extern 1 (model_ok _) => eapply deploy_ok : go_values.
#[export] Hint Extern 1 (model_ok _) => eapply endpoint_ok : go_values.
#[export] Hint Extern 1 (model_ok _) => eapply rollback_ok : go_values.
