(* ===== verification/Agents.v ===== *)
(** * Agents, their sessions and traces (internal/store/store.go) *)

From S2P Require Import Prelude GoStrings Types World.

Open Scope string_scope.

(** One trace folded into a stored session: [Turns++] and the [+=] of the loop. *)
Definition touch_session (req : RecordTraceRequest) (t : Time) (session : AgentSession)
    : AgentSession :=
  session <|ses_CurrentNode := rtq_CurrentNode req|> <|ses_Status := rtq_Status req|>
    <|ses_UpdatedAt := t|> <|ses_Turns := add64 (ses_Turns session) 1|>
    <|ses_InputTokens := add64 (ses_InputTokens session) (rtq_InputTokens req)|>
    <|ses_OutputTokens := add64 (ses_OutputTokens session) (rtq_OutputTokens req)|>
    <|ses_CostUSD := float_add (ses_CostUSD session) (rtq_CostUSD req)|>.

Definition session_of (req : RecordTraceRequest) (session : AgentSession) : Prop :=
  ses_ID session = rtq_SessionID req ∧ ses_AgentID session = rtq_AgentID req.
#[export] Instance session_of_dec req session : Decision (session_of req session).
Proof. unfold session_of. apply _. Defined.

(** The session loop of [RecordTrace]: every matching session is updated, and
    one is created if none matches. *)
Definition record_session (req : RecordTraceRequest) (t : Time) (sessions : list AgentSession)
    : list AgentSession :=
  if decide (Exists (session_of req) sessions)
  then (λ s, if decide (session_of req s) then touch_session req t s else s) <$> sessions
  else mkAgentSession (rtq_SessionID req) (rtq_AgentID req) (rtq_UserID req) (rtq_Status req)
         (rtq_CurrentNode req) 1 (rtq_InputTokens req) (rtq_OutputTokens req) (rtq_CostUSD req)
         t t :: sessions.

Section operations.
Context `{Host}.

Definition Agents : M (list Agent) := d ← data; mret (clone (st_Agents d)).

Definition DeployAgent (req : DeployAgentRequest) (actor : string) : R Agent :=
  d ← data;
  if decide (¬ hasProject (st_Projects d) (dar_ProjectID req)) then fail ErrNotFound else
  if decide (dar_Name req = "" ∨ dar_Version req = "" ∨ dar_Image req = ""
             ∨ dar_GraphModule req = "")
  then fail (ErrMsg "name, version, image and graph_module are required") else
  let replicas := if decide (dar_Replicas req < 1)%Z then 1%Z else dar_Replicas req in
  aid ← id "agt";
  created ← now;
  let a := mkAgent aid (dar_ProjectID req) (dar_Name req) (dar_Version req) (dar_Image req)
             (dar_GraphModule req) (dar_LLMBackend req) "pending" replicas 0 (dar_Tools req)
             created in
  _ ← modify (λ d, d <|st_Agents := a :: st_Agents d|>);
  _ ← record "agent.deployed" "agent" (agt_ID a) actor ∅;
  finish a.

Definition SetAgentTraffic (agentID : string) (weight : Z) (actor : string) : R Agent :=
  if decide (weight < 0 ∨ 100 < weight)%Z
  then fail (ErrMsg "canary_weight must be between 0 and 100") else
  d ← data;
  match list_find (λ a, agt_ID a = agentID) (st_Agents d) with
  | Some (i, a) =>
      let a := a <|agt_CanaryWeight := weight|> in
      _ ← modify (λ d, d <|st_Agents := <[i := a]> (st_Agents d)|>);
      _ ← record "agent.traffic_updated" "agent" agentID actor {["canary_weight" := AInt weight]};
      finish a
  | None => fail ErrNotFound
  end.

Definition AgentSessions (agentID : string) : M (list AgentSession) :=
  d ← data;
  mret (filter (λ session, ses_AgentID session = agentID ∨ agentID = "") (st_Sessions d)).

Definition AgentTraces (agentID : string) : M (list AgentTrace) :=
  d ← data;
  mret (filter (λ trace, tra_AgentID trace = agentID ∨ agentID = "") (st_Traces d)).

Definition RecordTrace (req : RecordTraceRequest) : R AgentTrace :=
  if decide (rtq_AgentID req = "" ∨ rtq_SessionID req = "")
  then fail (ErrMsg "agent_id and session_id are required") else
  t ← now;
  tid ← id "trace";
  let trace := mkAgentTrace tid (rtq_AgentID req) (rtq_SessionID req) (rtq_Name req)
                 (rtq_Status req) (rtq_DurationMS req)
                 (add64 (rtq_InputTokens req) (rtq_OutputTokens req)) (rtq_Metadata req) t in
  _ ← modify (λ d, d <|st_Traces := trace :: st_Traces d|>
                     <|st_Sessions := record_session req t (st_Sessions d)|>);
  finish trace.
End operations.

(** ** Invariants *)

Record agent_ok (a : Agent) : Prop := {
  agent_replicas : (1 ≤ agt_Replicas a)%Z;
  agent_canary : (0 ≤ agt_CanaryWeight a ≤ 100)%Z;
  agent_names : agt_Name a ≠ "" ∧ agt_Version a ≠ "" ∧ agt_Image a ≠ "" ∧ agt_GraphModule a ≠ ""
}.

(** Sessions are scoped per agent. *)
Definition session_key (s : AgentSession) : string * string := (ses_ID s, ses_AgentID s).

Lemma session_of_key req s :
  session_of req s ↔ session_key s = (rtq_SessionID req, rtq_AgentID req).
Proof. unfold session_of, session_key. split; [by intros [-> ->]|by intros [= -> ->]]. Qed.

Lemma record_session_keys req t sessions :
  keys_unique session_key sessions → keys_unique session_key (record_session req t sessions).
Proof.
  intros Hu. unfold record_session. case_decide as He.
  - unfold keys_unique. rewrite <- list_fmap_compose.
    erewrite list_fmap_ext; [exact Hu|]. intros ? s _. simpl. by case_decide.
  - apply keys_unique_cons; [done|]. intros s Hs Hk. apply He, Exists_exists. exists s.
    split; [done|]. by apply session_of_key.
Qed.
#[export] Hint Resolve record_session_keys : go_lists.

(** ** Values the operations store *)

Lemma new_agent_ok aid pid name version image graph backend replicas tools t :
  ¬ (name = "" ∨ version = "" ∨ image = "" ∨ graph = "") →
  agent_ok (mkAgent aid pid name version image graph backend "pending"
              (if decide (replicas < 1)%Z then 1 else replicas)%Z 0 tools t).
Proof. intros Hn. split; simpl; [case_decide; lia|done|tauto]. Qed.

Lemma traffic_ok a weight :
  ¬ (weight < 0 ∨ 100 < weight)%Z → agent_ok a → agent_ok (a <|agt_CanaryWeight := weight|>).
Proof. intros Hw []. split; simpl; [done|lia|done]. Qed.

#[export] Hint Resolve new_agent_ok : go_values.
#[export] Hint Extern 1 (agent_ok _) => eapply traffic_ok : go_values.
