(* ===== verification/Registry.v ===== *)
(** * Tools, connections, feature views and functions (internal/store/store.go,
    workloads.go) *)

From Stdlib Require Import Ascii.
From S2P Require Import Prelude GoStrings Types World Pipelines.

Open Scope string_scope.

(** ** Functions: the request contract *)

Definition mapped (m : gmap string string) (k : string) : string := default "" (m !! k).

(** One expression of the schedule has other than five fields. *)
Definition bad_expression (expression : string) : Prop := length (Fields expression) ≠ 5%nat.
#[export] Instance bad_expression_dec expression : Decision (bad_expression expression).
Proof. unfold bad_expression. apply _. Defined.

Definition ValidateFunctionRequest (req : DeployFunctionRequest) : option gerror :=
  if decide (dfr_ProjectID req = "" ∨ TrimSpace (dfr_Name req) = ""
             ∨ TrimSpace (dfr_Image req) = "")
  then Some (ErrMsg "project_id, name and image are required") else
  if negb (functionName (dfr_Name req))
  then Some (ErrMsg "function name must be a lowercase DNS label") else
  if decide (dfr_CPU req ≠ "" ∧ resourceQuantity (dfr_CPU req) = false)
  then Some (ErrMsg "CPU must be a quantity such as 500m or 2") else
  if decide (dfr_Memory req ≠ "" ∧ resourceQuantity (dfr_Memory req) = false)
  then Some (ErrMsg "memory must be a quantity such as 512Mi or 2Gi") else
  let mode := mapped (dfr_Annotations req) "com.nexus.invocation" in
  if decide (mode ≠ "" ∧ mode ≠ "sync" ∧ mode ≠ "async")
  then Some (ErrMsg "com.nexus.invocation must be sync or async") else
  let schedule := TrimSpace (mapped (dfr_Annotations req) "schedule") in
  if decide (schedule ≠ "") then
    if negb (Contains (mapped (dfr_Annotations req) "topic") "cron-function")
    then Some (ErrMsg "scheduled functions must subscribe to the cron-function topic") else
    if decide (Exists bad_expression (Split schedule ";"%char))
    then Some (ErrMsg "schedule must contain five-field cron expressions") else None
  else None.

Section operations.
Context `{Host}.

(** ** Functions *)

Definition Functions : M (list Function) := d ← data; mret (clone (st_Functions d)).

Definition UpsertFunction (req : DeployFunctionRequest) (owner actor : string) : R Function :=
  match ValidateFunctionRequest req with
  | Some e => fail e
  | None =>
      d ← data;
      if decide (¬ hasProject (st_Projects d) (dfr_ProjectID req)) then fail ErrNotFound else
      t ← now;
      match list_find (λ fn, fn_Name fn = dfr_Name req) (st_Functions d) with
      | Some (i, fn) =>
          if decide (fn_ProjectID fn ≠ dfr_ProjectID req) then fail ErrConflict else
          let fn := fn <|fn_Image := dfr_Image req|> <|fn_EnvVars := dfr_EnvVars req|>
            <|fn_Labels := dfr_Labels req|> <|fn_Annotations := dfr_Annotations req|>
            <|fn_CPU := dfr_CPU req|> <|fn_Memory := dfr_Memory req|>
            <|fn_Status := "deployed"|> <|fn_UpdatedAt := t|> in
          _ ← modify (λ d, d <|st_Functions := <[i := fn]> (st_Functions d)|>);
          _ ← record "function.updated" "function" (fn_Name fn) actor ∅;
          finish fn
      | None =>
          let fn := mkFunction (dfr_Name req) (dfr_ProjectID req) (dfr_Image req) "deployed" 0
            (dfr_EnvVars req) (dfr_Labels req) (dfr_Annotations req) (dfr_CPU req)
            (dfr_Memory req) owner t t in
          _ ← modify (λ d, d <|st_Functions := fn :: st_Functions d|>);
          _ ← record "function.deployed" "function" (fn_Name fn) actor ∅;
          finish fn
      end
  end.

Definition DeleteFunction (name actor : string) : R unit :=
  d ← data;
  match list_find (λ fn, fn_Name fn = name) (st_Functions d) with
  | Some (i, _) =>
      _ ← modify (λ d, d <|st_Functions := remove_at i (st_Functions d)|>);
      _ ← record "function.deleted" "function" name actor ∅;
      finish tt
  | None => fail ErrNotFound
  end.

(** ** Tools and connections *)

Definition Tools : M (list Tool) := d ← data; mret (clone (st_Tools d)).
Definition Connections : M (list Connection) := d ← data; mret (clone (st_Connections d)).
Definition Audit : M (list AuditEvent) := d ← data; mret (clone (st_Audit d)).

Definition RegisterTool (req : RegisterToolRequest) (actor : string) : R Tool :=
  if decide (rtr_Name req = "" ∨ rtr_Version req = "" ∨ rtr_InputSchema req = ∅)
  then fail (ErrMsg "name, version and input_schema are required") else
  d ← data;
  if decide (Exists (λ v, tool_Name v = rtr_Name req ∧ tool_Version v = rtr_Version req)
               (st_Tools d))
  then fail ErrConflict else
  tid ← id "tool";
  created ← now;
  let t := mkTool tid (rtr_Name req) (rtr_Version req) (rtr_Description req) (rtr_Tags req)
             (rtr_InputSchema req) "ready" created in
  _ ← modify (λ d, d <|st_Tools := t :: st_Tools d|>);
  _ ← record "tool.registered" "tool" (tool_ID t) actor ∅;
  finish t.

Definition CreateConnection (req : CreateConnectionRequest) (actor : string) : R Connection :=
  if decide (ccr_Name req = "" ∨ ccr_Type req = "" ∨ ccr_SecretRef req = "")
  then fail (ErrMsg "name, type and secret_ref are required") else
  d ← data;
  if decide (Exists (λ v, EqualFold (con_Name v) (ccr_Name req)) (st_Connections d))
  then fail ErrConflict else
  cid ← id "conn";
  created ← now;
  let c := mkConnection cid (ccr_Name req) (ccr_Type req) (ccr_Endpoint req)
             (ccr_SecretRef req) "pending" created None "" in
  _ ← modify (λ d, d <|st_Connections := c :: st_Connections d|>);
  _ ← record "connection.created" "connection" (con_ID c) actor ∅;
  finish c.

Definition UpdateConnectionStatus (connectionID status message actor : string) : R Connection :=
  d ← data;
  match list_find (λ c, con_ID c = connectionID) (st_Connections d) with
  | Some (i, c) =>
      t ← now;
      let c := c <|con_Status := status|> <|con_Message := message|>
                 <|con_CheckedAt := Some t|> in
      _ ← modify (λ d, d <|st_Connections := <[i := c]> (st_Connections d)|>);
      _ ← record "connection.checked" "connection" connectionID actor
            {["status" := AStr status]};
      finish c
  | None => fail ErrNotFound
  end.

(** ** Feature views *)

Definition FeatureViews : M (list FeatureView) := d ← data; mret (clone (st_Features d)).

Definition ApplyFeatureView (req : ApplyFeatureViewRequest) (actor : string) : R FeatureView :=
  if decide (afr_Name req = "" ∨ afr_Entity req = "" ∨ length (afr_Fields req) = 0%nat)
  then fail (ErrMsg "name, entity and at least one field are required") else
  d ← data;
  match list_find (λ v, fv_Name v = afr_Name req) (st_Features d) with
  | Some (i, v) =>
      let v := v <|fv_Entity := afr_Entity req|> <|fv_Fields := afr_Fields req|>
                 <|fv_Tags := afr_Tags req|> <|fv_Source := afr_Source req|>
                 <|fv_TTLSeconds := afr_TTLSeconds req|> in
      _ ← modify (λ d, d <|st_Features := <[i := v]> (st_Features d)|>);
      _ ← record "feature_view.applied" "feature_view" (fv_ID v) actor ∅;
      finish v
  | None =>
      vid ← id "fv";
      created ← now;
      let v := mkFeatureView vid (afr_Name req) (afr_Entity req) (afr_Fields req)
                 (afr_Tags req) (afr_Source req) (afr_TTLSeconds req) "registered" 0 None
                 created in
      _ ← modify (λ d, d <|st_Features := v :: st_Features d|>);
      _ ← record "feature_view.applied" "feature_view" (fv_ID v) actor ∅;
      finish v
  end.

Definition ReportMaterialization (name : string) (entityCount : Z) (actor : string)
    : R FeatureView :=
  if decide (entityCount < 0)%Z
  then fail (ErrMsg "entity_count cannot be negative") else
  d ← data;
  match list_find (λ v, fv_Name v = name) (st_Features d) with
  | Some (i, v) =>
      t ← now;
      let v := v <|fv_Status := "materialized"|> <|fv_OnlineEntityCount := entityCount|>
                 <|fv_MaterializedAt := Some t|> in
      _ ← modify (λ d, d <|st_Features := <[i := v]> (st_Features d)|>);
      _ ← record "feature_view.materialized" "feature_view" (fv_ID v) actor
            {["entity_count" := AInt entityCount]};
      finish v
  | None => fail ErrNotFound
  end.
End operations.

(** ** Invariants *)

Definition tool_key (t : Tool) : string * string := (tool_Name t, tool_Version t).
Definition connection_key (c : Connection) : string := fold_case (con_Name c).

Record function_ok (fn : Function) : Prop := {
  func_name : functionName (fn_Name fn) = true;
  func_image : TrimSpace (fn_Image fn) ≠ "";
  func_status : fn_Status fn = "deployed"
}.

Record feature_ok (v : FeatureView) : Prop := {
  feat_name : fv_Name v ≠ "" ∧ fv_Entity v ≠ "";
  feat_fields : fv_Fields v ≠ [];
  feat_status : fv_Status v ∈ ["registered"; "materialized"];
  feat_materialized : fv_Status v = "materialized" ↔ is_Some (fv_MaterializedAt v);
  feat_count : (0 ≤ fv_OnlineEntityCount v)%Z
}.

Lemma ValidateFunctionRequest_None req :
  ValidateFunctionRequest req = None →
  functionName (dfr_Name req) = true ∧ TrimSpace (dfr_Image req) ≠ ""
  ∧ dfr_ProjectID req ≠ "".
Proof.
  unfold ValidateFunctionRequest. cbv zeta. case_decide as Hr; [done|].
  destruct (functionName _) eqn:Hn; [|done]. intros _.
  apply Decidable.not_or in Hr as [? [_ ?]%Decidable.not_or]. done.
Qed.

(** ** Values the operations store *)

Lemma new_function_ok req owner t :
  ValidateFunctionRequest req = None →
  function_ok (mkFunction (dfr_Name req) (dfr_ProjectID req) (dfr_Image req) "deployed" 0
    (dfr_EnvVars req) (dfr_Labels req) (dfr_Annotations req) (dfr_CPU req) (dfr_Memory req)
    owner t t).
Proof. intros (?&?&_)%ValidateFunctionRequest_None. by split. Qed.

Lemma updated_function_ok req fn t :
  ValidateFunctionRequest req = None → function_ok fn →
  function_ok (fn <|fn_Image := dfr_Image req|> <|fn_EnvVars := dfr_EnvVars req|>
    <|fn_Labels := dfr_Labels req|> <|fn_Annotations := dfr_Annotations req|>
    <|fn_CPU := dfr_CPU req|> <|fn_Memory := dfr_Memory req|>
    <|fn_Status := "deployed"|> <|fn_UpdatedAt := t|>).
Proof. intros (?&?&_)%ValidateFunctionRequest_None []. by split. Qed.

Lemma new_feature_ok vid req t :
  ¬ (afr_Name req = "" ∨ afr_Entity req = "" ∨ length (afr_Fields req) = 0%nat) →
  feature_ok (mkFeatureView vid (afr_Name req) (afr_Entity req) (afr_Fields req)
    (afr_Tags req) (afr_Source req) (afr_TTLSeconds req) "registered" 0 None t).
Proof.
  intros Hn. split; simpl; try done; [tauto| |left].
  intros Hf. rewrite Hf in Hn. simpl in Hn. tauto.
Qed.

Lemma applied_feature_ok v req :
  ¬ (afr_Name req = "" ∨ afr_Entity req = "" ∨ length (afr_Fields req) = 0%nat) →
  feature_ok v →
  feature_ok (v <|fv_Entity := afr_Entity req|> <|fv_Fields := afr_Fields req|>
    <|fv_Tags := afr_Tags req|> <|fv_Source := afr_Source req|>
    <|fv_TTLSeconds := afr_TTLSeconds req|>).
Proof.
  intros Hn [[? _] ????]. split; simpl; try done; [tauto|].
  intros Hf. rewrite Hf in Hn. simpl in Hn. tauto.
Qed.

Lemma materialized_feature_ok v count t :
  ¬ (count < 0)%Z → feature_ok v →
  feature_ok (v <|fv_Status := "materialized"|> <|fv_OnlineEntityCount := count|>
    <|fv_MaterializedAt := Some t|>).
Proof.
  intros Hc []. split; simpl; try done; [right; left|lia].
Qed.

#[export] Hint Resolve new_function_ok new_feature_ok : go_values.
#[export] Hint Extern 1 (function_ok _) => eapply updated_function_ok : go_values.
#[export] Hint Extern 1 (feature_ok _) => eapply applied_feature_ok : go_values.
#[export] Hint Extern 1 (feature_ok _) => eapply materialized_feature_ok : go_values.
