(* ===== verification/Store.v ===== *)
(** * The file-backed repository as one state machine (internal/store)

    [op] names every operation that changes the repository, [run_op] runs one,
    [step] is one atomic operation of the process (each holds the store's lock
    from its first read to its last write) and [reachable] the processes any
    sequence of operations leads to.  [world_ok] is the invariant of all of
    them. *)

From S2P Require Import Prelude GoStrings Types World Access Tokens Blog Projects Pipelines.
From S2P Require Import Runs Models Agents Registry.

Open Scope string_scope.

(** ** Opening a repository *)

Definition demo_project (t : Time) : Project :=
  mkProject "prj-demo" "Fraud detection starter" "A guided tabular ML project"
    "tabular-classification" "team-demo" "ready" t "" None.

Definition demo_run (t : Time) : PipelineRun :=
  mkPipelineRun "run-demo" "prj-demo" "training-pipeline" "succeeded" 100 t t "" "" "" "" ∅
    (defaultSteps "succeeded") [].

Definition set_path (p : string) : M unit := λ w, (tt, w <|w_path := p|>).

Section opening.
Context `{Host}.

(** [New]: load the file, whatever comes of it, and seed a store without
    projects. *)
Definition New (paths : list string) : M unit :=
  _ ← put_data zero;
  _ ← set_path (first paths);
  p ← path;
  _ ← (if decide (p ≠ "") then load else mret None);
  d ← data;
  if decide (length (st_Projects d) = 0%nat) then
    t ← now;
    _ ← modify (λ d, d <|st_Projects := [demo_project t]|> <|st_Runs := [demo_run t]|>);
    _ ← persist;
    mret tt
  else mret tt.
End opening.

(** ** Operations *)

Inductive op : Type :=
  | OpUpsertUserAccess (subject : string) (req : UpsertUserAccessRequest) (actor : string)
  | OpDeleteUserAccess (subject actor : string)
  | OpCreateAccessRequest (subject email : string) (req : CreateAccessRequest)
  | OpReviewAccessRequest (requestID : string) (req : ReviewAccessRequest) (reviewer : string)
  | OpCreateAPIToken (subject : string) (req : CreateAPITokenRequest)
  | OpRevokeAPIToken (subject tokenID : string)
  | OpResolveAPIToken (secret : string)
  | OpUpsertBlogPost (postID : string) (req : UpsertBlogPostRequest) (actor : string)
  | OpDeleteBlogPost (postID actor : string)
  | OpCreateProject (req : CreateProjectRequest) (actor : list string)
  | OpSetProjectRepository (projectID : string) (req : SetProjectRepositoryRequest) (actor : string)
  | OpUpsertPipelineDefinition (definitionID : string) (req : UpsertPipelineDefinitionRequest)
      (actor : string)
  | OpSubmitPipeline (req : SubmitPipelineRequest) (actor : list string)
  | OpCancelRun (runID actor : string)
  | OpRetryRun (runID actor : string)
  | OpSetRunEngine (runID engineRunID : string)
  | OpUpdateRunStep (runID : string) (req : UpdateRunStepRequest) (actor : string)
  | OpRegisterModel (req : RegisterModelRequest) (actor : string)
  | OpPromoteModel (modelID stage actor : string)
  | OpDeployModel (modelID : string) (weight : Z) (actor : string)
  | OpSetModelEndpoint (modelID endpoint status : string)
  | OpRollbackModel (modelID actor : string)
  | OpDeployAgent (req : DeployAgentRequest) (actor : string)
  | OpSetAgentTraffic (agentID : string) (weight : Z) (actor : string)
  | OpRecordTrace (req : RecordTraceRequest)
  | OpUpsertFunction (req : DeployFunctionRequest) (owner actor : string)
  | OpDeleteFunction (name actor : string)
  | OpRegisterTool (req : RegisterToolRequest) (actor : string)
  | OpCreateConnection (req : CreateConnectionRequest) (actor : string)
  | OpUpdateConnectionStatus (connectionID status message actor : string)
  | OpApplyFeatureView (req : ApplyFeatureViewRequest) (actor : string)
  | OpReportMaterialization (name : string) (entityCount : Z) (actor : string).

Section machine.
Context `{Host} `{MapOrder}.

(** The operation's error; its value is dropped. *)
Definition outcome {A} (m : R A) : M (option gerror) := r ← m; mret (snd r).

Definition run_op (o : op) : M (option gerror) :=
  match o with
  | OpUpsertUserAccess subject req actor => outcome (UpsertUserAccess subject req actor)
  | OpDeleteUserAccess subject actor => outcome (DeleteUserAccess subject actor)
  | OpCreateAccessRequest subject email req => outcome (CreateAccessRequest_op subject email req)
  | OpReviewAccessRequest rid req reviewer => outcome (ReviewAccessRequest_op rid req reviewer)
  | OpCreateAPIToken subject req => outcome (CreateAPIToken subject req)
  | OpRevokeAPIToken subject tid => outcome (RevokeAPIToken subject tid)
  | OpResolveAPIToken secret => outcome (ResolveAPIToken secret)
  | OpUpsertBlogPost pid req actor => outcome (UpsertBlogPost pid req actor)
  | OpDeleteBlogPost pid actor => outcome (DeleteBlogPost pid actor)
  | OpCreateProject req actor => outcome (CreateProject req actor)
  | OpSetProjectRepository pid req actor => outcome (SetProjectRepository pid req actor)
  | OpUpsertPipelineDefinition did req actor => outcome (UpsertPipelineDefinition did req actor)
  | OpSubmitPipeline req actor => outcome (SubmitPipeline req actor)
  | OpCancelRun rid actor => outcome (CancelRun rid actor)
  | OpRetryRun rid actor => outcome (RetryRun rid actor)
  | OpSetRunEngine rid engine => outcome (SetRunEngine rid engine)
  | OpUpdateRunStep rid req actor => outcome (UpdateRunStep rid req actor)
  | OpRegisterModel req actor => outcome (RegisterModel req actor)
  | OpPromoteModel mid stage actor => outcome (PromoteModel mid stage actor)
  | OpDeployModel mid weight actor => outcome (DeployModel mid weight actor)
  | OpSetModelEndpoint mid endpoint status => outcome (SetModelEndpoint mid endpoint status)
  | OpRollbackModel mid actor => outcome (RollbackModel mid actor)
  | OpDeployAgent req actor => outcome (DeployAgent req actor)
  | OpSetAgentTraffic aid weight actor => outcome (SetAgentTraffic aid weight actor)
  | OpRecordTrace req => outcome (RecordTrace req)
  | OpUpsertFunction req owner actor => outcome (UpsertFunction req owner actor)
  | OpDeleteFunction name actor => outcome (DeleteFunction name actor)
  | OpRegisterTool req actor => outcome (RegisterTool req actor)
  | OpCreateConnection req actor => outcome (CreateConnection req actor)
  | OpUpdateConnectionStatus cid status message actor =>
      outcome (UpdateConnectionStatus cid status message actor)
  | OpApplyFeatureView req actor => outcome (ApplyFeatureView req actor)
  | OpReportMaterialization name count actor => outcome (ReportMaterialization name count actor)
  end.

Inductive step (o : op) (w : world) : option gerror → world → Prop :=
  | step_run err w' : run_op o w = (err, w') → step o w err w'.

Inductive reachable (w0 : world) : world → Prop :=
  | reach_start : reachable w0 w0
  | reach_step w o err w' : reachable w0 w → step o w err w' → reachable w0 w'.
End machine.

(** ** The invariant *)

Definition statuses_known (d : state) : Prop := Forall run_ok (st_Runs d).

(** Every resource that names a project names a stored one. *)
Record projects_known (d : state) : Prop := {
  pk_runs : Forall (λ r, run_ProjectID r ∈ prj_ID <$> st_Projects d) (st_Runs d);
  pk_definitions : Forall (λ r, pd_ProjectID r ∈ prj_ID <$> st_Projects d) (st_Definitions d);
  pk_functions : Forall (λ r, fn_ProjectID r ∈ prj_ID <$> st_Projects d) (st_Functions d);
  pk_models : Forall (λ r, mdl_ProjectID r ∈ prj_ID <$> st_Projects d) (st_Models d);
  pk_agents : Forall (λ r, agt_ProjectID r ∈ prj_ID <$> st_Projects d) (st_Agents d)
}.

(** Every stored value satisfies its component's invariant. *)
Record values_ok (d : state) : Prop := {
  vo_access : Forall access_ok (st_UserAccess d);
  vo_requests : Forall request_ok (st_AccessRequests d);
  vo_tokens : Forall token_ok (st_APITokens d);
  vo_posts : Forall post_ok (st_BlogPosts d);
  vo_projects : Forall project_ok (st_Projects d);
  vo_runs : Forall run_ok (st_Runs d);
  vo_definitions : Forall stored_ok (st_Definitions d);
  vo_functions : Forall function_ok (st_Functions d);
  vo_models : Forall model_ok (st_Models d);
  vo_agents : Forall agent_ok (st_Agents d);
  vo_features : Forall feature_ok (st_Features d);
  vo_audit : Forall (λ e, evt_Actor e ≠ "") (st_Audit d)
}.

(** The uniqueness rules that hold whatever the clock. *)
Record keys_ok (d : state) : Prop := {
  ko_pending : NoDup (pending_subjects (st_AccessRequests d));
  ko_projects : keys_unique project_key (st_Projects d);
  ko_models : keys_unique model_key (st_Models d);
  ko_tools : keys_unique tool_key (st_Tools d);
  ko_connections : keys_unique connection_key (st_Connections d);
  ko_functions : keys_unique fn_Name (st_Functions d);
  ko_features : keys_unique fv_Name (st_Features d);
  ko_sessions : keys_unique session_key (st_Sessions d)
}.

(** The identifiers, where the clock never repeats. *)
Record ids_ok `{Host} (k : nat) (d : state) : Prop := {
  io_requests : fresh_keys acr_ID "access-request" k (st_AccessRequests d);
  io_posts : fresh_keys bp_ID "blog" k (st_BlogPosts d);
  io_slugs : keys_unique bp_Slug (st_BlogPosts d);
  io_projects : fresh_keys prj_ID "prj" k (st_Projects d);
  io_runs : fresh_keys run_ID "run" k (st_Runs d);
  io_definitions : fresh_keys pd_ID "pipe" k (st_Definitions d);
  io_models : fresh_keys mdl_ID "mdl" k (st_Models d);
  io_agents : fresh_keys agt_ID "agt" k (st_Agents d);
  io_tools : fresh_keys tool_ID "tool" k (st_Tools d);
  io_connections : fresh_keys con_ID "conn" k (st_Connections d);
  io_features : fresh_keys fv_ID "fv" k (st_Features d);
  io_traces : fresh_keys tra_ID "trace" k (st_Traces d);
  io_audit : fresh_keys evt_ID "evt" k (st_Audit d)
}.

Record data_ok (d : state) : Prop := {
  ok_projects : projects_known d;
  ok_values : values_ok d;
  ok_keys : keys_ok d
}.

(** ** Walking through every operation *)

(** Open the operation [o], run it to its ends, and read the final state off
    the last call of [persist]. *)
Ltac op_cases o :=
  destruct o; unfold run_op, outcome; apply wp_bind;
  unfold UpsertUserAccess, DeleteUserAccess, CreateAccessRequest_op, ReviewAccessRequest_op,
    CreateAPIToken, generateAPIToken, RevokeAPIToken, ResolveAPIToken, UpsertBlogPost,
    DeleteBlogPost, CreateProject, SetProjectRepository, UpsertPipelineDefinition,
    SubmitPipeline, CancelRun, RetryRun, SetRunEngine, UpdateRunStep, RegisterModel,
    PromoteModel, DeployModel, SetModelEndpoint, RollbackModel, DeployAgent, SetAgentTraffic,
    RecordTrace, UpsertFunction, DeleteFunction, RegisterTool, CreateConnection,
    UpdateConnectionStatus, ApplyFeatureView, ReportMaterialization;
  wp_run.

(** The elements the searches found, as lookups. *)
Ltac found :=
  repeat match goal with
    | H : list_find _ _ = Some (_, _) |- _ => apply list_find_hit in H as [? ?]
    | H : hasProject _ _ |- _ => apply hasProject_elem in H
    | H : ¬ ¬ hasProject _ _ |- _ => apply dec_stable, hasProject_elem in H
    end.

(** The leaves of [op_cases]: rewrite the final state, close the leaves that
    changed nothing, and split the invariant [H] of the others. *)
Ltac leaves :=
  try match goal with H : persisted _ _ _ |- _ => destruct H as [-> _ _ _ _ _] end; simpl; try (split; assumption);
  found; (split; simpl; try assumption).

(** A list changed in one place keeps a property of its elements. *)
Ltac each_element :=
  lazymatch goal with
  | |- Forall _ (<[_ := _]> _) => eapply Forall_update; [eassumption|assumption|simpl; try done]
  | |- Forall _ (_ :: _) => apply Forall_cons; split; [try assumption|assumption]
  | |- Forall _ (remove_at _ _) => apply Forall_remove_at; assumption
  end.

Lemma event_actor `{Host} k action resource resourceID actor metadata :
  evt_Actor (event_of k action resource resourceID actor metadata) ≠ "".
Proof. simpl. by case_decide. Qed.
#[export] Hint Resolve event_actor : go_values.

(** The element a search found has the property all elements have. *)
Ltac stored :=
  match goal with
  | Hl : Forall _ ?l, H : ?l !! _ = Some _ |- _ => exact (Forall_lookup_at _ _ _ _ Hl H)
  end.

(** A new element has a key the search or the guard before it did not find; an
    updated one keeps its key. *)
Ltac distinct_keys :=
  lazymatch goal with
  | |- keys_unique _ (<[_ := _]> _) =>
      eapply keys_unique_insert; [assumption|eassumption|reflexivity]
  | |- keys_unique _ (_ :: _) =>
      apply keys_unique_cons; [assumption|];
      let y := fresh "y" in let Hy := fresh "Hy" in let Hk := fresh "Hk" in
      intros y Hy Hk;
      match goal with
      | H : list_find _ _ = None |- _ => by eapply list_find_miss in H; [|exact Hy]
      | H : ¬ Exists _ _ |- _ =>
          apply H, Exists_exists; exists y; split; [exact Hy|];
          solve [exact Hk | by injection Hk]
      end
  end.

(** The same for the invariant of identifiers, which also reads the tick. *)
Ltac fresh_leaves :=
  try match goal with
    | H : persisted _ _ _ |- _ =>
        let Htick := fresh "Htick" in destruct H as [-> _ Htick _ _ _]; simpl in Htick
    end; simpl; found; (split; simpl).

(** A list of identified values is as it was, or took one value with an
    identifier of this operation, or had one updated or removed. *)
Ltac fresh_id :=
  lazymatch goal with
  | |- fresh_keys _ _ _ (<[_ := _]> _) =>
      eapply fresh_keys_mono; [eapply fresh_keys_insert; [eassumption|eassumption|reflexivity]|lia]
  | |- fresh_keys _ _ _ (_ :: _) =>
      eapply fresh_keys_cons; [eassumption|reflexivity|lia|lia]
  | |- fresh_keys _ _ _ (remove_at _ _) =>
      eapply fresh_keys_mono; [apply fresh_keys_remove_at; eassumption|lia]
  | |- fresh_keys _ _ _ _ => eapply fresh_keys_mono; [eassumption|lia]
  | |- keys_unique _ (remove_at _ _) => apply keys_unique_remove_at; assumption
  | |- keys_unique _ _ => assumption
  end.

(** The project of a stored resource stays known when projects are added or
    updated in place. *)
Section known.
Context {A} (f : A → string).

Lemma known_cons (pid : string) pids (l : list A) :
  Forall (λ r, f r ∈ pids) l → Forall (λ r, f r ∈ pid :: pids) l.
Proof. intros Hl. eapply Forall_impl; [exact Hl|]. intros r Hr. by right. Qed.

Lemma known_insert n p p' (projects : list Project) (l : list A) :
  projects !! n = Some p → prj_ID p' = prj_ID p →
  Forall (λ r, f r ∈ prj_ID <$> projects) l →
  Forall (λ r, f r ∈ prj_ID <$> <[n := p']> projects) l.
Proof.
  intros Hp Hid Hl. rewrite list_fmap_insert, Hid, list_insert_id; [done|].
  by rewrite list_lookup_fmap, Hp.
Qed.
End known.
#[export] Hint Resolve known_cons : go_lists.
#[export] Hint Extern 2 (Forall _ _) =>
  eapply known_insert; [eassumption|reflexivity|assumption] : go_lists.

Section preservation.
Context `{Host} `{MapOrder}.

Lemma run_op_projects o w :
  projects_known (w_data w) → wp (run_op o) w (λ _ w', projects_known (w_data w')).
Proof.
  intros [Hr Hd Hf Hm Ha]. op_cases o; leaves.
  all: try (eauto 2 with go_lists nocore; fail); each_element.
  - stored.
  - by rewrite (proj2 (report_run_same _ _ _)).
Qed.

Lemma run_op_keys o w :
  keys_ok (w_data w) → wp (run_op o) w (λ _ w', keys_ok (w_data w')).
Proof.
  intros [Hpend Hp Hm Ht Hc Hf Hv Hs]. op_cases o; leaves.
  all: try (eauto 2 with go_lists nocore; fail); try distinct_keys.
  - rewrite pending_subjects_cons. simpl. constructor; [|done].
    by rewrite elem_of_pending_subjects.
  - eapply sublist_NoDup; [exact Hpend|]. apply pending_subjects_insert. simpl.
    intros Heq. rewrite Heq in *. naive_solver.
Qed.

Lemma run_op_values o w :
  values_ok (w_data w) → wp (run_op o) w (λ _ w', values_ok (w_data w')).
Proof.
  intros [Hac Hrq Htk Hbp Hp Hr Hd Hf Hm Ha Hv He]. op_cases o; leaves.
  all: each_element; intros; eauto 4 with go_values.
Qed.

Lemma run_op_ids `{!DistinctClock} o w :
  ids_ok (w_tick w) (w_data w) → wp (run_op o) w (λ _ w', ids_ok (w_tick w') (w_data w')).
Proof.
  intros [Hrq Hbp Hsl Hp Hr Hd Hm Ha Ht Hc Hf Htr Hev]. op_cases o; fresh_leaves.
  all: try fresh_id.
  - eapply slug_update; [done|apply Hbp|eassumption|eassumption|done].
  - eapply slug_new; [done|eassumption|done].
  - eapply fresh_keys_mono; [eapply fresh_keys_insert; [eassumption|eassumption|]|lia].
    apply report_run_same.
Qed.
End preservation.

(** ** The seeded identifiers are not generated ones *)

Lemma pretty_N_go_ne_d x s s' : s ≠ "d" +:+ s' → pretty_N_go x s ≠ "d" +:+ s'.
Proof.
  revert s. induction (N.lt_wf_0 x) as [x _ IH]; intros s Hs.
  destruct (decide (0 < x)%N) as [Hx|Hx].
  - rewrite pretty_N_go_step by done. apply IH; [by apply N.div_lt|].
    unfold pretty_N_char. by repeat case_match.
  - assert (x = 0)%N as -> by lia. by rewrite pretty_N_go_0.
Qed.

Lemma pretty_ne_demo (t : Z) : pretty t ≠ "demo".
Proof.
  unfold pretty, pretty_Z. destruct t as [|p|p]; try done.
  unfold pretty, pretty_positive, pretty, pretty_N. case_decide; [done|].
  by apply (pretty_N_go_ne_d _ "" "emo").
Qed.

Lemma demo_id prefix t : id_at prefix t ≠ prefix ++ "-" ++ "demo".
Proof. unfold id_at. intros Heq. by apply str_app_inj, str_app_inj, pretty_ne_demo in Heq. Qed.

(** ** Where a process starts *)

(** A repository opened without a file to load. *)
Definition opened `{Host} (w : world) : Prop :=
  ∃ paths w0, (first paths = "" ∨ w_files w0 !! first paths = None) ∧ w = (New paths w0).2.

Section opening_facts.
Context `{Host}.

(** [New] without a file holds the demo project and run. *)
Lemma opened_data w : opened w → ∃ t k, (k < w_tick w)%nat ∧ t = clock k
  ∧ w_data w = zero <|st_Projects := [demo_project t]|> <|st_Runs := [demo_run t]|>.
Proof.
  intros (paths&w0&Hfile&->). exists (clock (w_tick w0)), (w_tick w0).
  enough (wp (New paths) w0 (λ _ w', (w_tick w0 < w_tick w')%nat ∧ w_data w'
    = zero <|st_Projects := [demo_project (clock (w_tick w0))]|>
           <|st_Runs := [demo_run (clock (w_tick w0))]|>)) as Hwp.
  { destruct Hwp. auto. }
  unfold New. apply wp_bind. unfold wp at 1. simpl. apply wp_bind. unfold wp at 1. simpl.
  apply wp_bind. unfold wp at 1. simpl. apply wp_bind.
  set (w1 := w0 <|w_data := zero|> <|w_path := first paths|>).
  assert (wp (if decide (first paths ≠ "") then load else mret None) w1 (λ _ w', w' = w1))
    as Hload.
  { case_decide as Hp; [|done]. destruct Hfile as [?|Hfile]; [done|].
    unfold wp, load, path, read_file. run_M. by rewrite Hfile. }
  eapply wp_mono; [exact Hload|]. intros _ ? ->. apply wp_bind, wp_data. simpl.
  wp_run. destruct Hper as [-> _ Htick _ _ _]. simpl in *. split; [lia|done].
Qed.

Lemma demo_run_ok t : run_ok (demo_run t).
Proof.
  split; simpl; try done.
  - by apply (bool_decide_unpack _).
  - by repeat constructor; apply (bool_decide_unpack _).
  - intros _. split; [|done]. by repeat constructor.
Qed.

Lemma opened_ok w : opened w → data_ok (w_data w).
Proof.
  intros (t&k&_&_&->)%opened_data.
  split; split; simpl; try done; try (by constructor); try (by apply NoDup_singleton).
  - constructor; [|done]. simpl. left.
  - constructor; [|done]. split; simpl; [lia|done|done].
  - constructor; [|done]. apply demo_run_ok.
Qed.

Lemma opened_ids w : opened w → ids_ok (w_tick w) (w_data w).
Proof.
  intros (t&k&_&_&->)%opened_data.
  split; simpl; try (split; [by constructor|by intros ?? ?%not_elem_of_nil]); try done.
  - constructor.
  - split; [by apply NoDup_singleton|].
    intros j _ Hj%list_elem_of_singleton. by apply (demo_id "prj" (clock j)).
  - split; [by apply NoDup_singleton|].
    intros j _ Hj%list_elem_of_singleton. by apply (demo_id "run" (clock j)).
Qed.
End opening_facts.
