(* ===== verification/StoreProps.v ===== *)
(** * Properties of the repository as a whole (internal/store)

    What every sequence of operations keeps, what a failed operation leaves
    alone, what each one audits and what is on disk afterwards. *)

From S2P Require Import Prelude GoStrings Types World Access Tokens Blog Projects Pipelines.
From S2P Require Import Runs Models Agents Registry Store.

Open Scope string_scope.

(** ** Specifications *)

(** How a stored run may change: its identity never, its status only before it
    is terminal, its log only by new entries. *)
Record run_succ (r r' : PipelineRun) : Prop := {
  su_identity : run_ID r' = run_ID r ∧ run_ProjectID r' = run_ProjectID r
    ∧ run_ParentRunID r' = run_ParentRunID r ∧ run_DefinitionID r' = run_DefinitionID r
    ∧ run_CreatedAt r' = run_CreatedAt r;
  su_status : run_Status r' = run_Status r
    ∨ (¬ terminal (run_Status r) ∧ run_Status r' ∈ ["running"; "succeeded"; "failed"; "cancelled"]);
  su_terminal : terminal (run_Status r) →
    run_Steps r' = run_Steps r ∧ run_Progress r' = run_Progress r;
  su_logs : run_Logs r `prefix_of` run_Logs r'
}.

(** What one operation does to the list of runs: at most one new run, queued at
    the front; every other one a successor of what it was. *)
Definition runs_succ (runs runs' : list PipelineRun) : Prop :=
  ∃ fresh olds, runs' = (fresh ++ olds)%list ∧ Forall2 run_succ runs olds
    ∧ (length fresh ≤ 1)%nat
    ∧ Forall (λ r, run_Status r = "queued" ∧ run_Progress r = 0%Z) fresh.

(** The audit events an operation may write, and the actor it names; the
    telemetry operations and the use of a token are not audited. *)
Definition audited (o : op) : option (list string * string) :=
  match o with
  | OpUpsertUserAccess _ _ actor => Some (["access.created"; "access.updated"], actor)
  | OpDeleteUserAccess _ actor => Some (["access.deleted"], actor)
  | OpCreateAccessRequest subject _ _ => Some (["access.requested"], subject)
  | OpReviewAccessRequest _ _ reviewer =>
      Some (["access.request_approved"; "access.request_rejected"], reviewer)
  | OpCreateAPIToken subject _ => Some (["api_token.created"], subject)
  | OpUpsertBlogPost _ _ actor => Some (["blog.created"; "blog.updated"], actor)
  | OpDeleteBlogPost _ actor => Some (["blog.deleted"], actor)
  | OpCreateProject _ actor => Some (["project.created"], first actor)
  | OpSetProjectRepository _ _ actor => Some (["project.repository_updated"], actor)
  | OpUpsertPipelineDefinition _ _ actor =>
      Some (["pipeline_definition.created"; "pipeline_definition.updated"], actor)
  | OpSubmitPipeline _ actor => Some (["pipeline.submitted"], first actor)
  | OpCancelRun _ actor => Some (["pipeline.cancelled"], actor)
  | OpRetryRun _ actor => Some (["pipeline.retried"], actor)
  | OpRegisterModel _ actor => Some (["model.registered"], actor)
  | OpPromoteModel _ _ actor => Some (["model.promoted"], actor)
  | OpDeployModel _ _ actor => Some (["model.deployed"], actor)
  | OpRollbackModel _ actor => Some (["model.rolled_back"], actor)
  | OpDeployAgent _ actor => Some (["agent.deployed"], actor)
  | OpSetAgentTraffic _ _ actor => Some (["agent.traffic_updated"], actor)
  | OpUpsertFunction _ _ actor => Some (["function.deployed"; "function.updated"], actor)
  | OpDeleteFunction _ actor => Some (["function.deleted"], actor)
  | OpRegisterTool _ actor => Some (["tool.registered"], actor)
  | OpCreateConnection _ actor => Some (["connection.created"], actor)
  | OpUpdateConnectionStatus _ _ _ actor => Some (["connection.checked"], actor)
  | OpApplyFeatureView _ actor => Some (["feature_view.applied"], actor)
  | OpReportMaterialization _ _ actor => Some (["feature_view.materialized"], actor)
  | _ => None
  end.

(** The operations whose success reports that the state is on disk: all but the
    resolution of a token, which drops the error of its write. *)
Definition durable (o : op) : Prop := match o with OpResolveAPIToken _ => False | _ => True end.

(** The repository's file holds the whole of the state. *)
Definition on_disk `{Host} (w : world) : Prop :=
  ∃ raw, json_marshal (w_data w) = Some raw ∧ w_files w !! w_path w = Some raw.

(** What an operation leaves on disk: the file as it was, or the whole new state;
    after a success that changed the state, the latter. *)
Record file_ok `{Host} (o : op) (w : world) (err : option gerror) (w' : world) : Prop := {
  fo_path : w_path w' = w_path w;
  fo_atomic : w_files w' !! w_path w = w_files w !! w_path w ∨ on_disk w';
  fo_durable : err = None → durable o → w_data w' ≠ w_data w → w_path w ≠ "" → on_disk w'
}.

(** ** Lemmas *)

#[export] Instance run_succ_refl : Reflexive run_succ.
Proof. intros r. split; auto. Qed.

#[export] Instance run_succ_trans : Transitive run_succ.
Proof.
  intros r1 r2 r3 [(?&?&?&?&?) Hs Ht Hl] [(?&?&?&?&?) Hs' Ht' Hl'].
  assert (terminal (run_Status r1) → run_Status r2 = run_Status r1) as Hkeep
    by (intros Hr; destruct Hs as [|[]]; done).
  split.
  - split_and!; congruence.
  - destruct Hs as [Hs|[Hn Hin]], Hs' as [Hs'|[Hn' Hin']].
    + left. congruence.
    + right. split; [congruence|done].
    + right. split; [done|]. by rewrite Hs'.
    + right. by split.
  - intros Hr. destruct (Ht Hr) as [<- <-]. apply Ht'. by rewrite Hkeep.
  - by etrans.
Qed.

Lemma runs_succ_refl runs : runs_succ runs runs.
Proof.
  exists [], runs. split_and!; [done| |simpl; lia|done].
  by apply Forall_Forall2_diag, Forall_forall.
Qed.

Lemma runs_succ_update runs i r r' :
  runs !! i = Some r → run_succ r r' → runs_succ runs (<[i := r']> runs).
Proof.
  intros Hi Hr. exists [], (<[i := r']> runs). split_and!; [done| |simpl; lia|done].
  apply Forall2_same_length_lookup. split; [by rewrite length_insert|].
  intros j x y Hx Hy. apply list_lookup_insert_Some in Hy as [(->&->&_)|(_&Hy)].
  - congruence.
  - by replace y with x by congruence.
Qed.

Lemma runs_succ_new runs r :
  run_Status r = "queued" → run_Progress r = 0%Z → runs_succ runs (r :: runs).
Proof.
  intros Hs Hp. exists [r], runs. split_and!; [done| |simpl; lia|by constructor].
  by apply Forall_Forall2_diag, Forall_forall.
Qed.

Lemma engine_succ t engine r :
  run_succ r (r <|run_EngineRunID := engine|> <|run_UpdatedAt := t|>).
Proof. split; auto. Qed.

Lemma cancel_succ t entry r :
  ¬ (run_Status r = "succeeded" ∨ run_Status r = "failed") →
  run_succ r (r <|run_Status := "cancelled"|> <|run_UpdatedAt := t|>
                <|run_Logs := app (run_Logs r) [entry]|>).
Proof.
  intros Hn. split; simpl; [done| |done|by apply prefix_app_r].
  destruct (decide (terminal (run_Status r))) as [Ht|Ht].
  - left. destruct Ht as [->|[?|?]]; [done|..]; destruct Hn; auto.
  - right. split; [done|by apply (bool_decide_unpack _)].
Qed.

Lemma report_succ t req r : run_succ r (report_run t req r).
Proof.
  unfold report_run. cbv zeta. set (r1 := r <|run_Logs := _|>).
  assert (run_succ r r1) as Hr1
    by (split; auto; unfold r1; simpl; by apply prefix_app_r).
  case_decide as Ht; [done|]. etrans; [exact Hr1|].
  pose proof (run_verdict_cases (run_Status r1) (stp_Status <$> set_step req (run_Steps r1)))
    as (_&_&Hv). cbv zeta in Hv. rewrite <- applyStepTransition_status in Hv.
  destruct (applyStepTransition_same r1 req) as (?&?&Hlogs).
  split; simpl.
  - unfold applyStepTransition. by repeat (case_decide; simpl).
  - rewrite !elem_of_cons in Hv. set_solver.
  - done.
  - by rewrite Hlogs.
Qed.

(** ** Every operation *)

Section operations.
Context `{Host} `{MapOrder}.

Lemma run_op_runs o w :
  wp (run_op o) w (λ _ w', runs_succ (st_Runs (w_data w)) (st_Runs (w_data w'))).
Proof.
  op_cases o.
  all: try match goal with H : persisted _ _ _ |- _ => destruct H as [-> _ _ _ _ _] end.
  all: simpl; try apply runs_succ_refl; found.
  all: try (apply runs_succ_new; done).
  all: eapply runs_succ_update; [eassumption|].
  - by apply cancel_succ.
  - apply engine_succ.
  - apply report_succ.
Qed.

(** A refused operation leaves memory and disk as they were. *)
Lemma run_op_refused o w :
  wp (run_op o) w (λ err w', ∀ e, err = Some e → is_io e = false →
    w_data w' = w_data w ∧ w_files w' = w_files w).
Proof.
  op_cases o; simpl; intros err Herr Hio; try done.
  all: match goal with
    | H : persisted _ ?r _, Herr : ?r = Some _ |- _ =>
        apply (per_error _ _ _ H) in Herr; congruence
    end.
Qed.

Lemma tokens_update_succ i token token' tokens :
  tokens !! i = Some token → token_succ token token' →
  ∃ fresh olds, <[i := token']> tokens = (fresh ++ olds)%list ∧ Forall2 token_succ tokens olds.
Proof using Type.
  intros Hi Hs. exists [], (<[i := token']> tokens). split; [done|].
  apply Forall2_same_length_lookup. split; [by rewrite length_insert|].
  intros j x y Hx Hy. apply list_lookup_insert_Some in Hy as [(->&->&_)|(_&Hy)].
  - congruence.
  - by replace y with x by congruence.
Qed.

Lemma run_op_tokens o w :
  wp (run_op o) w (λ _ w', ∃ fresh olds,
    st_APITokens (w_data w') = (fresh ++ olds)%list
    ∧ Forall2 token_succ (st_APITokens (w_data w)) olds).
Proof.
  assert (∀ tokens, Forall2 token_succ tokens tokens) as Hrefl
    by (intros; by apply Forall_Forall2_diag, Forall_forall).
  op_cases o.
  all: try match goal with H : persisted _ _ _ |- _ => destruct H as [-> _ _ _ _ _] end.
  all: simpl; try (exists [], (st_APITokens (w_data w)); by split); found.
  - eexists [_], (st_APITokens (w_data w)). split; [reflexivity|done].
  - eapply tokens_update_succ; [eassumption|]. split; simpl; try done.
    intros [? Hr]. congruence.
  - eapply tokens_update_succ; [eassumption|]. by split.
Qed.

Lemma run_op_audit o w :
  wp (run_op o) w (λ err w', ∃ new, st_Audit (w_data w') = (new ++ st_Audit (w_data w))%list
    ∧ (length new ≤ 1)%nat
    ∧ (err = None → ∀ actions actor, audited o = Some (actions, actor) →
       ∃ evt, new = [evt] ∧ evt_Action evt ∈ actions
         ∧ evt_Actor evt = (if decide (actor = "") then "anonymous" else actor))).
Proof.
  op_cases o.
  all: try match goal with H : persisted _ _ _ |- _ => destruct H as [-> _ _ _ _ _] end.
  all: simpl.
  all: try (exists []; split_and!; [done|simpl; lia|done]).
  all: eexists [_]; split_and!; [reflexivity|simpl; lia|try done].
  all: intros _ ? ? [= <- <-]; eexists; split_and!; [reflexivity| |reflexivity]; simpl.
  all: try (solve [left|right; left]).
  match goal with H : ¬ (rar_Status req ≠ _ ∧ _) |- _ =>
    apply not_and_l in H as [->%dec_stable| ->%dec_stable]; by apply (bool_decide_unpack _) end.
Qed.

(** [persist] from a state reached without touching the disk. *)
Lemma persisted_file o w wm r w' :
  persisted wm r w' → w_path wm = w_path w → w_files wm = w_files w →
  file_ok o w r w'.
Proof.
  intros [Hd Hp _ _ Hk Hw] Hpath Hfiles.
  assert (r = None → w_path w ≠ "" → on_disk w') as Hdone.
  { intros Hr Hne. rewrite <- Hpath in Hne. destruct (Hw Hr Hne) as (raw&?&?).
    exists raw. by rewrite Hd, Hp. }
  split; [congruence| |auto].
  destruct (decide (r ≠ None ∨ w_path w = "")) as [Hr|Hr].
  - left. rewrite <- Hpath, <- Hfiles. apply Hk. by rewrite Hpath.
  - right. apply Decidable.not_or in Hr as [Hr%dec_stable ?]. auto.
Qed.

Lemma run_op_file o w : wp (run_op o) w (λ err w', file_ok o w err w').
Proof.
  op_cases o.
  all: try match goal with
    | H : persisted ?wm ?r ?w' |- _ =>
        apply (persisted_file (OpSetRunEngine "" "") w) in H; [|reflexivity|reflexivity];
        destruct H; split; simpl; auto; fail
    end.
  all: try (split; simpl; [done|by left|done]).
  apply (persisted_file (OpSetRunEngine "" "") w) in Hper as [Hp Ha _]; [|done..].
  split; simpl; [done|done|by intros _ []].
Qed.

End operations.

(** ** Reachable processes *)

Section reach.
Context `{Host} `{MapOrder}.

Lemma reachable_ind_wp (P : world → Prop) w0 w :
  (∀ o w1, P w1 → wp (run_op o) w1 (λ _ w', P w')) → reachable w0 w → P w0 → P w.
Proof.
  intros Hop. induction 1 as [|w o err w' _ IH [? ? Hrun]]; [done|].
  intros Hstart. pose proof (Hop o w (IH Hstart)) as Hw. unfold wp in Hw. by rewrite Hrun in Hw.
Qed.

Lemma run_op_data_ok o w : data_ok (w_data w) → wp (run_op o) w (λ _ w', data_ok (w_data w')).
Proof.
  intros [Hp Hv Hk].
  pose proof (run_op_projects o w Hp). pose proof (run_op_values o w Hv).
  pose proof (run_op_keys o w Hk). by split.
Qed.

Lemma reachable_data_ok w0 w : opened w0 → reachable w0 w → data_ok (w_data w).
Proof.
  intros Hopen Hreach. eapply reachable_ind_wp with (P := λ w, data_ok (w_data w));
    [exact run_op_data_ok|exact Hreach|by apply opened_ok].
Qed.

Lemma run_op_successors o w w' err r :
  run_op o w = (err, w') → r ∈ st_Runs (w_data w) →
  ∃ r', r' ∈ st_Runs (w_data w') ∧ run_succ r r'.
Proof.
  intros Hrun [i Hi]%list_elem_of_lookup. pose proof (run_op_runs o w) as Hw.
  unfold wp in Hw. rewrite Hrun in Hw. destruct Hw as (fresh&olds&Heq&Hall&_&_).
  destruct (Forall2_lookup_l _ _ _ _ _ Hall Hi) as (r'&Hr'&Hs).
  exists r'. split; [|done]. simpl in Heq. rewrite Heq. apply elem_of_app. right.
  by eapply list_elem_of_lookup_2.
Qed.
End reach.


(** Nothing fails where the environment does not. *)
Lemma persist_quiet `{Host} w :
  (∀ k, os_mkdir_error k = None ∧ os_write_error k = None ∧ os_rename_error k = None) →
  (∀ d, is_Some (json_marshal d)) → (persist w).1 = None.
Proof.
  intros Hio Hjson. unfold persist, path, data, ask, write_file, rename_file. run_M.
  case_decide; [done|]. simpl. rewrite (proj1 (Hio _)). simpl.
  destruct (Hjson (w_data w)) as [raw ->]. simpl.
  rewrite (proj1 (proj2 (Hio _))). simpl. rewrite (proj2 (proj2 (Hio _))). simpl.
  by rewrite lookup_insert_eq.
Qed.

(** ** Properties *)

(** C1: in every repository reached from a fresh one by any sequence of
    operations, with any arguments and in any environment, every stored value
    satisfies its component's invariant, every resource belongs to a stored
    project, and the uniqueness rules hold (project and connection names up to
    case, model and tool versions, function and feature view names, sessions
    per agent, one pending access request per subject). *)
Theorem repository_invariant `{Host} `{MapOrder} w0 w :
  opened w0 → reachable w0 w → data_ok (w_data w).
Proof. apply reachable_data_ok. Qed.

(** C24: where the clock never repeats, the identifiers of every kind of resource
    and the blog's slugs are distinct in every reachable repository, and the
    next identifier generated is new. *)
Theorem identifiers_distinct `{Host} `{!DistinctClock} `{MapOrder} w0 w :
  opened w0 → reachable w0 w → ids_ok (w_tick w) (w_data w).
Proof.
  intros Hopen Hreach. eapply reachable_ind_wp with (P := λ w, ids_ok (w_tick w) (w_data w));
    [exact run_op_ids|exact Hreach|by apply opened_ids].
Qed.

(** C21: an operation that the repository refuses (any error that is not the
    environment's) changes neither memory nor disk. *)
Theorem refused_unchanged `{Host} `{MapOrder} o w e w' :
  run_op o w = (Some e, w') → is_io e = false →
  w_data w' = w_data w ∧ w_files w' = w_files w.
Proof.
  intros Hrun Hio. pose proof (run_op_refused o w) as Hw. unfold wp in Hw.
  rewrite Hrun in Hw. by apply (Hw e).
Qed.

(** C22: the audit trail only grows, whatever the sequence of operations, and
    every successful management operation adds exactly one event, with the
    operation's action and its actor ("anonymous" if none is named). *)
Theorem audit_trail `{Host} `{MapOrder} w w' :
  reachable w w' →
  st_Audit (w_data w) `suffix_of` st_Audit (w_data w')
  ∧ ∀ o w'' actions actor, run_op o w' = (None, w'') → audited o = Some (actions, actor) →
      ∃ evt, st_Audit (w_data w'') = evt :: st_Audit (w_data w')
        ∧ evt_Action evt ∈ actions
        ∧ evt_Actor evt = (if decide (actor = "") then "anonymous" else actor).
Proof.
  intros Hreach. split.
  - eapply reachable_ind_wp with (P := λ w', st_Audit (w_data w) `suffix_of` st_Audit (w_data w'));
      [|exact Hreach|done].
    intros o w1 Hs. eapply wp_mono; [apply run_op_audit|]. intros err w2 (new&->&_&_).
    etrans; [exact Hs|by eexists].
  - intros o w'' actions actor Hrun Ha. pose proof (run_op_audit o w') as Hw.
    unfold wp in Hw. rewrite Hrun in Hw. destruct Hw as (new&Heq&_&Hev). simpl in Heq.
    destruct (Hev eq_refl actions actor Ha) as (evt&->&?&?). by exists evt.
Qed.

(** C23: an operation replaces the repository's file as a whole or not at all,
    whatever the environment does, and one that reports success after changing
    the state has written it (the use of a token excepted, which drops the
    error of its write). *)
Theorem file_atomic `{Host} `{MapOrder} o w err w' :
  run_op o w = (err, w') → file_ok o w err w'.
Proof.
  intros Hrun. pose proof (run_op_file o w) as Hw. unfold wp in Hw. by rewrite Hrun in Hw.
Qed.

(** C6: over any sequence of operations a run keeps its identity, project and
    parent, its log only grows, and once it is succeeded, failed or cancelled
    its status, steps and progress never change. *)
Theorem run_lifecycle `{Host} `{MapOrder} w w' r :
  reachable w w' → r ∈ st_Runs (w_data w) → ∃ r', r' ∈ st_Runs (w_data w') ∧ run_succ r r'.
Proof.
  induction 1 as [|w1 o err w2 _ IH [? ? Hrun]]; intros Hr; [by exists r|].
  destruct (IH Hr) as (r1&Hr1&Hs1).
  destruct (run_op_successors _ _ _ _ _ Hrun Hr1) as (r2&Hr2&Hs2).
  exists r2. split; [done|by etrans].
Qed.

(** C20: over any sequence of operations a token keeps its holder, digest, scopes and
    expiry, and once revoked it stays revoked, so no secret opens it again. *)
Theorem revocation_final `{Host} `{MapOrder} w w' token :
  reachable w w' → token ∈ st_APITokens (w_data w) →
  ∃ token', token' ∈ st_APITokens (w_data w') ∧ token_succ token token'
    ∧ (is_Some (tok_RevokedAt token) → ∀ secret t, ¬ token_opens secret t token').
Proof.
  intros Hreach Hin.
  enough (∃ token', token' ∈ st_APITokens (w_data w') ∧ token_succ token token')
    as (token'&Hin'&Hs).
  { exists token'. split_and!; try done. intros Hr secret t (_&Hn&_).
    rewrite (ts_revoked _ _ Hs Hr) in Hn. rewrite Hn in Hr. by destruct Hr. }
  induction Hreach as [|w1 o err w2 _ IH [? ? Hrun]]; [by exists token|].
  destruct IH as (t1&[i Hi]%list_elem_of_lookup&Hs1).
  pose proof (run_op_tokens o w1) as Hw. unfold wp in Hw. rewrite Hrun in Hw.
  destruct Hw as (fresh&olds&Heq&Hall). simpl in Heq.
  destruct (Forall2_lookup_l _ _ _ _ _ Hall Hi) as (t2&Ht2&Hs2).
  exists t2. split; [|by etrans]. rewrite Heq. apply elem_of_app. right.
  by eapply list_elem_of_lookup_2.
Qed.

(** Reopening a repository whose file holds its whole state, in an encoding
    that decodes to that state, restores the state exactly. *)
Theorem reopen_restores `{Host} w :
  w_path w ≠ "" → on_disk w → st_Projects (w_data w) ≠ [] →
  (∀ raw, json_marshal (w_data w) = Some raw → json_unmarshal raw = (w_data w, None)) →
  (∀ k, os_read_error k = None) →
  w_data (New [w_path w] w).2 = w_data w.
Proof.
  intros Hp (raw&Hraw&Hfile) Hne Hdec Hread.
  unfold New, load, set_path, put_data, path, read_file, ask, data. run_M.
  rewrite decide_True by done. simpl. rewrite Hfile. simpl. rewrite Hread. simpl.
  rewrite (Hdec raw Hraw). simpl. rewrite decide_False; [done|].
  by destruct (st_Projects (w_data w)).
Qed.

(** Opening a repository whose file cannot be decoded loses its content: the
    error is dropped, the demo state is seeded and written over the file. *)
Theorem undecodable_file_lost `{Host} w p raw msg :
  p ≠ "" → w_files w !! p = Some raw → json_unmarshal raw = (zero, Some msg) →
  (∀ k, os_read_error k = None ∧ os_mkdir_error k = None ∧ os_write_error k = None
        ∧ os_rename_error k = None) →
  (∀ d, is_Some (json_marshal d)) →
  let w' := (New [p] w).2 in
  w_data w' = zero <|st_Projects := [demo_project (clock (S (w_tick w)))]|>
                   <|st_Runs := [demo_run (clock (S (w_tick w)))]|>
  ∧ w_files w' !! p = json_marshal (w_data w').
Proof.
  intros Hp Hfile Hdec Hio Hjson. pose proof (Hio (w_tick w)) as (Hr&_).
  unfold New, load, set_path, put_data, path, read_file, ask, data, now, modify. run_M.
  rewrite decide_True by done. simpl. rewrite Hfile. simpl. rewrite Hr, Hdec. simpl.
  set (w1 := {| w_tick := S _ |}).
  pose proof (persist_persisted w1) as [Hd _ _ _ _ Hw].
  assert ((persist w1).1 = None) as Hnone by (apply persist_quiet; naive_solver).
  destruct (persist w1) as [err w2]. simpl in *. split; [done|].
  destruct (Hw Hnone Hp) as (raw'&Hraw&Hf). rewrite Hd. congruence.
Qed.

(** Granting access to a subject written with surrounding white space never
    finds the grant it should replace: the stored subject is trimmed and the
    search is not, so another grant of the same subject is added; with trimmed
    subjects there is one grant each. *)
Theorem untrimmed_subject_duplicates `{Host} subject req actor w access :
  Forall access_ok (st_UserAccess (w_data w)) → validateAccess subject req = Ok access →
  wp (UpsertUserAccess subject req actor) w (λ '(granted, _) w',
    ua_Subject granted = TrimSpace subject
    ∧ (if decide (TrimSpace subject = subject)
       then keys_unique ua_Subject (st_UserAccess (w_data w)) →
            keys_unique ua_Subject (st_UserAccess (w_data w'))
       else st_UserAccess (w_data w') = granted :: st_UserAccess (w_data w))).
Proof.
  intros Hok Hv. apply validateAccess_Ok in Hv as Hs. destruct Hs as [_ Hs].
  unfold UpsertUserAccess. rewrite Hv.
  wp_run; destruct Hper as [-> _ _ _ _ _]; simpl in *; (split; [done|]); case_decide as Ht.
  - intros Hu. found. eapply keys_unique_insert; [done|eassumption|]. simpl. congruence.
  - found. destruct Ht. subst subject.
    apply (Forall_lookup_at _ _ _ _ Hok) in H0 as [[_ ?] _ _ _ _]. done.
  - intros Hu. apply keys_unique_cons; [done|]. intros y Hy Hk. simpl in Hk.
    eapply list_find_miss in Heqo; [|exact Hy]. apply Heqo. congruence.
  - done.
Qed.

(** ** Witnesses

    A repository opened on an empty disk, then one operation after another. *)

#[local] Existing Instance quiet_host.
#[local] Existing Instance quiet_clock.
#[local] Existing Instance listed_order.

Definition store_open : world := (New ["store.json"] (booting "" ∅)).2.

Definition churn : op :=
  OpCreateProject (mkCreateProjectRequest "Churn model" "" "" "" "" "alice") ["alice"].
Definition store_churn : world := (run_op churn store_open).2.

Definition demo_report : op :=
  OpUpdateRunStep "run-demo" (mkUpdateRunStepRequest "train-model" "failed" "") "pipeline".

Lemma store_open_opened : opened store_open.
Proof. exists ["store.json"], (booting "" ∅). split; [by right|done]. Qed.

Lemma store_churn_reachable : reachable store_open store_churn.
Proof. by eapply (reach_step _ store_open churn None); [constructor|constructor; vm_compute]. Qed.

Lemma repository_invariant_witness :
  opened store_open ∧ reachable store_open store_churn
  ∧ length (st_Projects (w_data store_churn)) = 2%nat ∧ data_ok (w_data store_churn).
Proof.
  split; [exact store_open_opened|]. split; [exact store_churn_reachable|].
  split; [vm_compute; reflexivity|].
  exact (repository_invariant store_open store_churn store_open_opened store_churn_reachable).
Defined.

Lemma identifiers_distinct_witness :
  opened store_open ∧ reachable store_open store_churn
  ∧ ids_ok (w_tick store_churn) (w_data store_churn).
Proof.
  split; [exact store_open_opened|]. split; [exact store_churn_reachable|].
  exact (identifiers_distinct store_open store_churn store_open_opened store_churn_reachable).
Defined.

Lemma refused_unchanged_witness :
  (run_op churn store_churn).1 = Some ErrConflict
  ∧ w_data (run_op churn store_churn).2 = w_data store_churn
  ∧ w_files (run_op churn store_churn).2 = w_files store_churn.
Proof.
  split; [vm_compute; reflexivity|].
  apply (refused_unchanged churn store_churn ErrConflict); [vm_compute|]; reflexivity.
Defined.

Lemma audit_trail_witness :
  st_Audit (w_data store_open) `suffix_of` st_Audit (w_data store_churn)
  ∧ evt_Action <$> head (st_Audit (w_data store_churn)) = Some "project.created".
Proof.
  split; [|vm_compute; reflexivity].
  apply (audit_trail store_open store_churn). exact store_churn_reachable.
Defined.

Lemma file_atomic_witness :
  w_files store_churn !! "store.json" = Some "2"
  ∧ file_ok churn store_open None store_churn.
Proof.
  split; [vm_compute; reflexivity|].
  apply (file_atomic churn store_open None store_churn). vm_compute. reflexivity.
Defined.

Lemma run_lifecycle_witness :
  ∃ r', r' ∈ st_Runs (w_data (run_op demo_report store_open).2)
        ∧ run_succ (demo_run (clock 0)) r'.
Proof.
  apply (run_lifecycle store_open).
  - eapply (reach_step _ store_open demo_report None); [constructor|constructor; vm_compute; reflexivity].
  - vm_compute. left.
Defined.

Lemma reopen_restores_witness :
  let H := {| clock := λ k, Z.of_nat k; os_mkdir_error := λ _, None; os_rename_error := λ _, None;
              os_write_error := λ _, None; os_read_error := λ _, None;
              json_marshal := λ _, Some "state"; json_unmarshal := λ _, (w_data store_churn, None);
              rand_read := λ _ _, None; sha256_sum := λ s, s |} in
  let w := store_churn <|w_files := {["store.json" := "state"]}|> in
  w_data (New (H := H) [w_path w] w).2 = w_data w.
Proof.
  intros H w. apply (reopen_restores (H := H) w).
  - vm_compute. discriminate.
  - exists "state". split; vm_compute; reflexivity.
  - vm_compute. discriminate.
  - intros raw _. reflexivity.
  - reflexivity.
Defined.

Lemma undecodable_file_lost_witness :
  let w := booting "" {["store.json" := "junk"]} in
  let w' := (New ["store.json"] w).2 in
  prj_ID <$> st_Projects (w_data w') = ["prj-demo"]
  ∧ w_files w' !! "store.json" = json_marshal (w_data w').
Proof.
  intros w w'. split; [vm_compute; reflexivity|].
  apply (undecodable_file_lost w "store.json" "junk" "bad json");
    [discriminate|vm_compute; reflexivity|vm_compute; reflexivity|by intros k|by eexists].
Defined.

Definition alice_grant : UpsertUserAccessRequest :=
  mkUpsertUserAccessRequest "" "admin" ["overview"] [] (mkStorageGrant 0 [])
    (mkComputeGrant "" 0 0 0 "" 0 0 0 0) false.

Lemma untrimmed_subject_duplicates_witness :
  let w := (run_op (OpUpsertUserAccess "alice" alice_grant "root") store_open).2 in
  let w' := (run_op (OpUpsertUserAccess " alice" alice_grant "root") w).2 in
  ua_Subject <$> st_UserAccess (w_data w') = ["alice"; "alice"]
  ∧ ua_Subject (UpsertUserAccess " alice" alice_grant "root" w).1.1 = "alice".
Proof.
  intros w w'. split; [vm_compute; reflexivity|].
  destruct (validateAccess " alice" alice_grant) as [access|e] eqn:Hv; [|vm_compute in Hv; discriminate].
  pose proof (untrimmed_subject_duplicates " alice" alice_grant "root" w access) as Hdup.
  unfold wp in Hdup.
  destruct (UpsertUserAccess " alice" alice_grant "root" w) as [[granted err] w2].
  apply Hdup; [|exact Hv].
  eapply vo_access, ok_values, reachable_data_ok; [exact store_open_opened|].
  eapply (reach_step _ store_open (OpUpsertUserAccess "alice" alice_grant "root") None);
    [constructor|constructor; vm_compute; reflexivity].
Defined.

Definition issue : op := OpCreateAPIToken "alice" ci_request.
Definition store_issued : world := (run_op issue store_open).2.
Definition issued : APIToken := default zero (head (st_APITokens (w_data store_issued))).
Definition revoke : op := OpRevokeAPIToken "alice" (tok_ID issued).

Lemma revocation_final_witness :
  let w := (run_op revoke store_issued).2 in
  ∃ token token', token ∈ st_APITokens (w_data w) ∧ is_Some (tok_RevokedAt token)
    ∧ token' ∈ st_APITokens (w_data (run_op issue w).2)
    ∧ (is_Some (tok_RevokedAt token) → ∀ secret t, ¬ token_opens secret t token').
Proof.
  intros w. set (token := default zero (head (st_APITokens (w_data w)))).
  destruct (revocation_final w (run_op issue w).2 token) as (token'&Hin&_&Hno).
  - apply (reach_step _ w issue None); [constructor|constructor; vm_compute; reflexivity].
  - vm_compute. left.
  - exists token, token'. split; [vm_compute; left|]. split; [vm_compute; eexists; reflexivity|].
    split; [exact Hin|exact Hno].
Defined.
