(* ===== verification/Database.v ===== *)
(** * The PostgreSQL schema and what the repository asks of it
    (internal/store/migrations, internal/store/postgres.go)

    The server keeps three tables: the resources of every tenant with their
    JSON payload, the audit events and the outbox of events to publish.  A
    repository operation is a [prog]: the calls it makes of its process and of
    the server, one at a time, each with the continuation its answer selects.
    [answer] is the server: it runs one call on the tables, or fails it as the
    environment has it.  A transaction's statements reach the tables together,
    by its [CCommit].  [pstep] interleaves any number of operations, one call
    at a time. *)

From Stdlib Require Import Sorting.Sorted.
From stdpp Require Import sorting.
From S2P Require Import Prelude GoStrings Types World.

Open Scope string_scope.

(** ** JSON documents *)

(** [json.Marshal] and [json.Unmarshal] of the values of type [T], through a
    column of type [J].  Nothing is assumed of them: what a column gives back of
    a value is [stored]. *)
Class Codec (J T : Type) := {
  marshal : T → option J;
  unmarshal : J → T * option string
}.

Definition decoded {J T} `{Codec J T} (raw : J) : option T :=
  match unmarshal raw with (v, None) => Some v | (_, Some _) => None end.

Definition stored {J T} `{Codec J T} (v : T) : option T := marshal v ≫= decoded.

(** The command of a mutation, for the service that acts on it; its resource is
    the payload of the row written or, for a deletion, the subject. *)
Inductive command_resource (J : Type) : Type :=
  | RawMessage (payload : J)
  | SubjectOf (subject : string).
Arguments RawMessage {J} payload.
Arguments SubjectOf {J} subject.

Record command (J : Type) := mkCommand {
  cmd_id : string;
  cmd_kind : string;
  cmd_action : string;
  cmd_resource : command_resource J;
  cmd_actor : string;
  cmd_tenant : string;
  cmd_occurred_at : Time
}.
Arguments mkCommand {J}.

(** [jsonb], and the types the repository keeps in it. *)
Class Jsonb := {
  jsonb : Type;
  json_access :: Codec jsonb UserAccess;
  json_request :: Codec jsonb AccessRequest;
  json_token :: Codec jsonb APIToken;
  json_post :: Codec jsonb BlogPost;
  json_project :: Codec jsonb Project;
  json_run :: Codec jsonb PipelineRun;
  json_definition :: Codec jsonb PipelineDefinition;
  json_function :: Codec jsonb Function;
  json_model :: Codec jsonb Model;
  json_agent :: Codec jsonb Agent;
  json_tool :: Codec jsonb Tool;
  json_connection :: Codec jsonb Connection;
  json_session :: Codec jsonb AgentSession;
  json_trace :: Codec jsonb AgentTrace;
  json_feature :: Codec jsonb FeatureView;
  json_event :: Codec jsonb AuditEvent;
  json_metadata :: Codec jsonb (gmap string any);
  json_command :: Codec jsonb (command jsonb);
  json_payload :: Codec jsonb any
}.

(** ** The tables (migrations/001_initial.sql) *)

Section tables.
Context `{Jsonb}.

(** [platform_resources], by its primary key. *)
Record row := mkRow {
  row_payload : jsonb;
  row_created : Time;
  row_updated : Time
}.

(** [audit_events] *)
Record audit_row := mkAuditRow {
  aud_sequence : Z;
  aud_tenant : string;
  aud_id : string;
  aud_action : string;
  aud_resource : string;
  aud_resource_id : string;
  aud_actor : string;
  aud_metadata : option jsonb;
  aud_created : Time
}.

(** [outbox_events] *)
Record outbox_row := mkOutboxRow {
  out_sequence : Z;
  out_tenant : string;
  out_id : string;
  out_topic : string;
  out_key : string;
  out_payload : jsonb;
  out_published : option Time;
  out_attempts : Z;
  out_last_error : option string
}.

(** The tables, the newest audit and outbox rows first, and the next values of
    the two [BIGSERIAL] columns. *)
Record db := mkDb {
  db_resources : gmap (string * string * string) row;
  db_audit : list audit_row;
  db_outbox : list outbox_row;
  db_audit_next : Z;
  db_outbox_next : Z
}.

#[global] Instance eta_outbox_row : Eta outbox_row := λ r,
  mkOutboxRow (out_sequence r) (out_tenant r) (out_id r) (out_topic r) (out_key r)
    (out_payload r) (out_published r) (out_attempts r) (out_last_error r).
#[global] Instance eta_db : Eta db := λ b,
  mkDb (db_resources b) (db_audit b) (db_outbox b) (db_audit_next b) (db_outbox_next b).

Definition OutboxEvent : Type := outbox_row.

(** ** Statements *)

(** The statements the repository executes.  The payload of an outbox row is
    what [json.Marshal] left, nothing if it failed. *)
Inductive stmt : Type :=
  | Upsert (tenant kind resourceID : string) (payload : jsonb)
  | Update (tenant kind resourceID : string) (payload : jsonb)
  | Delete (tenant kind resourceID : string)
  | InsertAudit (tenant : string) (event : AuditEvent)
  | InsertOutbox (tenant outboxID topic key : string) (payload : option jsonb)
  | SetPublished (tenant : string) (sequence : Z)
  | SetFailed (tenant : string) (sequence : Z) (message : string).

Definition stmt_tenant (s : stmt) : string :=
  match s with
  | Upsert tenant _ _ _ | Update tenant _ _ _ | Delete tenant _ _ | InsertAudit tenant _
  | InsertOutbox tenant _ _ _ _ | SetPublished tenant _ | SetFailed tenant _ _ => tenant
  end.

(** The rows of the outbox a [WHERE tenant_id=$1 AND sequence=$2] selects. *)
Definition outbox_at (tenant : string) (sequence : Z) (r : outbox_row) : Prop :=
  out_tenant r = tenant ∧ out_sequence r = sequence.
#[global] Instance outbox_at_dec tenant sequence r : Decision (outbox_at tenant sequence r).
Proof. unfold outbox_at. apply _. Defined.

Definition update_outbox (tenant : string) (sequence : Z) (f : outbox_row → outbox_row) (b : db) : db :=
  b <|db_outbox := (λ r, if decide (outbox_at tenant sequence r) then f r else r) <$> db_outbox b|>.

(** The metadata column: [NULL] without metadata, and nothing to insert if its
    encoding fails. *)
Definition metadata_json (metadata : gmap string any) : option (option jsonb) :=
  if decide (metadata = ∅) then Some None else Some <$> marshal metadata.

(** One statement of a transaction begun at [started], with the value its serial
    column takes: the rows it affects and the tables after it, or nothing if
    it violates a constraint. *)
Definition apply_stmt (started : Time) (sequence : Z) (s : stmt) (b : db) : option (nat * db) :=
  match s with
  | Upsert tenant kind i payload =>
      let created := default started (row_created <$> db_resources b !! (tenant, kind, i)) in
      Some (1%nat, b <|db_resources :=
        <[(tenant, kind, i) := mkRow payload created started]> (db_resources b)|>)
  | Update tenant kind i payload =>
      match db_resources b !! (tenant, kind, i) with
      | Some r => Some (1%nat, b <|db_resources :=
          <[(tenant, kind, i) := mkRow payload (row_created r) started]> (db_resources b)|>)
      | None => Some (0%nat, b)
      end
  | Delete tenant kind i =>
      match db_resources b !! (tenant, kind, i) with
      | Some _ => Some (1%nat, b <|db_resources := delete (tenant, kind, i) (db_resources b)|>)
      | None => Some (0%nat, b)
      end
  | InsertAudit tenant e =>
      if decide (evt_ID e ∈ aud_id <$> db_audit b ∨ sequence ∈ aud_sequence <$> db_audit b)
      then None else
      metadata ← metadata_json (evt_Metadata e);
      Some (1%nat, b <|db_audit := mkAuditRow sequence tenant (evt_ID e) (evt_Action e)
        (evt_Resource e) (evt_ResourceID e) (evt_Actor e) metadata (evt_CreatedAt e)
        :: db_audit b|>)
  | InsertOutbox tenant i topic key payload =>
      if decide (i ∈ out_id <$> db_outbox b ∨ sequence ∈ out_sequence <$> db_outbox b)
      then None else
      payload ← payload;
      Some (1%nat, b <|db_outbox := mkOutboxRow sequence tenant i topic key payload None 0 None
        :: db_outbox b|>)
  | SetPublished tenant n =>
      Some (1%nat, update_outbox tenant n (λ r, r <|out_published := Some started|>
        <|out_attempts := (out_attempts r + 1)%Z|> <|out_last_error := None|>) b)
  | SetFailed tenant n message =>
      Some (1%nat, update_outbox tenant n (λ r, r <|out_attempts := (out_attempts r + 1)%Z|>
        <|out_last_error := Some message|>) b)
  end.

(** The serial value a statement draws, and the counters after it. *)
Definition draw (s : stmt) (b : db) : Z * db :=
  match s with
  | InsertAudit _ _ => (db_audit_next b, b <|db_audit_next := (db_audit_next b + 1)%Z|>)
  | InsertOutbox _ _ _ _ _ => (db_outbox_next b, b <|db_outbox_next := (db_outbox_next b + 1)%Z|>)
  | _ => (0%Z, b)
  end.

(** A transaction: its [now()], and its statements so far, last first, with the
    serial values they drew. *)
Record tx := mkTx { tx_started : Time; tx_stmts : list (Z * stmt) }.

Fixpoint apply_stmts (started : Time) (stmts : list (Z * stmt)) (b : db) : option db :=
  match stmts with
  | [] => Some b
  | (n, s) :: earlier => b ← apply_stmts started earlier b; snd <$> apply_stmt started n s b
  end.

Definition apply_tx (t : tx) (b : db) : option db := apply_stmts (tx_started t) (tx_stmts t) b.

Definition push (t : tx) (n : Z) (s : stmt) : tx := mkTx (tx_started t) ((n, s) :: tx_stmts t).
End tables.

(** ** Calls *)

Section calls.
Context `{Jsonb}.

(** What an operation asks for: a computation of its own process, a query, a
    step of a transaction, a statement of its own, or a publication. *)
Inductive call : Type → Type :=
  | CHost {B} (m : M B) : call B
  | CConnect (databaseURL : string) : call (option gerror)
  | CSelect (tenant kind : string) : call (list jsonb)
  | CGet (tenant kind resourceID : string) : call (result (option jsonb))
  | CAudit (tenant : string) : call (list audit_row)
  | CPending (tenant : string) (limit : nat) : call (result (list OutboxEvent))
  | CBegin : call (result Time)
  | CExec (t : tx) (s : stmt) : call (result (Z * nat))
  | CCommit (t : tx) : call (option gerror)
  | CAuto (s : stmt) : call (result nat)
  | CPublish (topic : string) (payload : any) : call (option gerror).

Inductive prog (A : Type) : Type :=
  | Ret (a : A)
  | Do {B} (c : call B) (k : B → prog A).
End calls.
Arguments Ret {_ A} a.
Arguments Do {_ A B} c k.

#[export] Instance prog_ret `{Jsonb} : MRet prog := λ A a, Ret a.
#[export] Instance prog_bind `{Jsonb} : MBind prog := λ A B f,
  fix bind m := match m with Ret a => f a | Do c k => Do c (λ b, bind (k b)) end.

Definition do_ `{Jsonb} {B} (c : call B) : prog B := Do c Ret.

(** [if err != nil { return err }] *)
Definition attempt `{Jsonb} {A} (m : prog (result A)) (k : A → prog (option gerror))
    : prog (option gerror) :=
  r ← m; match r with Ok a => k a | Err e => mret (Some e) end.

Abbreviation P A := (prog (A * option gerror)).

(** ** The server *)

(** What the environment decides at each call: the error of a call the server
    or the connection fails (and, for one that writes, whether the server
    carried it out all the same), the server's clock, how many rows of a
    result arrive before the connection breaks, the order [ORDER BY created_at
    DESC] puts rows in (rows created together come in any order), the rows
    another session has locked, and the errors of the broker (which may have
    taken the message all the same). *)
Class Server `{Jsonb} := {
  db_error : nat → option (string * bool);
  db_clock : nat → Time;
  db_received : nat → option nat;
  db_order : nat → list row → list row;
  db_order_perm k l : db_order k l ≡ₚ l;
  db_order_desc k l : StronglySorted (λ r r', (row_created r' ≤ row_created r)%Z) (db_order k l);
  db_locked : nat → Z → bool;
  publish_error : nat → option (string * bool)
}.

Section server.
Context `{Server}.

(** The process, the tables, and the messages the broker has taken, in order. *)
Record sys := mkSys { s_world : world; s_db : db; s_broker : list (string * any) }.

(** The rows that arrive. *)
Definition received {A} (k : nat) (l : list A) : list A :=
  match db_received k with Some n => take n l | None => l end.

(** [ORDER BY sequence] and [ORDER BY sequence DESC] *)
Definition sequence_le (r r' : outbox_row) : Prop := (out_sequence r ≤ out_sequence r')%Z.
#[global] Instance sequence_le_dec r r' : Decision (sequence_le r r').
Proof. unfold sequence_le. apply _. Defined.
Definition sequence_ge (r r' : audit_row) : Prop := (aud_sequence r' ≤ aud_sequence r)%Z.
#[global] Instance sequence_ge_dec r r' : Decision (sequence_ge r r').
Proof. unfold sequence_ge. apply _. Defined.

Definition by_sequence : list outbox_row → list outbox_row := merge_sort sequence_le.
Definition newest_first : list audit_row → list audit_row := merge_sort sequence_ge.

(** The rows of a tenant and kind. *)
Definition rows_of (tenant kind : string) (b : db) : list row :=
  snd <$> map_to_list (filter (λ kv, kv.1.1 = (tenant, kind)) (db_resources b)).

(** [tenant_id=$1 AND published_at IS NULL] *)
Definition pending (tenant : string) (r : outbox_row) : Prop :=
  out_tenant r = tenant ∧ out_published r = None.
#[global] Instance pending_dec tenant r : Decision (pending tenant r).
Proof. unfold pending. apply _. Defined.

Definition duplicate : gerror := ErrIO "constraint violation".

(** A change the server carries out, unless the call fails; a failed one may
    have been carried out all the same. *)
Definition carry_out {A} (k : nat) (change : option (A * db)) (b : db) : result A * db :=
  match db_error k, change with
  | Some (msg, true), Some (_, b') => (Err (ErrIO msg), b')
  | Some (msg, _), _ => (Err (ErrIO msg), b)
  | None, Some (a, b') => (Ok a, b')
  | None, None => (Err duplicate, b)
  end.

Definition error_of {A} (r : result A) : option gerror :=
  match r with Ok _ => None | Err e => Some e end.

(** The next state after a call of the server that leaves the tables [b]. *)
Definition called (s : sys) (b : db) : sys :=
  mkSys ((s_world s) <|w_tick := S (w_tick (s_world s))|>) b (s_broker s).

Definition answer {B} (c : call B) (s : sys) : B * sys :=
  let k := w_tick (s_world s) in
  let b := s_db s in
  match c in call B return B * sys with
  | CHost m => let '(v, w) := m (s_world s) in (v, mkSys w b (s_broker s))
  | CConnect _ => ((λ e, ErrIO e.1) <$> db_error k, called s b)
  | CSelect tenant kind =>
      (match db_error k with
       | Some _ => []
       | None => received k (row_payload <$> db_order k (rows_of tenant kind b))
       end, called s b)
  | CGet tenant kind i =>
      (match db_error k with
       | Some (msg, _) => Err (ErrIO msg)
       | None => Ok (row_payload <$> db_resources b !! (tenant, kind, i))
       end, called s b)
  | CAudit tenant =>
      (match db_error k with
       | Some _ => []
       | None => received k
           (take 500 (newest_first (filter (λ r, aud_tenant r = tenant) (db_audit b))))
       end, called s b)
  | CPending tenant limit =>
      (match db_error k with
       | Some (msg, _) => Err (ErrIO msg)
       | None => Ok (take limit (filter (λ r, db_locked k (out_sequence r) = false)
                      (by_sequence (filter (pending tenant) (db_outbox b)))))
       end, called s b)
  | CBegin =>
      (match db_error k with
       | Some (msg, _) => Err (ErrIO msg)
       | None => Ok (db_clock k)
       end, called s b)
  | CExec t st =>
      let '(n, b) := draw st b in
      (match db_error k, apply_tx t b ≫= apply_stmt (tx_started t) n st with
       | Some (msg, _), _ => Err (ErrIO msg)
       | None, Some (affected, _) => Ok (n, affected)
       | None, None => Err duplicate
       end, called s b)
  | CCommit t =>
      let '(r, b) := carry_out k (pair tt <$> apply_tx t b) b in (error_of r, called s b)
  | CAuto st =>
      let '(n, b) := draw st b in
      let '(r, b) := carry_out k (apply_stmt (db_clock k) n st b) b in (r, called s b)
  | CPublish topic payload =>
      let taken := mkSys (s_world (called s b)) b (s_broker s ++ [(topic, payload)])%list in
      match publish_error k with
      | None => (None, taken)
      | Some (msg, true) => (Some (ErrIO msg), taken)
      | Some (msg, false) => (Some (ErrIO msg), called s b)
      end
  end.

(** An operation on its own. *)
Fixpoint run {A} (m : prog A) (s : sys) : A * sys :=
  match m with
  | Ret a => (a, s)
  | Do c k => let '(v, s') := answer c s in run (k v) s'
  end.

(** Operations of any sessions, interleaved call by call. *)
Inductive pstep {A} : list (prog A) * sys → list (prog A) * sys → Prop :=
  | pstep_call i ms B (c : call B) k s v s' :
      ms !! i = Some (Do c k) → answer c s = (v, s') → pstep (ms, s) (<[i := k v]> ms, s').
End server.
