(* ===== verification/Postgres.v ===== *)
(** * The PostgreSQL repository (internal/store/postgres.go, workloads.go)

    The same operations as the file repository, over the tables of [Database]:
    [pg_write] is the transaction every mutation goes through, [pg_get],
    [pg_list] and [pg_exists] are its queries, and [pg_op] names the mutations
    by the operations they implement.  A name [pg_F] is the method [F] of
    [Postgres]. *)

From S2P Require Import Prelude GoStrings Types World Access Tokens Blog Projects Pipelines.
From S2P Require Import Runs Models Agents Registry Store Database.

Open Scope string_scope.

Record Postgres := mkPostgres { pg_tenant : string }.

(** [topicForAction]: the first family of actions the name belongs to. *)
Definition command_topics : list (string * string) := [
  ("pipeline.", "mlaiops.pipeline.commands");
  ("model.", "mlaiops.model.commands");
  ("agent.", "mlaiops.agent.commands");
  ("tool.", "mlaiops.tool.commands");
  ("connection.", "mlaiops.connection.commands");
  ("access.", "mlaiops.workspace.commands")
].

Definition topicForAction (action : string) : string :=
  match list_find (λ family, HasPrefix action family.1 = true) command_topics with
  | Some (_, family) => family.2
  | None => ""
  end.

Definition actorOrAnonymous (actor : string) : string :=
  if decide (actor = "") then "anonymous" else actor.

Definition audit_topic : string := "mlaiops.audit.operations".
Definition workspace_topic : string := "mlaiops.workspace.commands".

Section repository.
Context `{Host} `{MapOrder} `{Jsonb}.
Variable p : Postgres.

(** ** The process and the queries *)

Definition host {B} (m : M B) : prog B := do_ (CHost m).

(** [return T{}, err] *)
Definition refuse {A} (e : gerror) `{Zero A} : P A := mret (zero, Some e).

Definition pg_list (T : Type) `{!Codec jsonb T} (kind : string) : prog (list T) :=
  raws ← do_ (CSelect (pg_tenant p) kind);
  mret (omap (M := list) decoded raws).

Definition pg_get (T : Type) `{!Codec jsonb T} `{Zero T} (kind resourceID : string) : P T :=
  r ← do_ (CGet (pg_tenant p) kind resourceID);
  mret (match r with
        | Err e => (zero, Some e)
        | Ok None => (zero, Some ErrNotFound)
        | Ok (Some raw) => let '(v, e) := unmarshal raw in (v, ErrIO <$> e)
        end).

Definition pg_exists (kind resourceID : string) : prog bool :=
  r ← do_ (CGet (pg_tenant p) kind resourceID);
  mret (match r with Ok (Some _) => true | _ => false end).

(** ** The transaction of a mutation *)

(** [tx.Exec] *)
Definition exec_in (t : tx) (s : stmt) : prog (result tx) :=
  r ← do_ (CExec t s);
  mret (match r with Ok (n, _) => Ok (push t n s) | Err e => Err e end).

(** The event of a mutation: [AuditEvent{ID: id("evt"), ...}]. *)
Definition pg_event (action kind resourceID actor : string) (metadata : gmap string any)
    : prog AuditEvent :=
  i ← host (id "evt");
  created ← host now;
  mret (mkAuditEvent i action kind resourceID (actorOrAnonymous actor) metadata created).

Definition insert_outbox (t : tx) (topic key : string) (payload : option jsonb)
    : prog (result tx) :=
  i ← host (id "out");
  exec_in t (InsertOutbox (pg_tenant p) i topic key payload).

Definition command_of (kind resourceID : string) (resource : command_resource jsonb)
    (event : AuditEvent) : command jsonb :=
  mkCommand resourceID kind (evt_Action event) resource (evt_Actor event) (pg_tenant p)
    (evt_CreatedAt event).

(** The command a mutation publishes, if its action has a topic. *)
Definition write_command (t : tx) (kind resourceID : string) (payload : jsonb)
    (event : AuditEvent) : prog (result tx) :=
  let topic := topicForAction (evt_Action event) in
  if decide (topic = "") then mret (Ok t) else
  match marshal (command_of kind resourceID (RawMessage payload) event) with
  | None => mret (Err (ErrIO "json"))
  | Some text => insert_outbox t topic resourceID (Some text)
  end.

Definition pg_write {T} `{!Codec jsonb T} (kind resourceID : string) (value : T)
    (action actor : string) (metadata : gmap string any) : prog (option gerror) :=
  attempt (do_ CBegin) (λ started,
  match marshal value with
  | None => mret (Some (ErrIO "json"))
  | Some payload =>
      attempt (exec_in (mkTx started []) (Upsert (pg_tenant p) kind resourceID payload)) (λ t,
      event ← pg_event action kind resourceID actor metadata;
      attempt (exec_in t (InsertAudit (pg_tenant p) event)) (λ t,
      attempt (insert_outbox t audit_topic resourceID (marshal event)) (λ t,
      attempt (write_command t kind resourceID payload event) (λ t,
      do_ (CCommit t)))))
  end).

(** [return value, p.write(...)] *)
Definition pg_return {T} (value : T) (written : prog (option gerror)) : P T :=
  err ← written; mret (value, err).

(** [value, err := ...; if err != nil { return value, err }] *)
Definition with_value {T} (found : P T) (k : T → P T) : P T :=
  r ← found;
  match r with (v, Some e) => mret (v, Some e) | (v, None) => k v end.

(** ** Queries *)

Definition pg_Projects : prog (list Project) := pg_list Project "project".
Definition pg_Runs : prog (list PipelineRun) := pg_list PipelineRun "pipeline_run".
Definition pg_PipelineDefinitions : prog (list PipelineDefinition) :=
  pg_list PipelineDefinition "pipeline_definition".
Definition pg_Functions : prog (list Function) := pg_list Function "function".
Definition pg_Models : prog (list Model) := pg_list Model "model".
Definition pg_Agents : prog (list Agent) := pg_list Agent "agent".
Definition pg_Tools : prog (list Tool) := pg_list Tool "tool".
Definition pg_Connections : prog (list Connection) := pg_list Connection "connection".
Definition pg_UserAccess : prog (list UserAccess) := pg_list UserAccess "user_access".
Definition pg_AccessRequests : prog (list AccessRequest) :=
  pg_list AccessRequest "access_request".
Definition pg_BlogPosts : prog (list BlogPost) := pg_list BlogPost "blog_post".
Definition pg_FeatureViews : prog (list FeatureView) := pg_list FeatureView "feature_view".

Definition pg_APITokensFor (subject : string) : prog (list APIToken) :=
  tokens ← pg_list APIToken "api_token";
  mret (filter (λ token, tok_Subject token = subject) tokens).

Definition pg_AccessRequestsFor (subject : string) : prog (list AccessRequest) :=
  requests ← pg_AccessRequests;
  mret (filter (λ request, acr_Subject request = subject) requests).

Definition pg_AgentSessions (agentID : string) : prog (list AgentSession) :=
  values ← pg_list AgentSession "agent_session";
  mret (filter (λ value, agentID = "" ∨ ses_AgentID value = agentID) values).

Definition pg_AgentTraces (agentID : string) : prog (list AgentTrace) :=
  values ← pg_list AgentTrace "agent_trace";
  mret (filter (λ value, agentID = "" ∨ tra_AgentID value = agentID) values).

Definition pg_Project (projectID : string) : P Project := pg_get Project "project" projectID.
Definition pg_Run (runID : string) : P PipelineRun := pg_get PipelineRun "pipeline_run" runID.
Definition pg_PipelineDefinition (definitionID : string) : P PipelineDefinition :=
  pg_get PipelineDefinition "pipeline_definition" definitionID.
Definition pg_AccessFor (subject : string) : P UserAccess :=
  pg_get UserAccess "user_access" subject.

Definition pg_BlogPost (identifier : string) : P BlogPost :=
  r ← pg_get BlogPost "blog_post" identifier;
  match r with
  | (post, None) => mret (post, None)
  | (_, Some _) =>
      posts ← pg_BlogPosts;
      match list_find (λ post, bp_Slug post = identifier) posts with
      | Some (_, post) => mret (post, None)
      | None => refuse ErrNotFound
      end
  end.

(** A row of the audit table as an event, unless its metadata does not decode. *)
Definition scan_event (r : audit_row) : option AuditEvent :=
  let event metadata := mkAuditEvent (aud_id r) (aud_action r) (aud_resource r)
    (aud_resource_id r) (aud_actor r) metadata (aud_created r) in
  match aud_metadata r with
  | None => Some (event ∅)
  | Some raw => event <$> decoded raw
  end.

Definition pg_Audit : prog (list AuditEvent) :=
  rows ← do_ (CAudit (pg_tenant p));
  mret (omap (M := list) scan_event rows).

(** ** Access *)

Definition pg_CreateAccessRequest (subject email : string) (req : CreateAccessRequest)
    : P AccessRequest :=
  match validateAccessRequest req with
  | Err e => refuse e
  | Ok req =>
      existing ← pg_AccessRequestsFor subject;
      if decide (Exists (λ r, acr_Status r = "pending") existing)
      then refuse (ErrMsg "a pending access request already exists") else
      t ← host now;
      rid ← host (id "access-request");
      let request := mkAccessRequest rid subject email (car_Reason req)
                       (car_RequestedServices req) "pending" "" "" t t in
      pg_return request
        (pg_write "access_request" (acr_ID request) request "access.requested" subject ∅)
  end.

Definition pg_ReviewAccessRequest (requestID : string) (req : ReviewAccessRequest)
    (reviewer : string) : P AccessRequest :=
  if decide (rar_Status req ≠ "approved" ∧ rar_Status req ≠ "rejected")
  then refuse (ErrMsg "status must be approved or rejected") else
  with_value (pg_get AccessRequest "access_request" requestID) (λ request,
  if decide (acr_Status request ≠ "pending")
  then mret (request, Some (ErrMsg "access request has already been reviewed")) else
  t ← host now;
  let request := request <|acr_Status := rar_Status req|> <|acr_Reviewer := reviewer|>
                   <|acr_ReviewNote := TrimSpace (rar_Note req)|> <|acr_UpdatedAt := t|> in
  pg_return request (pg_write "access_request" (acr_ID request) request
    ("access.request_" ++ rar_Status req) reviewer ∅)).

Definition pg_UpsertUserAccess (subject : string) (req : UpsertUserAccessRequest)
    (actor : string) : P UserAccess :=
  match validateAccess subject req with
  | Err e => refuse e
  | Ok access =>
      t ← host now;
      let access := access <|ua_UpdatedAt := t|> in
      r ← pg_AccessFor subject;
      let access := match r with
                    | (existing, None) => access <|ua_CreatedAt := ua_CreatedAt existing|>
                    | (_, Some _) => access <|ua_CreatedAt := t|>
                    end in
      pg_return access (pg_write "user_access" subject access "access.upserted" actor ∅)
  end.

Definition delete_access (subject actor : string) : prog (option gerror) :=
  attempt (do_ CBegin) (λ started,
  let t := mkTx started [] in
  let statement := Delete (pg_tenant p) "user_access" subject in
  attempt (do_ (CExec t statement)) (λ '(n, affected),
  if decide (affected = 0%nat) then mret (Some ErrNotFound) else
  event ← pg_event "access.deleted" "user_access" subject actor ∅;
  attempt (exec_in (push t n statement) (InsertAudit (pg_tenant p) event)) (λ t,
  attempt (insert_outbox t workspace_topic subject
             (marshal (command_of "user_access" subject (SubjectOf subject) event))) (λ t,
  do_ (CCommit t))))).

Definition pg_DeleteUserAccess (subject actor : string) : P unit :=
  pg_return tt (delete_access subject actor).

(** ** API tokens *)

Definition pg_CreateAPIToken (subject : string) (req : CreateAPITokenRequest)
    : P CreatedAPIToken :=
  match validateTokenRequest req with
  | Err e => refuse e
  | Ok req =>
      g ← host generateAPIToken;
      match g with
      | Err e => refuse e
      | Ok g =>
          t ← host now;
          let expires := (t + days_duration (ctr_ExpiresInDays req))%Z in
          let token := mkAPIToken (gen_id g) subject (ctr_Name req) (gen_prefix g)
                         (gen_hash g) (ctr_Services req) (ctr_ProjectIDs req) t expires
                         None None in
          pg_return (mkCreatedAPIToken token (gen_secret g))
            (pg_write "api_token" (tok_ID token) token "api_token.created" subject
               (<["services" := AList (AStr <$> tok_Services token)]>
                {["expires_at" := ATime (tok_ExpiresAt token)]}))
      end
  end.

Definition pg_RevokeAPIToken (subject tokenID : string) : P unit :=
  r ← pg_get APIToken "api_token" tokenID;
  match r with
  | (_, Some _) => refuse ErrNotFound
  | (token, None) =>
      if decide (tok_Subject token ≠ subject) then refuse ErrNotFound else
      token ← match tok_RevokedAt token with
              | None => t ← host now; mret (token <|tok_RevokedAt := Some t|>)
              | Some _ => mret token
              end;
      pg_return tt (pg_write "api_token" (tok_ID token) token "api_token.revoked" subject ∅)
  end.

(** The time of use is recorded by a statement of its own, whatever comes of it. *)
Definition pg_ResolveAPIToken (secret : string) : P APIToken :=
  t ← host now;
  tokens ← pg_list APIToken "api_token";
  match list_find (token_opens secret t) tokens with
  | Some (_, token) =>
      let token := token <|tok_LastUsedAt := Some t|> in
      _ ← match marshal token with
          | Some payload =>
              _ ← do_ (CAuto (Update (pg_tenant p) "api_token" (tok_ID token) payload)); mret tt
          | None => mret tt
          end;
      mret (token, None)
  | None => refuse ErrNotFound
  end.

(** ** Blog posts *)

Definition pg_UpsertBlogPost (postID : string) (req : UpsertBlogPostRequest) (actor : string)
    : P BlogPost :=
  match validateBlog req with
  | Err e => refuse e
  | Ok req =>
      posts ← pg_BlogPosts;
      if decide (Exists (λ existing, bp_Slug existing = ubr_Slug req ∧ bp_ID existing ≠ postID)
                   posts)
      then refuse ErrConflict else
      t ← host now;
      if decide (postID ≠ "") then
        with_value (pg_BlogPost postID) (λ post,
        let published := if decide (ubr_Status req = "published" ∧ bp_PublishedAt post = None)
                         then Some t else bp_PublishedAt post in
        let post := post <|bp_Slug := ubr_Slug req|> <|bp_Title := ubr_Title req|>
                      <|bp_Summary := ubr_Summary req|> <|bp_Content := ubr_Content req|>
                      <|bp_Author := ubr_Author req|> <|bp_Tags := ubr_Tags req|>
                      <|bp_Status := ubr_Status req|> <|bp_UpdatedAt := t|>
                      <|bp_PublishedAt := published|> in
        pg_return post (pg_write "blog_post" (bp_ID post) post "blog.updated" actor
                          {["status" := AStr (bp_Status post)]}))
      else
        pid ← host (id "blog");
        let published := if decide (ubr_Status req = "published") then Some t else None in
        let post := mkBlogPost pid (ubr_Slug req) (ubr_Title req) (ubr_Summary req)
                      (ubr_Content req) (ubr_Author req) (ubr_Tags req) (ubr_Status req)
                      t t published in
        pg_return post (pg_write "blog_post" (bp_ID post) post "blog.created" actor
                          {["status" := AStr (bp_Status post)]})
  end.

(** The audit event of a deletion outside a transaction is a statement of its own. *)
Definition audit_alone (action kind resourceID actor : string) : prog (option gerror) :=
  event ← pg_event action kind resourceID actor ∅;
  attempt (do_ (CAuto (InsertAudit (pg_tenant p) event))) (λ _, mret None).

Definition pg_DeleteBlogPost (postID actor : string) : P unit :=
  r ← pg_BlogPost postID;
  match r with
  | (_, Some e) => mret (tt, Some e)
  | (post, None) =>
      r ← do_ (CAuto (Delete (pg_tenant p) "blog_post" (bp_ID post)));
      match r with
      | Ok (S _) => pg_return tt (audit_alone "blog.deleted" "blog_post" (bp_ID post) actor)
      | _ => refuse ErrNotFound
      end
  end.

(** ** Projects and pipeline definitions *)

Definition pg_CreateProject (req : CreateProjectRequest) (actors : list string) : P Project :=
  if decide (String.length (TrimSpace (cpr_Name req)) < 3)
  then refuse (ErrMsg "name must contain at least 3 characters") else
  let template := if decide (cpr_Template req = "") then "tabular-classification"
                  else cpr_Template req in
  projects ← pg_Projects;
  if decide (Exists (λ project, EqualFold (prj_Name project) (cpr_Name req)) projects)
  then refuse ErrConflict else
  pid ← host (id "prj");
  created ← host now;
  let repository :=
    if decide (TrimSpace (cpr_RepositoryURL req) = "") then Ok None
    else Some <$> validateGitRepository
                    (mkSetProjectRepositoryRequest (cpr_RepositoryURL req)
                       (cpr_DefaultBranch req) "") in
  match repository with
  | Err e => refuse e
  | Ok repository =>
      let project := mkProject pid (TrimSpace (cpr_Name req)) (TrimSpace (cpr_Description req))
                       template (slug (cpr_Name req)) "ready" created (cpr_OwnerSubject req)
                       repository in
      pg_return project
        (pg_write "project" (prj_ID project) project "project.created" (first actors) ∅)
  end.

Definition pg_SetProjectRepository (projectID : string) (req : SetProjectRepositoryRequest)
    (actor : string) : P Project :=
  with_value (pg_Project projectID) (λ project,
  match validateGitRepository req with
  | Err e => mret (project, Some e)
  | Ok repository =>
      t ← host now;
      let repository := repository <|git_SyncedAt := Some t|> in
      let project := project <|prj_Repository := Some repository|> in
      pg_return project (pg_write "project" (prj_ID project) project
        "project.repository_updated" actor {["provider" := AStr (git_Provider repository)]})
  end).

(** The method calls itself, with the identifier of the stored definition of
    the same project, name and version.  Stored identifiers are not empty, so
    the second call is the last; [depth] is the calls left. *)
Fixpoint upsert_definition (depth : nat) (definitionID : string)
    (req : UpsertPipelineDefinitionRequest) (actor : string) : P PipelineDefinition :=
  match depth with
  | O => refuse (ErrIO "stack overflow")
  | S depth =>
      match validatePipelineDefinition req with
      | Err e => refuse e
      | Ok req =>
          known ← pg_exists "project" (upd_ProjectID req);
          if decide (known = false) then refuse ErrNotFound else
          t ← host now;
          if decide (definitionID ≠ "") then
            with_value (pg_PipelineDefinition definitionID) (λ definition,
            let definition := definition <|pd_Name := upd_Name req|>
              <|pd_Version := upd_Version req|> <|pd_ExecutionMode := upd_ExecutionMode req|>
              <|pd_Jobs := upd_Jobs req|> <|pd_RepositoryURL := upd_RepositoryURL req|>
              <|pd_CommitSHA := upd_CommitSHA req|> <|pd_UpdatedAt := t|> in
            pg_return definition (pg_write "pipeline_definition" (pd_ID definition) definition
              "pipeline_definition.updated" actor ∅))
          else
            definitions ← pg_PipelineDefinitions;
            match list_find (λ existing, pd_ProjectID existing = upd_ProjectID req
                     ∧ pd_Name existing = upd_Name req
                     ∧ pd_Version existing = upd_Version req) definitions with
            | Some (_, existing) => upsert_definition depth (pd_ID existing) req actor
            | None =>
                did ← host (id "pipe");
                let definition := mkPipelineDefinition did (upd_ProjectID req) (upd_Name req)
                  (upd_Version req) (upd_ExecutionMode req) (upd_Jobs req)
                  (upd_RepositoryURL req) (upd_CommitSHA req) t t in
                pg_return definition (pg_write "pipeline_definition" (pd_ID definition)
                  definition "pipeline_definition.created" actor ∅)
            end
      end
  end.

Definition pg_UpsertPipelineDefinition := upsert_definition 2.

(** ** Pipeline runs *)

(** The steps, mode and default name of a submitted run. *)
Definition pg_submission (req : SubmitPipelineRequest)
    : prog (result (list PipelineStep * string * string)) :=
  if decide (sub_DefinitionID req ≠ "") then
    r ← pg_PipelineDefinition (sub_DefinitionID req);
    mret (match r with
          | (_, Some _) => Err ErrNotFound
          | (definition, None) =>
              if decide (pd_ProjectID definition ≠ sub_ProjectID req) then Err ErrNotFound
              else Ok (stepsFromDefinition definition, pd_ExecutionMode definition,
                       if decide (TrimSpace (sub_Name req) = "") then pd_Name definition
                       else sub_Name req)
          end)
  else mret (Ok (defaultSteps "pending", "prefect", sub_Name req)).

Definition pg_SubmitPipeline (req : SubmitPipelineRequest) (actors : list string)
    : P PipelineRun :=
  known ← pg_exists "project" (sub_ProjectID req);
  if decide (known = false) then refuse ErrNotFound else
  r ← pg_submission req;
  match r with
  | Err e => refuse e
  | Ok (steps, mode, name) =>
      let name := if decide (TrimSpace name = "") then "training-pipeline" else name in
      t ← host now;
      rid ← host (id "run");
      let run := mkPipelineRun rid (sub_ProjectID req) name "queued" 0 t t "" ""
                   (sub_DefinitionID req) mode (sub_Parameters req) steps
                   [mkRunLog t "" "info" "Run accepted by control plane"] in
      pg_return run
        (pg_write "pipeline_run" (run_ID run) run "pipeline.submitted" (first actors) ∅)
  end.

Definition pg_CancelRun (runID actor : string) : P PipelineRun :=
  with_value (pg_Run runID) (λ run,
  if decide (run_Status run = "succeeded" ∨ run_Status run = "failed")
  then mret (run, Some (ErrMsg "completed runs cannot be cancelled")) else
  t ← host now;
  let run := run <|run_Status := "cancelled"|> <|run_UpdatedAt := t|>
    <|run_Logs := app (run_Logs run)
       [mkRunLog t "" "warning" ("Run cancelled by " ++ actor)]|> in
  pg_return run (pg_write "pipeline_run" (run_ID run) run "pipeline.cancelled" actor ∅)).

Definition pg_RetryRun (runID actor : string) : P PipelineRun :=
  r ← pg_Run runID;
  match r with
  | (_, Some e) => refuse e
  | (previous, None) =>
      t ← host now;
      rid ← host (id "run");
      let run := mkPipelineRun rid (run_ProjectID previous) (run_Name previous) "queued" 0 t t
                   (run_ID previous) "" (run_DefinitionID previous) (run_ExecutionMode previous)
                   (run_Parameters previous) (resetSteps (run_Steps previous))
                   [mkRunLog t "" "info" ("Retry created from " ++ run_ID previous)] in
      pg_return run (pg_write "pipeline_run" (run_ID run) run "pipeline.retried" actor
                       {["parent_run_id" := AStr (run_ID previous)]})
  end.

Definition pg_SetRunEngine (runID engineRunID : string) : P PipelineRun :=
  with_value (pg_Run runID) (λ run,
  t ← host now;
  let run := run <|run_EngineRunID := engineRunID|> <|run_UpdatedAt := t|> in
  pg_return run (pg_write "pipeline_run" (run_ID run) run "pipeline.engine_linked" "system"
                   {["engine_run_id" := AStr engineRunID]})).

Definition pg_UpdateRunStep (runID : string) (req : UpdateRunStepRequest) (actor : string)
    : P PipelineRun :=
  if decide (urs_Step req = "" ∨ urs_Status req = "")
  then refuse (ErrMsg "step and status are required") else
  if negb (validStepStatus (urs_Status req))
  then refuse (ErrMsg ("invalid step status " ++ quote (urs_Status req))) else
  with_value (pg_Run runID) (λ run,
  t ← host now;
  let run := report_run t req run in
  pg_return run (pg_write "pipeline_run" (run_ID run) run "pipeline.step_reported" actor
    (<["step" := AStr (urs_Step req)]> {["status" := AStr (urs_Status req)]}))).

(** ** Models *)

Definition pg_RegisterModel (req : RegisterModelRequest) (actor : string) : P Model :=
  known ← pg_exists "project" (rmr_ProjectID req);
  if decide (known = false) then refuse ErrNotFound else
  if decide (rmr_Name req = "" ∨ rmr_Version req = "" ∨ rmr_ArtifactURI req = "")
  then refuse (ErrMsg "name, version and artifact_uri are required") else
  models ← pg_Models;
  if decide (Exists (λ v, mdl_Name v = rmr_Name req ∧ mdl_Version v = rmr_Version req) models)
  then refuse ErrConflict else
  mid ← host (id "mdl");
  created ← host now;
  let model := mkModel mid (rmr_ProjectID req) (rmr_Name req) (rmr_Version req) "candidate"
             (rmr_ArtifactURI req) (rmr_Metrics req) created (model_gate (rmr_Metrics req))
             "not_deployed" 0 "" "" in
  pg_return model (pg_write "model" (mdl_ID model) model "model.registered" actor ∅).

Definition pg_PromoteModel (modelID stage actor : string) : P Model :=
  if decide (stage ∉ model_stages)
  then refuse (ErrMsg "stage must be staging, production or archived") else
  with_value (pg_get Model "model" modelID) (λ model,
  if decide (stage = "production" ∧ mdl_GateStatus model = "failed")
  then mret (model, Some (ErrMsg "model evaluation gates have not passed")) else
  let model := model <|mdl_PreviousStage := mdl_Stage model|> <|mdl_Stage := stage|> in
  pg_return model (pg_write "model" (mdl_ID model) model "model.promoted" actor
                     {["stage" := AStr stage]})).

Definition pg_DeployModel (modelID : string) (weight : Z) (actor : string) : P Model :=
  if decide (weight < 0 ∨ 100 < weight)%Z
  then refuse (ErrMsg "canary_weight must be between 0 and 100") else
  with_value (pg_get Model "model" modelID) (λ model,
  if decide (mdl_GateStatus model ≠ "passed")
  then mret (model, Some (ErrMsg "model evaluation gates have not passed")) else
  let model := model <|mdl_DeploymentStatus := "deploying"|> <|mdl_CanaryWeight := weight|>
                 <|mdl_EndpointURL := endpoint_of (mdl_Name model)|> in
  pg_return model (pg_write "model" (mdl_ID model) model "model.deployed" actor
                     {["canary_weight" := AInt weight]})).

Definition pg_SetModelEndpoint (modelID endpoint status : string) : P Model :=
  with_value (pg_get Model "model" modelID) (λ model,
  let model := model <|mdl_EndpointURL := endpoint|> <|mdl_DeploymentStatus := status|> in
  pg_return model (pg_write "model" (mdl_ID model) model "model.endpoint_updated" "system"
    (<["endpoint" := AStr endpoint]> {["status" := AStr status]}))).

Definition pg_RollbackModel (modelID actor : string) : P Model :=
  with_value (pg_get Model "model" modelID) (λ model,
  if decide (mdl_PreviousStage model = "")
  then mret (model, Some (ErrMsg "no previous stage is available")) else
  let model := model <|mdl_Stage := mdl_PreviousStage model|>
                 <|mdl_PreviousStage := mdl_Stage model|>
                 <|mdl_DeploymentStatus := "rolled_back"|> <|mdl_CanaryWeight := 0%Z|> in
  pg_return model (pg_write "model" (mdl_ID model) model "model.rolled_back" actor ∅)).

(** ** Agents *)

Definition pg_DeployAgent (req : DeployAgentRequest) (actor : string) : P Agent :=
  known ← pg_exists "project" (dar_ProjectID req);
  if decide (known = false) then refuse ErrNotFound else
  if decide (dar_Name req = "" ∨ dar_Version req = "" ∨ dar_Image req = ""
             ∨ dar_GraphModule req = "")
  then refuse (ErrMsg "name, version, image and graph_module are required") else
  let replicas := if decide (dar_Replicas req < 1)%Z then 1%Z else dar_Replicas req in
  aid ← host (id "agt");
  created ← host now;
  let agent := mkAgent aid (dar_ProjectID req) (dar_Name req) (dar_Version req) (dar_Image req)
             (dar_GraphModule req) (dar_LLMBackend req) "pending" replicas 0 (dar_Tools req)
             created in
  pg_return agent (pg_write "agent" (agt_ID agent) agent "agent.deployed" actor ∅).

Definition pg_SetAgentTraffic (agentID : string) (weight : Z) (actor : string) : P Agent :=
  if decide (weight < 0 ∨ 100 < weight)%Z
  then refuse (ErrMsg "canary_weight must be between 0 and 100") else
  with_value (pg_get Agent "agent" agentID) (λ agent,
  let agent := agent <|agt_CanaryWeight := weight|> in
  pg_return agent (pg_write "agent" (agt_ID agent) agent "agent.traffic_updated" actor
                     {["canary_weight" := AInt weight]})).

(** The trace and its session are two transactions; the session row is keyed by
    agent and session. *)
Definition pg_RecordTrace (req : RecordTraceRequest) : P AgentTrace :=
  if decide (rtq_AgentID req = "" ∨ rtq_SessionID req = "")
  then refuse (ErrMsg "agent_id and session_id are required") else
  t ← host now;
  tid ← host (id "trace");
  let trace := mkAgentTrace tid (rtq_AgentID req) (rtq_SessionID req) (rtq_Name req)
                 (rtq_Status req) (rtq_DurationMS req)
                 (add64 (rtq_InputTokens req) (rtq_OutputTokens req)) (rtq_Metadata req) t in
  err ← pg_write "agent_trace" (tra_ID trace) trace "agent.trace_recorded" "trace-proxy" ∅;
  match err with
  | Some e => mret (trace, Some e)
  | None =>
      let sessionKey := rtq_AgentID req ++ "/" ++ rtq_SessionID req in
      r ← pg_get AgentSession "agent_session" sessionKey;
      let session := match r with
        | (session, None) => Ok session
        | (_, Some ErrNotFound) =>
            Ok (mkAgentSession (rtq_SessionID req) (rtq_AgentID req) (rtq_UserID req) "" "" 0 0 0
                  zero t zero)
        | (_, Some e) => Err e
        end in
      match session with
      | Err e => mret (trace, Some e)
      | Ok session =>
          pg_return trace (pg_write "agent_session" sessionKey (touch_session req t session)
            "agent.session_updated" "trace-proxy" ∅)
      end
  end.

(** ** Functions, tools, connections and feature views *)

Definition pg_UpsertFunction (req : DeployFunctionRequest) (owner actor : string) : P Function :=
  match ValidateFunctionRequest req with
  | Some e => refuse e
  | None =>
      known ← pg_exists "project" (dfr_ProjectID req);
      if decide (known = false) then refuse ErrNotFound else
      t ← host now;
      functions ← pg_Functions;
      match list_find (λ fn, fn_Name fn = dfr_Name req) functions with
      | Some (_, fn) =>
          if decide (fn_ProjectID fn ≠ dfr_ProjectID req) then refuse ErrConflict else
          let fn := fn <|fn_Image := dfr_Image req|> <|fn_EnvVars := dfr_EnvVars req|>
            <|fn_Labels := dfr_Labels req|> <|fn_Annotations := dfr_Annotations req|>
            <|fn_CPU := dfr_CPU req|> <|fn_Memory := dfr_Memory req|>
            <|fn_Status := "deployed"|> <|fn_UpdatedAt := t|> in
          pg_return fn (pg_write "function" (fn_Name fn) fn "function.updated" actor ∅)
      | None =>
          let fn := mkFunction (dfr_Name req) (dfr_ProjectID req) (dfr_Image req) "deployed" 0
            (dfr_EnvVars req) (dfr_Labels req) (dfr_Annotations req) (dfr_CPU req)
            (dfr_Memory req) owner t t in
          pg_return fn (pg_write "function" (fn_Name fn) fn "function.deployed" actor ∅)
      end
  end.

Definition pg_DeleteFunction (name actor : string) : P unit :=
  r ← do_ (CAuto (Delete (pg_tenant p) "function" name));
  match r with
  | Err e => refuse e
  | Ok O => refuse ErrNotFound
  | Ok (S _) => pg_return tt (audit_alone "function.deleted" "function" name actor)
  end.

Definition pg_RegisterTool (req : RegisterToolRequest) (actor : string) : P Tool :=
  if decide (rtr_Name req = "" ∨ rtr_Version req = "" ∨ rtr_InputSchema req = ∅)
  then refuse (ErrMsg "name, version and input_schema are required") else
  tools ← pg_Tools;
  if decide (Exists (λ v, tool_Name v = rtr_Name req ∧ tool_Version v = rtr_Version req) tools)
  then refuse ErrConflict else
  tid ← host (id "tool");
  created ← host now;
  let tool := mkTool tid (rtr_Name req) (rtr_Version req) (rtr_Description req) (rtr_Tags req)
             (rtr_InputSchema req) "ready" created in
  pg_return tool (pg_write "tool" (tool_ID tool) tool "tool.registered" actor ∅).

Definition pg_CreateConnection (req : CreateConnectionRequest) (actor : string) : P Connection :=
  if decide (ccr_Name req = "" ∨ ccr_Type req = "" ∨ ccr_SecretRef req = "")
  then refuse (ErrMsg "name, type and secret_ref are required") else
  cid ← host (id "conn");
  created ← host now;
  let connection := mkConnection cid (ccr_Name req) (ccr_Type req) (ccr_Endpoint req)
             (ccr_SecretRef req) "pending" created None "" in
  pg_return connection
    (pg_write "connection" (con_ID connection) connection "connection.created" actor ∅).

Definition pg_UpdateConnectionStatus (connectionID status message actor : string)
    : P Connection :=
  with_value (pg_get Connection "connection" connectionID) (λ connection,
  t ← host now;
  let connection := connection <|con_Status := status|> <|con_Message := message|>
                      <|con_CheckedAt := Some t|> in
  pg_return connection (pg_write "connection" (con_ID connection) connection
    "connection.checked" actor {["status" := AStr status]})).

Definition pg_ApplyFeatureView (req : ApplyFeatureViewRequest) (actor : string)
    : P FeatureView :=
  if decide (afr_Name req = "" ∨ afr_Entity req = "" ∨ length (afr_Fields req) = 0%nat)
  then refuse (ErrMsg "name, entity and at least one field are required") else
  views ← pg_FeatureViews;
  match list_find (λ v, fv_Name v = afr_Name req) views with
  | Some (_, existing) =>
      let v := existing <|fv_Entity := afr_Entity req|> <|fv_Fields := afr_Fields req|>
                 <|fv_Tags := afr_Tags req|> <|fv_Source := afr_Source req|>
                 <|fv_TTLSeconds := afr_TTLSeconds req|> in
      pg_return v (pg_write "feature_view" (fv_ID v) v "feature_view.applied" actor ∅)
  | None =>
      vid ← host (id "fv");
      created ← host now;
      let v := mkFeatureView vid (afr_Name req) (afr_Entity req) (afr_Fields req)
                 (afr_Tags req) (afr_Source req) (afr_TTLSeconds req) "registered" 0 None
                 created in
      pg_return v (pg_write "feature_view" (fv_ID v) v "feature_view.applied" actor ∅)
  end.

Definition pg_ReportMaterialization (name : string) (entityCount : Z) (actor : string)
    : P FeatureView :=
  if decide (entityCount < 0)%Z
  then refuse (ErrMsg "entity_count cannot be negative") else
  views ← pg_FeatureViews;
  match list_find (λ v, fv_Name v = name) views with
  | Some (_, view) =>
      t ← host now;
      let v := view <|fv_Status := "materialized"|> <|fv_OnlineEntityCount := entityCount|>
                 <|fv_MaterializedAt := Some t|> in
      pg_return v (pg_write "feature_view" (fv_ID v) v "feature_view.materialized" actor
                     {["entity_count" := AInt entityCount]})
  | None => refuse ErrNotFound
  end.

(** ** The mutations of the repository *)

Definition pg_outcome {A} (m : P A) : prog (option gerror) := r ← m; mret (snd r).

Definition pg_op (o : op) : prog (option gerror) :=
  match o with
  | OpUpsertUserAccess subject req actor => pg_outcome (pg_UpsertUserAccess subject req actor)
  | OpDeleteUserAccess subject actor => pg_outcome (pg_DeleteUserAccess subject actor)
  | OpCreateAccessRequest subject email req =>
      pg_outcome (pg_CreateAccessRequest subject email req)
  | OpReviewAccessRequest rid req reviewer =>
      pg_outcome (pg_ReviewAccessRequest rid req reviewer)
  | OpCreateAPIToken subject req => pg_outcome (pg_CreateAPIToken subject req)
  | OpRevokeAPIToken subject tid => pg_outcome (pg_RevokeAPIToken subject tid)
  | OpResolveAPIToken secret => pg_outcome (pg_ResolveAPIToken secret)
  | OpUpsertBlogPost pid req actor => pg_outcome (pg_UpsertBlogPost pid req actor)
  | OpDeleteBlogPost pid actor => pg_outcome (pg_DeleteBlogPost pid actor)
  | OpCreateProject req actors => pg_outcome (pg_CreateProject req actors)
  | OpSetProjectRepository pid req actor => pg_outcome (pg_SetProjectRepository pid req actor)
  | OpUpsertPipelineDefinition did req actor =>
      pg_outcome (pg_UpsertPipelineDefinition did req actor)
  | OpSubmitPipeline req actors => pg_outcome (pg_SubmitPipeline req actors)
  | OpCancelRun rid actor => pg_outcome (pg_CancelRun rid actor)
  | OpRetryRun rid actor => pg_outcome (pg_RetryRun rid actor)
  | OpSetRunEngine rid engine => pg_outcome (pg_SetRunEngine rid engine)
  | OpUpdateRunStep rid req actor => pg_outcome (pg_UpdateRunStep rid req actor)
  | OpRegisterModel req actor => pg_outcome (pg_RegisterModel req actor)
  | OpPromoteModel mid stage actor => pg_outcome (pg_PromoteModel mid stage actor)
  | OpDeployModel mid weight actor => pg_outcome (pg_DeployModel mid weight actor)
  | OpSetModelEndpoint mid endpoint status =>
      pg_outcome (pg_SetModelEndpoint mid endpoint status)
  | OpRollbackModel mid actor => pg_outcome (pg_RollbackModel mid actor)
  | OpDeployAgent req actor => pg_outcome (pg_DeployAgent req actor)
  | OpSetAgentTraffic aid weight actor => pg_outcome (pg_SetAgentTraffic aid weight actor)
  | OpRecordTrace req => pg_outcome (pg_RecordTrace req)
  | OpUpsertFunction req owner actor => pg_outcome (pg_UpsertFunction req owner actor)
  | OpDeleteFunction name actor => pg_outcome (pg_DeleteFunction name actor)
  | OpRegisterTool req actor => pg_outcome (pg_RegisterTool req actor)
  | OpCreateConnection req actor => pg_outcome (pg_CreateConnection req actor)
  | OpUpdateConnectionStatus cid status message actor =>
      pg_outcome (pg_UpdateConnectionStatus cid status message actor)
  | OpApplyFeatureView req actor => pg_outcome (pg_ApplyFeatureView req actor)
  | OpReportMaterialization name count actor =>
      pg_outcome (pg_ReportMaterialization name count actor)
  end.
End repository.
