(* ===== verification/Outbox.v ===== *)
(** * The outbox worker (internal/store/outbox.go, postgres.go)

    The rows the mutations leave in the outbox are published to the broker by a
    worker that reads the pending ones in order, publishes each, and marks it
    published or failed. *)

From S2P Require Import Prelude GoStrings Types World Database Postgres.

Open Scope string_scope.

Section worker.
Context `{Jsonb}.
Variable p : Postgres.

Definition PendingOutbox (limit : nat) : prog (result (list OutboxEvent)) :=
  do_ (CPending (pg_tenant p) limit).

Definition MarkPublished (sequence : Z) : prog (option gerror) :=
  r ← do_ (CAuto (SetPublished (pg_tenant p) sequence)); mret (error_of r).

Definition MarkFailed (sequence : Z) (message : string) : prog (option gerror) :=
  r ← do_ (CAuto (SetFailed (pg_tenant p) sequence message)); mret (error_of r).

(** The loop of [Flush]. *)
Fixpoint flush_events (events : list OutboxEvent) : prog (option gerror) :=
  match events with
  | [] => mret None
  | event :: events =>
      match unmarshal (out_payload event) with
      | (_, Some message) =>
          _ ← MarkFailed (out_sequence event) message; flush_events events
      | (payload, None) =>
          refused ← do_ (CPublish (out_topic event) payload);
          match refused with
          | Some e => _ ← MarkFailed (out_sequence event) (error_text e); flush_events events
          | None =>
              err ← MarkPublished (out_sequence event);
              match err with
              | Some e => mret (Some e)
              | None => flush_events events
              end
          end
      end
  end.

Definition outbox_batch : nat := 100.

Definition Flush : prog (option gerror) :=
  r ← PendingOutbox outbox_batch;
  match r with
  | Err e => mret (Some e)
  | Ok events => flush_events events
  end.

(** [NewOutboxWorker]: the interval between two flushes, in nanoseconds. *)
Definition worker_interval (interval : Z) : Z :=
  if decide (interval <= 0)%Z then 1000000000%Z else interval.

(** [Run], for the given number of ticks: an error of a flush is only logged. *)
Fixpoint worker_Run (ticks : nat) : prog unit :=
  match ticks with
  | O => mret tt
  | S ticks => _ ← Flush; worker_Run ticks
  end.

(** [OpenPostgres]: the connection is opened, pinged and migrated; a tenant
    without a name is the default one. *)
Definition OpenPostgres (databaseURL tenant : string) : prog (result Postgres) :=
  let tenant := if decide (tenant = "") then "default" else tenant in
  opened ← do_ (CConnect databaseURL);
  match opened with
  | Some e => mret (Err e)
  | None =>
      pinged ← do_ (CConnect databaseURL);
      match pinged with
      | Some e => mret (Err e)
      | None =>
          migrated ← do_ (CConnect databaseURL);
          match migrated with
          | Some e => mret (Err e)
          | None => mret (Ok (mkPostgres tenant))
          end
      end
  end.
End worker.
