(* ===== verification/Documents.v ===== *)
(** * A concrete JSON column and server

    An environment to evaluate the operations of the PostgreSQL repository in: a
    column that keeps the values themselves, and a server that answers every
    call, in the order of its own clock. *)

From Stdlib Require Import Sorting.Sorted.
From stdpp Require Import sorting.
From S2P Require Import Prelude GoStrings Types World Database.

Open Scope string_scope.

Inductive document : Type :=
  | DocAccess (v : UserAccess)
  | DocRequest (v : AccessRequest)
  | DocToken (v : APIToken)
  | DocPost (v : BlogPost)
  | DocProject (v : Project)
  | DocRun (v : PipelineRun)
  | DocDefinition (v : PipelineDefinition)
  | DocFunction (v : Function)
  | DocModel (v : Model)
  | DocAgent (v : Agent)
  | DocTool (v : Tool)
  | DocConnection (v : Connection)
  | DocSession (v : AgentSession)
  | DocTrace (v : AgentTrace)
  | DocFeature (v : FeatureView)
  | DocEvent (v : AuditEvent)
  | DocMetadata (v : (gmap string any))
  | DocCommand (v : (command document))
  | DocPayload (v : any).

(** The column decodes a document of its own type, and reports any other. *)
Definition column {T} (into : T → document) (from : document → option T) (none : T)
    : Codec document T := {|
  marshal v := Some (into v);
  unmarshal d := match from d with Some v => (v, None) | None => (none, Some "type mismatch") end
|}.

Definition empty_command : command document :=
  mkCommand "" "" "" (SubjectOf "") "" "" 0%Z.

(** Any document decodes into an [any]: the events and commands by their fields. *)
Definition payload_of_document (d : document) : any :=
  match d with
  | DocPayload v => v
  | DocEvent e => AObj [("action", AStr (evt_Action e)); ("resource_id", AStr (evt_ResourceID e))]
  | DocCommand c => AObj [("action", AStr (cmd_action _ c)); ("id", AStr (cmd_id _ c))]
  | _ => AObj []
  end.

Definition payload_column : Codec document any := {|
  marshal v := Some (DocPayload v);
  unmarshal d := (payload_of_document d, None)
|}.

Definition documents : Jsonb := {|
  jsonb := document;
  json_access := column DocAccess (λ d, match d with DocAccess v => Some v | _ => None end) zero;
  json_request := column DocRequest (λ d, match d with DocRequest v => Some v | _ => None end) zero;
  json_token := column DocToken (λ d, match d with DocToken v => Some v | _ => None end) zero;
  json_post := column DocPost (λ d, match d with DocPost v => Some v | _ => None end) zero;
  json_project := column DocProject (λ d, match d with DocProject v => Some v | _ => None end) zero;
  json_run := column DocRun (λ d, match d with DocRun v => Some v | _ => None end) zero;
  json_definition := column DocDefinition (λ d, match d with DocDefinition v => Some v | _ => None end) zero;
  json_function := column DocFunction (λ d, match d with DocFunction v => Some v | _ => None end) zero;
  json_model := column DocModel (λ d, match d with DocModel v => Some v | _ => None end) zero;
  json_agent := column DocAgent (λ d, match d with DocAgent v => Some v | _ => None end) zero;
  json_tool := column DocTool (λ d, match d with DocTool v => Some v | _ => None end) zero;
  json_connection := column DocConnection (λ d, match d with DocConnection v => Some v | _ => None end) zero;
  json_session := column DocSession (λ d, match d with DocSession v => Some v | _ => None end) zero;
  json_trace := column DocTrace (λ d, match d with DocTrace v => Some v | _ => None end) zero;
  json_feature := column DocFeature (λ d, match d with DocFeature v => Some v | _ => None end) zero;
  json_event := column DocEvent (λ d, match d with DocEvent v => Some v | _ => None end) zero;
  json_metadata := column DocMetadata (λ d, match d with DocMetadata v => Some v | _ => None end) zero;
  json_command := column DocCommand (λ d, match d with DocCommand v => Some v | _ => None end) empty_command;
  json_payload := payload_column
|}.

(** ** The server *)

Definition created_ge (r r' : row (H := documents)) : Prop := (row_created r' ≤ row_created r)%Z.
#[export] Instance created_ge_dec r r' : Decision (created_ge r r').
Proof. unfold created_ge. apply _. Defined.
#[export] Instance created_ge_total : Total created_ge.
Proof. intros r r'. unfold created_ge. lia. Qed.
#[export] Instance created_ge_trans : Transitive created_ge.
Proof. intros r1 r2 r3. unfold created_ge. lia. Qed.

Definition quiet_server : Server (H := documents) := {|
  db_error := λ _, None;
  db_clock := λ k, Z.of_nat k;
  db_received := λ _, None;
  db_order := λ _, merge_sort created_ge;
  db_order_perm := λ _, merge_sort_Permutation created_ge;
  db_order_desc := λ _, StronglySorted_merge_sort created_ge;
  db_locked := λ _ _, false;
  publish_error := λ _, None
|}.

Definition no_tables : db (H := documents) := mkDb ∅ [] [] 1 1.
