(* ===== verification/DatabaseProps.v ===== *)
(** * Reasoning about operations on the database

    [every P m Q]: whatever the answers, each call of [m] satisfies [P] and its
    result satisfies [Q]; a pool of such operations keeps what [P] guarantees
    of a call, however they interleave.  [pwp m s Q]: run alone from [s], [m]
    ends with a value and a state that satisfy [Q]. *)

From S2P Require Import Prelude GoStrings Types World Database.

Open Scope string_scope.

(** ** All answers *)

Section every.
Context `{Jsonb}.
Implicit Types (P : ∀ B, call B → Prop).

Fixpoint every P {A} (m : prog A) (Q : A → Prop) : Prop :=
  match m with
  | Ret a => Q a
  | Do c k => P _ c ∧ ∀ v, every P (k v) Q
  end.

Lemma every_ret P {A} (a : A) Q : Q a → every P (mret a) Q.
Proof. done. Qed.

Lemma every_bind P {A B} (m : prog A) (f : A → prog B) Q :
  every P m (λ a, every P (f a) Q) → every P (m ≫= f) Q.
Proof.
  induction m as [a|B' c k IH]; [done|]. intros [Hc Hk]. split; [done|].
  intros v. apply (IH v), Hk.
Qed.

Lemma every_mono P {A} (m : prog A) (Q Q' : A → Prop) :
  every P m Q → (∀ a, Q a → Q' a) → every P m Q'.
Proof.
  induction m as [a|B' c k IH]; intros Hm HQ; [by apply HQ|].
  destruct Hm as [Hc Hk]. split; [done|]. intros v. by apply (IH v).
Qed.

Lemma every_do P {B} (c : call B) (Q : B → Prop) : P _ c → (∀ v, Q v) → every P (do_ c) Q.
Proof. done. Qed.

Lemma every_attempt P {A} (m : prog (result A)) k (Q : option gerror → Prop) :
  every P m (λ r, match r with Ok a => every P (k a) Q | Err e => Q (Some e) end) →
  every P (attempt m k) Q.
Proof. intros Hm. apply every_bind. eapply every_mono; [exact Hm|]. by intros [a|e]. Qed.
End every.

(** ** One operation alone *)

Section pwp.
Context `{Server}.
Implicit Types s : sys.

Definition pwp {A} (m : prog A) s (Q : A → sys → Prop) : Prop := Q (run m s).1 (run m s).2.

Lemma run_bind {A B} (m : prog A) (f : A → prog B) s :
  run (m ≫= f) s = run (f (run m s).1) (run m s).2.
Proof.
  revert s. induction m as [a|B' c k IH]; intros s; [done|].
  change (Do c k ≫= f) with (Do c (λ v, k v ≫= f)). simpl.
  destruct (answer c s) as [v s']. by rewrite IH.
Qed.

Lemma pwp_mono {A} (m : prog A) s (Q Q' : A → sys → Prop) :
  pwp m s Q → (∀ a s', Q a s' → Q' a s') → pwp m s Q'.
Proof. unfold pwp. auto. Qed.

Lemma pwp_ret {A} (a : A) s Q : Q a s → pwp (mret a) s Q.
Proof. done. Qed.

Lemma pwp_bind {A B} (m : prog A) (f : A → prog B) s Q :
  pwp m s (λ a s', pwp (f a) s' Q) → pwp (m ≫= f) s Q.
Proof. unfold pwp. by rewrite run_bind. Qed.

Lemma pwp_do {B} (c : call B) s (Q : B → sys → Prop) :
  Q (answer c s).1 (answer c s).2 → pwp (do_ c) s Q.
Proof. unfold pwp. simpl. by destruct (answer c s). Qed.

Lemma pwp_attempt {A} (m : prog (result A)) k s (Q : option gerror → sys → Prop) :
  pwp m s (λ r s', match r with Ok a => pwp (k a) s' Q | Err e => Q (Some e) s' end) →
  pwp (attempt m k) s Q.
Proof. intros Hm. apply pwp_bind. eapply pwp_mono; [exact Hm|]. by intros [a|e]. Qed.
End pwp.

(** ** Interleavings *)

Section pool.
Context `{Server} {A : Type}.
Implicit Types (ms : list (prog A)) (s : sys).

(** What every call in the pool guarantees of its step holds of every step of
    the pool, however its operations interleave. *)
Lemma pool_every (P : ∀ B, call B → Prop) (Q : A → Prop) c c' :
  Forall (λ m, every P m Q) c.1 → rtc pstep c c' → Forall (λ m, every P m Q) c'.1.
Proof.
  intros Hall Hrun. induction Hrun as [|c0 c1 c2 Hstep _ IH]; [done|]. apply IH.
  destruct Hstep as [i ms B cl k s v s' Hi Ha]. simpl in *.
  apply Forall_insert; [done|]. pose proof (Forall_lookup_1 _ _ _ _ Hall Hi) as [_ Hk]. apply Hk.
Qed.

Lemma pool_step (P : ∀ B, call B → Prop) (Q : A → Prop) (R : sys → sys → Prop) c c' :
  (∀ B (c : call B) s, P B c → R s (answer c s).2) →
  Forall (λ m, every P m Q) c.1 → pstep c c' → R c.2 c'.2.
Proof.
  intros HR Hall Hstep. destruct Hstep as [i ms B cl k s v s' Hi Ha].
  pose proof (Forall_lookup_1 _ _ _ _ Hall Hi) as [Hc _].
  specialize (HR _ cl s Hc). by rewrite Ha in HR.
Qed.

Lemma pool_steps (P : ∀ B, call B → Prop) (Q : A → Prop) (R : sys → sys → Prop) `{!PreOrder R} c c' :
  (∀ B (c : call B) s, P B c → R s (answer c s).2) →
  Forall (λ m, every P m Q) c.1 → rtc pstep c c' → R c.2 c'.2.
Proof.
  intros HR Hall Hrun. induction Hrun as [|c c1 c2 Hstep Hrun IH]; [done|].
  transitivity c1.2; [by eapply pool_step|]. apply IH.
  by eapply pool_every; [|apply rtc_once].
Qed.

(** An operation after [n] of its calls, alone. *)
Fixpoint calls_done (n : nat) (m : prog A) s : prog A * sys :=
  match n, m with
  | S n, Do c k => let '(v, s') := answer c s in calls_done n (k v) s'
  | _, _ => (m, s)
  end.

Lemma pstep_one {B} (c : call B) (k : B → prog A) s v s' :
  answer c s = (v, s') → pstep ([Do c k], s) ([k v], s').
Proof. intros Ha. exact (pstep_call 0 [Do c k] B c k s v s' eq_refl Ha). Qed.

Lemma calls_done_steps n m s :
  rtc pstep ([m], s) ([(calls_done n m s).1], (calls_done n m s).2).
Proof.
  revert m s. induction n as [|n IH]; intros m s; [by destruct m|].
  destruct m as [a|B c k]; [done|]. simpl. destruct (answer c s) as [v s'] eqn:Ha.
  eapply rtc_l; [by apply pstep_one|]. apply IH.
Qed.

Lemma calls_done_step n m s :
  match (calls_done n m s).1 with Ret _ => False | Do _ _ => True end →
  pstep ([(calls_done n m s).1], (calls_done n m s).2)
    ([(calls_done (S n) m s).1], (calls_done (S n) m s).2).
Proof.
  revert m s. induction n as [|n IH]; intros m s; destruct m as [a|B c k]; simpl; try done.
  - destruct (answer c s) as [v s'] eqn:Ha. intros _.
    destruct (k v) eqn:Hk; simpl; rewrite <- Hk; by apply pstep_one.
  - destruct (answer c s) as [v s'] eqn:Ha. intros Hdo. apply (IH (k v) s' Hdo).
Qed.

(** Running one operation of the pool to its end is an interleaving. *)
Lemma pool_run ms i m s :
  ms !! i = Some m → rtc pstep (ms, s) (<[i := Ret (run m s).1]> ms, (run m s).2).
Proof.
  revert ms s. induction m as [a|B c k IH]; intros ms s Hi.
  - simpl. rewrite list_insert_id by done. done.
  - simpl. destruct (answer c s) as [v s'] eqn:Ha.
    eapply rtc_l; [by eapply pstep_call|].
    pose proof (IH v (<[i := k v]> ms) s') as IH'.
    rewrite list_insert_insert_eq in IH'. apply IH'.
    apply list_lookup_insert_eq. by eapply lookup_lt_Some.
Qed.
End pool.
