(* ===== verification/PostgresProps.v ===== *)
(** * Properties of the PostgreSQL repository

    What every call of a repository operation respects, and so what holds of
    any interleaving of operations: a tenant's tables belong to its own
    operations, and a resource changes only together with its audit event and
    its outbox rows. *)

From stdpp Require Import sorting.
From S2P Require Import Prelude GoStrings Types World Access Tokens Blog Projects Pipelines.
From S2P Require Import Runs Models Agents Registry Store Database Documents Postgres.
From S2P Require Import DatabaseProps.

Open Scope string_scope.

(** ** The calls of an operation *)

(** The three operations that write outside a transaction. *)
Definition writes_alone (o : op) : Prop :=
  match o with
  | OpResolveAPIToken _ | OpDeleteBlogPost _ _ | OpDeleteFunction _ _ => True
  | _ => False
  end.

(** The statement that marks a row of the outbox published. *)
Definition marks_published `{Jsonb} (s : stmt) : Prop :=
  match s with SetPublished _ _ => True | _ => False end.

#[export] Instance writes_alone_dec o : Decision (writes_alone o).
Proof. destruct o; simpl; apply _. Defined.

Ltac every_rule :=
  lazymatch goal with
  | |- every _ (mret _) _ => apply every_ret
  | |- every _ (mbind _ _) _ => apply every_bind
  | |- every _ (Ret _) _ => apply every_ret
  | |- every _ (attempt _ _) _ => apply every_attempt
  | |- every _ (if decide ?P then _ else _) _ => destruct (decide P)
  | |- every _ (if negb ?b then _ else _) _ => destruct b; cbn [negb]
  | |- every _ (match ?x with _ => _ end) _ => destruct x
  | |- match ?x with _ => _ end => destruct x
  | |- True => exact I
  end.

Section walk.
Context `{Host} `{MapOrder} `{Jsonb} (p : Postgres).
Variable P : ∀ B, call B → Prop.
Hypothesis P_host : ∀ B (m : M B), P _ (CHost m).
Hypothesis P_select : ∀ kind, P _ (CSelect (pg_tenant p) kind).
Hypothesis P_get : ∀ kind i, P _ (CGet (pg_tenant p) kind i).
Hypothesis P_write : ∀ T (codec : Codec jsonb T) kind i (v : T) action actor metadata,
  every P (pg_write p kind i v action actor metadata) (λ _, True).
Hypothesis P_delete : ∀ subject actor, every P (delete_access p subject actor) (λ _, True).

Lemma every_host {B} (m : M B) Q : (∀ v, Q v) → every P (host m) Q.
Proof using P_host. intros HQ. apply every_do; auto. Qed.

Lemma every_list T `{!Codec jsonb T} kind Q : (∀ v, Q v) → every P (pg_list p T kind) Q.
Proof using P_select. intros HQ. apply every_bind, every_do; [done|]. intros v. apply every_ret, HQ. Qed.

Lemma every_get T `{!Codec jsonb T} `{Zero T} kind i Q : (∀ v, Q v) → every P (pg_get p T kind i) Q.
Proof using P_get. intros HQ. apply every_bind, every_do; [done|]. intros v. apply every_ret, HQ. Qed.

Lemma every_exists kind i Q : (∀ v, Q v) → every P (pg_exists p kind i) Q.
Proof using P_get. intros HQ. apply every_bind, every_do; [done|]. intros v. apply every_ret, HQ. Qed.

Lemma every_write {T} `{!Codec jsonb T} kind i (v : T) action actor metadata Q :
  (∀ r, Q r) → every P (pg_write p kind i v action actor metadata) Q.
Proof using P_write. intros HQ. eapply every_mono; [apply P_write|]. auto. Qed.

Lemma every_delete subject actor Q : (∀ r, Q r) → every P (delete_access p subject actor) Q.
Proof using P_delete. intros HQ. eapply every_mono; [apply P_delete|]. auto. Qed.

Ltac every_walk :=
  repeat first
    [ progress (cbn beta zeta) | every_rule
    | lazymatch goal with
      | |- every _ (host _) _ => apply every_host; intros ?
      | |- every _ (pg_list _ _ _) _ => apply every_list; intros ?
      | |- every _ (pg_get _ _ _ _) _ => apply every_get; intros ?
      | |- every _ (pg_exists _ _ _) _ => apply every_exists; intros ?
      | |- every _ (pg_write _ _ _ _ _ _ _) _ => apply every_write; intros ?
      | |- every _ (delete_access _ _ _) _ => apply every_delete; intros ?
      end ].

Lemma every_definition depth definitionID req actor :
  every P (upsert_definition p depth definitionID req actor) (λ _, True).
Proof using P_host P_select P_get P_write.
  revert definitionID req. induction depth as [|depth IH]; intros definitionID req; [done|].
  cbn [upsert_definition]. unfold with_value, pg_return, pg_PipelineDefinition,
    pg_PipelineDefinitions, refuse.
  every_walk. apply IH.
Qed.

Lemma every_pg_op o :
  ¬ writes_alone o → every P (pg_op p o) (λ _, True).
Proof using All.
  destruct o; intros Hnot; try (exfalso; by apply Hnot); clear Hnot; cbn [pg_op];
  unfold pg_outcome, pg_UpsertUserAccess, pg_DeleteUserAccess, pg_CreateAccessRequest,
    pg_ReviewAccessRequest, pg_CreateAPIToken, pg_RevokeAPIToken, pg_UpsertBlogPost,
    pg_CreateProject, pg_SetProjectRepository, pg_SubmitPipeline, pg_submission,
    pg_CancelRun, pg_RetryRun, pg_SetRunEngine, pg_UpdateRunStep, pg_RegisterModel,
    pg_PromoteModel, pg_DeployModel, pg_SetModelEndpoint, pg_RollbackModel, pg_DeployAgent,
    pg_SetAgentTraffic, pg_RecordTrace, pg_UpsertFunction, pg_RegisterTool,
    pg_CreateConnection, pg_UpdateConnectionStatus, pg_ApplyFeatureView,
    pg_ReportMaterialization, pg_return, with_value, pg_BlogPost, pg_AccessRequestsFor,
    pg_AccessFor, pg_Project, pg_Run, pg_PipelineDefinition, pg_Projects, pg_BlogPosts,
    pg_AccessRequests, pg_Models, pg_Functions, pg_Tools, pg_FeatureViews, refuse.
  all: try (every_walk; fail).
  apply every_bind. eapply every_mono; [apply every_definition|]. by intros r _.
Qed.

Lemma every_alone o :
  (∀ s, stmt_tenant s = pg_tenant p → ¬ marks_published s → P _ (CAuto s)) →
  writes_alone o → every P (pg_op p o) (λ _, True).
Proof using P_host P_select P_get.
  intros P_auto. destruct o; intros Hal; try (exfalso; exact Hal); clear Hal; cbn [pg_op];
  unfold pg_outcome, pg_ResolveAPIToken, pg_DeleteBlogPost, pg_DeleteFunction, pg_BlogPost,
    pg_BlogPosts, pg_return, audit_alone, pg_event, refuse;
  repeat first [ progress every_walk
    | lazymatch goal with |- every _ (do_ (CAuto _)) _ => apply every_do; [by apply P_auto; [|intros []]|intros ?] end ].
Qed.
End walk.

(** ** Statements and transactions *)

Section statements.
Context `{Jsonb}.
Implicit Types (P : ∀ B, call B → Prop) (b : db).

Lemma every_exec P t s (Q : result tx → Prop) :
  P _ (CExec t s) → (∀ n, Q (Ok (push t n s))) → (∀ e, Q (Err e)) → every P (exec_in t s) Q.
Proof. intros HP Hok Herr. apply every_bind, every_do; [done|]. intros [[n k]|e]; [apply Hok|apply Herr]. Qed.

(** The part of the tables that belongs to a tenant. *)
Definition tenant_view (tenant : string) (b : db)
    : gmap (string * string * string) row * list audit_row * list outbox_row :=
  (filter (λ kv, kv.1.1.1 = tenant) (db_resources b),
   filter (λ r, aud_tenant r = tenant) (db_audit b),
   filter (λ r, out_tenant r = tenant) (db_outbox b)).

Lemma update_outbox_other tenant t n f b :
  t ≠ tenant → (∀ r, out_tenant (f r) = out_tenant r) →
  filter (λ r, out_tenant r = tenant) (db_outbox (update_outbox t n f b))
  = filter (λ r, out_tenant r = tenant) (db_outbox b).
Proof.
  intros Hne Hf. simpl. induction (db_outbox b) as [|r l IH]; [done|]. simpl.
  case_decide as Hr.
  - destruct Hr as [Ht _]. rewrite !filter_cons_False; [done|congruence|rewrite Hf; congruence].
  - rewrite !filter_cons. case_decide; [by f_equal|done].
Qed.

Lemma apply_stmt_other tenant started n s b k b' :
  stmt_tenant s ≠ tenant → apply_stmt started n s b = Some (k, b') →
  tenant_view tenant b' = tenant_view tenant b.
Proof.
  unfold tenant_view. destruct s; cbn [apply_stmt stmt_tenant]; intros Hne Happly.
  6,7: injection Happly as <- <-; by rewrite update_outbox_other.
  - simplify_eq/=. by rewrite map_filter_insert_not by done.
  - case_match; simplify_eq/=; [|done]. by rewrite map_filter_insert_not by done.
  - case_match; simplify_eq/=; [|done]. by rewrite map_filter_delete_not by done.
  - case_decide; [done|]. destruct (metadata_json _); simplify_eq/=.
    by rewrite filter_cons_False by done.
  - case_decide; [done|]. destruct payload; simplify_eq/=. by rewrite filter_cons_False by done.
Qed.

Lemma apply_stmts_other tenant started stmts b b' :
  Forall (λ ns, stmt_tenant ns.2 ≠ tenant) stmts → apply_stmts started stmts b = Some b' →
  tenant_view tenant b' = tenant_view tenant b.
Proof.
  intros Hall. revert b'. induction Hall as [|[n s] stmts Hs _ IH]; intros b' Happly; [by simplify_eq/=|].
  cbn [apply_stmts] in Happly. apply bind_Some in Happly as (b1&Hb1&Happly).
  apply fmap_Some in Happly as ([k b2]&Hb2&->). simpl.
  rewrite (apply_stmt_other _ _ _ _ _ _ _ Hs Hb2). by apply IH.
Qed.

(** A call that writes to no row of the tenant. *)
Definition spares (tenant : string) (B : Type) (c : call B) : Prop :=
  match c with
  | CCommit t => Forall (λ ns, stmt_tenant ns.2 ≠ tenant) (tx_stmts t)
  | CAuto s => stmt_tenant s ≠ tenant
  | _ => True
  end.

Lemma draw_view tenant s b : tenant_view tenant (draw s b).2 = tenant_view tenant b.
Proof. by destruct s. Qed.
End statements.

Section isolation.
Context `{Host} `{MapOrder} `{Server}.
Implicit Types s : sys.

Lemma carry_out_view {A} tenant k (change : option (A * db)) b :
  (∀ a b', change = Some (a, b') → tenant_view tenant b' = tenant_view tenant b) →
  tenant_view tenant (carry_out k change b).2 = tenant_view tenant b.
Proof.
  intros Hc. unfold carry_out. destruct (db_error k) as [[msg []]|], change as [[a b']|];
    simpl; eauto.
Qed.

Lemma answer_spares tenant B (c : call B) s :
  spares tenant B c → tenant_view tenant (s_db (answer c s).2) = tenant_view tenant (s_db s).
Proof.
  destruct c as [B m|url|t k|t k i|t|t l| |t st|t|st|topic payload]; simpl; intros Hs; try done.
  - by destruct (m (s_world s)).
  - pose proof (draw_view tenant st (s_db s)) as Hd. destruct (draw st (s_db s)) as [n b]. done.
  - rewrite (surjective_pairing (carry_out _ _ _)). simpl. apply carry_out_view.
    intros [] b' (b1&Hb1&[= <-])%fmap_Some. by eapply apply_stmts_other.
  - pose proof (draw_view tenant st (s_db s)) as Hd. destruct (draw st (s_db s)) as [n b].
    rewrite (surjective_pairing (carry_out _ _ _)). simpl in *. rewrite <- Hd.
    apply carry_out_view. intros a b' Hb'. by eapply apply_stmt_other.
  - by destruct (publish_error _) as [[? []]|].
Qed.
End isolation.

(** ** The transactions of the mutations *)

Section transactions.
Context `{Host} `{Jsonb} (p : Postgres).
Implicit Types (P : ∀ B, call B → Prop) (event : AuditEvent) (stmts : list (Z * stmt)).

(** The statements that record a mutation beside its change, last first: the
    audit event, the event for the audit topic and, if the action has a topic,
    the command. *)
Inductive written (kind i : string) (payload : jsonb) event : list (Z * stmt) → Prop :=
  | written_quiet n0 n1 n2 oid :
      topicForAction (evt_Action event) = "" →
      written kind i payload event
        [(n2, InsertOutbox (pg_tenant p) oid audit_topic i (marshal event));
         (n1, InsertAudit (pg_tenant p) event);
         (n0, Upsert (pg_tenant p) kind i payload)]
  | written_command n0 n1 n2 n3 oid oid' text :
      topicForAction (evt_Action event) ≠ "" →
      marshal (command_of p kind i (RawMessage payload) event) = Some text →
      written kind i payload event
        [(n3, InsertOutbox (pg_tenant p) oid' (topicForAction (evt_Action event)) i (Some text));
         (n2, InsertOutbox (pg_tenant p) oid audit_topic i (marshal event));
         (n1, InsertAudit (pg_tenant p) event);
         (n0, Upsert (pg_tenant p) kind i payload)].

Inductive deleted_access (subject : string) event : list (Z * stmt) → Prop :=
  | deleted_command n0 n1 n2 oid payload :
      deleted_access subject event
        [(n2, InsertOutbox (pg_tenant p) oid workspace_topic subject payload);
         (n1, InsertAudit (pg_tenant p) event);
         (n0, Delete (pg_tenant p) "user_access" subject)].

Section every_transaction.
Variable P : ∀ B, call B → Prop.
Hypothesis P_host : ∀ B (m : M B), P _ (CHost m).
Hypothesis P_begin : P _ CBegin.
Hypothesis P_exec : ∀ t s, P _ (CExec t s).

Lemma every_event action kind i actor metadata (Q : AuditEvent → Prop) :
  (∀ event, evt_Action event = action → evt_Resource event = kind → evt_ResourceID event = i →
            Q event) →
  every P (pg_event action kind i actor metadata) Q.
Proof using P_host.
  intros HQ. apply every_bind, every_do; [done|]. intros eid.
  apply every_bind, every_do; [done|]. intros created. by apply every_ret, HQ.
Qed.

Lemma every_outbox t topic key payload (Q : result tx → Prop) :
  (∀ n oid, Q (Ok (push t n (InsertOutbox (pg_tenant p) oid topic key payload)))) →
  (∀ e, Q (Err e)) → every P (insert_outbox p t topic key payload) Q.
Proof using P_host P_exec.
  intros Hok Herr. apply every_bind, every_do; [done|]. intros oid. by apply every_exec.
Qed.

Lemma every_pg_write {T} `{!Codec jsonb T} kind i (v : T) action actor metadata :
  (∀ t payload event, marshal v = Some payload → evt_Action event = action →
     evt_Resource event = kind → evt_ResourceID event = i →
     written kind i payload event (tx_stmts t) → P _ (CCommit t)) →
  every P (pg_write p kind i v action actor metadata) (λ _, True).
Proof using P_host P_begin P_exec.
  intros Hcommit. apply every_attempt, every_do; [done|]. intros [started|e]; [|done].
  destruct (marshal v) as [payload|] eqn:Hv; [|done].
  apply every_attempt, every_exec; [done| |done]. intros n0.
  apply every_bind, every_event. intros event Ha Hk Hi.
  apply every_attempt, every_exec; [done| |done]. intros n1.
  apply every_attempt, every_outbox; [|done]. intros n2 oid.
  apply every_attempt. unfold write_command. cbv zeta. case_decide as Ht.
  - apply every_ret, every_do; [|done].
    apply (Hcommit _ payload event eq_refl Ha Hk Hi). by apply written_quiet.
  - destruct (marshal (command_of _ _ _ _ _)) as [text|] eqn:Hc; [|done].
    apply every_outbox; [|done]. intros n3 oid'. apply every_do; [|done].
    apply (Hcommit _ payload event eq_refl Ha Hk Hi). by apply written_command.
Qed.

Lemma every_delete_access subject actor :
  (∀ t event, evt_Action event = "access.deleted" → evt_Resource event = "user_access" →
     evt_ResourceID event = subject → deleted_access subject event (tx_stmts t) →
     P _ (CCommit t)) →
  every P (delete_access p subject actor) (λ _, True).
Proof using P_host P_begin P_exec.
  intros Hcommit. apply every_attempt, every_do; [done|]. intros [started|e]; [|done].
  apply every_attempt, every_do; [done|]. intros [[n0 affected]|e]; [|done].
  case_decide; [done|]. apply every_bind, every_event. intros event Ha Hk Hi.
  apply every_attempt, every_exec; [done| |done]. intros n1.
  apply every_attempt, every_outbox; [|done]. intros n2 oid. apply every_do; [|done].
  apply (Hcommit _ event Ha Hk Hi). by apply deleted_command.
Qed.
End every_transaction.

Lemma written_tenant kind i payload event stmts :
  written kind i payload event stmts → Forall (λ ns, stmt_tenant ns.2 = pg_tenant p) stmts.
Proof. by destruct 1; repeat constructor. Qed.

Lemma deleted_tenant subject event stmts :
  deleted_access subject event stmts → Forall (λ ns, stmt_tenant ns.2 = pg_tenant p) stmts.
Proof. by destruct 1; repeat constructor. Qed.
End transactions.

(** ** Sessions *)

(** A session of a repository: one of its operations, for some tenant. *)
Definition session_prog `{Host} `{MapOrder} `{Jsonb} (session : Postgres * op) : prog (option gerror) :=
  pg_op session.1 session.2.

Section sessions.
Context `{Host} `{MapOrder} `{Server}.
Implicit Types (s : sys) (sessions : list (Postgres * op)).

#[local] Instance same_view tenant :
  PreOrder (λ s s', tenant_view tenant (s_db s') = tenant_view tenant (s_db s)).
Proof. split; [done|]. intros s1 s2 s3 H12 H23. by rewrite H23. Qed.

Lemma session_spares tenant session :
  pg_tenant session.1 ≠ tenant → every (spares tenant) (session_prog session) (λ _, True).
Proof.
  destruct session as [p o]. unfold session_prog. simpl. intros Hne.
  destruct (decide (writes_alone o)) as [Ho|Ho].
  - apply every_alone; try done. intros s Hs _. simpl. congruence.
  - apply every_pg_op; try done.
    + intros T codec kind i v action actor metadata. apply every_pg_write; try done.
      intros t payload event _ _ _ _ Hw. simpl. eapply Forall_impl; [by eapply written_tenant|].
      simpl. congruence.
    + intros subject actor. apply every_delete_access; try done.
      intros t event _ _ _ Hd. simpl. eapply Forall_impl; [by eapply deleted_tenant|].
      simpl. congruence.
Qed.

(** C11: whatever operations the sessions of other tenants run, and however they
    interleave and fail, a tenant's resources, audit events and outbox stay as
    they are. *)
Theorem tenant_isolation tenant sessions s ms s' :
  Forall (λ session, pg_tenant session.1 ≠ tenant) sessions →
  rtc pstep (session_prog <$> sessions, s) (ms, s') →
  tenant_view tenant (s_db s') = tenant_view tenant (s_db s).
Proof.
  intros Hall Hrun.
  apply (pool_steps (spares tenant) (λ _, True)
    (λ s s', tenant_view tenant (s_db s') = tenant_view tenant (s_db s))) in Hrun; [done|..].
  - intros B c s0. apply answer_spares.
  - simpl. rewrite Forall_fmap. eapply Forall_impl; [exact Hall|]. apply session_spares.
Qed.
End sessions.

(** ** What a committed mutation leaves *)

Section recording.
Context `{Host} `{MapOrder} `{Server}.
Implicit Types (s : sys) (b : db) (e : AuditEvent) (sessions : list (Postgres * op)).

(** From [b] to [b'], one resource at most has changed, its audit event [e] is
    the newest of the audit table, and new outbox rows, not yet published, hold
    the event for the audit topic and the command its action calls for. *)
Record recorded (tenant kind i : string) e (b b' : db) : Prop := {
  rec_resource : ∀ key, key ≠ (tenant, kind, i) → db_resources b' !! key = db_resources b !! key;
  rec_event : evt_Resource e = kind ∧ evt_ResourceID e = i;
  rec_audit : ∃ n metadata, db_audit b'
    = mkAuditRow n tenant (evt_ID e) (evt_Action e) kind i (evt_Actor e) metadata (evt_CreatedAt e)
      :: db_audit b;
  rec_outbox : ∃ rows, db_outbox b' = app rows (db_outbox b)
    ∧ Forall (λ r, pending tenant r ∧ out_key r = i ∧ out_attempts r = 0%Z) rows
    ∧ (evt_Action e ≠ "access.deleted" →
       ∃ r, r ∈ rows ∧ out_topic r = audit_topic ∧ marshal e = Some (out_payload r))
    ∧ (topicForAction (evt_Action e) ≠ "" →
       ∃ r, r ∈ rows ∧ out_topic r = topicForAction (evt_Action e))
}.

(** A committed statement of each kind, by its effect. *)
Lemma apply_audit_inv started n tenant e b k b' :
  apply_stmt started n (InsertAudit tenant e) b = Some (k, b') →
  ∃ metadata, b' = b <|db_audit := mkAuditRow n tenant (evt_ID e) (evt_Action e)
    (evt_Resource e) (evt_ResourceID e) (evt_Actor e) metadata (evt_CreatedAt e) :: db_audit b|>.
Proof.
  cbn [apply_stmt]. case_decide; [done|]. intros (metadata&_&[= <- <-])%bind_Some. eauto.
Qed.

Lemma apply_outbox_inv started n tenant i topic key payload b k b' :
  apply_stmt started n (InsertOutbox tenant i topic key payload) b = Some (k, b') →
  ∃ j, payload = Some j
  ∧ b' = b <|db_outbox := mkOutboxRow n tenant i topic key j None 0 None :: db_outbox b|>.
Proof.
  cbn [apply_stmt]. case_decide; [done|]. intros (j&->&[= <- <-])%bind_Some. eauto.
Qed.

Lemma apply_stmts_cons started n (s : stmt) stmts b b' :
  apply_stmts started ((n, s) :: stmts) b = Some b' →
  ∃ b1 k, apply_stmts started stmts b = Some b1 ∧ apply_stmt started n s b1 = Some (k, b').
Proof.
  cbn [apply_stmts]. intros (b1&Hb1&([k b2]&Hb2&[= ->])%fmap_Some)%bind_Some. eauto.
Qed.

Ltac undo_stmts :=
  repeat match goal with
    | H : apply_stmts _ (_ :: _) _ = Some _ |- _ => apply apply_stmts_cons in H as (?&?&H&?)
    | H : apply_stmts _ [] _ = Some _ |- _ => injection H as <-
    | H : apply_stmt _ _ (InsertOutbox _ _ _ _ _) _ = Some _ |- _ =>
        apply apply_outbox_inv in H as (?&?&->)
    | H : apply_stmt _ _ (InsertAudit _ _) _ = Some _ |- _ => apply apply_audit_inv in H as (?&->)
    end.

Lemma written_recorded p kind i payload e started stmts b b' :
  written p kind i payload e stmts → evt_Resource e = kind → evt_ResourceID e = i →
  apply_stmts started stmts b = Some b' → recorded (pg_tenant p) kind i e b b'.
Proof.
  intros Hw Hk Hi Happly. destruct Hw as [n0 n1 n2 oid Ht|n0 n1 n2 n3 oid oid' text Ht Htext];
    undo_stmts;
    match goal with H : apply_stmt _ _ (Upsert _ _ _ _) _ = _ |- _ => injection H as <- <- end;
    simpl in *; split; simpl; try done.
  1,4: by intros key Hkey; rewrite lookup_insert_ne.
  1,3: rewrite Hk, Hi; eauto.
  - eexists [_]. split_and!; [done|by repeat constructor| |done].
    intros _. eexists. split; [by left|]. done.
  - eexists [_; _]. split_and!; [done|by repeat constructor|..].
    + intros _. eexists. split; [by right; left|]. done.
    + intros _. eexists. split; [by left|]. done.
Qed.

Lemma written_resources p kind i payload e started stmts b b' :
  written p kind i payload e stmts → apply_stmts started stmts b = Some b' →
  ∃ created updated, db_resources b'
    = <[(pg_tenant p, kind, i) := mkRow payload created updated]> (db_resources b).
Proof.
  intros Hw Happly. destruct Hw; undo_stmts;
    match goal with H : apply_stmt _ _ (Upsert _ _ _ _) _ = _ |- _ => injection H as <- <- end;
    simpl; eauto.
Qed.

Lemma deleted_recorded p subject e started stmts b b' :
  deleted_access p subject e stmts → evt_Action e = "access.deleted" →
  evt_Resource e = "user_access" → evt_ResourceID e = subject →
  apply_stmts started stmts b = Some b' → recorded (pg_tenant p) "user_access" subject e b b'.
Proof.
  intros [n0 n1 n2 oid payload] Ha Hk Hi Happly. undo_stmts.
  match goal with H : apply_stmt _ _ (Delete _ _ _) _ = _ |- _ => rename H into Hd end.
  assert (∀ key b1 k, apply_stmt started n0 (Delete (pg_tenant p) "user_access" subject) b = Some (k, b1) →
    (key ≠ (pg_tenant p, "user_access", subject) → db_resources b1 !! key = db_resources b !! key)
    ∧ db_audit b1 = db_audit b ∧ db_outbox b1 = db_outbox b) as Hdel.
  { intros key b1 k. cbn [apply_stmt]. case_match; intros [= <- <-]; [|done]. simpl.
    split; [|done]. intros Hkey. by rewrite lookup_delete_ne. }
  split; simpl.
  - intros key Hkey. by eapply Hdel.
  - done.
  - destruct (Hdel ("", "", "") _ _ Hd) as (_&->&_). rewrite Hk, Hi. eauto.
  - destruct (Hdel ("", "", "") _ _ Hd) as (_&_&->). eexists [_].
    split_and!; [done|by repeat constructor|done|]. intros _. eexists. split; [by left|].
    simpl. by rewrite Ha.
Qed.

(** A call that changes resources only by a recorded mutation. *)
Definition tracked (B : Type) (c : call B) : Prop :=
  match c with
  | CCommit t => ∃ tenant kind i e, ∀ b b', apply_tx t b = Some b' → recorded tenant kind i e b b'
  | CAuto _ => False
  | _ => True
  end.

Lemma session_tracked session :
  ¬ writes_alone session.2 → every tracked (session_prog session) (λ _, True).
Proof.
  destruct session as [p o]. unfold session_prog. simpl. intros Ho. apply every_pg_op; try done.
  - intros T codec kind i v action actor metadata. apply every_pg_write; try done.
    intros t payload e _ _ Hk Hi Hw. exists (pg_tenant p), kind, i, e. intros b b' Happly.
    by eapply written_recorded.
  - intros subject actor. apply every_delete_access; try done.
    intros t e Ha Hk Hi Hd. exists (pg_tenant p), "user_access", subject, e. intros b b' Happly.
    by eapply deleted_recorded.
Qed.

Lemma answer_tracked B (c : call B) s :
  tracked B c →
  ∀ key, db_resources (s_db (answer c s).2) !! key ≠ db_resources (s_db s) !! key →
  ∃ e, recorded key.1.1 key.1.2 key.2 e (s_db s) (s_db (answer c s).2).
Proof.
  intros Ht key. destruct c as [B m|url|t k|t k i|t|t l| |t st|t|st|topic payload]; simpl; try done.
  - by destruct (m (s_world s)).
  - by destruct st.
  - destruct Ht as (tenant&kind&i&e&Hrec). unfold carry_out.
    destruct (apply_tx t (s_db s)) as [b'|] eqn:Hb'; simpl.
    + specialize (Hrec _ _ Hb').
      destruct (db_error _) as [[msg []]|]; simpl; try done; intros Hne;
        (destruct (decide (key = (tenant, kind, i))) as [->|Hkey];
          [by exists e|by rewrite (rec_resource _ _ _ _ _ _ Hrec) in Hne]).
    + by destruct (db_error _) as [[msg []]|].
  - by destruct (publish_error _) as [[? []]|].
Qed.

End recording.

(** ** Deletions outside a transaction *)

Section deletions.
Context `{Host} `{MapOrder} `{Server}.
Implicit Types s : sys.

(** Deleting a function is two statements: when the connection fails between
    them the function is gone, its deletion is reported as an error and no audit
    event tells of it; and even a deletion that succeeds leaves nothing in the
    outbox. *)
Theorem deletion_unrecorded p name actor s :
  is_Some (db_resources (s_db s) !! (pg_tenant p, "function", name)) →
  db_error (w_tick (s_world s)) = None →
  let '(err, s') := run (pg_op p (OpDeleteFunction name actor)) s in
  db_resources (s_db s') !! (pg_tenant p, "function", name) = None
  ∧ db_outbox (s_db s') = db_outbox (s_db s)
  ∧ (∀ msg, db_error (S (S (S (w_tick (s_world s))))) = Some (msg, false) →
       err = Some (ErrIO msg) ∧ db_audit (s_db s') = db_audit (s_db s)).
Proof.
  intros [r Hr] Herr.
  assert (pwp (pg_op p (OpDeleteFunction name actor)) s (λ err s',
    db_resources (s_db s') !! (pg_tenant p, "function", name) = None
    ∧ db_outbox (s_db s') = db_outbox (s_db s)
    ∧ (∀ msg, db_error (S (S (S (w_tick (s_world s))))) = Some (msg, false) →
         err = Some (ErrIO msg) ∧ db_audit (s_db s') = db_audit (s_db s)))) as Hw.
  { cbn [pg_op]. apply pwp_bind, pwp_bind, pwp_do. cbn [answer draw]. unfold carry_out.
    cbn [apply_stmt]. rewrite Herr, Hr. cbn [fst snd].
    apply pwp_bind, pwp_bind, pwp_bind, pwp_do, pwp_bind, pwp_do, pwp_ret, pwp_attempt, pwp_do.
    cbn [answer draw]. unfold carry_out, id, now, ask, mbind, M_bind, mret, M_ret.
    cbn -[apply_stmt].
    destruct (apply_stmt _ _ _ _) as [[k b']|] eqn:Hst;
      [apply apply_audit_inv in Hst as (metadata&->)|];
      destruct (db_error (S _)) as [[msg []]|] eqn:Hdb; unfold pwp; simpl;
      (split_and!; [by rewrite lookup_delete_eq|done|]); intros msg' Hmsg;
      rewrite Hmsg in Hdb; by simplify_eq. }
  unfold pwp in Hw. by destruct (run _ s) as [err s'].
Qed.
End deletions.

(** ** Concrete runs *)

#[local] Existing Instance quiet_host.
#[local] Existing Instance listed_order.
#[local] Existing Instance documents.
#[local] Existing Instance quiet_server.

Definition acme : Postgres := mkPostgres "acme".

Definition empty_sys : sys := mkSys (booting "" ∅) no_tables [].

Definition add_connection : op :=
  OpCreateConnection (mkCreateConnectionRequest "warehouse" "postgres" "db:5432" "vault/db") "root".

Lemma tenant_isolation_witness :
  "acme" ≠ "blue"
  ∧ tenant_view "blue" (s_db (run (session_prog (acme, add_connection)) empty_sys).2)
    = tenant_view "blue" (s_db empty_sys).
Proof.
  split; [discriminate|].
  apply (tenant_isolation "blue" [(acme, add_connection)] empty_sys
    [Ret (run (session_prog (acme, add_connection)) empty_sys).1]).
  - by repeat constructor.
  - apply (pool_run [session_prog (acme, add_connection)] 0). reflexivity.
Defined.

(** The connection is stored by the twelfth call of its creation. *)
Definition before_commit : prog (option gerror) * sys :=
  calls_done 11 (session_prog (acme, add_connection)) empty_sys.
Definition after_commit : prog (option gerror) * sys :=
  calls_done 12 (session_prog (acme, add_connection)) empty_sys.

Definition stored_connection (s : sys) : bool :=
  bool_decide (is_Some (db_resources (s_db s) !! ("acme", "connection", "conn-0"))).


(** A server whose connection breaks at its fourth call. *)
Definition breaking_server : Server := {|
  db_error := λ k, if decide (k = 3%nat) then Some ("broken", false) else None;
  db_clock := λ k, Z.of_nat k;
  db_received := λ _, None;
  db_order := λ _, merge_sort created_ge;
  db_order_perm := λ _, merge_sort_Permutation created_ge;
  db_order_desc := λ _, StronglySorted_merge_sort created_ge;
  db_locked := λ _ _, false;
  publish_error := λ _, None
|}.

Definition with_function : sys :=
  mkSys (booting "" ∅)
    (mkDb {[("acme", "function", "score") := mkRow (DocFunction zero) 0%Z 0%Z]} [] [] 1 1) [].

Lemma deletion_unrecorded_witness :
  let '(err, s') := run (H0 := breaking_server) (pg_op acme (OpDeleteFunction "score" "root"))
                      with_function in
  err = Some (ErrIO "broken") ∧ db_audit (s_db s') = [].
Proof.
  pose proof (deletion_unrecorded (H2 := breaking_server) acme "score" "root" with_function) as Hd.
  destruct (run _ _) as [err s']. destruct Hd as (_&_&Hd); [by vm_compute; eauto|reflexivity|].
  apply (Hd "broken"). reflexivity.
Defined.
