(* ===== verification/Contract.v ===== *)
(** * The repository's contract, and its two implementations

    [promised] states what an operation that updates a stored value promises of
    any repository: it refuses, without effect, or replaces the value its
    identifier names by the one the operation makes of it.  The file repository
    and the PostgreSQL one both keep the promise; [pg_write_alone] is what one
    transaction leaves, whatever calls fail. *)

From S2P Require Import Prelude GoStrings Types World Access Tokens Blog Projects Pipelines.
From S2P Require Import Runs Models Agents Registry Store StoreProps.
From S2P Require Import Database Documents Postgres DatabaseProps PostgresProps.

Open Scope string_scope.

(** ** One transaction, alone *)

Section alone.
Context `{Host} `{MapOrder} `{Server}.
Implicit Types (s : sys) (b : db) (e : AuditEvent).

(** The tables and the broker are as they were. *)
Record idle (s s' : sys) : Prop := {
  idle_resources : db_resources (s_db s') = db_resources (s_db s);
  idle_audit : db_audit (s_db s') = db_audit (s_db s);
  idle_outbox : db_outbox (s_db s') = db_outbox (s_db s);
  idle_broker : s_broker s' = s_broker s
}.

#[global] Instance idle_preorder : PreOrder idle.
Proof. split; [done|]. intros s1 s2 s3 [] []. split; congruence. Qed.

Definition io_error (err : option gerror) : Prop := ∃ msg, err = Some (ErrIO msg).

Lemma recorded_idle tenant kind i e s s1 b' :
  idle s s1 → recorded tenant kind i e (s_db s1) b' → recorded tenant kind i e (s_db s) b'.
Proof.
  intros [Hr Ha Ho _] [H1' H2' H3' H4']. split; [|done| |].
  - intros key Hkey. rewrite <- Hr. by apply H1'.
  - by rewrite <- Ha.
  - by rewrite <- Ho.
Qed.

Lemma pwp_now s (Q : Time → sys → Prop) :
  (∀ t s', idle s s' → Q t s') → pwp (host now) s Q.
Proof. intros HQ. apply pwp_do, HQ. done. Qed.

Lemma pwp_id prefix s (Q : string → sys → Prop) :
  (∀ i s', idle s s' → Q i s') → pwp (host (id prefix)) s Q.
Proof. intros HQ. apply pwp_do, HQ. done. Qed.

Lemma pwp_begin s (Q : result Time → sys → Prop) :
  (∀ t s', idle s s' → Q (Ok t) s') → (∀ msg s', idle s s' → Q (Err (ErrIO msg)) s') →
  pwp (do_ CBegin) s Q.
Proof.
  intros Hok Herr. apply pwp_do. simpl. destruct (db_error _) as [[msg ?]|];
    [apply Herr|apply Hok]; done.
Qed.

Lemma idle_draw st s : idle s (called s (draw st (s_db s)).2).
Proof. by destruct st. Qed.

Lemma pwp_exec t st s (Q : result tx → sys → Prop) :
  (∀ n s', idle s s' → Q (Ok (push t n st)) s') →
  (∀ msg s', idle s s' → Q (Err (ErrIO msg)) s') →
  pwp (exec_in t st) s Q.
Proof.
  intros Hok Herr. apply pwp_bind, pwp_do, pwp_ret. cbn [answer].
  pose proof (idle_draw st s) as Hidle. destruct (draw st (s_db s)) as [n b].
  destruct (apply_tx t b ≫= apply_stmt (tx_started t) n st) as [[? ?]|];
    destruct (db_error _) as [[msg ?]|]; simpl; solve [by apply Herr|by apply Hok].
Qed.

Lemma pwp_event action kind i actor metadata s (Q : AuditEvent → sys → Prop) :
  (∀ e s', idle s s' → evt_Action e = action → evt_Resource e = kind → evt_ResourceID e = i →
           Q e s') →
  pwp (pg_event action kind i actor metadata) s Q.
Proof.
  intros HQ. apply pwp_bind, pwp_id. intros eid s1 H01. apply pwp_bind, pwp_now.
  intros created s2 H12. apply pwp_ret, HQ; [by etransitivity|done..].
Qed.

Lemma pwp_outbox p t topic key payload s (Q : result tx → sys → Prop) :
  (∀ n oid s', idle s s' → Q (Ok (push t n (InsertOutbox (pg_tenant p) oid topic key payload))) s') →
  (∀ msg s', idle s s' → Q (Err (ErrIO msg)) s') →
  pwp (insert_outbox p t topic key payload) s Q.
Proof.
  intros Hok Herr. apply pwp_bind, pwp_id. intros oid s1 H01.
  apply pwp_exec; intros ? s2 H12; [apply Hok|apply Herr]; by etransitivity.
Qed.

(** A commit carries out the whole transaction or none of it; it may report an
    error either way. *)
Lemma pwp_commit t s (Q : option gerror → sys → Prop) :
  (∀ err s', idle s s' → io_error err → Q err s') →
  (∀ err s', apply_tx t (s_db s) = Some (s_db s') → s_broker s' = s_broker s →
     err = None ∨ io_error err → Q err s') →
  pwp (do_ (CCommit t)) s Q.
Proof.
  intros Hnone Hall. apply pwp_do. cbn [answer]. unfold carry_out.
  destruct (apply_tx t (s_db s)) as [b'|] eqn:Ht; simpl;
    destruct (db_error _) as [[msg []]|]; simpl;
    first [ apply Hall; [done|done|unfold io_error; eauto]
          | apply Hnone; [done|unfold io_error, duplicate; eauto] ].
Qed.

(** What a mutation's transaction leaves: everything, or nothing and an error. *)
Lemma pg_write_alone p {T} `{!Codec jsonb T} kind i (v : T) action actor metadata s
    (Q : option gerror → sys → Prop) :
  (∀ err s', idle s s' → io_error err → Q err s') →
  (∀ err s' e payload created updated,
     marshal v = Some payload → evt_Action e = action →
     db_resources (s_db s') = <[(pg_tenant p, kind, i) := mkRow payload created updated]>
                                (db_resources (s_db s)) →
     recorded (pg_tenant p) kind i e (s_db s) (s_db s') →
     err = None ∨ io_error err → Q err s') →
  pwp (pg_write p kind i v action actor metadata) s Q.
Proof.
  intros Hnone Hall.
  assert (∀ msg s', idle s s' → Q (Some (ErrIO msg)) s') as Herr.
  { intros msg s' Hs'. apply Hnone; [done|by exists msg]. }
  assert (∀ err t payload e s1 s', marshal v = Some payload → evt_Action e = action →
    evt_Resource e = kind → evt_ResourceID e = i → idle s s1 →
    written p kind i payload e (tx_stmts t) → apply_tx t (s_db s1) = Some (s_db s') →
    err = None ∨ io_error err → Q err s') as Hdone.
  { intros err t payload e s1 s' Hv Ha Hk Hi H01 Hw Ht Herr'.
    pose proof (written_recorded _ _ _ _ _ _ _ _ _ Hw Hk Hi Ht) as Hrec.
    pose proof (written_resources _ _ _ _ _ _ _ _ _ Hw Ht) as (created&updated&Hres).
    eapply (Hall err s' e payload created updated); try done.
    - by rewrite Hres, (idle_resources _ _ H01).
    - by eapply recorded_idle. }
  apply pwp_attempt, pwp_begin; [intros started s0 H0'|by apply Herr].
  destruct (marshal v) as [payload|] eqn:Hv; [|by apply Herr].
  apply pwp_attempt, pwp_exec; intros n0 s1 H1'; [|apply Herr; by etransitivity].
  assert (idle s s1) as I1 by (by etransitivity). clear H0' H1'.
  apply pwp_bind, pwp_event. intros e s2 H2' Ha Hk Hi.
  assert (idle s s2) as I2 by (by etransitivity). clear H2' I1.
  apply pwp_attempt, pwp_exec; intros n1 s3 H3'; [|apply Herr; by etransitivity].
  assert (idle s s3) as I3 by (by etransitivity). clear H3' I2.
  apply pwp_attempt, pwp_outbox; [intros n2 oid s4 H4'|intros msg s4 H4'; apply Herr; by etransitivity].
  assert (idle s s4) as I4 by (by etransitivity). clear H4' I3.
  apply pwp_attempt. unfold write_command. cbv zeta. case_decide as Ht.
  - apply pwp_ret, pwp_commit; intros err s5 H5'; [intros Hio; apply Hnone; [by etransitivity|done]|].
    intros _ Herr'. refine (Hdone err _ payload e s4 s5 eq_refl Ha Hk Hi I4 _ H5' Herr').
    by apply written_quiet.
  - destruct (marshal (command_of _ _ _ _ _)) as [text|] eqn:Hc; [|by apply Herr].
    apply pwp_outbox; [intros n3 oid' s5 H5'|intros msg s5 H5'; apply Herr; by etransitivity].
    assert (idle s s5) as I5 by (by etransitivity). clear H5' I4.
    apply pwp_commit; intros err s6 H6'; [intros Hio; apply Hnone; [by etransitivity|done]|].
    intros _ Herr'. refine (Hdone err _ payload e s5 s6 eq_refl Ha Hk Hi I5 _ H6' Herr').
    by apply written_command.
Qed.
End alone.

(** ** The contract *)

(** The kinds of resource whose values operations update, with their names in
    the table. *)
Inductive kind : Type := KRun | KModel | KAgent | KConnection | KRequest.
#[export] Instance kind_eq_dec : EqDecision kind.
Proof. solve_decision. Defined.

Definition kind_name (k : kind) : string :=
  match k with
  | KRun => "pipeline_run" | KModel => "model" | KAgent => "agent"
  | KConnection => "connection" | KRequest => "access_request"
  end.

#[export] Instance kind_name_inj : Inj (=) (=) kind_name.
Proof. by intros [] []. Qed.

Inductive value : Type :=
  | VRun (run : PipelineRun)
  | VModel (model : Model)
  | VAgent (agent : Agent)
  | VConnection (connection : Connection)
  | VRequest (request : AccessRequest).

Definition value_id (v : value) : string :=
  match v with
  | VRun run => run_ID run | VModel model => mdl_ID model | VAgent agent => agt_ID agent
  | VConnection connection => con_ID connection | VRequest request => acr_ID request
  end.

(** The operations the contract is about, with the value each names. *)
Definition updates (o : op) : option (kind * string) :=
  match o with
  | OpCancelRun i _ | OpSetRunEngine i _ | OpUpdateRunStep i _ _ => Some (KRun, i)
  | OpPromoteModel i _ _ | OpDeployModel i _ _ | OpSetModelEndpoint i _ _
  | OpRollbackModel i _ => Some (KModel, i)
  | OpSetAgentTraffic i _ _ => Some (KAgent, i)
  | OpUpdateConnectionStatus i _ _ _ => Some (KConnection, i)
  | OpReviewAccessRequest i _ _ => Some (KRequest, i)
  | _ => None
  end.

(** The requests an operation refuses whatever the value. *)
Definition refused (o : op) : option gerror :=
  match o with
  | OpUpdateRunStep _ req _ =>
      if decide (urs_Step req = "" ∨ urs_Status req = "")
      then Some (ErrMsg "step and status are required")
      else if validStepStatus (urs_Status req) then None
      else Some (ErrMsg ("invalid step status " ++ quote (urs_Status req)))
  | OpPromoteModel _ stage _ =>
      if decide (stage ∈ model_stages) then None
      else Some (ErrMsg "stage must be staging, production or archived")
  | OpDeployModel _ weight _ | OpSetAgentTraffic _ weight _ =>
      if decide (weight < 0 ∨ 100 < weight)%Z
      then Some (ErrMsg "canary_weight must be between 0 and 100") else None
  | OpReviewAccessRequest _ req _ =>
      if decide (rar_Status req ≠ "approved" ∧ rar_Status req ≠ "rejected")
      then Some (ErrMsg "status must be approved or rejected") else None
  | _ => None
  end.

(** What an operation makes, at [t] and [t'], of the value it names. *)
Definition change (t t' : Time) (o : op) (v : value) : result value :=
  match o, v with
  | OpCancelRun _ actor, VRun run =>
      if decide (run_Status run = "succeeded" ∨ run_Status run = "failed")
      then Err (ErrMsg "completed runs cannot be cancelled")
      else Ok (VRun (run <|run_Status := "cancelled"|> <|run_UpdatedAt := t|>
        <|run_Logs := app (run_Logs run)
           [mkRunLog t' "" "warning" ("Run cancelled by " ++ actor)]|>))
  | OpSetRunEngine _ engine, VRun run =>
      Ok (VRun (run <|run_EngineRunID := engine|> <|run_UpdatedAt := t|>))
  | OpUpdateRunStep _ req _, VRun run => Ok (VRun (report_run t req run))
  | OpPromoteModel _ stage _, VModel model =>
      if decide (stage = "production" ∧ mdl_GateStatus model = "failed")
      then Err (ErrMsg "model evaluation gates have not passed")
      else Ok (VModel (model <|mdl_PreviousStage := mdl_Stage model|> <|mdl_Stage := stage|>))
  | OpDeployModel _ weight _, VModel model =>
      if decide (mdl_GateStatus model ≠ "passed")
      then Err (ErrMsg "model evaluation gates have not passed")
      else Ok (VModel (model <|mdl_DeploymentStatus := "deploying"|>
        <|mdl_CanaryWeight := weight|> <|mdl_EndpointURL := endpoint_of (mdl_Name model)|>))
  | OpSetModelEndpoint _ endpoint status, VModel model =>
      Ok (VModel (model <|mdl_EndpointURL := endpoint|> <|mdl_DeploymentStatus := status|>))
  | OpRollbackModel _ _, VModel model =>
      if decide (mdl_PreviousStage model = "")
      then Err (ErrMsg "no previous stage is available")
      else Ok (VModel (model <|mdl_Stage := mdl_PreviousStage model|>
        <|mdl_PreviousStage := mdl_Stage model|> <|mdl_DeploymentStatus := "rolled_back"|>
        <|mdl_CanaryWeight := 0%Z|>))
  | OpSetAgentTraffic _ weight _, VAgent agent =>
      Ok (VAgent (agent <|agt_CanaryWeight := weight|>))
  | OpUpdateConnectionStatus _ status message _, VConnection connection =>
      Ok (VConnection (connection <|con_Status := status|> <|con_Message := message|>
        <|con_CheckedAt := Some t|>))
  | OpReviewAccessRequest _ req reviewer, VRequest request =>
      if decide (acr_Status request ≠ "pending")
      then Err (ErrMsg "access request has already been reviewed")
      else Ok (VRequest (request <|acr_Status := rar_Status req|> <|acr_Reviewer := reviewer|>
        <|acr_ReviewNote := TrimSpace (rar_Note req)|> <|acr_UpdatedAt := t|>))
  | _, _ => Err ErrNotFound
  end.

(** A repository as the contract sees it: the values by kind and identifier. *)
Abbreviation view := (kind * string → option value).

(** What the operation promises of the views before and after it and of its
    error.  [keep] is what the repository gives back of a value it stored. *)
Inductive promised (keep : value → option value) (o : op) (key : kind * string)
    (before after : view) (err : option gerror) : Prop :=
  | promised_refusal e :
      refused o = Some e → err = Some e → (∀ k, after k = before k) →
      promised keep o key before after err
  | promised_missing :
      refused o = None → before key = None → err = Some ErrNotFound →
      (∀ k, after k = before k) → promised keep o key before after err
  | promised_denial v t t' e :
      refused o = None → before key = Some v → change t t' o v = Err e → err = Some e →
      (∀ k, after k = before k) → promised keep o key before after err
  | promised_change v t t' v' :
      refused o = None → before key = Some v → change t t' o v = Ok v' →
      after key = keep v' → (∀ k, k ≠ key → after k = before k) →
      err = None ∨ io_error err → promised keep o key before after err
  | promised_failure :
      io_error err → (∀ k, after k = before k) → promised keep o key before after err.

(** ** The two views *)

(** The file repository finds a value by its identifier. *)
Definition find_by {A} (key : A → string) (i : string) (l : list A) : option A :=
  snd <$> list_find (λ v, key v = i) l.

Definition memory_view (d : state) : view := λ '(k, i),
  match k with
  | KRun => VRun <$> find_by run_ID i (st_Runs d)
  | KModel => VModel <$> find_by mdl_ID i (st_Models d)
  | KAgent => VAgent <$> find_by agt_ID i (st_Agents d)
  | KConnection => VConnection <$> find_by con_ID i (st_Connections d)
  | KRequest => VRequest <$> find_by acr_ID i (st_AccessRequests d)
  end.

(** The PostgreSQL repository decodes the row. *)
Definition decode_as `{Jsonb} (k : kind) (raw : jsonb) : option value :=
  match k with
  | KRun => VRun <$> decoded raw
  | KModel => VModel <$> decoded raw
  | KAgent => VAgent <$> decoded raw
  | KConnection => VConnection <$> decoded raw
  | KRequest => VRequest <$> decoded raw
  end.

Definition table_view `{Jsonb} (tenant : string) (b : db) : view := λ '(k, i),
  db_resources b !! (tenant, kind_name k, i) ≫= λ r, decode_as k (row_payload r).

Definition table_keep `{Jsonb} (v : value) : option value :=
  match v with
  | VRun run => VRun <$> stored run
  | VModel model => VModel <$> stored model
  | VAgent agent => VAgent <$> stored agent
  | VConnection connection => VConnection <$> stored connection
  | VRequest request => VRequest <$> stored request
  end.

(** Every row that decodes is stored under its value's identifier. *)
Definition rows_keyed `{Jsonb} (tenant : string) (b : db) : Prop :=
  ∀ k i v, table_view tenant b (k, i) = Some v → value_id v = i.

(** ** The file repository keeps the promise *)

(** Guards the case analysis has decided. *)
Ltac decide_guards :=
  cbn [refused change];
  repeat match goal with
    | H : negb ?b = _ |- _ => destruct b; cbn [negb] in H; try discriminate H; clear H
    | H : ?b = _ |- context [if ?b then _ else _] => rewrite H
    end;
  repeat first [progress simplify_eq/= | case_decide]; try done; try tauto.

Section memory.
Context `{Host} `{MapOrder}.
Implicit Types w : world.

Lemma find_by_hit {A} (key : A → string) i l n v :
  list_find (λ v, key v = i) l = Some (n, v) → find_by key i l = Some v ∧ key v = i ∧ l !! n = Some v.
Proof. intros Hf. unfold find_by. rewrite Hf. by apply list_find_hit in Hf as [??]. Qed.

Lemma find_by_miss {A} (key : A → string) i l :
  list_find (λ v, key v = i) l = None → find_by key i l = None.
Proof. unfold find_by. by intros ->. Qed.

(** Updating the value a search found changes what a search for its identifier
    finds, and no other. *)
Lemma find_by_insert {A} (key : A → string) i j l n v v' :
  list_find (λ v, key v = i) l = Some (n, v) → key v' = key v →
  find_by key j (<[n := v']> l) = if decide (j = i) then Some v' else find_by key j l.
Proof.
  intros Hf Hk. apply list_find_hit in Hf as Hhit. destruct Hhit as [Hn Hv].
  apply list_find_Some in Hf as (_&_&Hfirst). revert n Hn Hfirst.
  induction l as [|x l IH]; intros [|n] Hn Hfirst; simplify_eq/=.
  - unfold find_by. simpl. destruct (decide (j = key v)) as [->|Hj].
    + by rewrite decide_True.
    + by rewrite !decide_False by congruence.
  - unfold find_by in *. simpl. destruct (decide (key x = j)) as [<-|Hj].
    + rewrite decide_False; [done|]. intros Heq. by apply (Hfirst 0%nat x eq_refl (Nat.lt_0_succ n)).
    + specialize (IH n Hn (λ m y Hy Hm, Hfirst (S m) y Hy (proj1 (Nat.succ_lt_mono m n) Hm))).
      rewrite <- !option_fmap_compose. exact IH.
Qed.

Lemma persisted_error w r w' : persisted w r w' → r = None ∨ io_error r.
Proof.
  intros Hper. destruct r as [e|]; [|by left]. right.
  pose proof (per_error _ _ _ Hper e eq_refl) as He. destruct e; try done. by eexists.
Qed.

Lemma promised_updated o k i w w1 r w' v v' :
  persisted w1 r w' → refused o = None → memory_view (w_data w) (k, i) = Some v →
  change (clock (w_tick w)) (clock (S (w_tick w))) o v = Ok v' →
  memory_view (w_data w1) (k, i) = Some v' →
  (∀ k' j, (k', j) ≠ (k, i) →
     memory_view (w_data w1) (k', j) = memory_view (w_data w) (k', j)) →
  promised Some o (k, i) (memory_view (w_data w)) (memory_view (w_data w')) r.
Proof.
  intros Hper Hok Hv Hc Hnew Hold. rewrite (per_data _ _ _ Hper).
  eapply promised_change; [done|exact Hv|exact Hc|done| |by eapply persisted_error].
  intros [k' j]. apply Hold.
Qed.

(** The end of an operation of the file repository: what it found, and whether
    it refused, missed or changed the value. *)
Ltac memory_end w :=
  repeat match goal with
    | H : list_find _ _ = Some _ |- _ => apply find_by_hit in H as Hfound; revert H
    | H : list_find _ _ = None |- _ => apply find_by_miss in H
    end; intros;
  repeat match goal with H : _ ∧ _ ∧ _ |- _ => destruct H as (?&?&?) end;
  lazymatch goal with
  | Hper : persisted _ _ _, Hf : list_find _ _ = Some (_, ?v) |- _ =>
      eapply (promised_updated _ _ _ _ _ _ _ _ _ Hper);
      [ decide_guards
      | simpl; by simplify_option_eq
      | simpl; rewrite ?decide_False by tauto; reflexivity
      | simpl; rewrite (find_by_insert _ _ _ _ _ _ _ Hf), decide_True
          by first [reflexivity|apply report_run_same]; reflexivity
      | intros [] j Hj; simpl; try reflexivity;
        rewrite (find_by_insert _ _ _ _ _ _ _ Hf), decide_False
          by first [reflexivity|apply report_run_same|congruence]; reflexivity ]
  | Hf : find_by _ _ _ = Some ?v |- _ =>
      eapply (promised_denial _ _ _ _ _ _ _ (clock (w_tick w)) (clock (S (w_tick w))));
      [|simpl; by simplify_option_eq| |reflexivity|reflexivity]; decide_guards
  | Hf : find_by _ _ _ = None |- _ =>
      eapply promised_missing;
      [decide_guards|simpl; by simplify_option_eq|reflexivity|reflexivity]
  | |- _ => eapply promised_refusal; [|reflexivity|reflexivity]; decide_guards
  end.

Lemma memory_promises o key w :
  updates o = Some key →
  wp (run_op o) w (λ err w',
    promised Some o key (memory_view (w_data w)) (memory_view (w_data w')) err).
Proof.
  intros Hkey. op_cases o; simplify_eq/=.
  all: memory_end w.
Qed.
End memory.

(** ** The PostgreSQL repository keeps the promise *)

Section table.
Context `{Host} `{MapOrder} `{Server} (p : Postgres).
Implicit Types s : sys.

Lemma idle_view tenant s s' k :
  idle s s' → table_view tenant (s_db s') k = table_view tenant (s_db s) k.
Proof. intros Hidle. destruct k as [k i]. simpl. by rewrite (idle_resources _ _ Hidle). Qed.

Lemma pwp_get {V} `{!Codec jsonb V} `{Zero V} kind i s (Q : V * option gerror → sys → Prop) :
  (∀ v msg s', idle s s' → Q (v, Some (ErrIO msg)) s') →
  (db_resources (s_db s) !! (pg_tenant p, kind, i) = None →
   ∀ s', idle s s' → Q (zero, Some ErrNotFound) s') →
  (∀ r v s', db_resources (s_db s) !! (pg_tenant p, kind, i) = Some r →
     decoded (row_payload r) = Some v → idle s s' → Q (v, None) s') →
  pwp (pg_get p V kind i) s Q.
Proof.
  intros Herr Hmiss Hhit. apply pwp_bind, pwp_do, pwp_ret. cbn [answer].
  destruct (db_error _) as [[msg ?]|]; simpl; [by apply Herr|].
  destruct (_ !! _) as [r|] eqn:Hr; simpl; [|by apply Hmiss].
  destruct (unmarshal _) as [v [msg|]] eqn:Hv; simpl; [by apply Herr|].
  eapply Hhit; [done| |done]. unfold decoded. by rewrite Hv.
Qed.

Section update.
Context {V} `{!Codec jsonb V} `{Zero V} (k : kind) (wrap : V → value).
Hypothesis wrap_decode : ∀ raw, decode_as k raw = wrap <$> decoded raw.
Hypothesis wrap_keep : ∀ v, table_keep (wrap v) = wrap <$> stored v.

Definition keeps (o : op) (i : string) s (err : option gerror) s' : Prop :=
  promised table_keep o (k, i) (table_view (pg_tenant p) (s_db s))
    (table_view (pg_tenant p) (s_db s')) err.

Lemma keeps_write o i s s1 t t' v v' action actor metadata :
  refused o = None → table_view (pg_tenant p) (s_db s) (k, i) = Some (wrap v) →
  change t t' o (wrap v) = Ok (wrap v') → idle s s1 →
  pwp (pg_return v' (pg_write p (kind_name k) i v' action actor metadata)) s1
    (λ r s', keeps o i s r.2 s').
Proof using wrap_decode wrap_keep.
  intros Hok Hv Hc H01. apply pwp_bind, pg_write_alone.
  - intros err s' H1' Hio. apply pwp_ret. apply promised_failure; [done|].
    intros k'. apply idle_view. by etransitivity.
  - intros err s' e payload created updated Hm _ Hres _ Herr. apply pwp_ret.
    rewrite (idle_resources _ _ H01) in Hres.
    eapply promised_change; [done|exact Hv|exact Hc| | |exact Herr].
    + simpl. rewrite Hres, lookup_insert_eq. simpl. rewrite wrap_decode, wrap_keep.
      unfold stored. by rewrite Hm.
    + intros [k' j] Hne. simpl. rewrite Hres, lookup_insert_ne; [done|].
      intros [= Heq%kind_name_inj ->]. congruence.
Qed.

Lemma keeps_denial o i s s1 t t' v e :
  refused o = None → table_view (pg_tenant p) (s_db s) (k, i) = Some (wrap v) →
  change t t' o (wrap v) = Err e → idle s s1 →
  pwp (mret (v, Some e) : P V) s1 (λ r s', keeps o i s r.2 s').
Proof using Type.
  intros Hok Hv Hc H01. apply pwp_ret. eapply promised_denial; [done|exact Hv|exact Hc|done|].
  intros k'. by apply idle_view.
Qed.

Lemma keeps_value o i s (f : V → P V) :
  refused o = None →
  (∀ v s1, table_view (pg_tenant p) (s_db s) (k, i) = Some (wrap v) → idle s s1 →
     pwp (f v) s1 (λ r s', keeps o i s r.2 s')) →
  pwp (pg_outcome (with_value (pg_get p V (kind_name k) i) f)) s (keeps o i s).
Proof using wrap_decode.
  intros Hok Hf. apply pwp_bind, pwp_bind, pwp_get.
  - intros v msg s' Hs'. apply pwp_ret, pwp_ret. apply promised_failure; [by eexists|].
    intros k'. by apply idle_view.
  - intros Hnone s' Hs'. apply pwp_ret, pwp_ret. apply promised_missing; [done| |done|].
    + simpl. by rewrite Hnone.
    + intros k'. by apply idle_view.
  - intros r v s' Hr Hv Hs'. eapply pwp_mono; [apply (Hf v s'); [|done]|].
    + simpl. rewrite Hr. simpl. by rewrite wrap_decode, Hv.
    + intros r' s'' Hkeep. by apply pwp_ret.
Qed.
End update.

Lemma keeps_refusal k o i s e :
  refused o = Some e → keeps k o i s (Some e) s.
Proof. intros He. by eapply promised_refusal. Qed.

Lemma keyed_view {V} k (wrap : V → value) i s v :
  rows_keyed (pg_tenant p) (s_db s) → table_view (pg_tenant p) (s_db s) (k, i) = Some (wrap v) →
  value_id (wrap v) = i.
Proof. intros Hk Hv. by apply Hk in Hv. Qed.

(** The row written is the one read: the value keeps its identifier. *)
Ltac own_identifier Hid :=
  lazymatch goal with
  | |- pwp (pg_return _ (pg_write _ _ ?i0 _ _ _ _)) _ _ =>
      let i := lazymatch type of Hid with _ = ?i => i end in
      replace i0 with i
        by (rewrite <- Hid; first [reflexivity | symmetry; apply report_run_same])
  end.

Ltac table_value k wrap :=
  apply (keeps_value k wrap); [done|decide_guards|];
  let v := fresh "v" in let s1 := fresh "s1" in let Hv := fresh "Hv" in let H01 := fresh "H01" in
  intros v s1 Hv H01;
  pose proof (keyed_view _ _ _ _ _ ltac:(eassumption) Hv) as Hid; simpl in Hid;
  repeat match goal with
    | |- pwp (if decide ?P then _ else _) _ _ => destruct (decide P)
    end;
  lazymatch goal with
  | |- pwp (mret _) _ _ =>
      eapply (keeps_denial k wrap _ _ _ _ 0%Z 0%Z); [|exact Hv| |exact H01]; decide_guards
  | |- pwp (mbind _ _) _ _ =>
      apply pwp_bind, pwp_now;
      let t := fresh "t" in let s2 := fresh "s2" in let H12 := fresh "H12" in
      intros t s2 H12; cbv zeta;
      own_identifier Hid;
      eapply (keeps_write k wrap (λ _, eq_refl) (λ _, eq_refl) _ _ _ _ t t);
      [|exact Hv| |by etransitivity]; decide_guards
  | |- _ =>
      cbv zeta; own_identifier Hid;
      eapply (keeps_write k wrap (λ _, eq_refl) (λ _, eq_refl) _ _ _ _ 0%Z 0%Z);
      [|exact Hv| |exact H01]; decide_guards
  end.

Lemma table_promises o k i s :
  updates o = Some (k, i) → rows_keyed (pg_tenant p) (s_db s) →
  pwp (pg_op p o) s (keeps k o i s).
Proof.
  intros Hkey Hkeyed. destruct o; try discriminate Hkey; injection Hkey as <- <-; cbn [pg_op];
  unfold pg_CancelRun, pg_SetRunEngine, pg_UpdateRunStep, pg_PromoteModel, pg_DeployModel,
    pg_SetModelEndpoint, pg_RollbackModel, pg_SetAgentTraffic, pg_UpdateConnectionStatus,
    pg_ReviewAccessRequest, pg_Run.
  all: repeat match goal with
    | |- pwp (pg_outcome (if decide ?P then _ else _)) _ _ => destruct (decide P)
    | |- pwp (pg_outcome (if negb ?b then _ else _)) _ _ => destruct b eqn:?; cbn [negb]
    | |- pwp (pg_outcome (refuse _)) _ _ => apply pwp_bind, pwp_ret, pwp_ret, keeps_refusal
    end.
  all: lazymatch goal with
    | |- refused _ = _ => decide_guards
    | |- pwp _ _ (keeps KRun _ _ _) => table_value KRun VRun
    | |- pwp _ _ (keeps KModel _ _ _) => table_value KModel VModel
    | |- pwp _ _ (keeps KAgent _ _ _) => table_value KAgent VAgent
    | |- pwp _ _ (keeps KConnection _ _ _) => table_value KConnection VConnection
    | |- pwp _ _ (keeps KRequest _ _ _) => table_value KRequest VRequest
    end.
Qed.
End table.

Section contract.
Context `{Host} `{MapOrder} `{Server}.


(** ** Reports that overlap *)

(** What is left of a step report once it has read the run. *)
Definition report_rest (p : Postgres) (a : UpdateRunStepRequest) (actor : string)
    (run : PipelineRun) : prog (option gerror) :=
  pg_outcome (t ← host now;
    let run := report_run t a run in
    pg_return run (pg_write p "pipeline_run" (run_ID run) run "pipeline.step_reported" actor
      (<["step" := AStr (urs_Step a)]> {["status" := AStr (urs_Status a)]}))).

(** Step reports on PostgreSQL can be lost: between the read of a run and the
    transaction that stores it nothing holds the run, so if another report on it
    is carried out in between, and both succeed, the row ends as the first
    reader's report on the run it read, without the other's step and log. *)
Theorem step_report_lost p runID a actorA b actorB s r run0 :
  urs_Step a ≠ "" → validStepStatus (urs_Status a) = true → urs_Status a ≠ "" →
  db_error (w_tick (s_world s)) = None →
  db_resources (s_db s) !! (pg_tenant p, "pipeline_run", runID) = Some r →
  decoded (row_payload r) = Some run0 → run_ID run0 = runID →
  let A := pg_op p (OpUpdateRunStep runID a actorA) in
  let B := pg_op p (OpUpdateRunStep runID b actorB) in
  ∀ s2 s3, run B (called s (s_db s)) = (None, s2) →
    run (report_rest p a actorA run0) s2 = (None, s3) →
    rtc pstep ([A; B], s) ([mret None; mret None], s3)
    ∧ ∃ t r', db_resources (s_db s3) !! (pg_tenant p, "pipeline_run", runID) = Some r'
              ∧ marshal (report_run t a run0) = Some (row_payload r').
Proof.
  intros Hstep Hvalid Hstatus Herr Hr Hdec Hid A B s2 s3 HB Hrest.
  set (rest := report_rest p a actorA run0) in *.
  assert (∃ k, A = Do (CGet (pg_tenant p) "pipeline_run" runID) k
               ∧ k (Ok (Some (row_payload r))) = rest) as (k&HA&Hk).
  { unfold A. cbn [pg_op]. unfold pg_UpdateRunStep. rewrite decide_False by tauto.
    rewrite Hvalid. cbn [negb]. eexists. split; [reflexivity|].
    unfold decoded in Hdec. cbn beta iota. destruct (unmarshal (row_payload r)) as [v [|]]; [done|].
    by injection Hdec as ->. }
  split.
  - rewrite HA. eapply rtc_l.
    { eapply (pstep_call 0); [reflexivity|]. cbn [answer]. rewrite Herr, Hr. reflexivity. }
    cbn [list_insert insert]. simpl fmap. rewrite Hk. etransitivity.
    + apply (pool_run [rest; B] 1 B). done.
    + rewrite HB. cbn [fst snd]. etransitivity; [apply (pool_run [rest; Ret None] 0 rest); done|].
      by rewrite Hrest.
  - assert (pwp rest s2 (λ err s', err = None →
      ∃ t r', db_resources (s_db s') !! (pg_tenant p, "pipeline_run", runID) = Some r'
              ∧ marshal (report_run t a run0) = Some (row_payload r'))) as Hw.
    { apply pwp_bind, pwp_bind, pwp_now. intros t s1 H1'. cbv zeta.
      rewrite (proj1 (report_run_same _ _ _)), Hid.
      apply pwp_bind, pg_write_alone.
      - intros err s' _ [msg ->]. by apply pwp_ret, pwp_ret.
      - intros err s' e payload created updated Hm _ Hres _ _. apply pwp_ret, pwp_ret. intros _.
        exists t. eexists. split; [by rewrite Hres, lookup_insert_eq|done]. }
    unfold pwp in Hw. rewrite Hrest in Hw. by apply Hw.
Qed.
End contract.

(** ** Concrete runs *)

#[local] Existing Instance quiet_host.
#[local] Existing Instance listed_order.
#[local] Existing Instance documents.
#[local] Existing Instance quiet_server.

(** A run on PostgreSQL, beside the same run in a file repository. *)
Definition run_row : row := mkRow (DocRun queued_run) 0%Z 0%Z.
Definition run_table : sys :=
  mkSys (booting "" ∅)
    (mkDb {[("acme", "pipeline_run", "run-1") := run_row]} [] [] 1 1) [].

Lemma run_table_keyed : rows_keyed "acme" (s_db run_table).
Proof.
  intros k i v. unfold table_view. cbn [run_table s_db db_resources].
  destruct (decide (("acme", kind_name k, i) = ("acme", "pipeline_run", "run-1"))) as [Heq|Hne].
  - injection Heq as Hk ->. change "pipeline_run" with (kind_name KRun) in Hk.
    apply kind_name_inj in Hk as ->. rewrite lookup_singleton_eq. simpl. by intros [= <-].
  - by rewrite lookup_singleton_ne by (intros Heq; by apply Hne).
Qed.


Definition started : UpdateRunStepRequest := mkUpdateRunStepRequest "validate-data" "succeeded" "".
Definition trained : UpdateRunStepRequest := mkUpdateRunStepRequest "train-model" "succeeded" "".

Definition after_b : sys :=
  (run (pg_op acme (OpUpdateRunStep "run-1" started "engine")) (called run_table (s_db run_table))).2.
Definition after_a : sys := (run (report_rest acme trained "engine" queued_run) after_b).2.

Lemma step_report_lost_witness :
  rtc pstep ([pg_op acme (OpUpdateRunStep "run-1" trained "engine");
              pg_op acme (OpUpdateRunStep "run-1" started "engine")], run_table)
    ([mret None; mret None], after_a)
  ∧ ∃ t r, db_resources (s_db after_a) !! (pg_tenant acme, "pipeline_run", "run-1") = Some r
           ∧ marshal (report_run t trained queued_run) = Some (row_payload r).
Proof.
  assert (run (pg_op acme (OpUpdateRunStep "run-1" started "engine"))
            (called run_table (s_db run_table)) = (None, after_b)) as Hb.
  { unfold after_b. rewrite (surjective_pairing (run _ _)) at 1. f_equal. }
  assert (run (report_rest acme trained "engine" queued_run) after_b = (None, after_a)) as Ha.
  { unfold after_a. rewrite (surjective_pairing (run _ _)) at 1. f_equal. }
  pose proof (step_report_lost acme "run-1" trained "engine" started "engine" run_table run_row
    queued_run) as Hlost.
  refine (Hlost _ _ _ _ _ _ _ after_b after_a Hb Ha);
    [discriminate|reflexivity|discriminate|reflexivity|reflexivity|reflexivity|reflexivity].
Defined.
