(* ===== verification/OutboxProps.v ===== *)
(** * Properties of the outbox

    However repository operations and workers interleave, a row is marked
    published only after the broker has taken its message; and where the server
    answers, one flush publishes the oldest pending rows, in order. *)

From Stdlib Require Import Sorting.Sorted.
From stdpp Require Import sorting.
From S2P Require Import Prelude GoStrings Types World Access Tokens Blog Projects Pipelines.
From S2P Require Import Runs Models Agents Registry Store Database Documents Postgres Outbox.
From S2P Require Import DatabaseProps PostgresProps.

Open Scope string_scope.

(** ** What a session knows of the outbox *)

Section careful.
Context `{Jsonb}.
Implicit Types (r : outbox_row) (b : db).

Lemma filter_all {A} (P : A → Prop) `{∀ x, Decision (P x)} (l : list A) : (∀ x, P x) → filter P l = l.
Proof. intros HP. induction l as [|x l IH]; [done|]. rewrite filter_cons_True by done. by rewrite IH. Qed.

Lemma StronglySorted_take {A} (R : relation A) n l :
  StronglySorted R l → StronglySorted R (take n l).
Proof.
  intros Hl. revert n. induction Hl as [|x l Hl IH Hx]; intros [|n]; simpl; constructor; [done|].
  by apply Forall_take.
Qed.

(** Two states of one row: what identifies it and what it publishes never change. *)
Definition same_row r r' : Prop :=
  out_sequence r' = out_sequence r ∧ out_tenant r' = out_tenant r ∧ out_id r' = out_id r
  ∧ out_topic r' = out_topic r ∧ out_key r' = out_key r ∧ out_payload r' = out_payload r.

#[global] Instance same_row_preorder : PreOrder same_row.
Proof. split; [done|]. intros r1 r2 r3 (?&?&?&?&?&?) (?&?&?&?&?&?). repeat split; congruence. Qed.

(** The message of a row. *)
Definition message_of r (m : string * any) : Prop :=
  out_topic r = m.1 ∧ unmarshal (out_payload r) = (m.2, None).

(** The rows an answer shows, and the messages it acknowledges. *)
Definition learned {B} (c : call B) : B → list outbox_row :=
  match c in call B return B → list outbox_row with
  | CPending _ _ => λ answer, match answer with Ok l => l | Err _ => [] end
  | _ => λ _, []
  end.

(** What a query of the pending rows of a tenant answers. *)
Definition plausible {B} (c : call B) : B → Prop :=
  match c in call B return B → Prop with
  | CPending tenant _ => λ answer,
      match answer with Ok l => ∀ r, r ∈ l → out_tenant r = tenant | Err _ => True end
  | _ => λ _, True
  end.

Definition acknowledged {B} (c : call B) : B → list (string * any) :=
  match c in call B return B → list (string * any) with
  | CPublish topic payload => λ refused, match refused with None => [(topic, payload)] | _ => [] end
  | _ => λ _, []
  end.

(** A row is marked published only if it was read and its message acknowledged. *)
Definition allowed (seen : list outbox_row) (acked : list (string * any)) {B} (c : call B) : Prop :=
  match c with
  | CAuto (SetPublished tenant n) =>
      ∃ r m, r ∈ seen ∧ outbox_at tenant n r ∧ message_of r m ∧ m ∈ acked
  | CCommit t => Forall (λ ns, ¬ marks_published ns.2) (tx_stmts t)
  | _ => True
  end.

Fixpoint careful (seen : list outbox_row) (acked : list (string * any)) {A} (m : prog A) : Prop :=
  match m with
  | Ret _ => True
  | Do c k => allowed seen acked c
              ∧ ∀ v, plausible c v →
                  careful (app (learned c v) seen) (app (acknowledged c v) acked) (k v)
  end.

Lemma careful_bind {A B} (m : prog A) (f : A → prog B) seen acked :
  careful seen acked m →
  (∀ a seen' acked', seen ⊆ seen' → acked ⊆ acked' → careful seen' acked' (f a)) →
  careful seen acked (m ≫= f).
Proof.
  revert seen acked. induction m as [a|B' c k IH]; intros seen acked Hm Hf; [by apply (Hf a seen acked)|].
  destruct Hm as [Hc Hk]. split; [done|]. intros v Hv. apply (IH v); [exact (Hk v Hv)|].
  intros a seen' acked' Hs Ha. apply Hf; intros x Hx; [apply Hs|apply Ha];
    apply elem_of_app; by right.
Qed.

(** A call that never marks a row published. *)
Definition unmarking (B : Type) (c : call B) : Prop :=
  match c with
  | CAuto s => ¬ marks_published s
  | CCommit t => Forall (λ ns, ¬ marks_published ns.2) (tx_stmts t)
  | _ => True
  end.

Lemma every_careful {A} (m : prog A) seen acked :
  every unmarking m (λ _, True) → careful seen acked m.
Proof.
  revert seen acked. induction m as [a|B c k IH]; intros seen acked Hm; [done|].
  destruct Hm as [Hc Hk]. split; [|intros v _; apply (IH v), Hk].
  clear IH Hk k. destruct c; try exact I; [exact Hc|]. destruct s; try exact I. by destruct Hc.
Qed.

Lemma careful_flush p events seen acked :
  (∀ r, r ∈ events → r ∈ seen ∧ out_tenant r = pg_tenant p) →
  careful seen acked (flush_events p events).
Proof.
  revert seen acked. induction events as [|r events IH]; intros seen acked Hin; [done|].
  destruct (Hin r) as [Hr Ht]; [by left|].
  assert (∀ acked, careful seen acked (flush_events p events)) as Hrest
    by (intros acked'; apply IH; intros r' Hr'; apply Hin; by right).
  cbn [flush_events]. destruct (unmarshal (out_payload r)) as [payload [msg|]] eqn:Hm.
  - split; [done|]. intros v _. apply Hrest.
  - split; [done|]. intros [e|] _; simpl.
    + split; [done|]. intros v _. apply Hrest.
    + split.
      * exists r, (out_topic r, payload). split_and!; [done|done|done|by left].
      * intros [n|e] _; simpl; [apply Hrest|done].
Qed.

Lemma careful_Flush p seen acked : careful seen acked (Flush p).
Proof.
  split; [done|]. intros [l|e] Hl; simpl in *; [|done]. apply careful_flush.
  intros r Hr. split; [apply elem_of_app; by left|by apply Hl].
Qed.

Lemma careful_worker p ticks seen acked : careful seen acked (worker_Run p ticks).
Proof.
  revert seen acked. induction ticks as [|ticks IH]; intros seen acked; [done|].
  apply careful_bind; [apply careful_Flush|]. intros err seen' acked' _ _. apply IH.
Qed.
End careful.

(** ** What the tables keep *)

Section evolution.
Context `{Jsonb}.
Implicit Types (r : outbox_row) (b : db).

Definition is_published r : Prop := out_published r ≠ None.

Definition sequences b : list Z := out_sequence <$> db_outbox b.

(** Rows stay, keep their message, and are marked published only if [marked];
    the serial numbers stay distinct. *)
Record evolves (marked : outbox_row → Prop) b b' : Prop := {
  ev_stays : ∀ r, r ∈ db_outbox b → ∃ r', r' ∈ db_outbox b' ∧ same_row r r';
  ev_published : ∀ r', r' ∈ db_outbox b' → is_published r' →
    ∃ r, r ∈ db_outbox b ∧ same_row r r' ∧ (is_published r ∨ marked r);
  ev_unique : NoDup (sequences b) → NoDup (sequences b')
}.

Lemma evolves_refl marked b b' : db_outbox b' = db_outbox b → evolves marked b b'.
Proof.
  intros Heq. split; unfold sequences; rewrite Heq; [| |done].
  - intros r Hr. by exists r.
  - intros r' Hr' Hp. exists r'. by split_and!; [| |left].
Qed.

Lemma evolves_trans b b1 b2 :
  evolves (λ _, False) b b1 → evolves (λ _, False) b1 b2 → evolves (λ _, False) b b2.
Proof.
  intros [S1 P1 U1] [S2 P2 U2]. split; [| |by auto].
  - intros r Hr. destruct (S1 r Hr) as (r1&Hr1&Hs1). destruct (S2 r1 Hr1) as (r2&Hr2&Hs2).
    exists r2. split; [done|by etransitivity].
  - intros r2 Hr2 Hp2. destruct (P2 r2 Hr2 Hp2) as (r1&Hr1&Hs1&[Hp1|[]]).
    destruct (P1 r1 Hr1 Hp1) as (r&Hr&Hs&[Hp|[]]).
    exists r. split_and!; [done|by etransitivity|by left].
Qed.

(** An update of the rows a worker names. *)
Lemma update_outbox_evolves tenant n f b (marked : outbox_row → Prop) :
  (∀ r, same_row r (f r)) →
  (∀ r, outbox_at tenant n r → is_published (f r) → is_published r ∨ marked r) →
  evolves marked b (update_outbox tenant n f b).
Proof.
  intros Hf Hp.
  assert (∀ r, same_row r (if decide (outbox_at tenant n r) then f r else r)) as Hsame
    by (intros r; by case_decide).
  split; unfold sequences; simpl.
  - intros r Hr. eexists. split; [apply list_elem_of_fmap; by exists r|apply Hsame].
  - intros r' (r&->&Hr)%list_elem_of_fmap Hp'. exists r. split_and!; [done|apply Hsame|].
    case_decide; [by apply Hp|by left].
  - rewrite <- list_fmap_compose. intros Hu. erewrite list_fmap_ext; [exact Hu|].
    intros i r _. simpl. apply Hsame.
Qed.

Lemma apply_stmt_evolves started n s b k b' :
  ¬ marks_published s → apply_stmt started n s b = Some (k, b') → evolves (λ _, False) b b'.
Proof.
  destruct s as [t kd i j|t kd i j|t kd i|t e|t i topic key j|t m|t m msg]; intros Hs Happly.
  - by injection Happly as <- <-; apply evolves_refl.
  - cbn [apply_stmt] in Happly. case_match; simplify_eq; by apply evolves_refl.
  - cbn [apply_stmt] in Happly. case_match; simplify_eq; by apply evolves_refl.
  - apply apply_audit_inv in Happly as (metadata&->). by apply evolves_refl.
  - cbn [apply_stmt] in Happly. case_decide as Hnew; [done|].
    destruct j as [j|]; [|done]. injection Happly as <- <-.
    apply Decidable.not_or in Hnew as [_ Hseq]. split; unfold sequences; simpl.
    + intros r Hr. exists r. split; [by right|done].
    + intros r' [->|Hr']%elem_of_cons Hp; [by destruct Hp|]. exists r'. by split_and!; [| |left].
    + intros Hu. by constructor.
  - by destruct Hs.
  - injection Happly as <- <-. apply update_outbox_evolves; [done|]. intros r _ Hp. by left.
Qed.

Lemma apply_stmts_evolves started stmts b b' :
  Forall (λ ns, ¬ marks_published ns.2) stmts → apply_stmts started stmts b = Some b' →
  evolves (λ _, False) b b'.
Proof.
  intros Hall. revert b'. induction Hall as [|[n s] stmts Hs _ IH]; intros b' Happly.
  - injection Happly as <-. by apply evolves_refl.
  - apply apply_stmts_cons in Happly as (b1&k&Hb1&Happly).
    eapply evolves_trans; [by apply IH|by eapply apply_stmt_evolves].
Qed.

Lemma marking_evolves started n tenant m b k b' :
  apply_stmt started n (SetPublished tenant m) b = Some (k, b') →
  evolves (outbox_at tenant m) b b'.
Proof.
  intros [= <- <-]. apply update_outbox_evolves; [done|]. intros r Hr _. by right.
Qed.

(** The rows a call may mark published. *)
Definition marks {B} (c : call B) : outbox_row → Prop :=
  match c with CAuto (SetPublished tenant n) => outbox_at tenant n | _ => λ _, False end.
End evolution.

Section calls_evolve.
Context `{Host} `{MapOrder} `{Server}.
Implicit Types s : sys.

Lemma carry_out_evolves {A} marked k (change : option (A * db)) b :
  (∀ a b', change = Some (a, b') → evolves marked b b') →
  evolves marked b (carry_out k change b).2.
Proof.
  intros Hc. unfold carry_out.
  destruct (db_error k) as [[msg []]|], change as [[a b']|]; simpl;
    solve [by eapply Hc|by apply evolves_refl].
Qed.

Lemma answer_evolves seen acked {B} (c : call B) s :
  allowed seen acked c → evolves (marks c) (s_db s) (s_db (answer c s).2).
Proof.
  destruct c as [B m|url|t k|t k i|t|t l| |t st|t|st|topic payload]; cbn [answer]; intros Hc;
    try by apply evolves_refl.
  - destruct (m (s_world s)). by apply evolves_refl.
  - destruct st; by apply evolves_refl.
  - rewrite (surjective_pairing (carry_out _ _ _)). cbn [snd called s_db]. apply carry_out_evolves.
    intros [] b' (b1&Hb1&[= <-])%fmap_Some. by eapply apply_stmts_evolves.
  - assert (∃ n b0, draw st (s_db s) = (n, b0) ∧ db_outbox b0 = db_outbox (s_db s)) as (n&b0&->&Ho).
    { destruct st; simpl; eauto. }
    rewrite (surjective_pairing (carry_out _ _ _)). cbn [snd called s_db].
    assert (evolves (marks (CAuto st)) b0 (carry_out (w_tick (s_world s))
      (apply_stmt (db_clock (w_tick (s_world s))) n st b0) b0).2) as Hev.
    { apply carry_out_evolves. intros a b' Hb'.
      assert ((∃ t m, st = SetPublished t m) ∨ ¬ marks_published st) as [(t&m&->)|Hq]
        by (destruct st; simpl; eauto).
      - by eapply marking_evolves.
      - replace (marks (CAuto st)) with (λ _ : outbox_row, False) by (by destruct st).
        by eapply apply_stmt_evolves. }
    destruct Hev as [S P U]. split; unfold sequences in *; by rewrite <- Ho.
  - by destruct (publish_error _) as [[? []]|]; apply evolves_refl.
Qed.
End calls_evolve.

(** ** Every interleaving *)

(** A session: an operation of a repository, or a worker for some ticks. *)
Inductive session : Type :=
  | Operation (p : Postgres) (o : op)
  | Worker (p : Postgres) (ticks : nat).

Definition session_of_outbox `{Host} `{MapOrder} `{Jsonb} (x : session) : prog (option gerror) :=
  match x with
  | Operation p o => pg_op p o
  | Worker p ticks => _ ← worker_Run p ticks; mret None
  end.

Section delivery.
Context `{Host} `{MapOrder} `{Server}.
Implicit Types (s : sys) (r : outbox_row).

(** The broker has the row's message. *)
Definition delivered s r : Prop := ∃ m, message_of r m ∧ m ∈ s_broker s.

Record sound s : Prop := {
  sound_unique : NoDup (sequences (s_db s));
  sound_delivered : ∀ r, r ∈ db_outbox (s_db s) → is_published r → delivered s r
}.

(** What a session has read is stored, and what it had acknowledged is taken. *)
Definition knows s (m : prog (option gerror)) : Prop :=
  ∃ seen acked, careful seen acked m
  ∧ (∀ r, r ∈ seen → ∃ r', r' ∈ db_outbox (s_db s) ∧ same_row r r')
  ∧ acked ⊆ s_broker s.

Lemma answer_broker {B} (c : call B) s : s_broker s ⊆ s_broker (answer c s).2.
Proof.
  intros x Hx. destruct c as [B m|url|t k|t k i|t|t l| |t st|t|st|topic payload]; try exact Hx.
  - simpl. by destruct (m (s_world s)).
  - by destruct st.
  - cbn [answer]. by rewrite (surjective_pairing (carry_out _ _ _)).
  - cbn [answer]. destruct (draw st (s_db s)). by rewrite (surjective_pairing (carry_out _ _ _)).
  - simpl. destruct (publish_error _) as [[? []]|]; simpl; try apply elem_of_app; auto.
Qed.

Lemma answer_plausible {B} (c : call B) s : plausible c (answer c s).1.
Proof.
  destruct c; try exact I. simpl. destruct (db_error _) as [[? ?]|]; simpl; [done|].
  intros r Hr. eapply elem_of_sublist in Hr; [|apply sublist_take].
  apply list_elem_of_filter in Hr as [_ Hr]. unfold by_sequence in Hr.
  rewrite merge_sort_Permutation in Hr. apply list_elem_of_filter in Hr as [[? _] _]. done.
Qed.

Lemma answer_learned {B} (c : call B) s r :
  r ∈ learned c (answer c s).1 → r ∈ db_outbox (s_db s).
Proof.
  destruct c; try (intros Hr; by apply not_elem_of_nil in Hr).
  simpl. destruct (db_error _) as [[? ?]|]; simpl; [by intros ?%not_elem_of_nil|].
  intros Hr. eapply elem_of_sublist in Hr; [|apply sublist_take].
  apply list_elem_of_filter in Hr as [_ Hr]. unfold by_sequence in Hr.
  rewrite merge_sort_Permutation in Hr. by apply list_elem_of_filter in Hr as [_ Hr].
Qed.

Lemma answer_acknowledged {B} (c : call B) s m :
  m ∈ acknowledged c (answer c s).1 → m ∈ s_broker (answer c s).2.
Proof.
  destruct c; try (intros Hm; by apply not_elem_of_nil in Hm).
  simpl. destruct (publish_error _) as [[? []]|]; simpl; [by intros ?%not_elem_of_nil..|].
  intros Hm. apply elem_of_app. by right.
Qed.

Lemma message_same r r' m : same_row r r' → message_of r m → message_of r' m.
Proof. intros (_&_&_&Ht&_&Hp) [Hm1 Hm2]. split; congruence. Qed.

Lemma sequence_unique s r r' :
  NoDup (sequences (s_db s)) → r ∈ db_outbox (s_db s) → r' ∈ db_outbox (s_db s) →
  out_sequence r = out_sequence r' → r = r'.
Proof. intros Hu Hr Hr'. by apply (keys_unique_eq out_sequence (db_outbox (s_db s))). Qed.

Lemma answer_sound {B} (c : call B) (k : B → prog (option gerror)) s :
  sound s → knows s (Do c k) → sound (answer c s).2.
Proof.
  intros [Hu Hd] (seen&acked&[Hc _]&Hseen&Hacked).
  destruct (answer_evolves seen acked c s Hc) as [S P U]. split; [by apply U|].
  intros r' Hr' Hp'. destruct (P r' Hr' Hp') as (r&Hr&Hsame&[Hp|Hm]).
  - destruct (Hd r Hr Hp) as (m&Hmsg&Hin). exists m. split; [by eapply message_same|].
    by apply answer_broker.
  - destruct c; try done. destruct s0 as [| | | | |tenant n|]; try done.
    destruct Hc as (r0&m&Hr0&[_ Hn0]&Hmsg&Hin). destruct (Hseen r0 Hr0) as (r1&Hr1&Hsame1).
    assert (r1 = r) as ->.
    { apply (sequence_unique s); [done..|]. destruct Hm as [_ Hn].
      destruct Hsame1 as [-> _]. congruence. }
    exists m. split; [eapply message_same; [exact Hsame|by eapply message_same]|].
    apply answer_broker, Hacked, Hin.
Qed.

(** Knowledge is never lost. *)
Lemma knows_mono {B} (c : call B) seen acked s m :
  allowed seen acked c → knows s m → knows (answer c s).2 m.
Proof.
  intros Hc (seen'&acked'&Hm&Hseen&Hacked). exists seen', acked'. split; [done|]. split.
  - intros r Hr. destruct (Hseen r Hr) as (r1&Hr1&Hs1).
    destruct (answer_evolves seen acked c s Hc) as [S _ _].
    destruct (S r1 Hr1) as (r2&Hr2&Hs2). exists r2. split; [done|by etransitivity].
  - intros x Hx. by apply answer_broker, Hacked.
Qed.

Lemma knows_next {B} (c : call B) (k : B → prog (option gerror)) s :
  knows s (Do c k) → knows (answer c s).2 (k (answer c s).1).
Proof.
  intros (seen&acked&[Hc Hk]&Hseen&Hacked).
  exists (app (learned c (answer c s).1) seen), (app (acknowledged c (answer c s).1) acked).
  split; [apply Hk, answer_plausible|]. split.
  - intros r Hr. assert (∃ r', r' ∈ db_outbox (s_db s) ∧ same_row r r') as (r1&Hr1&Hs1).
    { apply elem_of_app in Hr as [Hr|Hr]; [|by apply Hseen].
      exists r. split; [by eapply answer_learned|done]. }
    destruct (answer_evolves seen acked c s Hc) as [S _ _].
    destruct (S r1 Hr1) as (r2&Hr2&Hs2). exists r2. split; [done|by etransitivity].
  - intros x [Hx|Hx]%elem_of_app; [by apply answer_acknowledged|by apply answer_broker, Hacked].
Qed.

Lemma pool_sound c c' :
  sound c.2 → Forall (knows c.2) c.1 → rtc pstep c c' → sound c'.2 ∧ Forall (knows c'.2) c'.1.
Proof.
  intros Hs Hk Hrun. induction Hrun as [|c c1 c2 Hstep _ IH]; [done|]. apply IH; clear IH.
  - destruct Hstep as [i ms B cl k s v s' Hi Ha]. simpl in *.
    pose proof (Forall_lookup_1 _ _ _ _ Hk Hi) as Hm.
    pose proof (answer_sound cl k s Hs Hm) as Hs'. by rewrite Ha in Hs'.
  - destruct Hstep as [i ms B cl k s v s' Hi Ha]. simpl in *.
    pose proof (Forall_lookup_1 _ _ _ _ Hk Hi) as Hm.
    pose proof (knows_next cl k s Hm) as Hnext. rewrite Ha in Hnext. simpl in Hnext.
    destruct Hm as (seen&acked&[Hc _]&_). apply Forall_insert; [|exact Hnext].
    eapply Forall_impl; [exact Hk|]. intros m Hkm.
    pose proof (knows_mono cl seen acked s m Hc Hkm) as Hm'. by rewrite Ha in Hm'.
Qed.

Lemma pool_stays c c' :
  sound c.2 → Forall (knows c.2) c.1 → rtc pstep c c' →
  ∀ r, r ∈ db_outbox (s_db c.2) → ∃ r', r' ∈ db_outbox (s_db c'.2) ∧ same_row r r'.
Proof.
  intros Hs Hk Hrun. induction Hrun as [c|c c1 c2 Hstep Hrun IH]; intros r Hr; [by exists r|].
  destruct (pool_sound c c1 Hs Hk (rtc_once _ _ Hstep)) as [Hs1 Hk1].
  assert (∃ r1, r1 ∈ db_outbox (s_db c1.2) ∧ same_row r r1) as (r1&Hr1&Hsame1).
  { destruct Hstep as [i ms B cl k s v s' Hi Ha]. simpl in *.
    pose proof (Forall_lookup_1 _ _ _ _ Hk Hi) as (seen&acked&[Hc _]&_).
    destruct (answer_evolves seen acked cl s Hc) as [S _ _]. rewrite Ha in S. by apply S. }
  destruct (IH Hs1 Hk1 r1 Hr1) as (r2&Hr2&Hsame2). exists r2. split; [done|by etransitivity].
Qed.

Lemma session_careful x : careful [] [] (session_of_outbox x).
Proof.
  destruct x as [p o|p ticks]; simpl.
  - apply every_careful. destruct (decide (writes_alone o)) as [Ho|Ho].
    + by apply every_alone.
    + apply every_pg_op; try done.
      * intros T codec kind i v action actor metadata. apply every_pg_write; try done.
        intros t payload e _ _ _ _ Hw. destruct t as [started stmts]. simpl in *.
        destruct Hw; repeat (apply Forall_cons; split; [by intros []|]); apply Forall_nil_2.
      * intros subject actor. apply every_delete_access; try done.
        intros t e _ _ _ Hw. destruct t as [started stmts]. simpl in *.
        destruct Hw; repeat (apply Forall_cons; split; [by intros []|]); apply Forall_nil_2.
  - apply careful_bind; [apply careful_worker|]. done.
Qed.

(** C9: publication is at least once: however operations and workers interleave,
    and whatever calls fail, every row marked published has its message with the
    broker, and no row of the outbox is ever lost or altered. *)
Theorem outbox_at_least_once sessions s ms s' :
  sound s → rtc pstep (session_of_outbox <$> sessions, s) (ms, s') →
  (∀ r, r ∈ db_outbox (s_db s') → out_published r ≠ None →
     ∃ payload, unmarshal (out_payload r) = (payload, None)
                ∧ (out_topic r, payload) ∈ s_broker s')
  ∧ (∀ r, r ∈ db_outbox (s_db s) → ∃ r', r' ∈ db_outbox (s_db s') ∧ same_row r r').
Proof.
  intros Hs Hrun.
  assert (Forall (knows s) (session_of_outbox <$> sessions)) as Hk.
  { rewrite Forall_fmap. apply Forall_true. intros x. exists [], [].
    split; [apply session_careful|]. split; by intros ? ?%not_elem_of_nil. }
  split.
  - destruct (pool_sound (_, s) (ms, s') Hs Hk Hrun) as [[_ Hd] _]. intros r Hr Hp.
    destruct (Hd r Hr Hp) as ([topic payload]&[Ht Hm]&Hin). simpl in *. subst topic. eauto.
  - intros r Hr. apply (pool_stays (_, s) (ms, s') Hs Hk Hrun r Hr).
Qed.
End delivery.

(** ** One flush of a server that answers *)

Section flush.
Context `{Host} `{MapOrder} `{Server} (p : Postgres).
Implicit Types (s : sys) (r : outbox_row) (l : list outbox_row).

Class Answering : Prop := {
  no_error k : db_error k = None;
  no_lock k n : db_locked k n = false;
  no_refusal k : publish_error k = None
}.

Context `{Answering}.

Definition messages l : list (string * any) :=
  (λ r, (out_topic r, (unmarshal (out_payload r)).1)) <$> l.

Definition readable r : Prop := (unmarshal (out_payload r)).2 = None.

#[local] Instance sequence_le_trans : Transitive sequence_le.
Proof. intros r1 r2 r3. unfold sequence_le. lia. Qed.
#[local] Instance sequence_le_total : Total sequence_le.
Proof. intros r1 r2. unfold sequence_le. lia. Qed.

(** The pending rows a flush reads. *)
Definition batch s : list outbox_row :=
  take outbox_batch (by_sequence (filter (pending (pg_tenant p)) (db_outbox (s_db s)))).

(** The rows still pending once those numbered [ns] are published. *)
Definition still_pending (ns : list Z) (rows : list outbox_row) : list outbox_row :=
  filter (λ r, pending (pg_tenant p) r ∧ out_sequence r ∉ ns) rows.

Lemma still_pending_update n ns started b :
  still_pending ns (db_outbox (update_outbox (pg_tenant p) n
    (λ r, r <|out_published := Some started|> <|out_attempts := (out_attempts r + 1)%Z|>
            <|out_last_error := None|>) b))
  = still_pending (n :: ns) (db_outbox b).
Proof.
  unfold still_pending. cbn [update_outbox db_outbox]. simpl.
  induction (db_outbox b) as [|r l IH]; [done|]. rewrite fmap_cons.
  destruct (decide (outbox_at (pg_tenant p) n r)) as [[Ht Hn]|Hat].
  - rewrite filter_cons_False by (by intros [[_ ?] _]).
    rewrite filter_cons_False by (rewrite Hn; intros [_ Hnot]; apply Hnot; by left). exact IH.
  - rewrite !filter_cons, IH.
    destruct (decide (pending (pg_tenant p) r ∧ out_sequence r ∉ ns)) as [[Hp Hns]|Hnot];
      destruct (decide (pending (pg_tenant p) r ∧ out_sequence r ∉ n :: ns)) as [[Hp' Hns']|Hnot'];
      try done; exfalso.
    + apply Hnot'. split; [done|]. apply not_elem_of_cons. split; [|done].
      intros Hn. apply Hat. by destruct Hp.
    + apply Hnot. split; [done|]. by apply not_elem_of_cons in Hns' as [_ ?].
Qed.

Lemma flush_events_run l s :
  Forall readable l →
  pwp (flush_events p l) s (λ err s', err = None
    ∧ s_broker s' = app (s_broker s) (messages l)
    ∧ ∀ ns, still_pending ns (db_outbox (s_db s'))
            = still_pending (app (out_sequence <$> l) ns) (db_outbox (s_db s))).
Proof using All.
  intros Hl. revert s. induction Hl as [|r l Hr _ IH]; intros s.
  - apply pwp_ret. by rewrite app_nil_r.
  - cbn [flush_events]. unfold readable in Hr.
    destruct (unmarshal (out_payload r)) as [payload e] eqn:Hp. simpl in Hr. subst e.
    apply pwp_bind, pwp_do. cbn [answer]. rewrite no_refusal. cbn [fst snd].
    apply pwp_bind, pwp_bind, pwp_do. cbn [answer draw]. unfold carry_out.
    rewrite no_error. cbn [apply_stmt fst snd error_of]. apply pwp_ret.
    eapply pwp_mono; [apply IH|]. intros err s' (->&Hb&Hpend). split; [done|].
    cbn [called s_db s_broker] in *. split.
    + rewrite Hb. unfold messages. simpl. rewrite Hp. by rewrite <- (assoc_L app).
    + intros ns. rewrite Hpend. rewrite still_pending_update. unfold still_pending.
      apply list_filter_iff. intros r'. simpl. set_solver.
Qed.

(** C10: where the server and the broker answer, a flush publishes the oldest
    pending rows of its tenant, at most a hundred, in the order of their
    sequence, each once, and the rows still pending are exactly the others. *)
Theorem flush_publishes s :
  Forall readable (batch s) →
  let '(err, s') := run (Flush p) s in
  err = None
  ∧ s_broker s' = app (s_broker s) (messages (batch s))
  ∧ filter (pending (pg_tenant p)) (db_outbox (s_db s'))
    = filter (λ r, pending (pg_tenant p) r ∧ out_sequence r ∉ out_sequence <$> batch s)
        (db_outbox (s_db s))
  ∧ (length (batch s) ≤ 100)%nat
  ∧ StronglySorted sequence_le (batch s)
  ∧ (batch s = [] ↔ filter (pending (pg_tenant p)) (db_outbox (s_db s)) = []).
Proof using All.
  intros Hl.
  assert (pwp (Flush p) s (λ err s', err = None
    ∧ s_broker s' = app (s_broker s) (messages (batch s))
    ∧ ∀ ns, still_pending ns (db_outbox (s_db s'))
            = still_pending (app (out_sequence <$> batch s) ns) (db_outbox (s_db s)))) as Hw.
  { apply pwp_bind, pwp_do. cbn [answer]. rewrite no_error. cbn [fst snd].
    rewrite filter_all by (intros r; apply no_lock).
    apply (flush_events_run (batch s) (called s (s_db s)) Hl). }
  unfold pwp in Hw. destruct (run (Flush p) s) as [err s'].
  cbn [fst snd] in Hw. destruct Hw as (Herr&Hb&Hpend).
  split; [done|]. split; [done|]. split_and!.
  - specialize (Hpend []). unfold still_pending in Hpend. rewrite app_nil_r in Hpend.
    simpl in Hpend. rewrite <- Hpend. apply list_filter_iff. intros r. set_solver.
  - unfold batch. rewrite length_take. unfold outbox_batch. lia.
  - apply StronglySorted_take, (StronglySorted_merge_sort _).
  - unfold batch, by_sequence. split.
    + intros [?|Hnil]%take_nil_inv; [done|]. apply Permutation_nil. rewrite <- Hnil.
      apply merge_sort_Permutation.
    + by intros ->.
Qed.
End flush.

(** ** Concrete runs *)

#[local] Existing Instance quiet_host.
#[local] Existing Instance listed_order.
#[local] Existing Instance documents.
#[local] Existing Instance quiet_server.

Lemma quiet_answering : Answering.
Proof. by split. Qed.

(** A connection is created, and a worker publishes what its creation left. *)
Definition connected : sys := (run (pg_op acme add_connection) empty_sys).2.

Lemma empty_sound : sound empty_sys.
Proof. split; [constructor|]. by intros r ?%not_elem_of_nil. Qed.

Definition published_rows (s : sys) : list (string * bool) :=
  (λ r, (out_topic r, bool_decide (is_Some (out_published r)))) <$> db_outbox (s_db s).

Definition flushed : sys := (run (session_of_outbox (Worker acme 1)) connected).2.

Lemma outbox_at_least_once_witness :
  published_rows connected
    = [("mlaiops.connection.commands", false); ("mlaiops.audit.operations", false)]
  ∧ published_rows flushed
    = [("mlaiops.connection.commands", true); ("mlaiops.audit.operations", true)]
  ∧ ∀ r, r ∈ db_outbox (s_db flushed) → out_published r ≠ None →
      ∃ payload, unmarshal (out_payload r) = (payload, None)
                 ∧ (out_topic r, payload) ∈ s_broker flushed.
Proof.
  split; [by vm_compute|]. split; [by vm_compute|].
  refine (proj1 (outbox_at_least_once [Operation acme add_connection; Worker acme 1] empty_sys
    [Ret None; Ret None] flushed empty_sound _)).
  assert ((run (pg_op acme add_connection) empty_sys).1 = None) as Ha by by vm_compute.
  assert ((run (session_of_outbox (Worker acme 1)) connected).1 = None) as Hw by by vm_compute.
  etransitivity.
  - apply (pool_run [pg_op acme add_connection; session_of_outbox (Worker acme 1)] 0). reflexivity.
  - rewrite Ha. etransitivity.
    + apply (pool_run [Ret None; session_of_outbox (Worker acme 1)] 1). reflexivity.
    + fold connected. rewrite Hw. reflexivity.
Defined.

Lemma flush_publishes_witness :
  length (batch acme connected) = 2%nat
  ∧ Forall readable (batch acme connected)
  ∧ s_broker (run (Flush acme) connected).2
    = app (s_broker connected) (messages (batch acme connected)).
Proof.
  assert (Forall readable (batch acme connected)) as Hr
    by (apply (bool_decide_unpack _); by vm_compute).
  split; [by vm_compute|]. split; [exact Hr|].
  pose proof (flush_publishes acme (H3 := quiet_answering) connected Hr) as Hf.
  destruct (run (Flush acme) connected) as [err s']. by destruct Hf as (_&?&_).
Defined.
