(* ===== verification/Auth.v ===== *)
(** * Authentication and authorization (internal/auth)

    Who a request speaks for and what it may do: the middleware chain (personal
    API tokens, OIDC bearer tokens, the internal service token, the local
    principal), the administrator's grants and the role rules of [Allowed]. *)

From S2P Require Import Prelude GoStrings Urls Types World.

Open Scope string_scope.

(** ** Principals and requests *)

Definition RoleAdmin : string := "admin".
Definition RoleUser : string := "user".
Definition RoleOperator : string := "operator".
Definition RoleEngineer : string := "engineer".
Definition RoleViewer : string := "viewer".
Definition RoleService : string := "service".

Record Principal := mkPrincipal {
  pr_Subject : string;
  pr_Email : string;
  pr_Tenant : string;
  pr_Roles : list string;
  pr_Namespaces : list string;
  pr_Services : list string;
  pr_ProjectIDs : list string;
  pr_Disabled : bool;
  pr_Provisioned : bool;
  pr_Credential : string
}.
#[export] Instance zero_Principal : Zero Principal :=
  mkPrincipal "" "" "" [] [] [] [] false false "".
#[export] Instance eta_Principal : Eta Principal := λ p,
  mkPrincipal (pr_Subject p) (pr_Email p) (pr_Tenant p) (pr_Roles p) (pr_Namespaces p)
    (pr_Services p) (pr_ProjectIDs p) (pr_Disabled p) (pr_Provisioned p) (pr_Credential p).

(** The claims of a verified JWT that the program reads. *)
Record Claims := mkClaims {
  cl_Subject : string;
  cl_Email : string;
  cl_Tenant : string;
  cl_Roles : list string;
  cl_Groups : list string;
  cl_Namespaces : list string
}.

Record request := mkRequest {
  rq_method : string;
  rq_path : string;
  rq_authorization : string;
  rq_cookies : gmap string string;
  rq_uri : string;
  (** The principal on the request's context. *)
  rq_principal : option Principal
}.
#[export] Instance eta_request : Eta request := λ r,
  mkRequest (rq_method r) (rq_path r) (rq_authorization r) (rq_cookies r) (rq_uri r)
    (rq_principal r).

(** What a handler answers: an error, a redirect, or the page of a handler. *)
Inductive response (A : Type) : Type :=
  | Denied (status : Z) (message : string)
  | Redirected (location : string)
  | Served (page : A).
Arguments Denied {A} status message.
Arguments Redirected {A} location.
Arguments Served {A} page.

Definition WithPrincipal (principal : Principal) (r : request) : request :=
  r <|rq_principal := Some principal|>.

(** ** Strings of the protocol *)

Definition TrimPrefix (s p : string) : string :=
  if HasPrefix s p then String.substring (String.length p) (String.length s - String.length p) s
  else s.

Definition bearer_of (r : request) : string := TrimSpace (TrimPrefix (rq_authorization r) "Bearer ").

Definition SessionCookieName : string := "nexus_session".

Definition is_read (method : string) : Prop := method = "GET" ∨ method = "HEAD" ∨ method = "OPTIONS".
#[export] Instance is_read_dec method : Decision (is_read method).
Proof. unfold is_read. apply _. Defined.

Definition blog_read (method path : string) : Prop :=
  method = "GET" ∧ (path = "/api/v1/blogs" ∨ HasPrefix path "/api/v1/blogs/" = true).
#[export] Instance blog_read_dec method path : Decision (blog_read method path).
Proof. unfold blog_read. apply _. Defined.

Definition public_pages : list string := [
  "/"; "/index.html"; "/landing.css"; "/landing.js"; "/api/v1/health";
  "/api/openapi.json"; "/api-docs.html"; "/api-docs.css"; "/api-docs.js";
  "/blogs.html"; "/blog.html"; "/blog.css"; "/blog.js"
].

Definition publicPath (method path : string) : bool :=
  if decide (blog_read method path) then true else
  if decide (path ∈ public_pages) then true else HasPrefix path "/auth/".

(** ** The role rules *)

Definition engineerWrite : list string := [
  "/api/v1/projects"; "/api/v1/pipelines"; "/api/v1/models"; "/api/v1/agents";
  "/api/v1/tools"; "/api/v1/features"; "/api/v1/traces"; "/api/v1/functions";
  "/api/v1/realtime"
].

Definition serviceWrite : list string := [
  "/api/v1/traces"; "/api/v1/pipelines/runs"; "/api/v1/features"; "/api/v1/realtime"
].

Definition userWrite : list string := [
  "/api/v1/projects"; "/api/v1/pipelines"; "/api/v1/models"; "/api/v1/agents";
  "/api/v1/tools"; "/api/v1/features"; "/api/v1/traces"; "/api/v1/functions";
  "/api/v1/realtime"
].

Definition machineReportingPath (path : string) : bool :=
  bool_decide (path = "/api/v1/traces")
  || (HasPrefix path "/api/v1/pipelines/runs/" && HasSuffix path "/steps")
  || (HasPrefix path "/api/v1/features/" && HasSuffix path "/materialized")
  || HasPrefix path "/api/v1/realtime/".

Definition hasRole (principal : Principal) (expected : string) : bool :=
  bool_decide (expected ∈ pr_Roles principal).

Definition hasService (services : list string) (expected : string) : bool :=
  if decide (expected = "") then false else bool_decide (expected ∈ services).

Definition serviceForPath (path : string) : string :=
  if decide (path ∈ ["/api/v1/dashboard"; "/api/v1/onboarding/readiness"; "/api/v1/events"])
  then "overview" else
  if HasPrefix path "/api/v1/projects/" && HasSuffix path "/repository" then "git" else
  if HasPrefix path "/api/v1/projects" then "projects" else
  if HasPrefix path "/api/v1/pipelines" then "pipelines" else
  if HasPrefix path "/api/v1/models" then "models" else
  if HasPrefix path "/api/v1/agents" || HasPrefix path "/api/v1/traces" then "agents" else
  if HasPrefix path "/api/v1/features" then "features" else
  if HasPrefix path "/api/v1/storage" then "storage" else
  if HasPrefix path "/api/v1/realtime" then "realtime" else
  if HasPrefix path "/api/v1/catalog" || HasPrefix path "/api/v1/tools"
     || HasPrefix path "/api/v1/prompts" then "catalog" else
  if HasPrefix path "/api/v1/components" || HasPrefix path "/api/v1/connections"
  then "platform" else
  if HasPrefix path "/api/v1/functions" then "functions" else "".

Definition hasAnyPrefix (path : string) (prefixes : list string) : bool :=
  existsb (HasPrefix path) prefixes.

(** What the case of [RoleUser] returns. *)
Definition user_allowed (principal : Principal) (method path : string) : bool :=
  if decide (path = "/api/v1/me") then true else
  if negb (bool_decide (is_read method)) && machineReportingPath path then false else
  pr_Provisioned principal && hasService (pr_Services principal) (serviceForPath path)
  && (bool_decide (is_read method) || hasAnyPrefix path userWrite).

(** The loop over the roles: some roles return, the others fall through. *)
Fixpoint roles_allowed (principal : Principal) (method path : string) (roles : list string)
    : bool :=
  match roles with
  | [] => false
  | role :: rest =>
      if decide (role = RoleAdmin ∨ role = RoleOperator) then true else
      if decide (role = RoleUser) then user_allowed principal method path else
      if decide (role = RoleViewer) then
        if decide (is_read method) then true else roles_allowed principal method path rest
      else if decide (role = RoleEngineer) then
        if bool_decide (is_read method) || hasAnyPrefix path engineerWrite then true
        else roles_allowed principal method path rest
      else if decide (role = RoleService) then
        if bool_decide (is_read method) || hasAnyPrefix path serviceWrite then true
        else roles_allowed principal method path rest
      else roles_allowed principal method path rest
  end.

Definition Allowed (principal : Principal) (method path : string) : bool :=
  if pr_Disabled principal then false else
  if HasPrefix path "/api/v1/admin/"
  then hasRole principal RoleAdmin || hasRole principal RoleOperator else
  if decide (blog_read method path) then true else
  if HasPrefix path "/api/v1/settings/"
  then negb (hasRole principal RoleService) && bool_decide (pr_Credential principal ≠ "api_token")
       && bool_decide (pr_Roles principal ≠ []) else
  if decide (path = "/api/v1/access-requests" ∧ (method = "GET" ∨ method = "POST"))
  then negb (hasRole principal RoleService) && bool_decide (pr_Roles principal ≠ []) else
  roles_allowed principal method path (pr_Roles principal).

Definition Permissions (principal : Principal) : gmap string bool :=
  list_to_map [
    ("projects_write", Allowed principal "POST" "/api/v1/projects");
    ("pipelines_write", Allowed principal "POST" "/api/v1/pipelines/submit");
    ("models_write", Allowed principal "POST" "/api/v1/models");
    ("agents_write", Allowed principal "POST" "/api/v1/agents");
    ("tools_write", Allowed principal "POST" "/api/v1/tools");
    ("features_write", Allowed principal "POST" "/api/v1/features");
    ("functions_write", Allowed principal "POST" "/api/v1/functions");
    ("git_write", Allowed principal "PUT" "/api/v1/projects/example/repository");
    ("connections_write", Allowed principal "POST" "/api/v1/connections");
    ("access_manage", Allowed principal "PUT" "/api/v1/admin/users/example")
  ].

(** ** The middleware chain *)

(** The process environment, the token libraries and the repository, as the
    chain sees them. *)
Class AuthEnv := {
  (** [MLAIOPS_INTERNAL_TOKEN] and [MLAIOPS_LOCAL_ROLE]; empty when unset. *)
  env_internal_token : string;
  env_local_role : string;
  (** The tenant this deployment accepts; empty for any. *)
  config_tenant : string;
  (** The claims of a JWT whose signature, issuer, audience and times are valid. *)
  jwt_claims : string → option Claims
}.

(** The administrator's grant for a subject: roles, services, projects and
    whether it is disabled. *)
Definition AccessResolver : Type :=
  string → option (list string * list string * list string * bool).

(** The stored token a bearer secret opens. *)
Definition APITokenResolver : Type := string → result APIToken.

Section chain.
Context `{AuthEnv} {A : Type}.
Implicit Types next : request → response A.

Definition servicePrincipal (bearer : string) : option Principal :=
  if decide (env_internal_token = "" ∨ bearer ≠ env_internal_token) then None
  else Some (zero <|pr_Subject := "internal-service"|> <|pr_Roles := [RoleService]|>).

(** [Verify], after the JWT library accepted the token. *)
Definition Verify (raw : string) : option Principal :=
  match jwt_claims raw with
  | None => None
  | Some claims =>
      if decide (config_tenant ≠ "" ∧ cl_Tenant claims ≠ config_tenant) then None else
      let roles := if decide (length (cl_Roles claims) = 0%nat) then cl_Groups claims
                   else cl_Roles claims in
      Some (zero <|pr_Subject := cl_Subject claims|> <|pr_Email := cl_Email claims|>
                 <|pr_Tenant := cl_Tenant claims|> <|pr_Roles := roles|>
                 <|pr_Namespaces := cl_Namespaces claims|>)
  end.

Definition APITokenMiddleware (resolve : APITokenResolver) next (r : request) : response A :=
  let bearer := bearer_of r in
  if negb (HasPrefix bearer "nxs_") then next r else
  match resolve bearer with
  | Err _ => Denied 401 "invalid API token"
  | Ok token =>
      next (WithPrincipal
        (zero <|pr_Subject := tok_Subject token|> <|pr_Roles := [RoleUser]|>
              <|pr_Services := tok_Services token|> <|pr_ProjectIDs := tok_ProjectIDs token|>
              <|pr_Provisioned := true|> <|pr_Credential := "api_token"|>) r)
  end.

Definition Middleware next (r : request) : response A :=
  if publicPath (rq_method r) (rq_path r) then next r else
  match rq_principal r with
  | Some _ => next r
  | None =>
      let token := bearer_of r in
      let token := if decide (token = "")
                   then default "" (rq_cookies r !! SessionCookieName) else token in
      if decide (token = "") then
        if negb (HasPrefix (rq_path r) "/api/")
        then Redirected ("/auth/login?return_to=" ++ QueryEscape (rq_uri r))
        else Denied 401 "missing bearer token"
      else
        match servicePrincipal token with
        | Some service => next (WithPrincipal service r)
        | None =>
            match Verify token with
            | None => Denied 401 "invalid bearer token"
            | Some principal => next (WithPrincipal principal r)
            end
        end
  end.

(** Who speaks when nobody authenticated the request before. *)
Definition default_principal (r : request) : Principal :=
  match servicePrincipal (bearer_of r) with
  | Some service => service
  | None =>
      let role := TrimSpace env_local_role in
      let role := if decide (role = "") then RoleAdmin else role in
      zero <|pr_Subject := "local-dev"|> <|pr_Roles := [role]|>
  end.

(** The principal with the administrator's grant in place of its own roles. *)
Definition resolved (resolve : option AccessResolver) (principal : Principal) : Principal :=
  match resolve with
  | Some resolve =>
      if decide (pr_Subject principal ≠ "" ∧ hasRole principal RoleService = false
                 ∧ pr_Credential principal ≠ "api_token")
      then match resolve (pr_Subject principal) with
           | Some (roles, services, projectIDs, disabled) =>
               principal <|pr_Roles := roles|> <|pr_Services := services|>
                 <|pr_ProjectIDs := projectIDs|> <|pr_Disabled := disabled|>
                 <|pr_Provisioned := true|>
           | None => principal
           end
      else principal
  | None => principal
  end.

Definition unguarded (path : string) : Prop :=
  HasPrefix path "/api/" = false ∨ path = "/api/v1/health" ∨ path = "/api/openapi.json".
#[export] Instance unguarded_dec path : Decision (unguarded path).
Proof. unfold unguarded. apply _. Defined.

Definition RBACWithResolver (resolve : option AccessResolver) next (r : request) : response A :=
  if decide (unguarded (rq_path r)) then next r else
  let principal := resolved resolve (default (default_principal r) (rq_principal r)) in
  if negb (Allowed principal (rq_method r) (rq_path r))
  then Denied 403 "access is not provisioned for this service"
  else next (WithPrincipal principal r).

Definition RBAC next (r : request) : response A := RBACWithResolver None next r.
End chain.

(** ** Lemmas *)

Lemma hasRole_spec principal role : hasRole principal role = true ↔ role ∈ pr_Roles principal.
Proof. apply bool_decide_eq_true. Qed.

Lemma hasService_spec services service :
  hasService services service = true ↔ service ≠ "" ∧ service ∈ services.
Proof.
  unfold hasService. case_decide; [|rewrite bool_decide_eq_true]; naive_solver.
Qed.

(** The paths whose rules do not come from the roles loop. *)
Definition role_ruled (method path : string) : Prop :=
  HasPrefix path "/api/v1/admin/" = false ∧ ¬ blog_read method path
  ∧ HasPrefix path "/api/v1/settings/" = false
  ∧ ¬ (path = "/api/v1/access-requests" ∧ (method = "GET" ∨ method = "POST")).

Lemma Allowed_role_ruled principal method path :
  role_ruled method path → pr_Disabled principal = false →
  Allowed principal method path = roles_allowed principal method path (pr_Roles principal).
Proof.
  intros (Ha&Hb&Hs&Hr) Hd. unfold Allowed. rewrite Hd, Ha, Hs.
  by rewrite decide_False, decide_False.
Qed.

(** A role that grants by itself: every one but [user], whose case decides. *)
Definition role_grants (method path role : string) : bool :=
  bool_decide (role = RoleAdmin ∨ role = RoleOperator)
  || bool_decide (role = RoleViewer ∧ is_read method)
  || (bool_decide (role = RoleEngineer)
      && (bool_decide (is_read method) || hasAnyPrefix path engineerWrite))
  || (bool_decide (role = RoleService)
      && (bool_decide (is_read method) || hasAnyPrefix path serviceWrite)).

Lemma roles_allowed_step principal method path role rest :
  role ≠ RoleUser →
  roles_allowed principal method path (role :: rest)
  = role_grants method path role || roles_allowed principal method path rest.
Proof.
  intros Hne. cbn [roles_allowed]. unfold role_grants.
  case_decide as Ha; [by rewrite bool_decide_eq_true_2|rewrite (bool_decide_eq_false_2 _ Ha)].
  rewrite (decide_False _ _ Hne). case_decide as Hv.
  - subst role. rewrite (bool_decide_eq_false_2 (RoleViewer = RoleEngineer)) by done.
    rewrite (bool_decide_eq_false_2 (RoleViewer = RoleService)) by done.
    case_decide; [by rewrite bool_decide_eq_true_2|by rewrite bool_decide_eq_false_2 by tauto].
  - rewrite (bool_decide_eq_false_2 (role = RoleViewer ∧ _)) by tauto.
    case_decide as He.
    + subst role. rewrite (bool_decide_eq_false_2 (RoleEngineer = RoleService)) by done.
      rewrite (bool_decide_eq_true_2 (RoleEngineer = RoleEngineer)) by done.
      by destruct (bool_decide (is_read method) || hasAnyPrefix path engineerWrite).
    + rewrite (bool_decide_eq_false_2 (role = RoleEngineer)) by done.
      case_decide as Hs; [rewrite (bool_decide_eq_true_2 (role = RoleService)) by done|
                          by rewrite (bool_decide_eq_false_2 (role = RoleService))].
      by destruct (bool_decide (is_read method) || hasAnyPrefix path serviceWrite).
Qed.

(** The loop reads the roles up to the first [user], which decides. *)
Lemma roles_allowed_split principal method path before after :
  RoleUser ∉ before →
  roles_allowed principal method path (before ++ RoleUser :: after)
  = existsb (role_grants method path) before || user_allowed principal method path.
Proof.
  induction before as [|role before IH]; intros Hn; [done|].
  apply not_elem_of_cons in Hn as [Hne Hn].
  cbn [app existsb]. rewrite roles_allowed_step by done. by rewrite IH, orb_assoc.
Qed.

Lemma roles_allowed_no_user principal method path roles :
  RoleUser ∉ roles →
  roles_allowed principal method path roles = existsb (role_grants method path) roles.
Proof.
  induction roles as [|role roles IH]; intros Hn; [done|].
  apply not_elem_of_cons in Hn as [Hne Hn].
  cbn [existsb]. rewrite roles_allowed_step by done. by rewrite IH.
Qed.

(** The roles before the first [user]. *)
Fixpoint before_user (roles : list string) : list string :=
  match roles with
  | [] => []
  | role :: rest => if decide (role = RoleUser) then [] else role :: before_user rest
  end.

Lemma before_user_split roles :
  RoleUser ∈ roles → ∃ after, roles = (before_user roles ++ RoleUser :: after)%list
                              ∧ RoleUser ∉ before_user roles.
Proof.
  induction roles as [|role roles IH]; intros Hin; [by apply not_elem_of_nil in Hin|].
  simpl. case_decide as Hr; [subst; exists roles; split; [done|apply not_elem_of_nil]|].
  apply elem_of_cons in Hin as [?|Hin]; [done|].
  destruct (IH Hin) as (after&Heq&Hn). exists after. split; [by simpl; rewrite <- Heq|].
  apply not_elem_of_cons. split; [done|done].
Qed.

Lemma HasPrefix_longer s p q : HasPrefix s (p ++ q) = true → HasPrefix s p = true.
Proof.
  intros [t ->]%HasPrefix_spec. apply HasPrefix_spec. exists (q ++ t). by rewrite str_app_assoc.
Qed.

Lemma unguarded_outside path area :
  unguarded path → area ∈ ["v1/admin/"; "v1/settings/"] → HasPrefix path ("/api/" ++ area) = false.
Proof.
  intros Hu Ha. destruct (HasPrefix path ("/api/" ++ area)) eqn:Hp; [|done].
  destruct Hu as [Hn|Hpath]; [by rewrite (HasPrefix_longer _ _ _ Hp) in Hn|].
  exfalso. rewrite !elem_of_cons in Ha.
  destruct Hpath as [->| ->], Ha as [->|[->|[]%not_elem_of_nil]]; done.
Qed.

(** The principal of a personal API token. *)
Definition token_principal (token : APIToken) : Principal :=
  zero <|pr_Subject := tok_Subject token|> <|pr_Roles := [RoleUser]|>
       <|pr_Services := tok_Services token|> <|pr_ProjectIDs := tok_ProjectIDs token|>
       <|pr_Provisioned := true|> <|pr_Credential := "api_token"|>.

(** What a scoped token may reach on the API: the services of its scope (to
    write, only their write paths, never the machines' reports) and the pages
    every signed-in caller has. *)
Definition token_reach (services : list string) (method path : string) : Prop :=
  blog_read method path ∨ path = "/api/v1/me"
  ∨ (path = "/api/v1/access-requests" ∧ (method = "GET" ∨ method = "POST"))
  ∨ (serviceForPath path ∈ services ∧ serviceForPath path ≠ ""
     ∧ (is_read method ∨ hasAnyPrefix path userWrite = true ∧ machineReportingPath path = false)).

Lemma user_allowed_spec principal method path :
  user_allowed principal method path = true
  ↔ path = "/api/v1/me"
    ∨ (pr_Provisioned principal = true
       ∧ serviceForPath path ∈ pr_Services principal ∧ serviceForPath path ≠ ""
       ∧ (is_read method ∨ hasAnyPrefix path userWrite = true ∧ machineReportingPath path = false)).
Proof.
  unfold user_allowed. case_decide as Hme; [naive_solver|].
  destruct (decide (is_read method)) as [Hr|Hr].
  - rewrite !bool_decide_eq_true_2 by done. simpl.
    rewrite !andb_true_iff, hasService_spec. naive_solver.
  - rewrite !bool_decide_eq_false_2 by done. simpl.
    destruct (machineReportingPath path); [naive_solver|].
    rewrite !andb_true_iff, hasService_spec. naive_solver.
Qed.

Lemma Allowed_token token method path :
  Allowed (token_principal token) method path = true →
  HasPrefix path "/api/v1/admin/" = false ∧ (HasPrefix path "/api/v1/settings/" = true → blog_read method path)
  ∧ token_reach (tok_Services token) method path.
Proof.
  unfold Allowed. simpl.
  destruct (HasPrefix path "/api/v1/admin/"); [done|].
  case_decide as Hb; [intros _; split_and!; [done|done|by left]|].
  destruct (HasPrefix path "/api/v1/settings/"); [done|].
  case_decide as Hr; [intros _; split_and!; [done..|by right; right; left]|].
  intros [Hme|(_&Hs)]%user_allowed_spec; split_and!; try done.
  - by right; left.
  - by right; right; right.
Qed.

Section chain_facts.
Context `{AuthEnv} {A : Type}.

(** A request with a personal token is its token's principal to the rest of the
    chain, or is refused. *)
Lemma token_chain (tokens : APITokenResolver) grants (next : request → response A) r :
  HasPrefix (bearer_of r) "nxs_" = true →
  APITokenMiddleware tokens (Middleware (RBACWithResolver grants next)) r
  = match tokens (bearer_of r) with
    | Err _ => Denied 401 "invalid API token"
    | Ok token =>
        let r' := WithPrincipal (token_principal token) r in
        if decide (unguarded (rq_path r)) then next r' else
        if Allowed (token_principal token) (rq_method r) (rq_path r)
        then next (WithPrincipal (token_principal token) r')
        else Denied 403 "access is not provisioned for this service"
    end.
Proof.
  intros Hp. unfold APITokenMiddleware. cbv zeta. rewrite Hp. simpl.
  destruct (tokens _) as [token|e]; [|done]. fold (token_principal token).
  unfold Middleware. simpl. 
  assert (∀ r0 : request, rq_principal r0 = Some (token_principal token) →
    rq_path r0 = rq_path r → rq_method r0 = rq_method r →
    RBACWithResolver grants next r0
    = if decide (unguarded (rq_path r)) then next r0 else
      if Allowed (token_principal token) (rq_method r) (rq_path r)
      then next (WithPrincipal (token_principal token) r0)
      else Denied 403 "access is not provisioned for this service") as Hrbac.
  { intros r0 Hr0 Hpath Hm. unfold RBACWithResolver. rewrite Hr0, Hpath, Hm. simpl.
    assert (resolved grants (token_principal token) = token_principal token) as ->.
    { unfold resolved. destruct grants; [|done]. rewrite decide_False; [done|].
      by intros (_&_&?). }
    case_decide; [done|]. by destruct (Allowed _ _ _). }
  destruct (publicPath _ _); by apply Hrbac.
Qed.
End chain_facts.

(** ** Properties *)


(** C17: through the whole chain, a request that presents a personal API token is
    served only if the repository resolves the token, and then as a principal
    with exactly the token's scopes, outside the administration and settings
    areas and, on guarded paths, within the reach of those scopes. *)
Theorem api_token_confined `{AuthEnv} tokens grants r r' :
  HasPrefix (bearer_of r) "nxs_" = true →
  APITokenMiddleware tokens (Middleware (RBACWithResolver grants Served)) r = Served r' →
  ∃ token, tokens (bearer_of r) = Ok token ∧ rq_principal r' = Some (token_principal token)
    ∧ HasPrefix (rq_path r) "/api/v1/admin/" = false
    ∧ (HasPrefix (rq_path r) "/api/v1/settings/" = true → blog_read (rq_method r) (rq_path r))
    ∧ (unguarded (rq_path r) ∨ token_reach (tok_Services token) (rq_method r) (rq_path r)).
Proof.
  intros Hp. rewrite token_chain by done.
  destruct (tokens (bearer_of r)) as [token|e]; [|done]. cbv zeta. case_decide as Hu.
  - intros [= <-]. exists token. split_and!; [done|done|..|by left].
    + apply (unguarded_outside _ "v1/admin/"); [done|left].
    + intros Hs. exfalso.
      assert (HasPrefix (rq_path r) "/api/v1/settings/" = false) as Hn; [|congruence].
      apply (unguarded_outside _ "v1/settings/"); [done|right; left].
  - destruct (Allowed _ _ _) eqn:Ha; [|done]. intros [= <-].
    apply Allowed_token in Ha as (?&?&?). exists token. by split_and!; [..|right].
Qed.

(** The administrator's grants play no part for a personal token: whatever
    they say, suspension included, the chain answers the same. *)
Theorem grants_ignore_tokens `{AuthEnv} {A} tokens grants (next : request → response A) r :
  HasPrefix (bearer_of r) "nxs_" = true →
  APITokenMiddleware tokens (Middleware (RBACWithResolver (Some grants) next)) r
  = APITokenMiddleware tokens (Middleware (RBACWithResolver None next)) r.
Proof. intros Hp. by rewrite !token_chain. Qed.

(** An authenticated person whose grant is suspended is refused on every
    guarded path, and one without a grant reaches as a [user] nothing but the
    public blog, the own profile, the access requests and the settings. *)
Theorem provisioning_required `{AuthEnv} {A} grants (next : request → response A) r principal :
  rq_principal r = Some principal → ¬ unguarded (rq_path r) →
  pr_Subject principal ≠ "" → RoleService ∉ pr_Roles principal →
  pr_Credential principal ≠ "api_token" →
  (∀ roles services projects,
     grants (pr_Subject principal) = Some (roles, services, projects, true) →
     RBACWithResolver (Some grants) next r
     = Denied 403 "access is not provisioned for this service")
  ∧ (grants (pr_Subject principal) = None → pr_Roles principal = [RoleUser] →
     pr_Provisioned principal = false →
     RBACWithResolver (Some grants) next r ≠ Denied 403 "access is not provisioned for this service" →
     blog_read (rq_method r) (rq_path r) ∨ rq_path r = "/api/v1/me"
     ∨ HasPrefix (rq_path r) "/api/v1/settings/" = true ∨ rq_path r = "/api/v1/access-requests").
Proof.
  intros Hpr Hg Hs Hr Hc. unfold RBACWithResolver. rewrite decide_False, Hpr by done. simpl.
  rewrite decide_True by (split_and!; [done| |done]; by apply bool_decide_eq_false).
  split.
  - intros roles services projects ->. simpl. unfold Allowed. done.
  - intros -> Hroles Hprov Hden. revert Hden. unfold Allowed.
    destruct (pr_Disabled principal); [done|].
    destruct (HasPrefix (rq_path r) "/api/v1/admin/").
    { unfold hasRole. by rewrite Hroles. }
    case_decide; [by left|].
    destruct (HasPrefix (rq_path r) "/api/v1/settings/"); [by right; right; left|].
    case_decide as Hreq; [intros _; right; right; right; apply Hreq|].
    rewrite Hroles. simpl.
    destruct (user_allowed principal _ _) eqn:Hu; [|done]. intros _.
    apply user_allowed_spec in Hu as [Hme|[Hp _]]; [by right; left|congruence].
Qed.

(** The order of a principal's roles matters: an unprovisioned principal with
    the roles [user] then [admin] is refused what the same principal with the
    roles in the other order is granted. *)
Theorem role_order_matters principal :
  pr_Disabled principal = false → pr_Provisioned principal = false →
  let path := "/api/v1/models" in
  Allowed (principal <|pr_Roles := [RoleAdmin; RoleUser]|>) "POST" path = true
  ∧ Allowed (principal <|pr_Roles := [RoleUser; RoleAdmin]|>) "POST" path = false.
Proof.
  intros Hd Hp path. unfold Allowed, path. simpl. rewrite Hd. split; [done|].
  unfold user_allowed. simpl. by rewrite Hp.
Qed.

(** ** Witnesses *)

Definition plain_env : AuthEnv := {|
  env_internal_token := "s3cret"; env_local_role := "viewer"; config_tenant := "";
  jwt_claims := λ raw, if decide (raw = "jwt") then
    Some (mkClaims "bob" "bob@example.com" "" ["user"] [] []) else None
|}.

Definition runs_token : APIToken :=
  mkAPIToken "tok-1" "alice" "ci" "nxs_1" "" ["pipelines"] ["prj-demo"] 0%Z 1%Z None None.

Definition token_store : APITokenResolver :=
  λ secret, if decide (secret = "nxs_1_abc") then Ok runs_token else Err ErrNotFound.

Definition suspended : AccessResolver := λ _, Some ([RoleUser], ["pipelines"], [], true).

Definition list_runs : request :=
  mkRequest "GET" "/api/v1/pipelines/runs" "Bearer nxs_1_abc" ∅ "/api/v1/pipelines/runs" None.

Lemma api_token_confined_witness :
  ∃ r' token,
    APITokenMiddleware token_store
      (Middleware (H := plain_env) (RBACWithResolver (H := plain_env) (Some suspended) Served))
      list_runs = Served r'
    ∧ token_store (bearer_of list_runs) = Ok token ∧ rq_principal r' = Some (token_principal token).
Proof.
  set (r' := WithPrincipal (token_principal runs_token)
               (WithPrincipal (token_principal runs_token) list_runs)).
  destruct (api_token_confined (H := plain_env) token_store (Some suspended) list_runs r')
    as (token&Ht&Hp&_); [vm_compute; reflexivity|vm_compute; reflexivity|].
  exists r', token. split; [vm_compute; reflexivity|]. split; [exact Ht|exact Hp].
Defined.

Lemma grants_ignore_tokens_witness :
  APITokenMiddleware token_store
    (Middleware (H := plain_env) (RBACWithResolver (H := plain_env) (Some suspended) Served)) list_runs
  = APITokenMiddleware token_store
      (Middleware (H := plain_env) (RBACWithResolver (H := plain_env) None Served)) list_runs.
Proof. apply (grants_ignore_tokens (H := plain_env)). vm_compute. reflexivity. Defined.

Definition bob : Principal := zero <|pr_Subject := "bob"|> <|pr_Roles := [RoleUser]|>.

Lemma provisioning_required_witness :
  RBACWithResolver (H := plain_env) (A := request) (Some suspended) Served
    (WithPrincipal bob list_runs) = Denied 403 "access is not provisioned for this service".
Proof.
  eapply (provisioning_required (H := plain_env) suspended Served (WithPrincipal bob list_runs) bob).
  - reflexivity.
  - vm_compute. intros [?|[?|?]]; discriminate.
  - discriminate.
  - vm_compute. intros Hin. inversion Hin as [|? ? ? Hin']; inversion Hin'.
  - discriminate.
  - reflexivity.
Defined.

Lemma role_order_matters_witness :
  Allowed (bob <|pr_Roles := [RoleAdmin; RoleUser]|>) "POST" "/api/v1/models" = true
  ∧ Allowed (bob <|pr_Roles := [RoleUser; RoleAdmin]|>) "POST" "/api/v1/models" = false.
Proof. apply (role_order_matters bob); reflexivity. Defined.
