(* ===== verification/HttpAccess.v ===== *)
(** * Per-caller access to the repository (internal/httpapi/access.go)

    Which projects, buckets and resources a caller may touch, the filters of
    the collection pages and the quotas.  The code reads the repository through
    its interface: [Repository] is the part of it that is read here, and the
    state of the store implements it. *)

From S2P Require Import Prelude GoStrings Types World Access Projects Pipelines Runs Models.
From S2P Require Import Agents Registry Auth.

Open Scope string_scope.

(** ** The repository interface *)

Class Repository (D : Type) := {
  repo_AccessFor : D → string → option UserAccess;
  repo_Projects : D → list Project;
  repo_Runs : D → list PipelineRun;
  repo_PipelineDefinitions : D → list PipelineDefinition;
  repo_Functions : D → list Function;
  repo_Models : D → list Model;
  repo_Agents : D → list Agent;
  repo_Tools : D → list Tool;
  repo_FeatureViews : D → list FeatureView;
  repo_Connections : D → list Connection
}.

#[export] Instance state_repository : Repository state := {|
  repo_AccessFor d subject :=
    snd <$> list_find (λ access, ua_Subject access = subject) (st_UserAccess d);
  repo_Projects := st_Projects;
  repo_Runs := st_Runs;
  repo_PipelineDefinitions := st_Definitions;
  repo_Functions := st_Functions;
  repo_Models := st_Models;
  repo_Agents := st_Agents;
  repo_Tools := st_Tools;
  repo_FeatureViews := st_Features;
  repo_Connections := st_Connections
|}.

(** ** Access *)

Definition privileged (value : Principal) : bool :=
  hasRole value RoleAdmin || hasRole value RoleOperator || hasRole value RoleService.

(** A map from identifiers to true; [None] is Go's nil map, which the callers
    read as "every project". *)
Definition projects_map : Type := option (gset string).

Section access.
Context `{Repository D}.
Implicit Types (repository : D) (value : Principal) (allowed : projects_map).

(** The callers the limits apply to. *)
Definition limited value : Prop := privileged value = false ∧ hasRole value RoleUser = true.
#[export] Instance limited_dec value : Decision (limited value).
Proof. unfold limited. apply _. Defined.

Definition accessFor repository value : option UserAccess :=
  if privileged value then None else repo_AccessFor repository (pr_Subject value).

Definition allowedProjectIDs repository value : projects_map :=
  if decide (¬ limited value) then None else
  let allowed := list_to_set (pr_ProjectIDs value) in
  if decide (pr_Credential value = "api_token") then Some allowed else
  Some (allowed ∪ list_to_set
    (prj_ID <$> filter (λ p, prj_OwnerSubject p = pr_Subject value) (repo_Projects repository))).

Definition projectAllowed repository value (projectID : string) : bool :=
  match allowedProjectIDs repository value with
  | None => true
  | Some allowed => bool_decide (projectID ∈ allowed)
  end.

(** ** Collections *)

Definition filterProjects (items : list Project) value : list Project :=
  if hasRole value RoleUser then
    filter (λ item, prj_ID item ∈ pr_ProjectIDs value
                    ∨ prj_OwnerSubject item = pr_Subject value) items
  else items.

(** [filterRuns], [filterPipelineDefinitions], [filterFunctions],
    [filterModels] and [filterAgents] differ in the type of the items only. *)
Definition filter_by_project {A} (project : A → string) (items : list A) allowed : list A :=
  match allowed with
  | None => items
  | Some allowed => filter (λ item, project item ∈ allowed) items
  end.

Definition filterRuns : list PipelineRun → projects_map → list PipelineRun :=
  filter_by_project run_ProjectID.
Definition filterPipelineDefinitions
    : list PipelineDefinition → projects_map → list PipelineDefinition :=
  filter_by_project pd_ProjectID.
Definition filterFunctions : list Function → projects_map → list Function :=
  filter_by_project fn_ProjectID.
Definition filterModels : list Model → projects_map → list Model :=
  filter_by_project mdl_ProjectID.
Definition filterAgents : list Agent → projects_map → list Agent :=
  filter_by_project agt_ProjectID.

(** ** Single resources *)

Definition modelAllowed repository value (modelID : string) : bool :=
  match list_find (λ m, mdl_ID m = modelID) (repo_Models repository) with
  | Some (_, m) => projectAllowed repository value (mdl_ProjectID m)
  | None => false
  end.

Definition agentAllowed repository value (agentID : string) : bool :=
  match list_find (λ a, agt_ID a = agentID) (repo_Agents repository) with
  | Some (_, a) => projectAllowed repository value (agt_ProjectID a)
  | None => false
  end.

Definition functionAllowed repository value (name : string) : bool :=
  match list_find (λ f, fn_Name f = name) (repo_Functions repository) with
  | Some (_, f) => projectAllowed repository value (fn_ProjectID f)
  | None => privileged value
  end.

Definition storageAllowed repository value (bucket : string) : bool :=
  if decide (¬ limited value) then true else
  match repo_AccessFor repository (pr_Subject value) with
  | None => false
  | Some access =>
      if decide (sg_SizeGB (ua_Storage access) = 0)%Z then false else
      if decide (bucket = "") then true
      else bool_decide (bucket ∈ sg_Buckets (ua_Storage access))
  end.

(** ** Quotas *)

Definition count {A} (P : A → Prop) `{∀ x, Decision (P x)} (items : list A) : Z :=
  Z.of_nat (length (filter P items)).

Definition quota_reached (what : string) (maximum : Z) : gerror :=
  ErrMsg (what ++ " quota reached (" ++ pretty maximum ++ ")").

Definition enforceProjectQuota repository value : option gerror :=
  if decide (¬ limited value) then None else
  match repo_AccessFor repository (pr_Subject value) with
  | None => Some (ErrMsg "no project capacity has been provisioned")
  | Some access =>
      let maximum := cg_MaxProjects (ua_Compute access) in
      if decide (maximum = 0)%Z
      then Some (ErrMsg "no project capacity has been provisioned") else
      let owned := count (λ p, prj_OwnerSubject p = pr_Subject value)
                     (repo_Projects repository) in
      if decide (maximum ≤ owned)%Z then Some (quota_reached "project" maximum) else None
  end.

Definition run_active (run : PipelineRun) : Prop :=
  run_Status run = "queued" ∨ run_Status run = "running".
#[export] Instance run_active_dec run : Decision (run_active run).
Proof. unfold run_active. apply _. Defined.

Definition enforceRunQuota repository value : option gerror :=
  if decide (¬ limited value) then None else
  match repo_AccessFor repository (pr_Subject value) with
  | None => Some (ErrMsg "no concurrent run capacity has been provisioned")
  | Some access =>
      let maximum := cg_MaxRuns (ua_Compute access) in
      if decide (maximum = 0)%Z
      then Some (ErrMsg "no concurrent run capacity has been provisioned") else
      let allowed := default ∅ (allowedProjectIDs repository value) in
      let active := count (λ run, run_ProjectID run ∈ allowed ∧ run_active run)
                      (repo_Runs repository) in
      if decide (maximum ≤ active)%Z then Some (quota_reached "concurrent run" maximum)
      else None
  end.

Definition enforceFunctionQuota repository value : option gerror :=
  if decide (¬ limited value) then None else
  match repo_AccessFor repository (pr_Subject value) with
  | None => Some (ErrMsg "no function capacity has been provisioned")
  | Some access =>
      let maximum := cg_MaxFunctions (ua_Compute access) in
      if decide (maximum = 0)%Z
      then Some (ErrMsg "no function capacity has been provisioned") else
      let owned := count (λ f, fn_OwnerSubject f = pr_Subject value)
                     (repo_Functions repository) in
      if decide (maximum ≤ owned)%Z then Some (quota_reached "function" maximum) else None
  end.

(** ** Token scopes (server.go) *)

Definition tokenScopesAllowed repository value (services projectIDs : list string) : bool :=
  if privileged value then true else
  bool_decide (services ⊆ pr_Services value)
  && forallb (projectAllowed repository value) projectIDs.
End access.
