(* ===== verification/Platform.v ===== *)
(** * Component health and the catalog (internal/platform/catalog.go)

    What the console shows of the platform: which components a checked
    connection vouches for, and the resources a caller can discover. *)

From S2P Require Import Prelude GoStrings Types World Pipelines HttpAccess.

Open Scope string_scope.

Record componentSpec := mkComponentSpec {
  spec_name : string;
  spec_category : string;
  spec_description : string;
  spec_types : list string
}.

Definition componentSpecs : list componentSpec := [
  mkComponentSpec "Pipeline Engine" "Orchestration"
    "Prefect (Compose) or Kubeflow Pipelines (Kubernetes)" ["prefect"; "kfp"; "kubeflow"];
  mkComponentSpec "Experiment Tracker" "ML lifecycle"
    "MLflow with PostgreSQL and S3 artifacts" ["mlflow"];
  mkComponentSpec "Feature Store" "Data"
    "Feast definitions with Redis online serving" ["feast"; "redis"];
  mkComponentSpec "Object Store" "Storage"
    "MinIO or an external S3-compatible store" ["s3"; "minio"];
  mkComponentSpec "Inference Engine" "Serving"
    "MLflow model serving (Compose) or KServe (Kubernetes)" ["serving"; "kserve"];
  mkComponentSpec "Agent Observability" "Agentic AI"
    "Langfuse for traces, prompts, and evaluations" ["langfuse"];
  mkComponentSpec "Streaming Broker" "Events"
    "Apache Kafka lifecycle and trace topics" ["kafka"];
  mkComponentSpec "Kubernetes" "Control plane"
    "Cluster for operator-managed workloads" ["kubernetes"]
].

(** The two maps of connection types: those configured and those healthy. *)
Definition configured_types (connections : list Connection) : gset string :=
  list_to_set (con_Type <$> connections).
Definition healthy_types (connections : list Connection) : gset string :=
  list_to_set (con_Type <$> filter (λ c, con_Status c = "healthy") connections).

(** The loop over a component's types: the first healthy one decides. *)
Fixpoint component_status (healthy configured : gset string) (status : string)
    (types : list string) : string :=
  match types with
  | [] => status
  | connectionType :: types =>
      if decide (connectionType ∈ healthy) then "healthy" else
      component_status healthy configured
        (if decide (connectionType ∈ configured) then "unhealthy" else status) types
  end.

Definition Components (connections : list Connection) : list Component :=
  let healthy := healthy_types connections in
  let configured := configured_types connections in
  mkComponent "API Gateway" "Control plane" "healthy"
    "Go REST gateway and unified platform contract" ""
  :: ((λ spec, mkComponent (spec_name spec) (spec_category spec)
                 (component_status healthy configured "not_configured" (spec_types spec))
                 (spec_description spec) "")
      <$> componentSpecs).

(** ** The catalog *)

Section catalog.
Context `{Repository D} `{MapOrder} (format_g : float64 → string).

(** [fmt.Sprintf("%s %.3g", name, value)] per metric, in the map's order. *)
Definition metric_text (metrics : gmap string float64) (name : string) : string :=
  name ++ " " ++ format_g (default zero (metrics !! name)).

Definition model_item (m : Model) : CatalogItem :=
  mkCatalogItem (mdl_Name m) (mdl_Version m)
    (if decide (mdl_Stage m = "") then "registered" else mdl_Stage m) "model"
    (metric_text (mdl_Metrics m) <$> map_order (mdl_Metrics m)).

Definition feature_item (view : FeatureView) : CatalogItem :=
  mkCatalogItem (fv_Name view) (fv_Entity view) (fv_Status view) "feature" (concat [
    [pretty (Z.of_nat (length (fv_Fields view))) ++ " fields"];
    (if decide (0 < fv_TTLSeconds view)%Z then ["TTL " ++ pretty (fv_TTLSeconds view) ++ "s"] else []);
    (if decide (0 < fv_OnlineEntityCount view)%Z
     then [pretty (fv_OnlineEntityCount view) ++ " entities online"] else [])]).

Definition agent_item (agent : Agent) : CatalogItem :=
  mkCatalogItem (agt_Name agent) (agt_Version agent) (agt_Status agent) "agent"
    [agt_LLMBackend agent; pretty (Z.of_nat (length (agt_Tools agent))) ++ " tools"].

Definition tool_item (tool : Tool) : CatalogItem :=
  mkCatalogItem (tool_Name tool) (tool_Version tool) (tool_Status tool) "tool" (tool_Tags tool).

(** [Catalog(scopedCatalog{repository, allowed})] *)
Definition Catalog (repository : D) (allowed : projects_map) : list CatalogItem :=
  concat [model_item <$> filterModels (repo_Models repository) allowed;
          feature_item <$> repo_FeatureViews repository;
          agent_item <$> filterAgents (repo_Agents repository) allowed;
          tool_item <$> repo_Tools repository].
End catalog.

(** ** Properties *)

Lemma component_status_spec healthy configured status types :
  component_status healthy configured status types
  = if decide (Exists (λ t, t ∈ healthy) types) then "healthy" else
    if decide (Exists (λ t, t ∈ configured) types) then "unhealthy" else status.
Proof.
  revert status. induction types as [|t types IH]; intros status; cbn [component_status].
  - rewrite (decide_False (P := Exists _ _)) by by intros ?%Exists_nil.
    by rewrite (decide_False (P := Exists _ _)) by by intros ?%Exists_nil.
  - rewrite IH, (decide_ext _ _ _ _ (Exists_cons (λ t, t ∈ healthy) t types)),
      (decide_ext _ _ _ _ (Exists_cons (λ t, t ∈ configured) t types)).
    repeat case_decide; tauto.
Qed.

(** A component is shown healthy exactly when a connection of one of its
    types has passed its health check, unhealthy when none has but one exists,
    and not configured when there is no such connection. *)
Theorem component_health connections component :
  component ∈ Components connections →
  component = mkComponent "API Gateway" "Control plane" "healthy"
                "Go REST gateway and unified platform contract" ""
  ∨ ∃ spec, spec ∈ componentSpecs ∧ cmp_Name component = spec_name spec
    ∧ cmp_Status component
      = if decide (Exists (λ c, con_Type c ∈ spec_types spec ∧ con_Status c = "healthy") connections)
        then "healthy" else
        if decide (Exists (λ c, con_Type c ∈ spec_types spec) connections) then "unhealthy"
        else "not_configured".
Proof.
  intros [->|(spec&->&Hspec)%list_elem_of_fmap]%elem_of_cons; [by left|right].
  exists spec. split_and!; [done..|]. simpl. rewrite component_status_spec.
  assert (Exists (λ t, t ∈ healthy_types connections) (spec_types spec)
          ↔ Exists (λ c, con_Type c ∈ spec_types spec ∧ con_Status c = "healthy") connections) as Hh.
  { unfold healthy_types. rewrite !Exists_exists. setoid_rewrite elem_of_list_to_set.
    setoid_rewrite list_elem_of_fmap. setoid_rewrite list_elem_of_filter. naive_solver. }
  assert (Exists (λ t, t ∈ configured_types connections) (spec_types spec)
          ↔ Exists (λ c, con_Type c ∈ spec_types spec) connections) as Hc.
  { unfold configured_types. rewrite !Exists_exists. setoid_rewrite elem_of_list_to_set.
    setoid_rewrite list_elem_of_fmap. naive_solver. }
  by rewrite (decide_ext _ _ _ _ Hh), (decide_ext _ _ _ _ Hc).
Qed.

Lemma component_health_witness :
  let connections := [zero <|con_Type := "minio"|> <|con_Status := "unhealthy"|>;
                      zero <|con_Type := "s3"|> <|con_Status := "healthy"|>] in
  cmp_Status <$> Components connections
    = ["healthy"; "not_configured"; "not_configured"; "not_configured"; "healthy";
       "not_configured"; "not_configured"; "not_configured"; "not_configured"]
  ∧ ∃ spec, spec ∈ componentSpecs ∧ "Object Store" = spec_name spec.
Proof.
  intros connections. split; [vm_compute; reflexivity|].
  destruct (component_health connections
    (mkComponent "Object Store" "Storage" "healthy" "MinIO or an external S3-compatible store" ""))
    as [Heq|(spec&Hspec&Hname&_)].
  - vm_compute. do 4 right. left.
  - discriminate Heq.
  - exists spec. split; [exact Hspec|exact Hname].
Defined.
