(* ===== verification/Integrations.v ===== *)
(** * Clients of other services (internal/integrations/client.go)

    The HTTP clients for Kubeflow, MLflow, Langfuse, Prefect, OpenFaaS and the
    Kafka REST proxy.  [Net] is what they ask of the network and of
    [encoding/json]; everything between a caller's arguments and the bytes of a
    request, and between a response and the caller's result, is defined here. *)

From Stdlib Require Import Ascii.
From S2P Require Import Prelude GoStrings Types World.

Open Scope string_scope.

(** ** Path segments

    [url.PathEscape]: letters, digits and the bytes [-_.~$&+=:@] stand for
    themselves, any other byte is a percent sign and two hexadecimal digits. *)
Definition unreserved : string := "-_.~$&+=:@".

Definition plain_byte (a : ascii) : bool :=
  is_lower a || is_upper a || is_digit a || contains_byte a unreserved.

Definition escape_byte (a : ascii) : string :=
  if plain_byte a then String a "" else
  let n := N_of_ascii a in
  String "%" (String (upper_hex (n / 16)) (String (upper_hex (n mod 16)) "")).

Fixpoint PathEscape (s : string) : string :=
  match s with EmptyString => "" | String a s' => escape_byte a ++ PathEscape s' end.

(** A server's reading of a path segment, for upper-case escapes. *)
Definition hex_value (a : ascii) : N :=
  let n := N_of_ascii a in (if n <? 65 then n - 48 else n - 55)%N.

Fixpoint unescape (s : string) : string :=
  match s with
  | String "%" (String h (String l s')) =>
      String (ascii_of_N (16 * hex_value h + hex_value l)) (unescape s')
  | String a s' => String a (unescape s')
  | EmptyString => ""
  end.

(** ** The network *)

Record http_request := mkHttpRequest {
  hr_Method : string;
  hr_URL : string;
  hr_Headers : list (string * string);
  hr_Body : option string
}.
#[export] Instance zero_http_request : Zero http_request := mkHttpRequest "" "" [] None.

(** The status, the body up to the limit the reader sets, and the call id header. *)
Record http_response := mkHttpResponse {
  hp_StatusCode : Z;
  hp_Body : string;
  hp_CallID : string
}.

Class Net := {
  (** [http.NewRequest] and [http.Client.Do]: the response, or their error. *)
  http_do : nat → http_request → result http_response;
  (** [json.Marshal]. *)
  json_value : any → option string;
  (** [json.Unmarshal] of an object's [id], of any value, of a list of functions. *)
  json_id : string → result string;
  json_any : string → option any;
  json_functions : string → result (list (string * string * Z));
  (** [base64] of the user and password. *)
  basic_auth : string → string → string
}.

(** [io.LimitReader]. *)
Fixpoint first_bytes (n : N) (s : string) : string :=
  match s with
  | EmptyString => ""
  | String a s' => if (n =? 0)%N then "" else String a (first_bytes (N.pred n) s')
  end.

Definition error_limit : N := 4096.
Definition body_limit : N := 4194304.

(** ** The generic client *)

Record Client := mkClient { cl_BaseURL : string; cl_Token : string }.

Definition new_client (baseURL token : string) : Client :=
  mkClient (TrimRightByte "/" baseURL) token.

Definition status_ok (status : Z) : Prop := (200 ≤ status < 300)%Z.

Definition not_configured : gerror := ErrMsg "integration base URL is not configured".

Section clients.
Context `{Net}.

(** [Client.JSON]: the decoded body of a successful response; [decode] is [None] for a
    nil output.  A response without content leaves the output as it was. *)
Definition client_JSON {A} `{Zero A} (c : Client) (method path : string) (input : option any)
    (decode : option (string → result A)) : M (result A) :=
  if decide (cl_BaseURL c = "") then mret (Err not_configured) else
  match match input with None => Some None | Some v => Some <$> json_value v end with
  | None => mret (Err (ErrIO "json"))
  | Some body =>
      let headers := ("Content-Type", "application/json")
        :: (if decide (cl_Token c = "") then []
            else [("Authorization", "Bearer " ++ cl_Token c)]) in
      response ← ask (λ k, http_do k (mkHttpRequest method (cl_BaseURL c ++ path) headers body));
      mret (match response with
            | Err e => Err e
            | Ok response =>
                if decide (¬ status_ok (hp_StatusCode response))
                then Err (ErrMsg ("integration returned " ++ pretty (hp_StatusCode response) ++ ": "
                       ++ TrimSpace (first_bytes error_limit (hp_Body response))))
                else match decode with
                     | None => Ok zero
                     | Some decode =>
                         if decide (hp_StatusCode response = 204)%Z then Ok zero
                         else decode (first_bytes body_limit (hp_Body response))
                     end
            end)
  end.

(** ** Kubeflow, MLflow, Langfuse *)

Definition decode_any (raw : string) : result any :=
  match json_any raw with Some v => Ok v | None => Err (ErrIO "json") end.

#[local] Instance zero_any : Zero any := ANull.

(** [inputs]: the parameters in an order of Go's choosing, given as a list. *)
Definition kfp_Submit (c : Client) (experimentID pipelineVersionID name : string)
    (parameters : list (string * string)) : M (result any) :=
  let inputs := (λ p, AObj [("name", AStr p.1); ("value", AStr p.2)]) <$> parameters in
  client_JSON c "POST" "/apis/v2beta1/runs" (Some (AObj [
    ("display_name", AStr name); ("experiment_id", AStr experimentID);
    ("pipeline_version_reference", AObj [("pipeline_version_id", AStr pipelineVersionID)]);
    ("runtime_config", AObj [("parameters", AList inputs)])])) (Some decode_any).

Definition mlflow_TransitionStage (c : Client) (name version stage : string) : M (result any) :=
  client_JSON c "POST" "/api/2.0/mlflow/model-versions/transition-stage" (Some (AObj [
    ("name", AStr name); ("version", AStr version); ("stage", AStr stage);
    ("archive_existing_versions", ABool (bool_decide (stage = "Production")))])) (Some decode_any).

Definition langfuse_Ingest (c : Client) (batch : list any) : M (result any) :=
  client_JSON c "POST" "/api/public/ingestion" (Some (AObj [("batch", AList batch)])) (Some decode_any).

(** ** Prefect *)

Definition TrimSuffix (s p : string) : string :=
  if HasSuffix s p then String.substring 0 (String.length s - String.length p) s else s.

(** [NewPrefect]: the server's URL, with or without its [/api]. *)
Definition NewPrefect (baseURL token : string) : Client :=
  new_client (TrimSuffix (TrimRightByte "/" baseURL) "/api") token.

Definition CreateFlowRun (c : Client) (flowName deploymentName runName : string)
    (parameters : any) : M (result string) :=
  deployment ← client_JSON c "GET" ("/api/deployments/name/" ++ PathEscape flowName ++ "/"
                               ++ PathEscape deploymentName) None (Some json_id);
  match deployment with
  | Err e => mret (Err (match e with
      | ErrMsg m | ErrIO m => ErrMsg ("prefect deployment " ++ flowName ++ "/" ++ deploymentName
                                ++ " not found: " ++ m)
      | e => e end))
  | Ok deployment =>
      flowRun ← client_JSON c "POST" ("/api/deployments/" ++ deployment ++ "/create_flow_run")
        (Some (AObj [("name", AStr runName); ("parameters", parameters)])) (Some json_id);
      mret (match flowRun with
            | Err e => Err e
            | Ok flowRun => if decide (flowRun = "")
                then Err (ErrMsg "prefect did not return a flow run id") else Ok flowRun
            end)
  end.

Definition CancelFlowRun (c : Client) (flowRunID : string) : M (result any) :=
  client_JSON c "POST" ("/api/flow_runs/" ++ PathEscape flowRunID ++ "/set_state")
    (Some (AObj [("state", AObj [("type", AStr "CANCELLING"); ("name", AStr "Cancelling")])]))
    (Some decode_any).

(** ** OpenFaaS *)

Record OpenFaaS := mkOpenFaaS { of_client : Client; of_user : string; of_password : string }.

Definition NewOpenFaaS (baseURL user password : string) : OpenFaaS :=
  mkOpenFaaS (new_client baseURL "") user password.

(** [Function]: what the provider is told of a function. *)
Record FunctionSpec := mkFunctionSpec {
  fs_Name : string;
  fs_Image : string;
  fs_Replicas : Z;
  fs_EnvVars : gmap string string;
  fs_Labels : gmap string string;
  fs_Annotations : gmap string string;
  fs_Limits : gmap string string;
  fs_Requests : gmap string string
}.

Definition map_json (m : gmap string string) : any := AObj (map_to_list (AStr <$> m)).

Definition faas_request (o : OpenFaaS) (method path : string) (body : option string)
    : M (result http_response) :=
  if decide (cl_BaseURL (of_client o) = "")
  then mret (Err (ErrMsg "openfaas base URL is not configured")) else
  let headers := app
    (match body with Some _ => [("Content-Type", "application/json")] | None => [] end)
    (if decide (of_user o = "") then []
     else [("Authorization", "Basic " ++ basic_auth (of_user o) (of_password o))]) in
  ask (λ k, http_do k (mkHttpRequest method (cl_BaseURL (of_client o) ++ path) headers body)).

Definition checked (response : result http_response) : result string :=
  match response with
  | Err e => Err e
  | Ok response =>
      let raw := first_bytes body_limit (hp_Body response) in
      if decide (¬ status_ok (hp_StatusCode response))
      then Err (ErrMsg ("openfaas returned " ++ pretty (hp_StatusCode response) ++ ": "
             ++ TrimSpace raw))
      else Ok raw
  end.

Definition faas_DeployFunction (o : OpenFaaS) (function : FunctionSpec) : M (result string) :=
  if decide (fs_Name function = "" ∨ fs_Image function = "")
  then mret (Err (ErrMsg "function name and image are required")) else
  match json_value (AObj [("service", AStr (fs_Name function)); ("image", AStr (fs_Image function));
          ("envVars", map_json (fs_EnvVars function)); ("labels", map_json (fs_Labels function));
          ("annotations", map_json (fs_Annotations function));
          ("limits", map_json (fs_Limits function)); ("requests", map_json (fs_Requests function))]) with
  | None => mret (Err (ErrIO "json"))
  | Some raw => response ← faas_request o "PUT" "/system/functions" (Some raw);
                mret (checked response)
  end.

Definition faas_DeleteFunction (o : OpenFaaS) (name : string) : M (result string) :=
  if decide (name = "") then mret (Err (ErrMsg "function name is required")) else
  match json_value (AObj [("functionName", AStr name)]) with
  | None => mret (Err (ErrIO "json"))
  | Some raw => response ← faas_request o "DELETE" "/system/functions" (Some raw);
                mret (checked response)
  end.

(** The names, images and replica counts of the deployed functions. *)
Definition faas_ListFunctions (o : OpenFaaS) : M (result (list (string * string * Z))) :=
  response ← faas_request o "GET" "/system/functions" None;
  mret (checked response ≫= json_functions).

Definition Invoke (o : OpenFaaS) (name payload : string) : M (result string) :=
  if decide (name = "") then mret (Err (ErrMsg "function name is required")) else
  response ← faas_request o "POST" ("/function/" ++ PathEscape name) (Some payload);
  mret (checked response).

Definition InvokeAsync (o : OpenFaaS) (name payload : string) : M (result string) :=
  if decide (name = "") then mret (Err (ErrMsg "function name is required")) else
  response ← faas_request o "POST" ("/async-function/" ++ PathEscape name) (Some payload);
  mret (match response with
        | Err e => Err e
        | Ok r => match checked response with Err e => Err e | Ok _ => Ok (hp_CallID r) end
        end).

(** ** Kafka *)

Definition kafka_Publish (c : Client) (topic : string) (event : any) : M (result any) :=
  if decide (topic = "") then mret (Err (ErrMsg "topic is required")) else
  client_JSON c "POST" ("/topics/" ++ PathEscape topic)
    (Some (AObj [("records", AList [AObj [("value", event)]])])) (Some decode_any).
End clients.

(** ** Properties *)

Lemma unescape_byte a s : unescape (escape_byte a ++ s) = String a (unescape s).
Proof. by destruct a as [[] [] [] [] [] [] [] []]. Qed.

(** The bytes an escaped segment is made of. *)
Definition segment_byte (a : ascii) : bool := plain_byte a || Ascii.eqb a "%".

Lemma escape_byte_segment a : all_bytes segment_byte (escape_byte a) = true.
Proof.
  apply (forall_bytes (λ a, all_bytes segment_byte (escape_byte a))). vm_compute. reflexivity.
Qed.

Lemma PathEscape_segment s : all_bytes segment_byte (PathEscape s) = true.
Proof.
  induction s as [|a s IH]; [done|]. simpl. by rewrite all_bytes_app, escape_byte_segment, IH.
Qed.

Lemma unescape_PathEscape s : unescape (PathEscape s) = s.
Proof. induction s as [|a s IH]; [done|]. simpl. by rewrite unescape_byte, IH. Qed.

(** A function's name cannot change which endpoint of the provider an
    invocation reaches: the invocation sends one request (none for an empty name
    or an unconfigured provider), to the provider's function path and then one
    segment without a slash, a question mark or a hash that reads back as the
    name, and the caller is given the answer to that request. *)
Theorem invoke_segment `{Net} o name payload w :
  let segment := PathEscape name in
  unescape segment = name
  ∧ contains_byte "/" segment = false ∧ contains_byte "?" segment = false
  ∧ contains_byte "#" segment = false
  ∧ (w_data (Invoke o name payload w).2 = w_data w)
  ∧ (Invoke o name payload w).1
    = (if decide (name = "") then Err (ErrMsg "function name is required") else
       if decide (cl_BaseURL (of_client o) = "")
       then Err (ErrMsg "openfaas base URL is not configured") else
       checked (http_do (w_tick w) (mkHttpRequest "POST"
         (cl_BaseURL (of_client o) ++ "/function/" ++ segment)
         (app [("Content-Type", "application/json")]
           (if decide (of_user o = "") then []
            else [("Authorization", "Basic " ++ basic_auth (of_user o) (of_password o))]))
         (Some payload)))).
Proof.
  intros segment. pose proof (PathEscape_segment name) as Hseg.
  split_and!; try (apply (all_bytes_contains segment_byte); [reflexivity|exact Hseg]).
  - apply unescape_PathEscape.
  - unfold Invoke, faas_request. run_M. by repeat (case_decide; simpl).
  - unfold Invoke, faas_request. run_M. by repeat (case_decide; simpl).
Qed.

(** A flow run is linked to a pipeline run by a non-empty identifier that
    Prefect gave: [CreateFlowRun] sends at most two requests, changes nothing in
    the store, and answers an error or the identifier of the second response. *)
Theorem flow_run_identified `{Net} c flow deployment runName parameters w :
  w_data (CreateFlowRun c flow deployment runName parameters w).2 = w_data w
  ∧ (w_tick w ≤ w_tick (CreateFlowRun c flow deployment runName parameters w).2 ≤ w_tick w + 2)%nat
  ∧ ∀ engineID, (CreateFlowRun c flow deployment runName parameters w).1 = Ok engineID →
      engineID ≠ "" ∧ cl_BaseURL c ≠ ""
      ∧ ∃ response, status_ok (hp_StatusCode response) ∧ hp_StatusCode response ≠ 204%Z
        ∧ json_id (first_bytes body_limit (hp_Body response)) = Ok engineID
        ∧ ∃ request, hr_Method request = "POST" ∧ http_do (S (w_tick w)) request = Ok response.
Proof.
  unfold CreateFlowRun, client_JSON, ask. run_M.
  destruct (decide (cl_BaseURL c = "")) as [|Hbase]; simpl; [split_and!; [done|lia..|done]|].
  destruct (http_do (w_tick w) _) as [first|e]; simpl; [|split_and!; [done|lia..|done]].
  case_decide; simpl; [split_and!; [done|lia..|done]|].
  set (id1 := if decide (hp_StatusCode first = 204)%Z then _ else _).
  destruct id1 as [d|e]; simpl; [|split_and!; [done|lia..|done]].
  destruct (json_value _) as [body|]; simpl; [|split_and!; [done|lia..|done]].
  destruct (http_do (S (w_tick w)) _) as [second|e] eqn:Hdo; simpl; [|split_and!; [done|lia..|done]].
  split_and!; [done|lia..|]. intros engineID.
  destruct (decide (¬ status_ok (hp_StatusCode second))) as [|Hok%dec_stable]; simpl; [done|].
  destruct (decide (hp_StatusCode second = 204)%Z); simpl.
  - done.
  - destruct (json_id _) as [f|e] eqn:Hid; simpl; [|done].
    destruct (decide (f = "")); [discriminate|]. intros [= <-]. split_and!; [done..|].
    exists second. split_and!; [done..|]. eexists. split; [|exact Hdo]. done.
Qed.
