(* ===== verification/Keys.v ===== *)
(** * The verifier's signing keys (internal/auth/auth.go)

    The RSA keys an identity provider publishes, kept for ten minutes and fetched
    again when a key is missing or the time is over; and the verification of a
    token with them, as the middleware uses it.  Parsing and checking a token is
    the JWT library's. *)

From Stdlib Require Import Ascii.
From S2P Require Import Prelude GoStrings Types World Tokens Auth Integrations.

Open Scope string_scope.

(** ** [base64.RawURLEncoding] *)

Definition sextet (a : ascii) : option N :=
  let n := N_of_ascii a in
  if is_upper a then Some (n - 65)%N else if is_lower a then Some (n - 71)%N else
  if is_digit a then Some (n + 4)%N else if byte_is 45 a then Some 62%N else
  if byte_is 95 a then Some 63%N else None.

(** The decoder passes over line ends. *)
Fixpoint without_newlines (s : string) : string :=
  match s with
  | EmptyString => ""
  | String a s => if byte_is 10 a || byte_is 13 a then without_newlines s else String a (without_newlines s)
  end.

Fixpoint decode_sextets (s : string) : option string :=
  match s with
  | EmptyString => Some ""
  | String a EmptyString => None
  | String a (String b EmptyString) =>
      a ← sextet a; b ← sextet b; Some (String (ascii_of_N (4 * a + b / 16)) "")
  | String a (String b (String c EmptyString)) =>
      a ← sextet a; b ← sextet b; c ← sextet c;
      Some (String (ascii_of_N (4 * a + b / 16)) (String (ascii_of_N (16 * (b mod 16) + c / 4)) ""))
  | String a (String b (String c (String d s))) =>
      a ← sextet a; b ← sextet b; c ← sextet c; d ← sextet d;
      rest ← decode_sextets s;
      Some (String (ascii_of_N (4 * a + b / 16)) (String (ascii_of_N (16 * (b mod 16) + c / 4))
        (String (ascii_of_N (64 * (c mod 4) + d)) rest)))
  end%N.

Definition base64url_decode (s : string) : option string := decode_sextets (without_newlines s).

(** ** Keys *)

(** [rsa.PublicKey]: its modulus and its exponent, an [int]. *)
Record public_key := mkPublicKey { pk_N : Z; pk_E : Z }.

(** [big.Int.SetBytes] *)
Definition big_endian (s : string) : Z :=
  foldl (λ n a, 256 * n + Z.of_N (N_of_ascii a))%Z 0%Z (String.list_ascii_of_string s).

(** [e = e<<8 + int(value)], in a machine's [int]. *)
Definition exponent_of (s : string) : Z :=
  foldl (λ e a, add64 (wrap64 (Z.shiftl e 8)) (Z.of_N (N_of_ascii a))) 0%Z (String.list_ascii_of_string s).

Record jwk := mkJwk { jwk_KID : string; jwk_KTY : string; jwk_N : string; jwk_E : string }.

Definition key_of (item : jwk) : option public_key :=
  if decide (jwk_KTY item ≠ "RSA") then None else
  modulus ← base64url_decode (jwk_N item);
  exponent ← base64url_decode (jwk_E item);
  Some (mkPublicKey (big_endian modulus) (exponent_of exponent)).

Definition add_key (keys : gmap string public_key) (item : jwk) : gmap string public_key :=
  match key_of item with Some key => <[jwk_KID item := key]> keys | None => keys end.

Definition keys_of (document : list jwk) : gmap string public_key := foldl add_key ∅ document.

(** ** The verifier *)

Record Config := mkConfig {
  cf_Issuer : string;
  cf_Audience : string;
  cf_JWKSURL : string;
  cf_Tenant : string
}.

Record Verifier := mkVerifier {
  vf_config : Config;
  vf_keys : gmap string public_key;
  (** The zero time for a new verifier. *)
  vf_expires : option Time
}.

(** [New] *)
Definition NewVerifier (config : Config) : Verifier := mkVerifier config ∅ None.

(** [encoding/json] on the provider's document, and the JWT library: the algorithm
    and the [kid] of a token that parses, and its claims if it is signed by a key,
    from an issuer, for an audience (any, if empty), and valid at a time. *)
Class JwtLibrary := {
  decode_jwks : string → result (list jwk);
  jwt_header : string → option (string * string);
  jwt_verified : string → public_key → string → string → Time → option Claims
}.

Definition key_lifetime : Z := 600000000000.

Section verifier.
Context `{Host} `{Net} `{JwtLibrary}.

Definition jwks_request (v : Verifier) : http_request := mkHttpRequest "GET" (cf_JWKSURL (vf_config v)) [] None.

(** The keys a provider's answer gives. *)
Definition keys_answered (response : result http_response) : result (gmap string public_key) :=
  match response with
  | Err e => Err e
  | Ok response =>
      if decide (hp_StatusCode response ≠ 200)%Z
      then Err (ErrMsg ("JWKS returned " ++ pretty (hp_StatusCode response))) else
      match decode_jwks (hp_Body response) with
      | Err e => Err e
      | Ok document =>
          if decide (keys_of document = ∅) then Err (ErrMsg "JWKS contained no usable RSA keys")
          else Ok (keys_of document)
      end
  end.

(** [refresh] *)
Definition refresh (v : Verifier) : M (option gerror * Verifier) :=
  response ← ask (λ k, http_do k (jwks_request v));
  match keys_answered response with
  | Err e => mret (Some e, v)
  | Ok keys => t ← now; mret (None, mkVerifier (vf_config v) keys (Some (t + key_lifetime)%Z))
  end.

Definition fresh (v : Verifier) (t : Time) : bool :=
  match vf_expires v with Some expires => bool_decide (t < expires)%Z | None => false end.

(** [key] *)
Definition key (v : Verifier) (kid : string) : M (result public_key * Verifier) :=
  t ← now;
  match vf_keys v !! kid, fresh v t with
  | Some key, true => mret (Ok key, v)
  | _, _ =>
      r ← refresh v;
      let '(err, v) := r in
      mret (match err with
            | Some e => Err e
            | None => match vf_keys v !! kid with
                      | Some key => Ok key
                      | None => Err (ErrMsg "signing key not found")
                      end
            end, v)
  end.

(** [jwt.ParseWithClaims], with the verifier's key function. *)
Definition parse_claims (v : Verifier) (raw : string) : M (option Claims * Verifier) :=
  match jwt_header raw with
  | None => mret (None, v)
  | Some (alg, kid) =>
      if decide (alg ≠ "RS256") then mret (None, v) else
      r ← key v kid;
      let '(found, v) := r in
      match found with
      | Err _ => mret (None, v)
      | Ok key =>
          t ← now;
          mret (jwt_verified raw key (cf_Issuer (vf_config v)) (cf_Audience (vf_config v)) t, v)
      end
  end.

(** The environment of the middleware at a request: the claims this verifier finds. *)
Definition verifier_env (secret role : string) (v : Verifier) (w : world) : AuthEnv := {|
  env_internal_token := secret;
  env_local_role := role;
  config_tenant := cf_Tenant (vf_config v);
  jwt_claims := λ raw, (parse_claims v raw w).1.1
|}.
End verifier.

(** ** Properties *)

Section properties.
Context `{Host} `{Net} `{JwtLibrary}.

(** The provider's answer to the [n]-th call holds the key, under its name. *)
Definition published (v : Verifier) (kid : string) (found : public_key) (n : nat) : Prop :=
  ∃ response document item,
    http_do n (jwks_request v) = Ok response ∧ hp_StatusCode response = 200%Z
    ∧ decode_jwks (hp_Body response) = Ok document
    ∧ item ∈ document ∧ jwk_KID item = kid ∧ key_of item = Some found.

Lemma keys_of_item document kid found :
  keys_of document !! kid = Some found → ∃ item, item ∈ document ∧ jwk_KID item = kid ∧ key_of item = Some found.
Proof.
  unfold keys_of. induction document as [|item document IH] using rev_ind; [cbn; by rewrite lookup_empty|].
  rewrite foldl_app. cbn [foldl]. unfold add_key at 1. destruct (key_of item) as [key'|] eqn:E.
  - intros [[<- <-]|[_ Hk]]%lookup_insert_Some; [by exists item; rewrite elem_of_app; set_solver|].
    destruct (IH Hk) as (i&?&?&?). exists i. rewrite elem_of_app. auto.
  - intros Hk. destruct (IH Hk) as (i&?&?&?). exists i. rewrite elem_of_app. auto.
Qed.

Lemma keys_answered_published v n keys kid found :
  keys_answered (http_do n (jwks_request v)) = Ok keys → keys !! kid = Some found → published v kid found n.
Proof.
  unfold keys_answered, published. destruct (http_do n (jwks_request v)) as [response|]; [|done].
  case_decide as Hs; [done|]. destruct (decode_jwks _) as [document|] eqn:Ed; [|done].
  case_decide; [done|]. intros [= <-] (item&?&?&?)%keys_of_item. exists response, document, item.
  split_and!; try done.
Qed.

(** What a verifier keeps, after calls before tick [bound]. *)
Definition kept_keys (v : Verifier) (bound : nat) : Prop :=
  vf_keys v = ∅ ∨
  ∃ n, (n < bound)%nat ∧ keys_answered (http_do n (jwks_request v)) = Ok (vf_keys v)
       ∧ vf_expires v = Some (clock (S n) + key_lifetime)%Z.

(** The verifiers of a process: new, and after any calls at any times. *)
Inductive used : Verifier → nat → Prop :=
  | used_new config n : used (NewVerifier config) n
  | used_key v n kid w : used v n → (n ≤ w_tick w)%nat → used (key v kid w).1.2 (w_tick (key v kid w).2).

Lemma refresh_step v w :
  let '((err, v'), w') := refresh v w in
  vf_config v' = vf_config v ∧ (w_tick w < w_tick w')%nat
  ∧ match err with
    | None => keys_answered (http_do (w_tick w) (jwks_request v)) = Ok (vf_keys v')
              ∧ vf_expires v' = Some (clock (S (w_tick w)) + key_lifetime)%Z
    | Some _ => v' = v
    end.
Proof.
  unfold refresh, now, ask. run_M. destruct (keys_answered _) eqn:E; simpl; split_and!; try done; lia.
Qed.

Lemma key_step v kid w :
  let '((found, v'), w') := key v kid w in
  vf_config v' = vf_config v ∧ (w_tick w ≤ w_tick w')%nat
  ∧ (kept_keys v (w_tick w) → kept_keys v' (w_tick w')
     ∧ ∀ k, found = Ok k →
       ∃ n, published v kid k n ∧ ((w_tick w ≤ n)%nat ∨ (clock (w_tick w) < clock (S n) + key_lifetime)%Z)).
Proof.
  unfold key, now, ask, mbind at 1, M_bind at 1. set (w1 := w <|w_tick := S (w_tick w)|>).
  assert (w_tick w1 = S (w_tick w)) as Hw1 by done.
  assert (∀ n m, (n ≤ m)%nat → kept_keys v n → kept_keys v m) as Hmono.
  { intros n m Hnm [?|(i&?&?&?)]; [by left|]. right. exists i. split_and!; try done. lia. }
  pose proof (refresh_step v w1) as Hr. unfold mbind, M_bind, mret, M_ret.
  destruct (refresh v w1) as [[err v'] w'] eqn:Er. destruct Hr as (Hc&Ht&Herr).
  assert (jwks_request v' = jwks_request v) as Hreq by (unfold jwks_request; by rewrite Hc).
  destruct (vf_keys v !! kid) as [k|] eqn:Ek; [destruct (fresh v (clock (w_tick w))) eqn:Ef|].
  { cbn. split_and!; [done|lia|]. intros Hk. split; [by apply (Hmono (w_tick w)); [lia|]|].
    intros k' [= <-]. destruct Hk as [Hempty|(n&_&Ha&He)]; [by rewrite Hempty in Ek|]. exists n.
    split; [by apply (keys_answered_published v n (vf_keys v))|]. right.
    unfold fresh in Ef. rewrite He in Ef. by apply bool_decide_eq_true in Ef. }
  all: cbn -[refresh]; fold w1; rewrite Er; destruct err as [e|]; cbn in Herr |- *; split_and!; try done; try lia; intros Hk.
  1, 3: subst v'; split; [by apply (Hmono (w_tick w)); [lia|]|done].
  all: destruct Herr as [Ha He]; split; [right; exists (w_tick w1); rewrite Hreq; split_and!; [lia|done|done]|];
    intros k' Hk'; exists (w_tick w1); split; [|left; lia];
    apply (keys_answered_published v _ (vf_keys v')); [done|]; by destruct (vf_keys v' !! kid); simplify_eq.
Qed.

Lemma used_kept v n : used v n → kept_keys v n.
Proof.
  induction 1 as [config n|v n kid w Hv IH Hn]; [by left|].
  assert (kept_keys v (w_tick w)) as Hk.
  { destruct IH as [?|(i&?&?&?)]; [by left|]. right. exists i. split_and!; try done. lia. }
  pose proof (key_step v kid w) as Hs. destruct (key v kid w) as [[found v'] w']. cbn. by apply Hs.
Qed.

(** C16: what a verified token was checked with.  In a verifier that has served any
    requests at any times, a token gives a principal only if it names RS256, if it
    verifies against an RSA key that the provider's own document published under
    the token's key identifier, fetched for this request or at most ten minutes
    before it, and if its tenant is the configured one; the principal is the
    subject of its claims, with their roles, or their groups when they have none. *)
Theorem token_verified v n w raw p secret role :
  used v n → (n ≤ w_tick w)%nat →
  Auth.Verify (H := verifier_env secret role v w) raw = Some p →
  ∃ kid found k t claims,
    jwt_header raw = Some ("RS256", kid) ∧ published v kid found k
    ∧ ((w_tick w ≤ k)%nat ∨ (clock (w_tick w) < clock (S k) + key_lifetime)%Z)
    ∧ jwt_verified raw found (cf_Issuer (vf_config v)) (cf_Audience (vf_config v)) t = Some claims
    ∧ (cf_Tenant (vf_config v) = "" ∨ cl_Tenant claims = cf_Tenant (vf_config v))
    ∧ pr_Subject p = cl_Subject claims
    ∧ pr_Roles p = (if decide (cl_Roles claims = []) then cl_Groups claims else cl_Roles claims).
Proof.
  intros Hused Hn Hverify.
  assert (kept_keys v (w_tick w)) as Hk.
  { destruct (used_kept v n Hused) as [?|(i&?&?&?)]; [by left|]. right. exists i. split_and!; try done. lia. }
  unfold Auth.Verify in Hverify. cbn [jwt_claims verifier_env config_tenant] in Hverify.
  destruct ((parse_claims v raw w).1.1) as [claims|] eqn:Ec; [|done]. revert Hverify.
  case_decide as Htenant; [done|]. intros [= <-]. revert Ec. unfold parse_claims.
  destruct (jwt_header raw) as [[alg kid]|]; [|done]. case_decide as Halg; [done|]. subst alg.
  unfold mbind, M_bind. pose proof (key_step v kid w) as Hs. destruct (key v kid w) as [[found v'] w'].
  destruct Hs as (Hc&_&Hs). destruct (Hs Hk) as [_ Hfound]. destruct found as [found|]; [|done].
  unfold now, ask. run_M. rewrite Hc. intros Ec. destruct (Hfound found eq_refl) as (k&Hpublished&Htime).
  exists kid, found, k, (clock (w_tick w')), claims. split_and!; try done.
  - destruct (decide (cf_Tenant (vf_config v) = "")); [by left|]. right. apply dec_stable. tauto.
  - cbn. by destruct (cl_Roles claims).
Qed.
End properties.

(** ** A provider with one key *)

Definition provider_net : Net := {|
  http_do := λ _ _, Ok (mkHttpResponse 200 "jwks" "");
  json_value := λ _, None; json_id := λ _, Err ErrNotFound; json_any := λ _, None;
  json_functions := λ _, Err ErrNotFound; basic_auth := λ _ _, ""
|}.

Definition provider_library : JwtLibrary := {|
  decode_jwks := λ _, Ok [mkJwk "old" "EC" "" ""; mkJwk "k1" "RSA" "AQID" "AQAB"];
  jwt_header := λ raw, if decide (raw = "jwt") then Some ("RS256", "k1") else None;
  jwt_verified := λ _ found _ _ _,
    if decide (pk_N found = 66051 ∧ pk_E found = 65537)%Z
    then Some (mkClaims "bob" "bob@example.com" "acme" [] ["user"] []) else None
|}.

Definition acme_verifier : Verifier :=
  NewVerifier (mkConfig "https://id.example.com" "nexus" "https://id.example.com/keys" "acme").

Lemma token_verified_witness :
  ∃ kid found k,
    published (H0 := provider_net) (H1 := provider_library) acme_verifier kid found k
    ∧ jwt_header (JwtLibrary := provider_library) "jwt" = Some ("RS256", kid).
Proof.
  destruct (token_verified (H := quiet_host) (H0 := provider_net) (H1 := provider_library)
    acme_verifier 0 (booting "" ∅) "jwt"
    (zero <|pr_Subject := "bob"|> <|pr_Email := "bob@example.com"|> <|pr_Tenant := "acme"|> <|pr_Roles := ["user"]|>)
    "" "") as (kid&found&k&_&_&Hheader&Hpublished&_).
  - apply used_new.
  - apply le_0_n.
  - vm_compute. reflexivity.
  - exists kid, found, k. split; [exact Hpublished|exact Hheader].
Defined.
