(* ===== verification/Dispatch.v ===== *)
(** * Pipeline dispatch (internal/httpapi/pipeline_dispatch.go)

    A queued run is handed to Prefect or, for a definition in [functions] mode,
    to the executor of this file, which runs the ready jobs of the graph
    concurrently.  [exec] is the executor's memory: the variables of
    [executeFunctionPipeline] and where each of its goroutines stands.  A
    goroutine's accesses to the store and to the shared maps are atomic there
    (the store's lock and the executor's mutex), so a step of the model is one
    of them, and any interleaving with the store's other users is a sequence
    of steps. *)

From S2P Require Import Prelude GoStrings Types World Pipelines Runs Store Integrations.

Open Scope string_scope.

(** The environment variables that configure the engines. *)
Class Engines := {
  OPENFAAS_URL : string;
  OPENFAAS_USER : string;
  OPENFAAS_PASSWORD : string;
  PREFECT_API_URL : string
}.

Definition openfaas `{Engines} : option OpenFaaS :=
  if decide (OPENFAAS_URL = "") then None
  else Some (NewOpenFaaS OPENFAAS_URL OPENFAAS_USER OPENFAAS_PASSWORD).

(** ** The executor's memory *)

(** Where the goroutine of a job stands: before its first report, before it
    reads its dependencies' outputs, before an attempt (with the last attempt's
    error), before it reports a failure, before it raises the round's flag,
    before it publishes an output, before it reports success. *)
Inductive goroutine : Type :=
  | Started
  | Preparing
  | Invoking (payload : string) (attempt : Z) (last : option gerror)
  | Broken (message : string)
  | Failing
  | Answered (raw : string)
  | Finished (raw : string).

(** What the executor did, newest first. *)
Inductive event : Type :=
  | Called (job : string)
  | Completed (job : string)
  | NoProgress.

Record exec := mkExec {
  ex_remaining : gmap string PipelineJob;
  ex_outputs : gmap string any;
  ex_completed : gset string;
  ex_failed : bool;
  ex_active : gmap string (PipelineJob * goroutine);
  ex_done : bool;
  ex_trace : list event
}.
#[export] Instance eta_exec : Eta exec := λ x,
  mkExec (ex_remaining x) (ex_outputs x) (ex_completed x) (ex_failed x) (ex_active x)
    (ex_done x) (ex_trace x).

(** [executeFunctionPipeline] as it enters its loop. *)
Definition start_exec (definition : PipelineDefinition) : exec :=
  mkExec (jobs_byName (pd_Jobs definition)) ∅ ∅ false ∅ false [].

(** The jobs all of whose dependencies have completed. *)
Definition ready (x : exec) : gmap string PipelineJob :=
  filter (λ kv, Forall (λ dependency, dependency ∈ ex_completed x) (job_DependsOn kv.2))
    (ex_remaining x).

(** [job.Retries + 1] attempts; the loop's counter is an [int]. *)
Definition next_attempt (attempt : Z) : Z := add64 attempt 1.

Section executor.
Context `{Host} `{Net}.
Context (client : OpenFaaS) (run : PipelineRun).

(** [_, _ = s.store.UpdateRunStep(run.ID, ..., "system")] *)
Definition tell (step status message : string) : M unit :=
  _ ← UpdateRunStep (run_ID run) (mkUpdateRunStepRequest step status message) "system"; mret tt.

(** One turn of the loop, entered with no goroutine running: start a goroutine
    per ready job, or return. *)
Definition round (x : exec) : M exec :=
  if decide (ex_failed x = true ∨ ex_remaining x = ∅) then mret (x <|ex_done := true|>) else
  let jobs := ready x in
  if decide (jobs = ∅) then
    _ ← tell "orchestrator" "failed" "pipeline graph cannot make progress";
    mret (x <|ex_done := true|> <|ex_trace := NoProgress :: ex_trace x|>)
  else mret (x <|ex_remaining := ex_remaining x ∖ jobs|>
               <|ex_active := (λ job, (job, Started)) <$> jobs|>).

(** The outputs of a job's dependencies, null where there is none. *)
Definition dependency_outputs (x : exec) (job : PipelineJob) : gmap string any :=
  foldl (λ m name, <[name := default ANull (ex_outputs x !! name)]> m) ∅ (job_DependsOn job).

(** The request body; [json.Marshal]'s error is ignored. *)
Definition payload_of (x : exec) (job : PipelineJob) : string :=
  default "" (json_value (AObj [
    ("run_id", AStr (run_ID run)); ("project_id", AStr (run_ProjectID run));
    ("step", AStr (job_Name job)); ("parameters", AObj (map_to_list (run_Parameters run)));
    ("dependencies", AObj (map_to_list (dependency_outputs x job)))])).

Definition output_of (raw : string) : any := default (AStr raw) (json_any raw).

Definition set_goroutine (name : string) (job : PipelineJob) (g : goroutine) (x : exec) : exec :=
  x <|ex_active := <[name := (job, g)]> (ex_active x)|>.
Definition end_goroutine (name : string) (x : exec) : exec :=
  x <|ex_active := delete name (ex_active x)|>.

(** One step of the goroutine of [job]. *)
Definition advance (name : string) (job : PipelineJob) (g : goroutine) (x : exec) : M exec :=
  match g with
  | Started =>
      _ ← tell (job_Name job) "running" ("invoking function " ++ job_Function job);
      mret (set_goroutine name job Preparing x)
  | Preparing => mret (set_goroutine name job (Invoking (payload_of x job) 0 None) x)
  | Invoking payload attempt last =>
      if decide (attempt ≤ job_Retries job)%Z then
        answer ← Invoke client (job_Function job) payload;
        let g := match answer with
                 | Ok raw => Answered raw
                 | Err e => Invoking payload (next_attempt attempt) (Some e)
                 end in
        mret ((set_goroutine name job g x) <|ex_trace := Called name :: ex_trace x|>)
      else mret (set_goroutine name job
             (match last with Some e => Broken (error_text e) | None => Answered "" end) x)
  | Broken message =>
      _ ← tell (job_Name job) "failed" message; mret (set_goroutine name job Failing x)
  | Failing => mret ((end_goroutine name x) <|ex_failed := true|>)
  | Answered raw =>
      mret ((set_goroutine name job (Finished raw) x)
        <|ex_outputs := <[job_Name job := output_of raw]> (ex_outputs x)|>
        <|ex_completed := {[job_Name job]} ∪ ex_completed x|>
        <|ex_trace := Completed name :: ex_trace x|>)
  | Finished raw =>
      _ ← tell (job_Name job) "succeeded"
            ("function " ++ job_Function job ++ " completed ("
             ++ pretty (Z.of_nat (String.length raw)) ++ " bytes)");
      mret (end_goroutine name x)
  end.

(** A step of the executor: the loop's, when no goroutine runs, or a goroutine's. *)
Inductive exec_step : exec * world → exec * world → Prop :=
  | step_round x w : ex_done x = false → ex_active x = ∅ → exec_step (x, w) (round x w)
  | step_goroutine x w name job g : ex_active x !! name = Some (job, g) →
      exec_step (x, w) (advance name job g x w).

(** Executions of [n] steps, other operations on the store in between. *)
Inductive executes `{MapOrder} (c0 : exec * world) : nat → exec * world → Prop :=
  | exec_refl : executes c0 0 c0
  | exec_more n c c' : executes c0 n c → exec_step c c' → executes c0 (S n) c'
  | exec_other n x w o err w' :
      executes c0 n (x, w) → Store.step o w err w' → executes c0 n (x, w').

(** Executions of the executor alone. *)
Definition alone : exec * world → exec * world → Prop := rtc exec_step.

(** Enough turns of the loop and of its goroutines, one goroutine at a time. *)
Fixpoint run_exec (fuel : nat) (x : exec) : M exec :=
  match fuel with
  | O => mret x
  | S fuel =>
      if ex_done x then mret x else
      match map_to_list (ex_active x) with
      | [] => x ← round x; run_exec fuel x
      | (name, (job, g)) :: _ => x ← advance name job g x; run_exec fuel x
      end
  end.
End executor.

(** ** Dispatch *)

(** The JSON of a definition, as the struct tags give it ([omitempty] fields
    are left out when they are zero). *)
Definition omit_string (key value : string) : list (string * any) :=
  if decide (value = "") then [] else [(key, AStr value)].
Definition omit_strings (key : string) (values : list string) : list (string * any) :=
  if decide (values = []) then [] else [(key, AList (AStr <$> values))].

Definition job_json (job : PipelineJob) : any :=
  let r := job_Resources job in
  AObj (concat [
    [("name", AStr (job_Name job)); ("kind", AStr (job_Kind job))];
    omit_string "function" (job_Function job); omit_string "image" (job_Image job);
    omit_strings "command" (job_Command job); omit_strings "depends_on" (job_DependsOn job);
    (if decide (job_Environment job = ∅) then []
     else [("environment", AObj (map_to_list (AStr <$> job_Environment job)))]);
    [("resources", AObj (concat [omit_string "cpu" (jr_CPU r); omit_string "memory" (jr_Memory r);
        if decide (jr_GPU r = 0)%Z then [] else [("gpu", AInt (jr_GPU r))]]))];
    [("retries", AInt (job_Retries job))]]).

Definition definition_json (d : PipelineDefinition) : any :=
  AObj (concat [
    [("id", AStr (pd_ID d)); ("project_id", AStr (pd_ProjectID d)); ("name", AStr (pd_Name d));
     ("version", AStr (pd_Version d)); ("execution_mode", AStr (pd_ExecutionMode d));
     ("jobs", AList (job_json <$> pd_Jobs d))];
    omit_string "repository_url" (pd_RepositoryURL d); omit_string "commit_sha" (pd_CommitSHA d);
    [("created_at", ATime (pd_CreatedAt d)); ("updated_at", ATime (pd_UpdatedAt d))]]).

Section dispatch.
Context `{Host} `{Net} `{Engines}.

(** [dispatchPipeline]: the run as it is replied, and the executor started for
    it.  A stored definition has a first job ([Jobs[0]] does not panic). *)
Definition dispatchPipeline (run : PipelineRun) : M (PipelineRun * option exec) :=
  let report step status message :=
    x ← UpdateRunStep (run_ID run) (mkUpdateRunStepRequest step status message) "system";
    mret (fst x, None) in
  if decide (run_ExecutionMode run = "functions") then
    x ← PipelineDefinition_get (run_DefinitionID run);
    let '(definition, err) := x in
    match err with
    | Some e => report "load-definition" "failed" (error_text e)
    | None =>
        match openfaas with
        | None => report (job_Name (default zero (head (pd_Jobs definition)))) "failed"
                    "OPENFAAS_URL is not configured"
        | Some _ => mret (run, Some (start_exec definition))
        end
    end
  else if decide (PREFECT_API_URL ≠ "") then
    x ← (if decide (run_DefinitionID run ≠ "")
         then PipelineDefinition_get (run_DefinitionID run) else mret (zero, Some ErrNotFound));
    let '(definition, err) := x in
    let parameters := AObj (app
      [("run_id", AStr (run_ID run)); ("project_id", AStr (run_ProjectID run));
       ("parameters", AObj (map_to_list (run_Parameters run)))]
      (if decide (err = None) then [("definition", definition_json definition)] else [])) in
    engine ← CreateFlowRun (NewPrefect PREFECT_API_URL "") (run_Name run) "mlaiops" (run_ID run)
               parameters;
    match engine with
    | Err e => report "submit-to-engine" "failed" (error_text e)
    | Ok engineID =>
        x ← SetRunEngine (run_ID run) engineID;
        let '(linked, err) := x in
        mret (if decide (err = None) then linked else run, None)
    end
  else mret (run, None).
End dispatch.
