(* ===== verification/DispatchProps.v ===== *)
(** * Properties of the pipeline executor

    The executor's invariant, the bound on its steps and what its reports make
    of the run it executes. *)

From S2P Require Import Prelude GoStrings Types World Pipelines Runs Store Integrations Dispatch.

Open Scope string_scope.

#[export] Instance event_eq_dec : EqDecision event.
Proof. solve_decision. Defined.

(** ** Sums over a map *)

Definition sum_map {A} (f : A → nat) (m : gmap string A) : nat :=
  sum_list_with (λ kv, f kv.2) (map_to_list m).

Section sum_map.
Context {A : Type} (f : A → nat).
Implicit Types m : gmap string A.

Lemma sum_list_with_Permutation {B} (g : B → nat) l l' :
  l ≡ₚ l' → sum_list_with g l = sum_list_with g l'.
Proof. induction 1; simpl; lia. Qed.

Lemma sum_map_insert m i v :
  m !! i = None → sum_map f (<[i := v]> m) = (f v + sum_map f m)%nat.
Proof.
  intros Hi. unfold sum_map. by rewrite (sum_list_with_Permutation _ _ _ (map_to_list_insert m i v Hi)).
Qed.

Lemma sum_map_delete m i v :
  m !! i = Some v → sum_map f m = (f v + sum_map f (delete i m))%nat.
Proof.
  intros Hi. rewrite <- (sum_map_insert _ i) by apply lookup_delete_eq. by rewrite insert_delete_id.
Qed.

Lemma sum_map_update m i v v' :
  m !! i = Some v → (f v' < f v)%nat → (sum_map f (<[i := v']> m) < sum_map f m)%nat.
Proof.
  intros Hi Hlt. rewrite (sum_map_delete m i v Hi), <- insert_delete_eq.
  rewrite sum_map_insert by apply lookup_delete_eq. lia.
Qed.

Lemma sum_map_union m m' :
  m ##ₘ m' → sum_map f (m ∪ m') = (sum_map f m + sum_map f m')%nat.
Proof.
  induction m as [|i v m Hi IH] using map_ind; intros Hdisj.
  - rewrite (left_id_L ∅ (∪)). reflexivity.
  - apply map_disjoint_insert_l in Hdisj as [Hi' Hdisj].
    rewrite <- insert_union_l, !sum_map_insert, IH; [lia|done|done|by apply lookup_union_None].
Qed.

Lemma sum_map_split m m' :
  m' ⊆ m → sum_map f m = (sum_map f m' + sum_map f (m ∖ m'))%nat.
Proof.
  intros Hsub. rewrite <- sum_map_union by by apply map_disjoint_difference_r1.
  by rewrite map_difference_union.
Qed.

Lemma sum_map_pos m : (∀ v, 0 < f v)%nat → m ≠ ∅ → (0 < sum_map f m)%nat.
Proof.
  intros Hpos (i&v&Hi)%map_choose. rewrite (sum_map_delete m i v Hi). specialize (Hpos v). lia.
Qed.

End sum_map.

Lemma sum_map_fmap {A B} (f : A → nat) (g : B → A) (m : gmap string B) :
  sum_map f (g <$> m) = sum_map (f ∘ g) m.
Proof.
  induction m as [|i v m Hi IH] using map_ind; [unfold sum_map; by rewrite fmap_empty, !map_to_list_empty|].
  rewrite fmap_insert, !sum_map_insert; [by rewrite IH|done|by rewrite lookup_fmap, Hi].
Qed.

Lemma sum_map_lt {A} (f g : A → nat) (m : gmap string A) :
  (∀ v, f v < g v)%nat → m ≠ ∅ → (sum_map f m < sum_map g m)%nat.
Proof.
  intros Hlt. induction m as [|i v m Hi IH] using map_ind; [done|]. intros _.
  unfold sum_map in *. rewrite !(sum_list_with_Permutation _ _ _ (map_to_list_insert m i v Hi)).
  simpl. pose proof (Hlt v). destruct (decide (m = ∅)) as [->|Hm]; [|specialize (IH Hm); lia].
  rewrite map_to_list_empty. simpl. lia.
Qed.

(** ** The invariant *)

(** How often a job's function was called. *)
Definition calls (name : string) (trace : list event) : Z :=
  Z.of_nat (length (filter (λ e, e = Called name) trace)).

Definition calls_ok (job : PipelineJob) (g : goroutine) (k : Z) : Prop :=
  match g with
  | Started | Preparing => k = 0
  | Invoking _ attempt last =>
      k = attempt ∧ 0 ≤ attempt ≤ job_Retries job + 1 ∧ (last = None → attempt = 0)
  | _ => 1 ≤ k ≤ job_Retries job + 1
  end%Z.

Definition is_finished (g : goroutine) : bool := match g with Finished _ => true | _ => false end.

(** What a goroutine may rely on while it runs. *)
Record goroutine_ok (jobs : gmap string PipelineJob) (x : exec) (name : string)
    (job : PipelineJob) (g : goroutine) : Prop := {
  go_job : jobs !! name = Some job;
  go_deps : ∀ dep, dep ∈ job_DependsOn job → dep ∈ ex_completed x;
  go_waiting : ex_remaining x !! name = None;
  go_completed : name ∈ ex_completed x ↔ is_finished g = true;
  go_calls : calls_ok job g (calls name (ex_trace x))
}.

Record exec_ok (jobs : gmap string PipelineJob) (x : exec) : Prop := {
  eo_remaining : ∀ name job, ex_remaining x !! name = Some job →
    jobs !! name = Some job ∧ name ∉ ex_completed x ∧ calls name (ex_trace x) = 0%Z;
  eo_active : map_Forall (λ name '(job, g), goroutine_ok jobs x name job g) (ex_active x);
  eo_gone : ∀ name, is_Some (jobs !! name) → ex_remaining x !! name = None →
    ex_active x !! name = None → name ∈ ex_completed x ∨ ex_failed x = true;
  eo_completed : ∀ name, name ∈ ex_completed x → Completed name ∈ ex_trace x;
  eo_order : ∀ later name earlier job dep, ex_trace x = app later (Called name :: earlier) →
    jobs !! name = Some job → dep ∈ job_DependsOn job → Completed dep ∈ earlier;
  eo_calls : ∀ name job, jobs !! name = Some job →
    (calls name (ex_trace x) ≤ job_Retries job + 1)%Z
    ∧ (name ∈ ex_completed x → 1 ≤ calls name (ex_trace x))%Z;
  eo_progress : NoProgress ∉ ex_trace x;
  eo_done : ex_done x = true → ex_active x = ∅ ∧ (ex_failed x = true ∨ ex_remaining x = ∅)
}.

(** ** The bound *)

Definition attempts (job : PipelineJob) : nat := Z.to_nat (job_Retries job + 1).

Definition goroutine_weight (jg : PipelineJob * goroutine) : nat :=
  match jg.2 with
  | Started => 6 + attempts jg.1
  | Preparing => 5 + attempts jg.1
  | Invoking _ attempt _ => 4 + Z.to_nat (job_Retries jg.1 + 1 - attempt)
  | Broken _ | Answered _ => 2
  | Failing | Finished _ => 1
  end.
Definition job_weight (job : PipelineJob) : nat := 7 + attempts job.

(** The executor's steps left, at most. *)
Definition steps_left (x : exec) : nat :=
  sum_map job_weight (ex_remaining x) + sum_map goroutine_weight (ex_active x)
  + if ex_done x then 0 else 1.

(** The most steps an execution of the definition takes: eight and one per
    attempt for each job, and one to return. *)
Definition step_bound (definition : PipelineDefinition) : nat :=
  sum_list_with job_weight (pd_Jobs definition) + 1.

Lemma calls_cons name e trace :
  calls name (e :: trace) = ((if decide (e = Called name) then 1 else 0) + calls name trace)%Z.
Proof. unfold calls. rewrite filter_cons. case_decide; simpl; lia. Qed.

(** ** The executor preserves its invariant *)

(** What a goroutine's step does to the executor's memory: it moves the
    goroutine of its job or ends it, and may publish the job's output. *)
Record moved (name : string) (x x' : exec) (new : option event)
    (g' : option (PipelineJob * goroutine)) : Prop := {
  mv_remaining : ex_remaining x' = ex_remaining x;
  mv_active : ex_active x' = partial_alter (λ _, g') name (ex_active x);
  mv_completed : ∀ n, n ∈ ex_completed x' ↔
    n ∈ ex_completed x ∨ n = name ∧ new = Some (Completed name);
  mv_trace : ex_trace x' = app (option_list new) (ex_trace x);
  mv_new : ∀ e, new = Some e → e = Called name ∨ e = Completed name;
  mv_failed : ex_failed x = true → ex_failed x' = true;
  mv_done : ex_done x' = ex_done x
}.

Section preservation.
Context (jobs : gmap string PipelineJob) (x x' : exec) (name : string) (new : option event)
  (g' : option (PipelineJob * goroutine)).
Hypothesis Hok : exec_ok jobs x.
Hypothesis Hmv : moved name x x' new g'.

Lemma moved_calls n : n ≠ name → calls n (ex_trace x') = calls n (ex_trace x).
Proof using Hmv.
  intros Hn. rewrite (mv_trace _ _ _ _ _ Hmv). destruct new as [e|] eqn:He; [|done]. simpl.
  rewrite calls_cons. destruct (mv_new _ _ _ _ _ Hmv e eq_refl) as [->| ->];
    case_decide; simplify_eq/=; done.
Qed.

Lemma moved_other n job g :
  n ≠ name → goroutine_ok jobs x n job g → goroutine_ok jobs x' n job g.
Proof using Hmv.
  intros Hn [Hj Hd Hw Hc Hk]. split; [done|..].
  - intros dep Hdep. apply (mv_completed _ _ _ _ _ Hmv). auto.
  - by rewrite (mv_remaining _ _ _ _ _ Hmv).
  - rewrite (mv_completed _ _ _ _ _ Hmv), Hc. naive_solver.
  - by rewrite moved_calls.
Qed.

Lemma moved_ok job g :
  ex_active x !! name = Some (job, g) →
  (∀ job' g1, g' = Some (job', g1) → goroutine_ok jobs x' name job' g1) →
  (g' = None → name ∈ ex_completed x' ∨ ex_failed x' = true) →
  (calls name (ex_trace x') ≤ job_Retries job + 1)%Z →
  (new = Some (Completed name) → 1 ≤ calls name (ex_trace x))%Z →
  exec_ok jobs x'.
Proof using All.
  intros Hact Hg Hend Hmax Hmin. pose proof Hok as [Hrem Ha Hgone Hco Hord Hca Hpr Hdone].
  pose proof (Ha name _ Hact) as Hthis. simpl in Hthis.
  pose proof Hmv as [Er Ea Ec Et En Ef Ed]. split.
  - intros n j. rewrite Er. intros Hn. pose proof (Hrem n j Hn) as (?&?&?).
    assert (n ≠ name) as Hne by (intros ->; rewrite (go_waiting _ _ _ _ _ Hthis) in Hn; done).
    split_and!; [done|rewrite Ec; naive_solver|by rewrite moved_calls].
  - intros n [j g1]. rewrite Ea. destruct (decide (n = name)) as [->|Hne].
    + rewrite lookup_partial_alter_eq. apply Hg.
    + rewrite lookup_partial_alter_ne by done. intros Hn. apply moved_other; [done|].
      exact (Ha n _ Hn).
  - intros n Hn. rewrite Er, Ea. intros Hr. destruct (decide (n = name)) as [->|Hne].
    + rewrite lookup_partial_alter_eq. auto.
    + rewrite lookup_partial_alter_ne by done. intros Hna.
      destruct (Hgone n Hn Hr Hna); [left; apply Ec; auto|auto].
  - intros n. rewrite Ec, Et, elem_of_app. intros [Hn|[-> ->]]; [right; auto|left; simpl; left].
  - intros later n earlier j dep. rewrite Et. intros Htr Hj Hdep.
    destruct new as [e|]; simpl in Htr; [|by eapply Hord].
    destruct later as [|e' later]; simplify_list_eq; [|by eapply Hord].
    destruct (En _ eq_refl) as [|]; simplify_eq/=. rewrite (go_job _ _ _ _ _ Hthis) in Hj.
    simplify_eq/=. apply Hco. by apply Hthis.
  - intros n j Hj. destruct (decide (n = name)) as [->|Hne].
    + rewrite (go_job _ _ _ _ _ Hthis) in Hj. simplify_eq/=. split; [done|].
      rewrite Ec, Et. intros Hn.
      assert (1 ≤ calls name (ex_trace x))%Z as Hone.
      { destruct Hn as [Hn|[_ ->]]; [|auto]. by eapply (proj2 (Hca name j (go_job _ _ _ _ _ Hthis))). }
      destruct new; simpl; [rewrite calls_cons; case_decide; lia|done].
    + rewrite moved_calls, Ec by done. destruct (Hca n j Hj) as [??]. split; naive_solver.
  - rewrite Et, elem_of_app. intros [Hn|?]; [|done].
    destruct new as [e|]; [|by apply not_elem_of_nil in Hn].
    simpl in Hn. apply list_elem_of_singleton in Hn as <-. by destruct (En _ eq_refl).
  - rewrite Ed. intros [Hemp _]%Hdone. by rewrite Hemp in Hact.
Qed.
End preservation.

Lemma goroutine_weight_pos jg : (0 < goroutine_weight jg)%nat.
Proof. unfold goroutine_weight. destruct jg as [job []]; simpl; lia. Qed.

Lemma moved_steps name x x' new g' jg :
  moved name x x' new g' → ex_active x !! name = Some jg →
  (∀ jg', g' = Some jg' → (goroutine_weight jg' < goroutine_weight jg)%nat) →
  (steps_left x' < steps_left x)%nat.
Proof.
  intros [Er Ea _ _ _ _ Ed] Hact Hlt. unfold steps_left. rewrite Er, Ea, Ed.
  enough (sum_map goroutine_weight (partial_alter (λ _, g') name (ex_active x))
          < sum_map goroutine_weight (ex_active x))%nat by lia.
  destruct g' as [jg'|].
  - change (partial_alter _ _ _) with (<[name := jg']> (ex_active x)).
    eapply sum_map_update; [done|auto].
  - change (partial_alter _ _ _) with (delete name (ex_active x)).
    rewrite (sum_map_delete _ (ex_active x) name jg Hact). pose proof (goroutine_weight_pos jg). lia.
Qed.

(** What the definition's jobs are to the executor. *)
Record executable (jobs : gmap string PipelineJob) : Prop := {
  xj_name : ∀ name job, jobs !! name = Some job → job_Name job = name;
  xj_retries : ∀ name job, jobs !! name = Some job → (0 ≤ job_Retries job < int64_max)%Z;
  xj_deps : ∀ name job dep, jobs !! name = Some job → dep ∈ job_DependsOn job → is_Some (jobs !! dep);
  xj_acyclic : acyclic jobs
}.

Section steps.
Context `{Host} `{Net} (client : OpenFaaS) (run : PipelineRun).
Context (jobs : gmap string PipelineJob) (Hjobs : executable jobs).

(** A step keeps the invariant and uses up one of the steps left. *)
Definition good (x x' : exec) : Prop := exec_ok jobs x' ∧ (steps_left x' < steps_left x)%nat.

(** A goroutine that moves on without publishing or calling anything. *)
Lemma set_goroutine_good name job g g' x :
  exec_ok jobs x → ex_active x !! name = Some (job, g) →
  is_finished g' = is_finished g → (∀ k, calls_ok job g k → calls_ok job g' k) →
  (goroutine_weight (job, g') < goroutine_weight (job, g))%nat →
  good x (set_goroutine name job g' x).
Proof using All.
  intros Hok Hact Hfin Hk Hlt. pose proof (eo_active _ _ Hok name _ Hact) as Hg. simpl in Hg.
  assert (moved name x (set_goroutine name job g' x) None (Some (job, g'))) as Hmv
    by (split; simpl; try done; naive_solver).
  split; [|by eapply moved_steps; [exact Hmv|done|intros ? [= <-]]].
  eapply moved_ok; [done|exact Hmv|done| |done| |done].
  - intros job' g1 [= <- <-]. destruct Hg as [? ? ? Hc ?]. split; try done; [by rewrite Hfin|auto].
  - by apply Hok, Hg.
Qed.

Lemma end_goroutine_good name job g x x' :
  exec_ok jobs x → ex_active x !! name = Some (job, g) →
  moved name x x' None None → name ∈ ex_completed x' ∨ ex_failed x' = true → good x x'.
Proof using All.
  intros Hok Hact Hmv Hend. pose proof (eo_active _ _ Hok name _ Hact) as Hg. simpl in Hg.
  split; [|by eapply moved_steps]. eapply moved_ok; [done|exact Hmv|done|done|done| |done].
  rewrite (mv_trace _ _ _ _ _ Hmv). by apply Hok, Hg.
Qed.

Lemma next_attempt_exact name job payload attempt last x :
  goroutine_ok jobs x name job (Invoking payload attempt last) →
  (attempt ≤ job_Retries job)%Z → next_attempt attempt = (attempt + 1)%Z.
Proof using All.
  intros Hg Hatt. pose proof (xj_retries _ Hjobs _ _ (go_job _ _ _ _ _ Hg)).
  destruct (go_calls _ _ _ _ _ Hg) as (_&?&_).
  apply wrap64_id. unfold is_int64, int64_min in *. lia.
Qed.

(** An attempt, whatever the function answers. *)
Lemma call_good name job payload attempt last answer x :
  exec_ok jobs x → ex_active x !! name = Some (job, Invoking payload attempt last) →
  (attempt ≤ job_Retries job)%Z →
  let g' := match answer with
            | Ok raw => Answered raw
            | Err e => Invoking payload (next_attempt attempt) (Some e)
            end in
  good x ((set_goroutine name job g' x) <|ex_trace := Called name :: ex_trace x|>).
Proof using All.
  intros Hok Hact Hatt g'. pose proof (eo_active _ _ Hok name _ Hact) as Hg. simpl in Hg.
  pose proof (next_attempt_exact _ _ _ _ _ _ Hg Hatt) as Hnext.
  destruct (go_calls _ _ _ _ _ Hg) as (Hk&?&_).
  assert (moved name x ((set_goroutine name job g' x) <|ex_trace := Called name :: ex_trace x|>)
            (Some (Called name)) (Some (job, g'))) as Hmv.
  { split; simpl; try done; [naive_solver|]. intros ? [= <-]. auto. }
  split.
  - eapply moved_ok; [done|exact Hmv|done| |done| |done].
    + intros job' g1 [= <- <-]. destruct Hg as [? ? ? Hc _]. split; simpl; try done.
      * rewrite Hc. unfold g'. by destruct answer.
      * rewrite calls_cons, decide_True, Hk by done. unfold g'.
        destruct answer; simpl; [lia|]. rewrite Hnext. split_and!; [lia..|done].
    + simpl. rewrite calls_cons, decide_True by done. lia.
  - eapply moved_steps; [exact Hmv|done|]. intros ? [= <-].
    unfold goroutine_weight, g'. simpl. destruct answer; [lia|]. rewrite Hnext. lia.
Qed.

(** The publication of an output. *)
Lemma answered_good name job raw x x' :
  exec_ok jobs x → ex_active x !! name = Some (job, Answered raw) →
  moved name x x' (Some (Completed name)) (Some (job, Finished raw)) → good x x'.
Proof using All.
  intros Hok Hact Hmv. pose proof (eo_active _ _ Hok name _ Hact) as Hg. simpl in Hg.
  pose proof (eo_calls _ _ Hok _ _ (go_job _ _ _ _ _ Hg)) as [Hmax _].
  assert (calls name (ex_trace x') = calls name (ex_trace x)) as Hk.
  { rewrite (mv_trace _ _ _ _ _ Hmv). simpl. by rewrite calls_cons, decide_False. }
  destruct Hg as [Hj Hd Hw Hc Hcalls]. simpl in Hcalls.
  split.
  - eapply moved_ok; [done|exact Hmv|done| |done|by rewrite Hk|simpl; lia].
    intros job' g1 [= <- <-]. split; simpl; try done.
    + intros dep Hdep%Hd. apply (mv_completed _ _ _ _ _ Hmv). auto.
    + by rewrite (mv_remaining _ _ _ _ _ Hmv).
    + rewrite (mv_completed _ _ _ _ _ Hmv). naive_solver.
    + by rewrite Hk.
  - eapply moved_steps; [exact Hmv|done|]. intros ? [= <-]. unfold goroutine_weight. simpl. lia.
Qed.

(** A goroutine's step, whatever the store makes of its report. *)
Lemma advance_good name job g x w :
  exec_ok jobs x → ex_active x !! name = Some (job, g) →
  good x (advance client run name job g x w).1.
Proof using All.
  intros Hok Hact. pose proof (eo_active _ _ Hok name _ Hact) as Hg. simpl in Hg.
  pose proof (xj_retries _ Hjobs _ _ (go_job _ _ _ _ _ Hg)) as Hret.
  pose proof (xj_name _ Hjobs _ _ (go_job _ _ _ _ _ Hg)) as Hname.
  unfold advance. destruct g as [| |payload attempt last|message| |raw|raw]; run_M.
  - destruct (tell _ _ _ _ _) as [[] w1]. eapply set_goroutine_good; [done..|].
    unfold goroutine_weight. simpl. lia.
  - eapply set_goroutine_good; [done..|simpl; lia|].
    unfold goroutine_weight, attempts. simpl. lia.
  - case_decide as Hatt; simpl.
    + destruct (Invoke _ _ _ _) as [answer w1]. by eapply call_good.
    + eapply set_goroutine_good; [done..|by destruct last| |].
      * intros k (->&?&Hl). destruct last; simpl; [lia|]. specialize (Hl eq_refl). lia.
      * unfold goroutine_weight. simpl. destruct last; lia.
  - destruct (tell _ _ _ _ _) as [[] w1]. eapply set_goroutine_good; [done..|].
    unfold goroutine_weight. simpl. lia.
  - eapply end_goroutine_good; [done..| |by right]. split; simpl; try done; naive_solver.
  - rewrite Hname. eapply answered_good; [done..|]. split; simpl; try done; [|intros ? [= <-]; auto].
    intros n. rewrite elem_of_union, elem_of_singleton. naive_solver.
  - destruct (tell _ _ _ _ _) as [[] w1]. eapply end_goroutine_good; [done..| |].
    + split; simpl; try done; naive_solver.
    + left. by apply (go_completed _ _ _ _ _ Hg).
Qed.

(** ** The loop *)

Lemma executable_sn name : sn (depends jobs) name.
Proof using Hjobs.
  apply tc_finite_sn; [intros n; apply (xj_acyclic _ Hjobs)|].
  exists (elements (dom jobs)). intros n Hn. apply elem_of_elements, elem_of_dom.
  assert (∀ a b, depends jobs a b → is_Some (jobs !! b)) as Hstep.
  { intros a b. unfold depends, job_parents. destruct (jobs !! a) eqn:Ha;
      [by eapply xj_deps|by intros ?%not_elem_of_nil]. }
  induction Hn; eauto.
Qed.

Lemma ready_subseteq x : ready x ⊆ ex_remaining x.
Proof. apply map_filter_subseteq. Qed.

Lemma lookup_ready x name job :
  ready x !! name = Some job ↔ ex_remaining x !! name = Some job
    ∧ ∀ dep, dep ∈ job_DependsOn job → dep ∈ ex_completed x.
Proof. unfold ready. by rewrite map_lookup_filter_Some, Forall_forall. Qed.

(** While a job remains and no goroutine runs, some job is ready. *)
Lemma ready_some x :
  exec_ok jobs x → ex_active x = ∅ → ex_failed x = false → ex_remaining x ≠ ∅ → ready x ≠ ∅.
Proof using Hjobs.
  intros Hok Hact Hfail (name&job&Hname)%map_choose Hempty. revert job Hname.
  induction (executable_sn name) as [name _ IH]. intros job Hname.
  pose proof (eo_remaining _ _ Hok _ _ Hname) as (Hj&_&_).
  destruct (decide (Forall (λ dep, dep ∈ ex_completed x) (job_DependsOn job))) as [Hall|Hsome].
  - assert (ready x !! name = Some job) as Hr by (apply lookup_ready; by rewrite <- Forall_forall).
    by rewrite Hempty in Hr.
  - apply not_Forall_Exists, Exists_exists in Hsome as (dep&Hdep&Hn); [|apply _].
    pose proof (xj_deps _ Hjobs _ _ _ Hj Hdep) as Hd.
    destruct (ex_remaining x !! dep) as [job'|] eqn:Hr.
    + eapply (IH dep); [|done]. change (dep ∈ job_parents jobs name). unfold job_parents.
      by rewrite Hj.
    + destruct (eo_gone _ _ Hok dep Hd Hr) as [|]; [by rewrite Hact|done|congruence].
Qed.

Lemma start_round_good x :
  exec_ok jobs x → ex_active x = ∅ → ex_done x = false → ready x ≠ ∅ →
  good x (x <|ex_remaining := ex_remaining x ∖ ready x|>
            <|ex_active := (λ job, (job, Started)) <$> ready x|>).
Proof using Hjobs.
  intros Hok Hact Hdone Hready. pose proof Hok as [Hrem _ Hgone Hco Hord Hca Hpr _].
  split; [split; simpl; try done|].
  - intros name job [Hr _]%lookup_difference_Some. auto.
  - intros name [job g]. rewrite lookup_fmap. intros (job'&[Hr Hd]%lookup_ready&[= -> ->])%fmap_Some.
    pose proof (Hrem _ _ Hr) as (?&?&?). split; simpl; try done.
    apply lookup_difference_None. right. exists job'. by apply lookup_ready.
  - intros name Hj [Hr|[job Hr]]%lookup_difference_None.
    + intros _. apply Hgone; [done..|by rewrite Hact].
    + rewrite lookup_fmap, Hr. done.
  - by rewrite Hdone.
  - unfold steps_left. simpl. rewrite Hdone, Hact, sum_map_fmap.
    rewrite (sum_map_split job_weight _ _ (ready_subseteq x)).
    pose proof (sum_map_lt (goroutine_weight ∘ (λ job, (job, Started))) job_weight (ready x)) as Hlt.
    specialize (Hlt ltac:(intros; unfold goroutine_weight, job_weight; simpl; lia) Hready). lia.
Qed.

Lemma round_good x w :
  exec_ok jobs x → ex_active x = ∅ → ex_done x = false → good x (round run x w).1.
Proof using Hjobs.
  intros Hok Hact Hdone. unfold round. run_M. case_decide as Hend; [|case_decide as Hempty].
  - split; [|unfold steps_left; simpl; rewrite Hdone; lia].
    destruct Hok. split; try assumption; [|done].
    intros name [job g]. simpl. by rewrite Hact.
  - apply Decidable.not_or in Hend as [Hf%not_true_is_false Hr].
    by destruct (ready_some x Hok Hact Hf Hr).
  - by apply start_round_good.
Qed.

Lemma exec_step_good x w x' w' :
  exec_ok jobs x → exec_step client run (x, w) (x', w') → good x x'.
Proof using All.
  intros Hok Hs. inversion Hs as [? ? Hd Ha Heq|? ? name job g Hact Heq]; subst.
  - rewrite (surjective_pairing (round run x w)) in *. simplify_eq/=. by apply round_good.
  - rewrite (surjective_pairing (advance client run name job g x w)) in *. simplify_eq/=.
    by apply advance_good.
Qed.

(** Some step is always possible until the executor returns. *)
Lemma exec_step_some x w : ex_done x = false → ∃ c', exec_step client run (x, w) c'.
Proof.
  intros Hd. destruct (map_choose_or_empty (ex_active x)) as [(name&[job g]&Hact)|Hemp];
    eexists; [by eapply step_goroutine|by apply step_round].
Qed.

Lemma executes_good `{MapOrder} x0 w0 n x w :
  exec_ok jobs x0 → executes client run (x0, w0) n (x, w) →
  exec_ok jobs x ∧ (n + steps_left x ≤ steps_left x0)%nat.
Proof using All.
  intros Hok. remember (x, w) as c. intros Hex. revert x w Heqc.
  induction Hex as [|n [x1 w1] [x2 w2] _ IH Hs|n x1 w1 o err w2 _ IH Hs]; intros x w [= -> ->].
  - by split; [|lia].
  - destruct (IH _ _ eq_refl) as [Hok1 ?]. destruct (exec_step_good _ _ _ _ Hok1 Hs). split; [done|lia].
  - by eapply IH.
Qed.
End steps.

(** ** The executor of a stored definition *)

(** The attempts of every job fit an [int]. *)
Definition retries_fit (definition : PipelineDefinition) : Prop :=
  Forall (λ job, (job_Retries job < int64_max)%Z) (pd_Jobs definition).

Lemma stored_executable definition :
  stored_ok definition → retries_fit definition → executable (jobs_byName (pd_Jobs definition)).
Proof.
  intros [_ _ _ [Heach Hu Hdeps Ha]] Hfit. unfold retries_fit in Hfit.
  rewrite Forall_forall in Heach, Hfit. split.
  - intros name job Hj. by apply lookup_jobs_byName_inv in Hj as [_ ?].
  - intros name job [Hin _]%lookup_jobs_byName_inv. split; [by apply Heach|auto].
  - intros name job dep [Hin _]%lookup_jobs_byName_inv Hdep.
    destruct (Hdeps job dep Hin Hdep) as [_ (job'&->&Hin')%list_elem_of_fmap].
    exists job'. by apply lookup_jobs_byName.
  - by apply acyclic_waits_for.
Qed.

Lemma start_exec_ok definition :
  stored_ok definition → exec_ok (jobs_byName (pd_Jobs definition)) (start_exec definition).
Proof.
  intros [_ _ _ [Heach _ _ _]]. rewrite Forall_forall in Heach. split; simpl; try done.
  - intros name [] Hr Hn. congruence.
  - intros [|] **; simplify_list_eq.
  - intros name job [Hin _]%lookup_jobs_byName_inv. split; [|done].
    pose proof (ok_retries _ _ (Heach job Hin)). simpl. unfold calls. simpl. lia.
  - apply not_elem_of_nil.
Qed.

Lemma sum_jobs_byName f jobs :
  keys_unique job_Name jobs → sum_map f (jobs_byName jobs) = sum_list_with f jobs.
Proof.
  unfold keys_unique. induction jobs as [|job jobs IH]; [done|]. intros [Hnew Hu]%NoDup_cons.
  assert (jobs_byName jobs !! job_Name job = None) as Hn.
  { apply not_elem_of_dom. by rewrite dom_jobs_byName, elem_of_list_to_set. }
  rewrite jobs_byName_cons, map_union_comm by by apply map_disjoint_singleton_r.
  rewrite <- insert_union_singleton_l, sum_map_insert by done. simpl. by rewrite IH.
Qed.

Lemma steps_left_start definition :
  stored_ok definition → steps_left (start_exec definition) = step_bound definition.
Proof.
  intros [_ _ _ [_ Hu _ _]]. unfold steps_left, step_bound. simpl.
  rewrite sum_jobs_byName by done. unfold sum_map. rewrite map_to_list_empty. simpl. lia.
Qed.

Section theorems.
Context `{Host} `{Net} `{MapOrder} (client : OpenFaaS) (run : PipelineRun).

Lemma executor_ok definition w0 n x w :
  stored_ok definition → retries_fit definition →
  executes client run (start_exec definition, w0) n (x, w) →
  exec_ok (jobs_byName (pd_Jobs definition)) x ∧ (n + steps_left x ≤ step_bound definition)%nat.
Proof.
  intros Hdef Hfit Hex. rewrite <- steps_left_start by done.
  eapply executes_good; [by apply stored_executable|by apply start_exec_ok|exact Hex].
Qed.

(** C26: however the goroutines and the store's other users interleave, a job's
    function is called only after every job it depends on has completed. *)
Theorem dispatch_order definition w0 n x w job later earlier dep :
  stored_ok definition → retries_fit definition →
  executes client run (start_exec definition, w0) n (x, w) →
  job ∈ pd_Jobs definition → dep ∈ job_DependsOn job →
  ex_trace x = app later (Called (job_Name job) :: earlier) →
  Completed dep ∈ earlier.
Proof.
  intros Hdef Hfit Hex Hjob Hdep Htr. destruct (executor_ok _ _ _ _ _ Hdef Hfit Hex) as [Hok _].
  eapply eo_order; [exact Hok|exact Htr| |exact Hdep].
  apply lookup_jobs_byName; [by apply Hdef|done].
Qed.

(** C27: the executor of a stored definition always returns, within a number of
    steps the definition bounds: some step is possible until it has returned, it
    never reports that its graph cannot make progress, it calls no job more
    often than its retries allow, and unless some job failed every attempt, it
    returns with every job called and completed. *)
Theorem dispatch_progress definition w0 n x w :
  stored_ok definition → retries_fit definition →
  executes client run (start_exec definition, w0) n (x, w) →
  (n ≤ step_bound definition)%nat
  ∧ (ex_done x = false → ∃ c', exec_step client run (x, w) c')
  ∧ NoProgress ∉ ex_trace x
  ∧ (∀ job, job ∈ pd_Jobs definition →
       (calls (job_Name job) (ex_trace x) ≤ job_Retries job + 1)%Z)
  ∧ (ex_done x = true → ex_failed x = false → ∀ job, job ∈ pd_Jobs definition →
       Completed (job_Name job) ∈ ex_trace x ∧ Called (job_Name job) ∈ ex_trace x).
Proof.
  intros Hdef Hfit Hex. destruct (executor_ok _ _ _ _ _ Hdef Hfit Hex) as [Hok ?].
  assert (∀ job, job ∈ pd_Jobs definition →
    jobs_byName (pd_Jobs definition) !! job_Name job = Some job) as Hin
    by (intros; apply lookup_jobs_byName; [by apply Hdef|done]).
  split; [lia|]. split; [apply exec_step_some|]. split; [apply Hok|].
  split; [intros job Hjob%Hin; by apply (eo_calls _ _ Hok)|].
  intros Hdone Hf job Hjob%Hin. destruct (eo_done _ _ Hok Hdone) as [Hact [|Hrem]]; [congruence|].
  destruct (eo_gone _ _ Hok (job_Name job)) as [Hc|]; [by eexists|by rewrite Hrem|by rewrite Hact| |congruence].
  split; [by apply Hok|]. apply (eo_calls _ _ Hok _ _ Hjob) in Hc. unfold calls in Hc.
  destruct (filter (λ e, e = Called (job_Name job)) (ex_trace x)) as [|e l] eqn:Hl; [simpl in Hc; lia|].
  assert (e ∈ filter (λ e, e = Called (job_Name job)) (ex_trace x)) as He by (rewrite Hl; left).
  by apply list_elem_of_filter in He as [-> ?].
Qed.
End theorems.

(** ** The run in the store *)

Definition stored_run (w : world) (runID : string) : option PipelineRun :=
  snd <$> list_find (λ run, run_ID run = runID) (st_Runs (w_data w)).

Lemma list_find_insert_hit {A} (P : A → Prop) `{∀ x, Decision (P x)} l i x y :
  list_find P l = Some (i, x) → P y → list_find P (<[i := y]> l) = Some (i, y).
Proof.
  intros (Hi&_&Hbefore)%list_find_Some Hy. apply list_find_Some. split_and!; [|done|].
  - apply list_lookup_insert_eq. by eapply lookup_lt_Some.
  - intros j z Hj Hlt. rewrite list_lookup_insert_ne in Hj by lia. by eapply Hbefore.
Qed.

Lemma tell_stored `{Host} run step status message w r :
  step ≠ "" → status ∈ step_statuses → stored_run w (run_ID run) = Some r →
  ∃ t, stored_run (tell run step status message w).2 (run_ID run)
       = Some (report_run t (mkUpdateRunStepRequest step status message) r).
Proof.
  intros Hstep Hstatus Hr. unfold stored_run in Hr.
  destruct (list_find _ _) as [[i r']|] eqn:Hf; [|done]. simpl in Hr. simplify_eq/=.
  exists (clock (w_tick w)).
  change (wp (tell run step status message) w (λ _ w', stored_run w' (run_ID run)
    = Some (report_run (clock (w_tick w)) (mkUpdateRunStepRequest step status message) r))).
  unfold tell, UpdateRunStep, validStepStatus. apply wp_bind. simpl.
  rewrite decide_False, (bool_decide_eq_true_2 _ Hstatus).
  2: { intros [|Hs]; [done|]. rewrite Hs in Hstatus. set_solver. }
  cbn [negb]. apply wp_bind, wp_data. rewrite Hf. apply wp_bind, wp_now. cbv zeta.
  wp_run. unfold stored_run. rewrite (per_data _ _ _ Hper). simpl.
  erewrite list_find_insert_hit; [done|exact Hf|].
  rewrite (proj1 (report_run_same _ _ _)). by apply list_find_hit in Hf as [_ ?].
Qed.

Lemma report_run_terminal t req r :
  terminal (run_Status r) →
  run_Status (report_run t req r) = run_Status r ∧ run_Steps (report_run t req r) = run_Steps r.
Proof. intros Ht. unfold report_run. cbv zeta. by rewrite decide_True. Qed.

(** Every step has the status [phase] gives its name. *)
Record phases (names : list string) (phase : string → string) (r : PipelineRun) : Prop := {
  ph_names : step_key <$> run_Steps r = names;
  ph_status : ∀ s, s ∈ run_Steps r → stp_Status s = phase (stp_Name s)
}.

Lemma phases_ext names f g r :
  phases names f r → (∀ n, n ∈ names → f n = g n) → phases names g r.
Proof.
  intros [Hn Hs] Hfg. split; [done|]. intros s Hin. rewrite (Hs s Hin). apply Hfg.
  rewrite <- Hn. apply list_elem_of_fmap. by exists s.
Qed.

Lemma phases_statuses names f r : phases names f r → stp_Status <$> run_Steps r = f <$> names.
Proof.
  intros [<- Hs]. rewrite <- list_fmap_compose. apply list_fmap_ext.
  intros i s Hi. simpl. apply Hs. by eapply list_elem_of_lookup_2.
Qed.

(** The phases after a report on a step. *)
Definition after_report (req : UpdateRunStepRequest) (phase : string → string) (n : string) : string :=
  if decide (n = urs_Step req) then urs_Status req else phase n.

Lemma report_phases t req r names phase :
  NoDup names → phases names phase r → urs_Step req ∈ names → ¬ terminal (run_Status r) →
  phases names (after_report req phase) (report_run t req r)
  ∧ run_Status (report_run t req r)
    = run_verdict (run_Status r) (after_report req phase <$> names).
Proof.
  intros Hnd Hph Hin Hnt.
  assert (phases names (after_report req phase) (report_run t req r)) as Hph'.
  { destruct Hph as [Hnames Hst].
    assert (keys_unique step_key (run_Steps r)) as Hu by (unfold keys_unique; by rewrite Hnames).
    assert (urs_Step req ∈ step_key <$> run_Steps r) as Hin' by by rewrite Hnames.
    unfold report_run. cbv zeta. rewrite decide_False by done.
    split; simpl; rewrite applyStepTransition_steps; simpl; [by rewrite set_step_names|].
    rewrite set_step_map by done. intros s (s0&->&Hs0)%list_elem_of_fmap.
    pose proof (Hst s0 Hs0). unfold after_report, report_step.
    by repeat (case_decide; simpl in *; simplify_eq). }
  split; [done|]. rewrite <- (phases_statuses _ _ _ Hph').
  unfold report_run. cbv zeta. rewrite decide_False by done. simpl.
  by rewrite applyStepTransition_status, applyStepTransition_steps.
Qed.

(** ** The run follows its executor *)

(** The status the executor has given the step of a job. *)
Definition phase (x : exec) (name : string) : string :=
  match ex_remaining x !! name with
  | Some _ => "pending"
  | None => match ex_active x !! name with
            | Some (_, Started) => "pending"
            | Some _ => "running"
            | None => "succeeded"
            end
  end.

(** A failure has been reported. *)
Definition told (x : exec) : Prop :=
  ex_failed x = true ∨ ∃ name job, ex_active x !! name = Some (job, Failing).

(** Every job has reported success. *)
Definition over (x : exec) : Prop := ex_remaining x = ∅ ∧ ex_active x = ∅.

(** What the stored run shows of the executor's progress. *)
Definition shows (names : list string) (x : exec) (r : PipelineRun) : Prop :=
  (told x ∧ run_Status r = "failed")
  ∨ (¬ told x ∧ phases names (phase x) r
     ∧ (if decide (over x) then run_Status r = "succeeded" else ¬ terminal (run_Status r))).

(** The executor's jobs are those of [names]. *)
Definition within (names : list string) (x : exec) : Prop :=
  ∀ name, is_Some (ex_remaining x !! name) ∨ is_Some (ex_active x !! name) → name ∈ names.

Lemma phase_cases x name : phase x name ∈ ["pending"; "running"; "succeeded"].
Proof. unfold phase. repeat case_match; repeat (first [left | right]). Qed.

Lemma over_phases names x :
  within names x → over x ↔ Forall step_done (phase x <$> names).
Proof.
  intros Hin. rewrite Forall_fmap, Forall_forall. split.
  - intros [Hr Ha] n _. simpl. unfold phase. rewrite Hr, Ha. by left.
  - intros Hall. split; apply map_empty; intros n; apply eq_None_not_Some; intros Hn;
      specialize (Hall n (Hin n ltac:(auto))); simpl in Hall; unfold phase in Hall; destruct Hn as [v Hv];
      rewrite Hv in Hall; repeat case_match; by destruct Hall.
Qed.

(** The verdict on the steps once a report has moved one of them. *)
Lemma verdict_phase names x previous name :
  within names x → name ∈ names → phase x name ≠ "pending" →
  run_verdict previous (phase x <$> names) = if decide (over x) then "succeeded" else "running".
Proof.
  intros Hin Hn Hp. unfold run_verdict.
  rewrite decide_False.
  2: { intros (n&Hf&_)%list_elem_of_fmap. pose proof (phase_cases x n) as Hc.
       rewrite <- Hf in Hc. set_solver. }
  rewrite (decide_ext _ _ _ _ (iff_sym (over_phases names x Hin))). case_decide; [done|].
  rewrite decide_True; [done|]. apply Exists_fmap, Exists_exists. exists name. split; [done|].
  simpl. pose proof (phase_cases x name) as Hc. unfold step_done. set_solver.
Qed.

Section verdict.
Context `{Host} `{Net} (client : OpenFaaS) (run : PipelineRun).
Context (jobs : gmap string PipelineJob) (Hjobs : executable jobs).
Context (names : list string) (Hnd : NoDup names) (Hnames : ∀ n, n ∈ names ↔ is_Some (jobs !! n)).
Hypothesis Hnonempty : ∀ n, n ∈ names → n ≠ "".

Lemma exec_ok_within x : exec_ok jobs x → within names x.
Proof using Hnames.
  intros Hok n Hn. apply Hnames. destruct Hn as [[j Hj]|[[j g] Hg]].
  - exists j. by eapply eo_remaining.
  - exists j. pose proof (eo_active _ _ Hok _ _ Hg) as Hthis. exact (go_job _ _ _ _ _ Hthis).
Qed.

(** A report of an active job that is not one of failure. *)
Lemma tell_shows x x' w r name status message :
  stored_run w (run_ID run) = Some r → shows names x r → within names x' →
  is_Some (ex_active x !! name) → name ∈ names → status = "running" ∨ status = "succeeded" →
  (told x' ↔ told x) →
  (∀ n, phase x' n = after_report (mkUpdateRunStepRequest name status message) (phase x) n) →
  ∃ r', stored_run (tell run name status message w).2 (run_ID run) = Some r' ∧ shows names x' r'.
Proof using Hnd Hnonempty.
  intros Hr Hshows Hin Hact Hname Hstatus Htold Hph.
  destruct (tell_stored run name status message w r) as [t Ht]; [auto| |done|].
  { destruct Hstatus as [->| ->]; by apply (bool_decide_unpack _). }
  eexists. split; [exact Ht|].
  destruct Hshows as [[Hx Hs]|(Hx&Hphases&Hs)].
  - left. split; [by apply Htold|]. assert (terminal (run_Status r)) as Ht' by (rewrite Hs; by right; left).
    by rewrite (proj1 (report_run_terminal t _ _ Ht')).
  - right. split; [by rewrite Htold|].
    rewrite decide_False in Hs by (intros [_ He]; rewrite He in Hact; by destruct Hact).
    destruct (report_phases t (mkUpdateRunStepRequest name status message) r names (phase x))
      as [Hp ->]; [done..|].
    split; [eapply phases_ext; [exact Hp|auto]|].
    rewrite <- (list_fmap_ext (phase x') _ names) by (intros; apply Hph).
    rewrite (verdict_phase names x' _ name); [|done..|].
    + case_decide; [done|]. by intros [|[|]].
    + rewrite Hph. unfold after_report. simpl. rewrite decide_True by done.
      by destruct Hstatus as [->| ->].
Qed.

(** A step the store does not hear of. *)
Lemma silent_shows x x' w r :
  stored_run w (run_ID run) = Some r → shows names x r →
  (told x' ↔ told x) → (over x' ↔ over x) → (∀ n, phase x' n = phase x n) →
  shows names x' r.
Proof using Type.
  intros Hr Hshows Htold Hover Hph.
  destruct Hshows as [[Hx Hs]|(Hx&Hphases&Hs)]; [left|right]; rewrite Htold; [done|].
  split; [done|]. split; [by eapply phases_ext|]. by rewrite (decide_ext _ _ _ _ Hover).
Qed.

(** The memory after a goroutine has moved on, ended, or been started. *)
Lemma phase_set name job g x n :
  ex_remaining x !! name = None →
  phase (set_goroutine name job g x) n
  = if decide (n = name) then match g with Started => "pending" | _ => "running" end
    else phase x n.
Proof using Type.
  intros Hr. unfold phase. simpl. case_decide as Hn.
  - rewrite Hn, Hr, lookup_insert_eq. done.
  - by rewrite lookup_insert_ne by done.
Qed.

Lemma phase_end name x n :
  ex_remaining x !! name = None →
  phase (end_goroutine name x) n = if decide (n = name) then "succeeded" else phase x n.
Proof using Type.
  intros Hr. unfold phase. simpl. case_decide as Hn.
  - by rewrite Hn, Hr, lookup_delete_eq.
  - by rewrite lookup_delete_ne by done.
Qed.

Lemma told_set name job g g' x :
  ex_active x !! name = Some (job, g) → g ≠ Failing → g' ≠ Failing →
  told (set_goroutine name job g' x) ↔ told x.
Proof using Type.
  intros Hact Hg Hg'. unfold told. simpl. split; intros [?|(n&j&Hn)]; [by left| |by left|].
  - apply lookup_insert_Some in Hn as [[_ ?]|[_ Hn]]; [congruence|]. right. eauto.
  - right. exists n, j. rewrite lookup_insert_ne; [done|]. intros ->. congruence.
Qed.

Lemma told_end name job g x :
  ex_active x !! name = Some (job, g) → g ≠ Failing → told (end_goroutine name x) ↔ told x.
Proof using Type.
  intros Hact Hg. unfold told. simpl. split; intros [?|(n&j&Hn)]; [by left| |by left|].
  - apply lookup_delete_Some in Hn as [_ Hn]. right. eauto.
  - right. exists n, j. rewrite lookup_delete_ne; [done|]. intros ->. congruence.
Qed.

Lemma over_set name job g g' x :
  ex_active x !! name = Some (job, g) → over (set_goroutine name job g' x) ↔ over x.
Proof using Type.
  intros Hact. unfold over. simpl. split; intros [_ Hemp].
  - by apply insert_non_empty in Hemp.
  - by rewrite Hemp in Hact.
Qed.

Lemma Invoke_data o fn payload w :
  w_data (Invoke o fn payload w).2 = w_data w.
Proof using Type. unfold Invoke, faas_request. run_M. by repeat (case_decide; simpl). Qed.

(** A failure's report. *)
Lemma failure_shows name job message x w r :
  exec_ok jobs x → ex_active x !! name = Some (job, Broken message) →
  stored_run w (run_ID run) = Some r → shows names x r →
  ∃ r', stored_run (tell run name "failed" message w).2 (run_ID run) = Some r'
        ∧ shows names (set_goroutine name job Failing x) r'.
Proof using Hnames Hnd Hnonempty.
  intros Hok Hact Hr Hshows.
  assert (name ∈ names) as Hname by (apply (exec_ok_within x Hok); right; eauto).
  destruct (tell_stored run name "failed" message w r) as [t Ht];
    [auto|by apply (bool_decide_unpack _)|done|].
  eexists. split; [exact Ht|]. left. split.
  { right. exists name, job. simpl. apply lookup_insert_eq. }
  destruct Hshows as [[_ Hs]|(_&Hph&Hs)].
  - assert (terminal (run_Status r)) as Hterm by (rewrite Hs; by right; left).
    by rewrite (proj1 (report_run_terminal t _ _ Hterm)).
  - rewrite decide_False in Hs by (intros [_ He]; by rewrite He in Hact).
    destruct (report_phases t (mkUpdateRunStepRequest name "failed" message) r names (phase x))
      as [_ ->]; [done..|].
    unfold run_verdict. rewrite decide_True; [done|].
    apply list_elem_of_fmap. exists name. split; [|done].
    unfold after_report. simpl. by rewrite decide_True.
Qed.

Lemma advance_shows name job g x w r :
  exec_ok jobs x → ex_active x !! name = Some (job, g) →
  stored_run w (run_ID run) = Some r → shows names x r →
  ∃ r', stored_run (advance client run name job g x w).2 (run_ID run) = Some r'
        ∧ shows names (advance client run name job g x w).1 r'.
Proof using All.
  intros Hok Hact Hr Hshows. pose proof (eo_active _ _ Hok name _ Hact) as Hg. simpl in Hg.
  pose proof (xj_name _ Hjobs _ _ (go_job _ _ _ _ _ Hg)) as Hname.
  pose proof (go_waiting _ _ _ _ _ Hg) as Hwait.
  assert (name ∈ names) as Hin by (apply (exec_ok_within x Hok); right; eauto).
  pose proof (advance_good client run jobs Hjobs name job g x w Hok Hact) as [Hok' _].
  apply exec_ok_within in Hok' as Hin'.
  assert (∀ g', g ≠ Started → g' ≠ Started → g ≠ Failing → g' ≠ Failing →
            shows names (set_goroutine name job g' x) r) as Hsilent.
  { intros g' Hg1 Hg2 Hg3 Hg4. eapply (silent_shows x); [exact Hr|done|by eapply told_set|by eapply over_set|].
    intros n. rewrite phase_set by done. case_decide as Hn; [|done].
    unfold phase. rewrite Hn, Hwait, Hact. by destruct g, g'. }
  revert Hin'. unfold advance. destruct g as [| |payload attempt last|message| |raw|raw]; run_M.
  - destruct (tell _ _ _ _ _) as [[] w1] eqn:Htell. simpl. intros Hin'.
    change w1 with (tt, w1).2. rewrite <- Htell, Hname.
    eapply tell_shows; [exact Hr|exact Hshows|exact Hin'|by rewrite Hact|done|by left|by eapply told_set|].
    intros n. rewrite phase_set by done. unfold after_report. simpl. by repeat case_decide.
  - intros _. exists r. split; [done|]. eapply (silent_shows x); [exact Hr|done|by eapply told_set|by eapply over_set|].
    intros n. rewrite phase_set by done. case_decide as Hn; [|done].
    unfold phase. by rewrite Hn, Hwait, Hact.
  - intros _. case_decide; simpl.
    + pose proof (Invoke_data client (job_Function job) payload w) as Hdata.
      destruct (Invoke _ _ _ _) as [answer w1]. simpl in *. exists r.
      split; [unfold stored_run; by rewrite Hdata|].
      destruct answer; by apply (Hsilent _).
    + exists r. split; [done|]. apply Hsilent; by destruct last.
  - intros _. destruct (tell _ _ _ _ _) as [[] w1] eqn:Htell. simpl.
    change w1 with (tt, w1).2. rewrite <- Htell, Hname. by eapply failure_shows.
  - intros _. exists r. split; [done|]. left. split; [by left|].
    destruct Hshows as [[_ ?]|(Hn&_)]; [done|]. destruct Hn. right. eauto.
  - intros _. exists r. split; [done|]. by apply (Hsilent (Finished raw)).
  - destruct (tell _ _ _ _ _) as [[] w1] eqn:Htell. simpl. intros Hin'.
    change w1 with (tt, w1).2. rewrite <- Htell, Hname.
    eapply tell_shows; [exact Hr|exact Hshows|exact Hin'|by rewrite Hact|done|by right|by eapply told_end|].
    intros n. rewrite phase_end by done. unfold after_report. simpl. by repeat case_decide.
Qed.

Lemma round_shows x w r :
  exec_ok jobs x → ex_active x = ∅ → ex_done x = false →
  stored_run w (run_ID run) = Some r → shows names x r →
  stored_run (round run x w).2 (run_ID run) = Some r ∧ shows names (round run x w).1 r.
Proof using All.
  intros Hok Hact Hdone Hr Hshows. unfold round. run_M. case_decide as Hend; [done|].
  apply Decidable.not_or in Hend as [Hf%not_true_is_false Hrem].
  pose proof (ready_some jobs Hjobs x Hok Hact Hf Hrem) as Hready.
  rewrite decide_False by done. simpl. split; [done|].
  eapply (silent_shows x); [exact Hr|done|..].
  - unfold told. simpl. rewrite Hf, Hact.
    split; intros [?|(n&j&Hn)]; try done.
    rewrite lookup_fmap in Hn. by destruct (ready x !! n).
  - split; intros [Hr' Ha']; [|done]. simpl in *. by apply fmap_empty_inv in Ha'.
  - intros n. unfold phase. simpl. rewrite Hact, lookup_fmap.
    destruct (ready x !! n) as [job|] eqn:Hn.
    + pose proof (proj1 (lookup_ready _ _ _) Hn) as [-> _].
      rewrite (proj2 (lookup_difference_None _ _ _)); [done|]. right. eauto.
    + destruct (ex_remaining x !! n) as [job|] eqn:Hrn.
      * by rewrite (proj2 (lookup_difference_Some _ _ _ _) (conj Hrn Hn)).
      * by rewrite (proj2 (lookup_difference_None _ _ _) (or_introl Hrn)).
Qed.

Lemma alone_shows x0 w0 x w r0 :
  exec_ok jobs x0 → stored_run w0 (run_ID run) = Some r0 → shows names x0 r0 →
  alone client run (x0, w0) (x, w) →
  exec_ok jobs x ∧ ∃ r, stored_run w (run_ID run) = Some r ∧ shows names x r.
Proof using All.
  intros Hok Hr Hshows Hex. remember (x0, w0) as c0 eqn:E0. remember (x, w) as c eqn:E.
  revert x0 w0 r0 E0 Hok Hr Hshows.
  induction Hex as [c1|c0 [x1 w1] c Hs _ IH]; intros x0 w0 r0 E0 Hok Hr Hshows; simplify_eq; [eauto|].
  destruct (exec_step_good client run jobs Hjobs _ _ _ _ Hok Hs) as [Hok1 _].
  assert (∃ r1, stored_run w1 (run_ID run) = Some r1 ∧ shows names x1 r1) as (r1&?&?).
  { inversion Hs as [? ? Hd Ha|? ? name job g Hact]; subst.
    - destruct (round_shows x0 w0 r0) as [Hd1 Hd2]; [done..|].
      destruct (round run x0 w0). simplify_eq/=. eauto.
    - destruct (advance_shows name job g x0 w0 r0) as (r1&Hd1&Hd2); [done..|].
      destruct (advance client run name job g x0 w0). simplify_eq/=. eauto. }
  by eapply IH.
Qed.
End verdict.

(** ** Reports the run does not follow *)

(** A report is lost, or it reaches the run. *)
Lemma tell_cases `{Host} run step status message w r :
  stored_run w (run_ID run) = Some r →
  ∃ r', stored_run (tell run step status message w).2 (run_ID run) = Some r'
        ∧ (r' = r ∨ ∃ t, r' = report_run t (mkUpdateRunStepRequest step status message) r).
Proof.
  intros Hr. destruct (decide (step = "" ∨ status ∉ step_statuses)) as [Hbad|Hgood].
  - exists r. split; [|by left].
    change (wp (tell run step status message) w (λ _ w', stored_run w' (run_ID run) = Some r)).
    unfold tell, UpdateRunStep, validStepStatus. apply wp_bind. simpl.
    case_decide as Hemp; [by apply wp_fail|].
    rewrite bool_decide_eq_false_2; [by apply wp_fail|]. destruct Hbad; [|done].
    destruct Hemp. by left.
  - apply Decidable.not_or in Hgood as [? ?%dec_stable].
    destruct (tell_stored run step status message w r) as [t Ht]; eauto.
Qed.

Lemma tell_preserves `{Host} (Q : PipelineRun → Prop) run step status message w :
  (∀ t r, Q r → Q (report_run t (mkUpdateRunStepRequest step status message) r)) →
  (∃ r, stored_run w (run_ID run) = Some r ∧ Q r) →
  ∃ r, stored_run (tell run step status message w).2 (run_ID run) = Some r ∧ Q r.
Proof.
  intros HQ (r&Hr&Hq). destruct (tell_cases run step status message w r Hr) as (r'&?&[->|[t ->]]); eauto.
Qed.

(** A property of the run that the reports of the active jobs keep holds as
    long as the executor works alone. *)
Lemma alone_preserves `{Host} `{Net} client run jobs (Q : PipelineRun → Prop) x0 w0 x w :
  executable jobs → exec_ok jobs x0 →
  (∀ name status message t r, is_Some (jobs !! name) → Q r →
     Q (report_run t (mkUpdateRunStepRequest name status message) r)) →
  (∃ r, stored_run w0 (run_ID run) = Some r ∧ Q r) →
  alone client run (x0, w0) (x, w) → ∃ r, stored_run w (run_ID run) = Some r ∧ Q r.
Proof.
  intros Hjobs Hok HQ Hr Hex. remember (x0, w0) as c0 eqn:E0. remember (x, w) as c eqn:E.
  revert x0 w0 E0 Hok Hr.
  induction Hex as [c1|c0 [x1 w1] c Hs _ IH]; intros x0 w0 E0 Hok Hr; simplify_eq; [done|].
  destruct (exec_step_good client run jobs Hjobs _ _ _ _ Hok Hs) as [Hok1 _].
  eapply IH; [done..|]. inversion Hs as [? ? Hd Ha|? ? name job g Hact]; subst.
  - match goal with E : round _ _ _ = _ |- _ => revert E end. unfold round. run_M. case_decide as Hend; [by intros [= _ <-]|].
    apply Decidable.not_or in Hend as [Hf%not_true_is_false Hrem].
    rewrite decide_False by by apply (ready_some jobs Hjobs). by intros [= _ <-].
  - pose proof (eo_active _ _ Hok name _ Hact) as Hg. simpl in Hg.
    pose proof (go_job _ _ _ _ _ Hg) as Hj. pose proof (xj_name _ Hjobs _ _ Hj) as Hname.
    assert (∀ status message, ∃ r,
      stored_run (tell run (job_Name job) status message w0).2 (run_ID run) = Some r ∧ Q r) as Htell.
    { intros. apply tell_preserves; [|done]. intros. apply HQ; [|done]. rewrite Hname. eauto. }
    pose proof (Invoke_data client (job_Function job)) as Hdata.
    match goal with E : advance _ _ _ _ _ _ _ = _ |- _ => revert E end.
    unfold advance. destruct g as [| |payload attempt last|message| |raw|raw]; run_M;
      try (case_decide; simpl); try by intros [= _ <-].
    + specialize (Htell "running" ("invoking function " ++ job_Function job)).
      destruct (tell _ _ _ _ _) as [[] w2]. by intros [= _ <-].
    + specialize (Hdata payload w0). destruct (Invoke _ _ _ _) as [answer w2].
      intros [= _ <-]. simpl in Hdata. unfold stored_run. by rewrite Hdata.
    + specialize (Htell "failed" message).
      destruct (tell _ _ _ _ _) as [[] w2]. by intros [= _ <-].
    + specialize (Htell "succeeded" ("function " ++ job_Function job ++ " completed ("
             ++ pretty (Z.of_nat (String.length raw)) ++ " bytes)")).
      destruct (tell _ _ _ _ _) as [[] w2]. by intros [= _ <-].
Qed.

Lemma alone_ok `{Host} `{Net} client run jobs x0 w0 x w :
  executable jobs → exec_ok jobs x0 → alone client run (x0, w0) (x, w) → exec_ok jobs x.
Proof.
  intros Hjobs Hok Hex. remember (x0, w0) as c0 eqn:E0. remember (x, w) as c eqn:E.
  revert x0 w0 E0 Hok. induction Hex as [c1|c0 [x1 w1] c Hs _ IH]; intros x0 w0 E0 Hok; simplify_eq; [done|].
  eapply IH; [done..|]. by apply (exec_step_good client run jobs Hjobs _ _ _ _ Hok Hs).
Qed.

(** A network that answers the same request the same way whenever it is sent. *)
Definition steady `{Net} : Prop := ∀ k k' request, http_do k request = http_do k' request.

Lemma Invoke_steady `{Net} o fn payload w w' :
  steady → (Invoke o fn payload w).1 = (Invoke o fn payload w').1.
Proof.
  intros Hs. unfold Invoke, faas_request. run_M. repeat (case_decide; simpl; [done|]).
  unfold ask. simpl. by rewrite (Hs (w_tick w) (w_tick w')).
Qed.

(** The executor's memory does not depend on the store. *)
Lemma exec_step_steady `{Host} `{Net} client run x w w0 c :
  steady → exec_step client run (x, w) c → ∃ w1, exec_step client run (x, w0) (c.1, w1).
Proof.
  intros Hst Hs. inversion Hs as [? ? Hd Ha|? ? name job g Hact]; subst; eexists.
  - enough ((round run x w).1 = (round run x w0).1) as ->.
    { rewrite <- surjective_pairing. by apply step_round. }
    unfold round. run_M. case_decide; [done|]. case_decide; [|done].
    by destruct (tell _ _ _ _ w) as [[] ?], (tell _ _ _ _ w0) as [[] ?].
  - enough ((advance client run name job g x w).1 = (advance client run name job g x w0).1) as ->.
    { rewrite <- surjective_pairing. by apply step_goroutine. }
    unfold advance. destruct g as [| |payload attempt last|message| |raw|raw]; run_M; try done;
      try by destruct (tell _ _ _ _ w) as [[] ?], (tell _ _ _ _ w0) as [[] ?].
    case_decide; [|done]. pose proof (Invoke_steady client (job_Function job) payload w w0 Hst) as He.
    destruct (Invoke _ _ _ w), (Invoke _ _ _ w0). by simplify_eq/=.
Qed.

Lemma alone_steady `{Host} `{Net} client run x w w0 x' w' :
  steady → alone client run (x, w) (x', w') → ∃ w1, alone client run (x, w0) (x', w1).
Proof.
  intros Hst Hex. remember (x, w) as c0 eqn:E0. remember (x', w') as c eqn:E. revert x w w0 E0.
  induction Hex as [c1|c0 [x1 w1] c Hs _ IH]; intros x w w0 E0; simplify_eq.
  - exists w0. apply rtc_refl.
  - destruct (exec_step_steady client run x w w0 _ Hst Hs) as [w2 Hs2].
    destruct (IH eq_refl x1 w1 w2 eq_refl) as [w3 Hex3]. exists w3. by eapply rtc_l.
Qed.

Lemma CancelRun_stored `{Host} runID actor w r :
  stored_run w runID = Some r → run_Status r ≠ "succeeded" → run_Status r ≠ "failed" →
  ∃ r', stored_run (CancelRun runID actor w).2 runID = Some r' ∧ run_Status r' = "cancelled".
Proof.
  intros Hr Hs1 Hs2. unfold stored_run in Hr.
  destruct (list_find _ _) as [[i r']|] eqn:Hf; [|done]. simpl in Hr. simplify_eq/=.
  change (wp (CancelRun runID actor) w (λ _ w', ∃ r', stored_run w' runID = Some r'
    ∧ run_Status r' = "cancelled")).
  unfold CancelRun. apply wp_bind, wp_data. rewrite Hf, decide_False by by intros [|].
  wp_run. unfold stored_run. rewrite (per_data _ _ _ Hper). simpl.
  erewrite list_find_insert_hit; [by eexists|exact Hf|]. by apply list_find_hit in Hf as [_ ?].
Qed.

Lemma retried_waits `{Host} runID actor w0 i previous name :
  list_find (λ run, run_ID run = runID) (st_Runs (w_data w0)) = Some (i, previous) →
  name ∈ stp_Name <$> run_Steps previous →
  ∃ r, stored_run (RetryRun runID actor w0).2 (run_ID (RetryRun runID actor w0).1.1) = Some r
       ∧ run_Status r ≠ "succeeded"
       ∧ ∃ s, s ∈ run_Steps r ∧ stp_Name s = name ∧ stp_Status s = "pending".
Proof.
  intros Hf (s&->&Hs)%list_elem_of_fmap.
  enough (wp (RetryRun runID actor) w0 (λ '(run, _) w1,
    st_Runs (w_data w1) = run :: st_Runs (w_data w0) ∧ run_Status run = "queued"
    ∧ run_Steps run = resetSteps (run_Steps previous))) as Hwp.
  { unfold wp in Hwp. destruct (RetryRun runID actor w0) as [[run err] w1]. simpl in *.
    destruct Hwp as (Hruns&Hst&Hsteps). exists run. split; [|split; [by rewrite Hst|]].
    - unfold stored_run. rewrite Hruns. simpl. by rewrite decide_True.
    - exists (s <|stp_Status := "pending"|> <|stp_Progress := 0%Z|>). split; [|done].
      rewrite Hsteps. apply list_elem_of_fmap. eauto. }
  unfold RetryRun. apply wp_bind, wp_data. rewrite Hf. wp_run. by rewrite (per_data _ _ _ Hper).
Qed.

Section verdicts.
Context `{Host} `{Net} (client : OpenFaaS).

Lemma stored_names definition :
  stored_ok definition → ∀ n, n ∈ job_Name <$> pd_Jobs definition
                            ↔ is_Some (jobs_byName (pd_Jobs definition) !! n).
Proof. intros Hdef n. by rewrite <- elem_of_dom, dom_jobs_byName, elem_of_list_to_set. Qed.


(** Cancelling a run does not stop its executor: on a network that answers
    the same way at any time, the executor goes through the same calls whether
    or not the run is cancelled, at any point; the run stays cancelled. *)
Theorem cancel_does_not_stop definition run actor w1 x0 w0 r0 x w :
  stored_ok definition → retries_fit definition → steady →
  alone client run (start_exec definition, w1) (x0, w0) →
  stored_run w0 (run_ID run) = Some r0 →
  run_Status r0 ≠ "succeeded" → run_Status r0 ≠ "failed" →
  alone client run (x0, w0) (x, w) →
  ∃ w' r', alone client run (x0, (CancelRun (run_ID run) actor w0).2) (x, w')
           ∧ stored_run w' (run_ID run) = Some r' ∧ run_Status r' = "cancelled".
Proof.
  intros Hdef Hfit Hst Hpre Hr Hs1 Hs2 Hex.
  pose proof (stored_executable _ Hdef Hfit) as Hjobs.
  destruct (alone_steady client run _ _ (CancelRun (run_ID run) actor w0).2 _ _ Hst Hex) as [w' Hex'].
  destruct (CancelRun_stored (run_ID run) actor w0 r0 Hr Hs1 Hs2) as (rc&Hrc&Hc).
  destruct (alone_preserves client run _ (λ r, run_Status r = "cancelled") x0
    (CancelRun (run_ID run) actor w0).2 x w' Hjobs) as (r'&?&?); [|..|by eauto| |by eauto].
  - by apply (alone_ok client run _ _ _ _ _ Hjobs (start_exec_ok _ Hdef) Hpre).
  - intros name status message t r _ Hq.
    assert (terminal (run_Status r)) as Ht by (rewrite Hq; by left).
    by rewrite (proj1 (report_run_terminal t _ _ Ht)).
  - done.
Qed.

(** A run with a step nobody reports on. *)
Definition waits_on (name : string) (r : PipelineRun) : Prop :=
  run_Status r ≠ "succeeded" ∧ ∃ s, s ∈ run_Steps r ∧ stp_Name s = name ∧ stp_Status s = "pending".

Lemma waits_on_report name t req r :
  urs_Step req ≠ name → waits_on name r → waits_on name (report_run t req r).
Proof.
  intros Hne [Hst (s&Hs&Hn&Hp)]. unfold report_run. cbv zeta. case_decide; [split; eauto|].
  assert (s ∈ set_step req (run_Steps r)) as Hs'.
  { unfold set_step. destruct (list_find _ _) as [[i s0]|] eqn:Hf; [|apply elem_of_app; by left].
    apply list_find_hit in Hf as [Hi Hs0]. apply list_elem_of_lookup in Hs as [j Hj].
    apply list_elem_of_lookup. exists j. rewrite list_lookup_insert_ne; [done|]. congruence. }
  split; simpl.
  - rewrite applyStepTransition_status. simpl. unfold run_verdict. destruct (decide ("failed" ∈ _)) as [_|_]; [discriminate|].
    rewrite decide_False; [destruct (decide (Exists _ _)); [discriminate|exact Hst]|]. rewrite Forall_fmap, Forall_forall.
    intros Hall. specialize (Hall s Hs'). simpl in Hall. rewrite Hp in Hall. by destruct Hall.
  - rewrite applyStepTransition_steps. simpl. eauto.
Qed.

(** A retry copies the steps of the old run, and the executor runs the jobs
    the definition has now: if the definition has lost one of the steps' jobs
    since, the retried run never succeeds, whatever its functions answer. *)
Theorem retry_after_edit runID actor w0 i previous definition name x w :
  list_find (λ run, run_ID run = runID) (st_Runs (w_data w0)) = Some (i, previous) →
  stored_ok definition → retries_fit definition →
  name ∈ stp_Name <$> run_Steps previous → name ∉ job_Name <$> pd_Jobs definition →
  let '((run, _), w1) := RetryRun runID actor w0 in
  alone client run (start_exec definition, w1) (x, w) →
  ∃ r, stored_run w (run_ID run) = Some r ∧ run_Status r ≠ "succeeded".
Proof.
  intros Hf Hdef Hfit Hold Hnew.
  pose proof (retried_waits runID actor w0 i previous name Hf Hold) as Hr.
  destruct (RetryRun runID actor w0) as [[run err] w1]. simpl in Hr. intros Hex.
  assert (∀ step status message t r, is_Some (jobs_byName (pd_Jobs definition) !! step) →
    waits_on name r →
    waits_on name (report_run t (mkUpdateRunStepRequest step status message) r)) as Hkeep.
  { intros step status message t r Hstep. apply waits_on_report. simpl.
    intros ->. by apply Hnew, stored_names. }
  destruct (alone_preserves client run _ (waits_on name) _ _ _ _
    (stored_executable _ Hdef Hfit) (start_exec_ok _ Hdef) Hkeep Hr Hex) as (r&?&[? _]). eauto.
Qed.
End verdicts.

(** ** Runs of the executor, one goroutine at a time *)

Lemma run_exec_alone `{Host} `{Net} client run fuel x w :
  alone client run (x, w) (run_exec client run fuel x w).
Proof.
  revert x w. induction fuel as [|fuel IH]; intros x w; simpl; [apply rtc_refl|].
  destruct (ex_done x) eqn:Hd; [apply rtc_refl|].
  destruct (map_to_list (ex_active x)) as [|[name [job g]] l] eqn:Hl; run_M.
  - pose proof (step_round client run x w Hd (proj1 (map_to_list_empty_iff _) Hl)) as Hs.
    destruct (round run x w) as [x1 w1]. eapply rtc_l; [exact Hs|apply IH].
  - assert (ex_active x !! name = Some (job, g)) as Hact
      by (apply elem_of_map_to_list; rewrite Hl; left).
    pose proof (step_goroutine client run x w name job g Hact) as Hs.
    destruct (advance client run name job g x w) as [x1 w1]. eapply rtc_l; [exact Hs|apply IH].
Qed.

Lemma alone_executes `{Host} `{Net} `{MapOrder} client run c0 c :
  alone client run c0 c → ∃ n, executes client run c0 n c.
Proof.
  intros Hex. enough (∀ c1 n, executes client run c1 n c0 → ∃ m, executes client run c1 m c) as Hgen
    by (apply (Hgen c0 0%nat); constructor).
  induction Hex as [c2|c2 c3 c4 Hs _ IH]; intros c1 n Hn; [eauto|].
  apply (IH c1 (S n)). by eapply exec_more.
Qed.

(** ** Witnesses *)

#[local] Existing Instance quiet_host.
#[local] Existing Instance listed_order.

(** A network where every request succeeds, and one where every request fails. *)
Definition answering (status : Z) : Net := {|
  http_do := λ _ _, Ok (mkHttpResponse status "{}" "");
  json_value := λ _, Some "{}";
  json_id := λ _, Ok "id";
  json_any := λ _, None;
  json_functions := λ _, Ok [];
  basic_auth := λ _ _, ""
|}.

Definition faas : OpenFaaS := NewOpenFaaS "http://gateway:8080/" "" "".

Definition chain_request : UpsertPipelineDefinitionRequest :=
  mkUpsertPipelineDefinitionRequest "prj-1" "chain" "v1" "functions"
    [mkPipelineJob "train" "function" "fit" "" [] ["prepare"] ∅ (mkJobResources "" "" 0) 1;
     mkPipelineJob "prepare" "function" "clean" "" [] [] ∅ (mkJobResources "" "" 0) 0] "" "".
Definition chain : PipelineDefinition :=
  mkPipelineDefinition "pipe-1" "prj-1" "chain" "v1" "functions" (upd_Jobs (normalized chain_request))
    "" "" 0%Z 0%Z.

Lemma chain_ok : stored_ok chain.
Proof.
  apply (new_definition_ok (H := listed_order) "pipe-1" chain_request (normalized chain_request) 0%Z).
  vm_compute. reflexivity.
Qed.

Lemma chain_fits : retries_fit chain.
Proof. by repeat constructor. Qed.

Definition chain_run : PipelineRun := queued_run <|run_Steps := stepsFromDefinition chain|>.
Definition chain_world : world :=
  (booting "" ∅) <|w_data := zero <|st_Runs := [chain_run]|>|>.
Definition chain_end (status : Z) : exec * world :=
  run_exec (H0 := answering status) faas chain_run 40 (start_exec chain) chain_world.

Lemma chain_alone status :
  alone (H0 := answering status) faas chain_run (start_exec chain, chain_world)
    ((chain_end status).1, (chain_end status).2).
Proof.
  rewrite <- (surjective_pairing (chain_end status)). unfold chain_end.
  apply (run_exec_alone (H0 := answering status) faas chain_run 40 (start_exec chain) chain_world).
Qed.

Lemma dispatch_order_witness :
  ex_trace (chain_end 200).1
    = [Completed "train"; Called "train"; Completed "prepare"; Called "prepare"]
  ∧ Completed "prepare" ∈ [Completed "prepare"; Called "prepare"].
Proof.
  split; [vm_compute; reflexivity|].
  destruct (alone_executes (H0 := answering 200) faas chain_run _ _ (chain_alone 200)) as [n Hex].
  apply (dispatch_order (H0 := answering 200) faas chain_run chain chain_world n
    (chain_end 200).1 (chain_end 200).2 (default zero (head (pd_Jobs chain))) [Completed "train"]
    [Completed "prepare"; Called "prepare"] "prepare" chain_ok chain_fits Hex);
    [left|left|vm_compute; reflexivity].
Defined.

Lemma dispatch_progress_witness :
  ex_done (chain_end 200).1 = true ∧ ex_failed (chain_end 200).1 = false
  ∧ Called "prepare" ∈ ex_trace (chain_end 200).1.
Proof.
  split; [vm_compute; reflexivity|]. split; [vm_compute; reflexivity|].
  destruct (alone_executes (H0 := answering 200) faas chain_run _ _ (chain_alone 200)) as [n Hex].
  destruct (dispatch_progress (H0 := answering 200) faas chain_run chain chain_world n
    (chain_end 200).1 (chain_end 200).2 chain_ok chain_fits Hex) as (_&_&_&_&Hend).
  destruct (Hend ltac:(vm_compute; reflexivity) ltac:(vm_compute; reflexivity)
    (default zero (head (drop 1 (pd_Jobs chain))))) as [_ Hc]; [right; left|exact Hc].
Defined.


Lemma cancel_does_not_stop_witness :
  ∃ w' r', alone (H0 := answering 200) faas chain_run
             (start_exec chain, (CancelRun "run-1" "alice" chain_world).2) ((chain_end 200).1, w')
           ∧ stored_run w' "run-1" = Some r' ∧ run_Status r' = "cancelled".
Proof.
  apply (cancel_does_not_stop (H0 := answering 200) faas chain chain_run "alice" chain_world
    (start_exec chain) chain_world chain_run (chain_end 200).1 (chain_end 200).2 chain_ok chain_fits);
    [by intros k k' q|apply rtc_refl|reflexivity|done|done|exact (chain_alone 200)].
Defined.

Lemma retry_after_edit_witness :
  let retried := RetryRun "run-1" "alice" one_run in
  let last := run_exec (H0 := answering 200) faas retried.1.1 40 (start_exec chain) retried.2 in
  ex_done last.1 = true ∧ ex_failed last.1 = false
  ∧ ∃ r, stored_run last.2 (run_ID retried.1.1) = Some r ∧ run_Status r ≠ "succeeded".
Proof.
  intros retried last. split; [vm_compute; reflexivity|]. split; [vm_compute; reflexivity|].
  apply (retry_after_edit (H0 := answering 200) faas "run-1" "alice" one_run 0 queued_run chain
    "evaluate" last.1 last.2 eq_refl chain_ok chain_fits);
    [by apply (bool_decide_unpack _)|by apply (bool_decide_unpack _)|].
  rewrite <- (surjective_pairing last). unfold last.
  apply (run_exec_alone (H0 := answering 200) faas retried.1.1 40 (start_exec chain) retried.2).
Defined.
