(* ===== verification/Handlers.v ===== *)
(** * The control-plane handlers (internal/httpapi/server.go)

    The handlers that read and change the repository for an authorized caller.
    A handler is given the request with its resolved principal, the path values
    it reads and its decoded body; what [encoding/json] makes of the body is
    [result].  The handlers of models, agents, functions, features, tools and
    connections are in [ResourceHandlers]. *)

From S2P Require Import Prelude GoStrings Types World Access Tokens Blog Projects Pipelines.
From S2P Require Import Runs Models Agents Registry Store Auth HttpAccess Integrations Dispatch.

Open Scope string_scope.

(** ** Replies *)

Inductive reply (A : Type) : Type :=
  | JSON (status : Z) (value : A)
  | APIErr (status : Z) (code message : string)
  | NoContent.
Arguments JSON {A} status value.
Arguments APIErr {A} status code message.
Arguments NoContent {A}.

Definition writeMutation {A} (value : A) (err : option gerror) (success : Z) : reply A :=
  match err with
  | None => JSON success value
  | Some ErrNotFound => APIErr 404 "not_found" (error_text ErrNotFound)
  | Some ErrConflict => APIErr 409 "conflict" (error_text ErrConflict)
  | Some e => APIErr 422 "validation_error" (error_text e)
  end.

(** [writeMutation(w, struct{}{}, err, ...)] or [w.WriteHeader(204)]. *)
Definition deleted (err : option gerror) : reply unit :=
  match err with None => NoContent | Some e => writeMutation tt (Some e) 204 end.

Definition principal (r : request) : Principal := default zero (rq_principal r).

Section handlers.
Context `{Host} `{MapOrder} `{Net} `{Engines}.
Implicit Types r : request.

(** The [X-MLAIOps-Actor] header, for a request without a principal. *)
Definition actor (header : string) r : string :=
  match rq_principal r with
  | Some p => if decide (pr_Email p ≠ "") then pr_Email p else pr_Subject p
  | None => if decide (TrimSpace header ≠ "") then TrimSpace header else "anonymous"
  end.

Definition decoded {B A} (body : result B) (handle : B → M (reply A)) : M (reply A) :=
  match body with
  | Err e => mret (APIErr 400 "invalid_request" (error_text e))
  | Ok req => handle req
  end.

(** Run a store operation and write its outcome. *)
Definition mutate {A} (success : Z) (m : R A) : M (reply A) :=
  x ← m; mret (let '(value, err) := x in writeMutation value err success).

(** ** Users and access requests *)

Definition upsertUserAccess header r (subject : string) (body : result UpsertUserAccessRequest)
    : M (reply UserAccess) :=
  decoded body (λ req,
    if decide (subject = pr_Subject (principal r) ∧ (uar_Role req ≠ RoleAdmin ∨ uar_Disabled req = true))
    then mret (APIErr 400 "invalid_request" "administrators cannot demote or suspend themselves")
    else mutate 200 (UpsertUserAccess subject req (actor header r))).

Definition deleteUserAccess header r (subject : string) : M (reply unit) :=
  if decide (subject = pr_Subject (principal r))
  then mret (APIErr 400 "invalid_request" "administrators cannot remove their own access")
  else x ← DeleteUserAccess subject (actor header r); mret (deleted (snd x)).

Definition myAccessRequests r : M (reply (list AccessRequest)) :=
  items ← AccessRequestsFor (pr_Subject (principal r)); mret (JSON 200 items).

Definition createAccessRequest r (body : result CreateAccessRequest) : M (reply AccessRequest) :=
  decoded body (λ req,
    mutate 201 (CreateAccessRequest_op (pr_Subject (principal r)) (pr_Email (principal r)) req)).

Definition reviewAccessRequest header r (id : string) (body : result ReviewAccessRequest)
    : M (reply AccessRequest) :=
  decoded body (λ req, mutate 200 (ReviewAccessRequest_op id req (actor header r))).

(** ** API tokens *)

Definition hide_hash (token : APIToken) : APIToken := token <|tok_SecretHash := ""|>.

Definition apiTokens r : M (reply (list APIToken)) :=
  items ← APITokensFor (pr_Subject (principal r)); mret (JSON 200 (hide_hash <$> items)).

Definition createAPIToken r (body : result CreateAPITokenRequest) : M (reply CreatedAPIToken) :=
  decoded body (λ req,
    d ← data;
    if negb (tokenScopesAllowed d (principal r) (ctr_Services req) (ctr_ProjectIDs req))
    then mret (APIErr 403 "invalid_scope" "token scope exceeds your effective access") else
    x ← CreateAPIToken (pr_Subject (principal r)) req;
    let '(created, err) := x in
    mret (writeMutation (created <|ctk_Token := hide_hash (ctk_Token created)|>) err 201)).

Definition revokeAPIToken r (id : string) : M (reply unit) :=
  x ← RevokeAPIToken (pr_Subject (principal r)) id; mret (deleted (snd x)).

(** ** Blog *)

Definition blogPosts : M (reply (list BlogPost)) :=
  items ← BlogPosts;
  mret (JSON 200 ((λ post, post <|bp_Content := ""|>)
                  <$> filter (λ post, bp_Status post = "published") items)).

Definition blogPost (slug : string) : M (reply BlogPost) :=
  x ← BlogPost_get slug;
  let '(post, err) := x in
  mret (if decide (err ≠ None ∨ bp_Status post ≠ "published")
        then APIErr 404 "not_found" "blog post not found" else JSON 200 post).

Definition createBlogPost header r (body : result UpsertBlogPostRequest) : M (reply BlogPost) :=
  decoded body (λ req, mutate 201 (UpsertBlogPost "" req (actor header r))).

Definition updateBlogPost header r (id : string) (body : result UpsertBlogPostRequest)
    : M (reply BlogPost) :=
  decoded body (λ req, mutate 200 (UpsertBlogPost id req (actor header r))).

Definition deleteBlogPost header r (id : string) : M (reply unit) :=
  x ← DeleteBlogPost id (actor header r); mret (deleted (snd x)).

(** ** Projects *)

Definition projects r : M (reply (list Project)) :=
  items ← Projects; mret (JSON 200 (filterProjects items (principal r))).

(** A resource outside the caller's projects is not found. *)
Definition visible {A} (project : A → string) r (m : R A) : M (reply A) :=
  x ← m;
  d ← data;
  let '(item, err) := x in
  let err := if decide (err = None) then
               if projectAllowed d (principal r) (project item) then None else Some ErrNotFound
             else err in
  mret (writeMutation item err 200).

Definition project r (id : string) : M (reply Project) := visible prj_ID r (Project_get id).

Definition setProjectRepository header r (projectID : string)
    (body : result SetProjectRepositoryRequest) : M (reply Project) :=
  d ← data;
  if negb (projectAllowed d (principal r) projectID)
  then mret (APIErr 404 "not_found" "project not found") else
  decoded body (λ req, mutate 200 (SetProjectRepository projectID req (actor header r))).

(** The handler past its quota check. *)
Definition admittedProject header r (body : result CreateProjectRequest) : M (reply Project) :=
  decoded body (λ req,
    if decide (cpr_RepositoryURL req ≠ ""
               ∧ Allowed (principal r) "PUT" "/api/v1/projects/new/repository" = false)
    then mret (APIErr 403 "access_denied"
                 "Git service access is required to connect a repository") else
    let req := req <|cpr_OwnerSubject := pr_Subject (principal r)|> in
    x ← CreateProject req [actor header r];
    let '(item, err) := x in
    mret (match err with
          | Some e => APIErr 422 "validation_error" (error_text e)
          | None => JSON 201 item
          end)).

Definition createProject header r (body : result CreateProjectRequest) : M (reply Project) :=
  d ← data;
  match enforceProjectQuota d (principal r) with
  | Some e => mret (APIErr 403 "quota_exceeded" (error_text e))
  | None => admittedProject header r body
  end.

(** ** Pipelines *)

Definition pipelineDefinitions r : M (reply (list PipelineDefinition)) :=
  d ← data;
  mret (JSON 200 (filterPipelineDefinitions (st_Definitions d) (allowedProjectIDs d (principal r)))).

Definition pipelineDefinition r (id : string) : M (reply PipelineDefinition) :=
  visible pd_ProjectID r (PipelineDefinition_get id).

(** The first job, as it was sent, that names a function the project has not. *)
Definition undeployed (d : state) (req : UpsertPipelineDefinitionRequest) : option PipelineJob :=
  let registered := fn_Name <$> filter (λ f, fn_ProjectID f = upd_ProjectID req) (st_Functions d) in
  snd <$> list_find (λ job, job_Kind job = "function" ∧ job_Function job ∉ registered)
            (upd_Jobs req).

Definition upsertPipelineDefinition header r (id : string)
    (body : result UpsertPipelineDefinitionRequest) : M (reply PipelineDefinition) :=
  decoded body (λ req,
    d ← data;
    if negb (projectAllowed d (principal r) (upd_ProjectID req))
    then mret (APIErr 403 "access_denied" "project is not assigned to this user") else
    match undeployed d req with
    | Some job => mret (APIErr 422 "validation_error"
        ("function job references an undeployed project function: " ++ job_Function job))
    | None => mutate (if decide (id = "") then 201 else 200)
                (UpsertPipelineDefinition id req (actor header r))
    end).

Definition runs r : M (reply (list PipelineRun)) :=
  d ← data; mret (JSON 200 (filterRuns (st_Runs d) (allowedProjectIDs d (principal r)))).

Definition run r (id : string) : M (reply PipelineRun) := visible run_ProjectID r (Run_get id).

(** The run a caller may act on. *)
Definition with_run {A} r (id : string) (handle : M (reply A)) : M (reply A) :=
  x ← Run_get id;
  d ← data;
  let '(run, err) := x in
  if decide (err ≠ None ∨ projectAllowed d (principal r) (run_ProjectID run) = false)
  then mret (APIErr 404 "not_found" "run not found") else handle.

(** [cancelRun]; the engine is told afterwards, best effort. *)
Definition cancelRun header r (id : string) : M (reply PipelineRun) :=
  with_run r id (
    x ← CancelRun id (actor header r);
    let '(item, err) := x in
    _ ← (if decide (err = None ∧ run_EngineRunID item ≠ "" ∧ PREFECT_API_URL ≠ "")
         then _ ← CancelFlowRun (NewPrefect PREFECT_API_URL "") (run_EngineRunID item); mret tt
         else mret tt);
    mret (writeMutation item err 200)).

Definition updateRunStep header r (id : string) (body : result UpdateRunStepRequest)
    : M (reply PipelineRun) :=
  decoded body (λ req, mutate 200 (UpdateRunStep id req (actor header r))).

Definition quota_checked {A} r (handle : M (reply A)) : M (reply A) :=
  d ← data;
  match enforceRunQuota d (principal r) with
  | Some e => mret (APIErr 403 "quota_exceeded" (error_text e))
  | None => handle
  end.

(** The run replied is the one [dispatchPipeline] hands back; the executor it
    may have started goes on in the background (see [Dispatch]). *)
Definition retryRun header r (id : string) : M (reply PipelineRun) :=
  with_run r id (quota_checked r (
    x ← RetryRun id (actor header r);
    let '(item, err) := x in
    match err with
    | None => started ← dispatchPipeline item; mret (writeMutation started.1 None 202)
    | Some e => mret (writeMutation item (Some e) 202)
    end)).

Definition submitPipeline header r (body : result SubmitPipelineRequest)
    : M (reply PipelineRun) :=
  decoded body (λ req,
    d ← data;
    if negb (projectAllowed d (principal r) (sub_ProjectID req))
    then mret (APIErr 403 "access_denied" "project is not assigned to this user") else
    quota_checked r (
      x ← SubmitPipeline req [actor header r];
      let '(item, err) := x in
      match err with
      | Some e => mret (APIErr (if decide (e = ErrNotFound) then 404 else 422)
                          "pipeline_submission_failed" (error_text e))
      | None => started ← dispatchPipeline item; mret (JSON 202 started.1)
      end)).
End handlers.
