(* ===== verification/ResourceHandlers.v ===== *)
(** * The handlers of the remaining resources (internal/httpapi/server.go)

    Models and their deployment to the serving manager, agents, functions and
    their deployment to OpenFaaS, features, tools, connections, and the pages
    derived from the repository: dashboard, readiness and catalog. *)

From Stdlib Require Import Ascii.
From S2P Require Import Prelude GoStrings Urls Types World Access Tokens Blog Projects Pipelines.
From S2P Require Import Runs Models Agents Registry Store Auth HttpAccess Platform Integrations.
From S2P Require Import Dispatch Handlers.

Open Scope string_scope.

(** ** Readiness *)

Definition choose (condition : bool) (yes no : string) : string := if condition then yes else no.

Definition readinessFor (d : state) : Readiness :=
  let healthy t := bool_decide (t ∈ healthy_types (st_Connections d)) in
  let items := [
    mkReadinessItem "workspace" "Create a workspace"
      (choose (bool_decide (st_Projects d ≠ [])) "ready" "pending")
      "A project namespace and defaults are available." "projects";
    mkReadinessItem "kubernetes" "Connect Kubernetes" (choose (healthy "kubernetes") "ready" "pending")
      "Required to schedule pipelines and serving workloads." "platform";
    mkReadinessItem "tracking" "Connect MLflow" (choose (healthy "mlflow") "ready" "pending")
      "Tracks experiments, artifacts and model versions." "platform";
    mkReadinessItem "storage" "Connect object storage"
      (choose (healthy "s3" || healthy "minio") "ready" "pending")
      "Stores datasets, models and pipeline artifacts." "platform";
    mkReadinessItem "events" "Connect Kafka" (choose (healthy "kafka") "ready" "pending")
      "Carries durable lifecycle and audit events." "platform"
  ] in
  let ready := count (λ item, ri_Status item = "ready") items in
  let total := Z.of_nat (length items) in
  mkReadiness (Z.quot (mul64 ready 100) total) (bool_decide (ready = total)) items.

(** The serving manager's address and the token the platform's services share. *)
Class Serving := {
  SERVING_MANAGER_URL : string;
  INTERNAL_TOKEN : string;
  (** [json.Decode] of an object's [endpoint]. *)
  json_endpoint : string → result string
}.

Section handlers.
Context `{Host} `{MapOrder} `{Net} `{Engines} `{Serving}.
Implicit Types r : request.

Definition readiness : M (reply Readiness) := d ← data; mret (JSON 200 (readinessFor d)).

Definition dashboard r : M (reply Dashboard) :=
  d ← data;
  let projects := filterProjects (st_Projects d) (principal r) in
  let runs := filterRuns (st_Runs d) (allowedProjectIDs d (principal r)) in
  let components := Components (st_Connections d) in
  mret (JSON 200 (mkDashboard (Z.of_nat (length projects)) (count run_active runs)
    (count (λ c, cmp_Status c = "healthy") components) (Z.of_nat (length components))
    (take 5 runs) (rdy_Percent (readinessFor d)))).

Definition components : M (reply (list Component)) :=
  d ← data; mret (JSON 200 (Components (st_Connections d))).

(** [?kind=...] keeps the items of one kind. *)
Definition catalog (format_g : float64 → string) r (kind : string) : M (reply (list CatalogItem)) :=
  d ← data;
  let items := Catalog format_g d (allowedProjectIDs d (principal r)) in
  mret (JSON 200 (if decide (kind = "") then items
                  else filter (λ item, cat_Kind item = kind) items)).

(** ** Features *)

Definition features : M (reply (list FeatureView)) := items ← FeatureViews; mret (JSON 200 items).

Definition applyFeatureView header r (body : result ApplyFeatureViewRequest)
    : M (reply FeatureView) :=
  decoded body (λ req, mutate 201 (ApplyFeatureView req (actor header r))).

Definition reportMaterialization header r (name : string) (body : result MaterializationReport)
    : M (reply FeatureView) :=
  decoded body (λ req, mutate 200 (ReportMaterialization name (mr_EntityCount req) (actor header r))).

(** ** Functions *)

(** [byName]: the provider's functions; the last of a name counts. *)
Definition live_map (live : list (string * string * Z)) : gmap string (string * string * Z) :=
  foldl (λ m l, <[l.1.1 := l]> m) ∅ live.

(** The live state of a stored function.  Stored names are distinct, so a name
    is not looked up again after it was deleted from the map. *)
Definition live_function (live : list (string * string * Z)) (fn : Function) : Function :=
  match live_map live !! fn_Name fn with
  | Some (_, _, replicas) => fn <|fn_Replicas := replicas|> <|fn_Status := "deployed"|>
  | None => fn <|fn_Status := "missing"|>
  end.

(** The provider's functions that no listed one names. *)
Definition unmanaged (live : list (string * string * Z)) (persisted : list Function) : list Function :=
  let left_over := filter (λ kv, kv.1 ∉ fn_Name <$> persisted) (live_map live) in
  (λ l, zero <|fn_Name := l.1.1|> <|fn_Image := l.1.2|> <|fn_Replicas := l.2|>
             <|fn_Status := "unmanaged"|>)
  <$> omap (λ name, left_over !! name) (map_order left_over).

Definition functions r : M (reply (list Function)) :=
  d ← data;
  let persisted := filterFunctions (st_Functions d) (allowedProjectIDs d (principal r)) in
  match openfaas with
  | None => mret (JSON 200 persisted)
  | Some client =>
      live ← faas_ListFunctions client;
      mret (match live with
            | Err e => APIErr 502 "openfaas_unreachable" (error_text e)
            | Ok live => JSON 200 (app (live_function live <$> persisted)
                (if privileged (principal r) then unmanaged live persisted else []))
            end)
  end.

Definition limits_of (req : DeployFunctionRequest) : gmap string string :=
  let add key value m := if decide (value ≠ "") then <[key := value]> m else m in
  add "memory" (dfr_Memory req) (add "cpu" (dfr_CPU req) ∅).

Definition deployFunction header r (body : result DeployFunctionRequest) : M (reply Function) :=
  match openfaas with
  | None => mret (APIErr 409 "not_configured" "OPENFAAS_URL is not configured")
  | Some client =>
      decoded body (λ req,
        d ← data;
        let caller := principal r in
        let req := if decide (dfr_ProjectID req = "" ∧ privileged caller = true)
                   then req <|dfr_ProjectID := "prj-demo"|> else req in
        if negb (projectAllowed d caller (dfr_ProjectID req))
        then mret (APIErr 403 "access_denied" "project is not assigned to this user") else
        match ValidateFunctionRequest req with
        | Some e => mret (APIErr 400 "invalid_request" (error_text e))
        | None =>
            match (if functionAllowed d caller (dfr_Name req) then None
                   else enforceFunctionQuota d caller) with
            | Some e => mret (APIErr 403 "quota_exceeded" (error_text e))
            | None =>
                deployed ← faas_DeployFunction client (mkFunctionSpec (dfr_Name req)
                  (dfr_Image req) 0 (dfr_EnvVars req) (dfr_Labels req) (dfr_Annotations req)
                  (limits_of req) (limits_of req));
                match deployed with
                | Err e => mret (APIErr 502 "deploy_failed" (error_text e))
                | Ok _ => mutate 202 (UpsertFunction req (pr_Subject caller) (actor header r))
                end
            end
        end)
  end.

(** The request goes on only for a function the caller may use. *)
Definition with_function {A} r (name : string) (handle : M (reply A)) : M (reply A) :=
  d ← data;
  if functionAllowed d (principal r) name then handle
  else mret (APIErr 404 "not_found" "function not found").

Definition with_openfaas {A} (handle : OpenFaaS → M (reply A)) : M (reply A) :=
  match openfaas with
  | None => mret (APIErr 409 "not_configured" "OPENFAAS_URL is not configured")
  | Some client => handle client
  end.

Definition deleteFunction header r (name : string) : M (reply unit) :=
  with_function r name (with_openfaas (λ client,
    removed ← faas_DeleteFunction client name;
    match removed with
    | Err e => mret (APIErr 502 "delete_failed" (error_text e))
    | Ok _ => x ← DeleteFunction name (actor header r); mret (deleted (snd x))
    end)).

(** [body]: the request's body up to its limit, or the error of reading it. *)
Definition invokeFunction r (name : string) (body : result string) : M (reply string) :=
  with_openfaas (λ client, with_function r name (decoded body (λ payload,
    answer ← Invoke client name payload;
    mret (match answer with
          | Err e => APIErr 502 "invoke_failed" (error_text e)
          | Ok raw => JSON 200 raw
          end)))).

Definition invokeFunctionAsync r (name : string) (body : result string) : M (reply string) :=
  with_openfaas (λ client, with_function r name (decoded body (λ payload,
    answer ← InvokeAsync client name payload;
    mret (match answer with
          | Err e => APIErr 502 "invoke_failed" (error_text e)
          | Ok callID => JSON 202 callID
          end)))).

(** ** Models *)

Definition models r : M (reply (list Model)) :=
  d ← data; mret (JSON 200 (filterModels (st_Models d) (allowedProjectIDs d (principal r)))).

Definition registerModel header r (body : result RegisterModelRequest) : M (reply Model) :=
  decoded body (λ req,
    d ← data;
    if negb (projectAllowed d (principal r) (rmr_ProjectID req))
    then mret (APIErr 403 "access_denied" "project is not assigned to this user")
    else mutate 201 (RegisterModel req (actor header r))).

Definition with_model {A} r (id : string) (handle : M (reply A)) : M (reply A) :=
  d ← data;
  if modelAllowed d (principal r) id then handle
  else mret (APIErr 404 "not_found" "model not found").

Definition promoteModel header r (id : string) (body : result PromoteModelRequest)
    : M (reply Model) :=
  with_model r id (decoded body (λ req, mutate 200 (PromoteModel id (pmr_Stage req) (actor header r)))).

Definition serving_headers : list (string * string) :=
  if decide (INTERNAL_TOKEN = "") then [] else [("Authorization", "Bearer " ++ INTERNAL_TOKEN)].

(** [requestServing]: start the model's server and learn its endpoint. *)
Definition requestServing (managerURL : string) (model : Model) : M (result string) :=
  let body := default "" (json_value (AObj [("name", AStr (mdl_Name model));
                                            ("artifact_uri", AStr (mdl_ArtifactURI model))])) in
  response ← ask (λ k, http_do k (mkHttpRequest "POST"
    (TrimRightByte "/" managerURL ++ "/deployments")
    (("Content-Type", "application/json") :: serving_headers) (Some body)));
  mret (match response with
        | Err e => Err e
        | Ok response =>
            if decide (300 ≤ hp_StatusCode response)%Z
            then Err (ErrMsg ("serving manager: " ++ TrimSpace (first_bytes 2048 (hp_Body response))))
            else json_endpoint (hp_Body response)
        end).

(** A failed deployment leaves the model marked as failed. *)
Definition deployModel header r (id : string) (body : result DeployModelRequest) : M (reply Model) :=
  with_model r id (decoded body (λ req,
    x ← DeployModel id (dmr_CanaryWeight req) (actor header r);
    let '(item, err) := x in
    if decide (err ≠ None) then mret (writeMutation item err 202) else
    if decide (SERVING_MANAGER_URL = "") then mret (JSON 202 item) else
    served ← requestServing SERVING_MANAGER_URL item;
    match served with
    | Err e => _ ← SetModelEndpoint (mdl_ID item) "" "failed";
               mret (APIErr 502 "serving_failed" (error_text e))
    | Ok endpoint =>
        x ← SetModelEndpoint (mdl_ID item) endpoint "serving";
        let '(updated, err) := x in
        mret (JSON 202 (if decide (err = None) then updated else item))
    end)).

(** The serving container is removed afterwards, best effort. *)
Definition rollbackModel header r (id : string) : M (reply Model) :=
  with_model r id (
    x ← RollbackModel id (actor header r);
    let '(item, err) := x in
    _ ← (if decide (err = None ∧ SERVING_MANAGER_URL ≠ "")
         then _ ← ask (λ k, http_do k (mkHttpRequest "DELETE"
                (TrimRightByte "/" SERVING_MANAGER_URL ++ "/deployments/" ++ PathEscape (mdl_Name item))
                serving_headers None)); mret tt
         else mret tt);
    mret (writeMutation item err 200)).

(** ** Agents *)

Definition agents r : M (reply (list Agent)) :=
  d ← data; mret (JSON 200 (filterAgents (st_Agents d) (allowedProjectIDs d (principal r)))).

Definition deployAgent header r (body : result DeployAgentRequest) : M (reply Agent) :=
  decoded body (λ req,
    d ← data;
    if negb (projectAllowed d (principal r) (dar_ProjectID req))
    then mret (APIErr 403 "access_denied" "project is not assigned to this user")
    else mutate 202 (DeployAgent req (actor header r))).

Definition with_agent {A} r (id : string) (handle : M (reply A)) : M (reply A) :=
  d ← data;
  if agentAllowed d (principal r) id then handle
  else mret (APIErr 404 "not_found" "agent not found").

Definition agentTraffic header r (id : string) (body : result TrafficRequest) : M (reply Agent) :=
  with_agent r id (decoded body (λ req,
    mutate 200 (SetAgentTraffic id (tr_CanaryWeight req) (actor header r)))).

Definition agentSessions r (id : string) : M (reply (list AgentSession)) :=
  with_agent r id (items ← AgentSessions id; mret (JSON 200 items)).

Definition agentTraces r (id : string) : M (reply (list AgentTrace)) :=
  with_agent r id (items ← AgentTraces id; mret (JSON 200 items)).

(** The loop of [agentUsage]; token counts are [int]s, costs are added in the
    order of the sessions. *)
Definition add_usage (usage : AgentUsage) (session : AgentSession) : AgentUsage :=
  usage <|use_Active := if decide (ses_Status session = "running") then add64 (use_Active usage) 1
                        else use_Active usage|>
        <|use_InputTokens := add64 (use_InputTokens usage) (ses_InputTokens session)|>
        <|use_OutputTokens := add64 (use_OutputTokens usage) (ses_OutputTokens session)|>
        <|use_CostUSD := float_add (use_CostUSD usage) (ses_CostUSD session)|>.

Definition usage_of (sessions : list AgentSession) : AgentUsage :=
  foldl add_usage (zero <|use_Sessions := Z.of_nat (length sessions)|>) sessions.

Definition agentUsage r (id : string) : M (reply AgentUsage) :=
  with_agent r id (sessions ← AgentSessions id; mret (JSON 200 (usage_of sessions))).

Definition recordTrace (body : result RecordTraceRequest) : M (reply AgentTrace) :=
  decoded body (λ req, mutate 201 (RecordTrace req)).

(** ** Tools, connections, audit *)

Definition tools : M (reply (list Tool)) := items ← Tools; mret (JSON 200 items).
Definition registerTool header r (body : result RegisterToolRequest) : M (reply Tool) :=
  decoded body (λ req, mutate 201 (RegisterTool req (actor header r))).

Definition connections : M (reply (list Connection)) := items ← Connections; mret (JSON 200 items).
Definition createConnection header r (body : result CreateConnectionRequest) : M (reply Connection) :=
  decoded body (λ req, mutate 201 (CreateConnection req (actor header r))).

(** The outcome of a health check: the status and message to store. *)
Definition check_outcome (status_text : Z → string) (response : result http_response)
    : string * string :=
  match response with
  | Err e => ("unhealthy", error_text e)
  | Ok response =>
      (if decide (500 ≤ hp_StatusCode response)%Z then "unhealthy" else "healthy",
       status_text (hp_StatusCode response))
  end.

(** [testConnection]; [status_text] is the response's status line. *)
Definition testConnection (status_text : Z → string) header r (id : string) : M (reply Connection) :=
  d ← data;
  match list_find (λ c, con_ID c = id) (st_Connections d) with
  | None => mret (APIErr 404 "not_found" "connection not found")
  | Some (_, connection) =>
      match Parse (con_Endpoint connection) with
      | Some target =>
          if decide ((u_Scheme target = "http" ∨ u_Scheme target = "https") ∧ u_Host target ≠ "")
          then
            response ← ask (λ k, http_do k (mkHttpRequest "GET" (url_String target) [] None));
            let '(status, message) := check_outcome status_text response in
            mutate 200 (UpdateConnectionStatus (con_ID connection) status message (actor header r))
          else mutate 200 (UpdateConnectionStatus (con_ID connection) "unhealthy"
                 "Endpoint must be an HTTP or HTTPS URL" (actor header r))
      | None => mutate 200 (UpdateConnectionStatus (con_ID connection) "unhealthy"
                 "Endpoint must be an HTTP or HTTPS URL" (actor header r))
      end
  end.

Definition audit : M (reply (list AuditEvent)) := items ← Audit; mret (JSON 200 items).
End handlers.
