(* ===== verification/HandlerProps.v ===== *)
(** * Properties of the control-plane handlers

    What a caller can see, create and change through the handlers, and where
    the checks of the handlers fall short. *)

From S2P Require Import Prelude GoStrings Types World Access Tokens Blog Projects Pipelines.
From S2P Require Import Runs Models Agents Registry Store StoreProps Auth HttpAccess.
From S2P Require Import Platform Integrations Dispatch DispatchProps Handlers ResourceHandlers.

Open Scope string_scope.

(** ** Projects a caller is allowed *)

Section access_facts.
Implicit Types (d : state) (value : Principal).

Lemma projectAllowed_limited d value projectID :
  limited value →
  projectAllowed d value projectID = true ↔
  projectID ∈ pr_ProjectIDs value
  ∨ (pr_Credential value ≠ "api_token"
     ∧ ∃ p, p ∈ st_Projects d ∧ prj_OwnerSubject p = pr_Subject value ∧ prj_ID p = projectID).
Proof.
  intros Hl. unfold projectAllowed, allowedProjectIDs. rewrite decide_False by tauto.
  case_decide; rewrite bool_decide_eq_true, ?elem_of_union, elem_of_list_to_set; [tauto|].
  rewrite elem_of_list_to_set, list_elem_of_fmap. setoid_rewrite list_elem_of_filter.
  simpl. naive_solver.
Qed.

Lemma filterProjects_limited items value p :
  limited value →
  p ∈ filterProjects items value
  ↔ p ∈ items ∧ (prj_ID p ∈ pr_ProjectIDs value ∨ prj_OwnerSubject p = pr_Subject value).
Proof.
  intros [_ Hu]. unfold filterProjects. rewrite Hu, list_elem_of_filter. tauto.
Qed.

(** The number of projects a subject owns. *)
Definition owned d (subject : string) : Z :=
  count (λ p, prj_OwnerSubject p = subject) (st_Projects d).

(** The projects a subject's grant allows it to own. *)
Definition project_limit d (subject : string) : Z :=
  match repo_AccessFor d subject with Some access => cg_MaxProjects (ua_Compute access) | None => 0 end.

Lemma enforceProjectQuota_None d value :
  limited value →
  enforceProjectQuota d value = None ↔
  (owned d (pr_Subject value) < project_limit d (pr_Subject value))%Z.
Proof.
  intros Hl. unfold enforceProjectQuota, project_limit. rewrite decide_False by tauto.
  change (count (λ p, prj_OwnerSubject p = pr_Subject value) (repo_Projects d))
    with (owned d (pr_Subject value)).
  assert (0 ≤ owned d (pr_Subject value))%Z by (unfold owned, count; lia).
  destruct (repo_AccessFor d _) as [access|]; [|split; [done|lia]].
  repeat case_decide; split; (done || lia).
Qed.
End access_facts.

Lemma count_cons {A} (P : A → Prop) `{∀ x, Decision (P x)} x l :
  count P (x :: l) = ((if decide (P x) then 1 else 0) + count P l)%Z.
Proof. unfold count. rewrite filter_cons. case_decide; simpl; lia. Qed.

(** What a creation adds to the repository. *)
Lemma CreateProject_adds `{Host} req actor w :
  wp (CreateProject req actor) w (λ '(item, err) w',
    (st_UserAccess (w_data w') = st_UserAccess (w_data w))
    ∧ ((w_data w' = w_data w ∧ err ≠ None)
       ∨ (st_Projects (w_data w') = item :: st_Projects (w_data w)
          ∧ prj_OwnerSubject item = cpr_OwnerSubject req))).
Proof.
  unfold CreateProject. wp_run; try by (split; [done|left]).
  all: rewrite (per_data _ _ _ Hper); simpl; split; [done|right]; done.
Qed.

Lemma admittedProject_owned `{Host} `{MapOrder} `{Net} `{Engines} header r body w :
  wp (admittedProject header r body) w (λ reply w',
    let subject := pr_Subject (principal r) in
    (owned (w_data w') subject ≤ owned (w_data w) subject + 1)%Z
    ∧ (∀ item, reply = JSON 201 item → owned (w_data w') subject = (owned (w_data w) subject + 1)%Z
                                       ∧ prj_OwnerSubject item = subject)).
Proof.
  unfold admittedProject, decoded. destruct body as [req|e]; [|apply wp_ret; split; [lia|done]].
  case_decide; [apply wp_ret; split; [lia|done]|]. cbv zeta.
  apply wp_bind. eapply wp_mono; [apply CreateProject_adds|].
  intros [item err] w' [_ [[Hd Herr]|[Hp Hown]]]; apply wp_ret.
  - rewrite Hd. split; [lia|]. by destruct err.
  - unfold owned. rewrite Hp, count_cons, decide_True by done. split; [lia|].
    destruct err; [done|]. intros ? [= <-]. split; [lia|done].
Qed.

(** ** Claims *)

(** For a signed-in user the project list shows exactly the projects it may
    act on; for a personal token it also shows every project its owner owns
    outside the token's scope, which that token may not act on. *)
Theorem project_listing d value p :
  limited value → keys_unique prj_ID (st_Projects d) → p ∈ st_Projects d →
  (pr_Credential value ≠ "api_token" →
     p ∈ filterProjects (st_Projects d) value ↔ projectAllowed d value (prj_ID p) = true)
  ∧ (pr_Credential value = "api_token" →
     (projectAllowed d value (prj_ID p) = true → p ∈ filterProjects (st_Projects d) value)
     ∧ (prj_OwnerSubject p = pr_Subject value → prj_ID p ∉ pr_ProjectIDs value →
        p ∈ filterProjects (st_Projects d) value ∧ projectAllowed d value (prj_ID p) = false)).
Proof.
  intros Hl Hu Hp. rewrite <- not_true_iff_false, filterProjects_limited, projectAllowed_limited by done.
  split; [intros Hc|naive_solver]. split; [naive_solver|].
  intros [?|(_&q&Hq&Ho&Hid)]; [by split; [|left]|].
  assert (q = p) as -> by (by eapply (keys_unique_eq prj_ID)). auto.
Qed.

(** To a caller outside its project a run looks like no run at all: reading,
    cancelling and retrying it all answer "not found" and do nothing, exactly as
    for an identifier nobody uses, and the run is not listed. *)
Theorem foreign_run_hidden `{Host} `{MapOrder} `{Net} `{Engines} header r id w :
  (∀ x, x ∈ st_Runs (w_data w) → run_ID x = id →
        projectAllowed (w_data w) (principal r) (run_ProjectID x) = false) →
  Handlers.run r id w = (APIErr 404 "not_found" "resource not found", w)
  ∧ cancelRun header r id w = (APIErr 404 "not_found" "run not found", w)
  ∧ retryRun header r id w = (APIErr 404 "not_found" "run not found", w)
  ∧ ∀ listed x, (Handlers.runs r w).1 = JSON 200 listed → x ∈ listed → run_ID x ≠ id.
Proof.
  intros Hhidden.
  assert (∀ i x, list_find (λ run, run_ID run = id) (st_Runs (w_data w)) = Some (i, x) →
    projectAllowed (w_data w) (principal r) (run_ProjectID x) = false) as Hfound.
  { intros i x Hf. apply list_find_hit in Hf as [Hi Hx].
    apply Hhidden; [by eapply list_elem_of_lookup_2|done]. }
  split_and!.
  - unfold Handlers.run, visible, Run_get. run_M.
    destruct (list_find _ _) as [[i x]|] eqn:Hf; [|done]. by rewrite (Hfound i x eq_refl).
  - unfold cancelRun, with_run, Run_get. run_M.
    destruct (list_find _ _) as [[i x]|] eqn:Hf; simpl; [|done].
    rewrite decide_True; [done|]. right. by eapply Hfound.
  - unfold retryRun, with_run, Run_get. run_M.
    destruct (list_find _ _) as [[i x]|] eqn:Hf; simpl; [|done].
    rewrite decide_True; [done|]. right. by eapply Hfound.
  - intros listed x Hl Hx Hid. unfold Handlers.runs in Hl. run_M.
    injection Hl as <-. unfold filterRuns, filter_by_project in Hx.
    unfold projectAllowed in Hhidden.
    destruct (allowedProjectIDs _ _) as [allowed|]; [|by specialize (Hhidden x Hx Hid)].
    apply list_elem_of_filter in Hx as [Hin Hx]. specialize (Hhidden x Hx Hid).
    by rewrite bool_decide_eq_false in Hhidden.
Qed.

(** C25: one request at a time, creating projects never takes a user past the
    number of projects its grant allows: at the limit (or without a grant) the
    request is refused without effect, and a created project is the caller's. *)
Theorem project_quota `{Host} `{MapOrder} `{Net} `{Engines} header r body w :
  limited (principal r) →
  let subject := pr_Subject (principal r) in
  wp (createProject header r body) w (λ reply w',
    ((project_limit (w_data w) subject ≤ owned (w_data w) subject)%Z →
       (∃ message, reply = APIErr 403 "quota_exceeded" message) ∧ w' = w)
    ∧ (owned (w_data w') subject ≤ Z.max (owned (w_data w) subject) (project_limit (w_data w) subject))%Z
    ∧ (∀ item, reply = JSON 201 item → prj_OwnerSubject item = subject
         ∧ owned (w_data w') subject = (owned (w_data w) subject + 1)%Z)).
Proof.
  intros Hl subject. unfold createProject. apply wp_bind, wp_data.
  pose proof (enforceProjectQuota_None (w_data w) (principal r) Hl) as Hq. fold subject in Hq.
  destruct (enforceProjectQuota _ _) as [e|].
  - apply wp_ret. split; [eauto|]. split; [lia|done].
  - eapply wp_mono; [apply admittedProject_owned|]. cbv zeta. fold subject.
    intros reply w' [Hle Hcreated]. destruct Hq as [Hq _]. specialize (Hq eq_refl).
    split; [lia|]. split; [lia|]. intros item Hi. by destruct (Hcreated item Hi).
Qed.

(** Requests whose quota checks have all passed before any of them creates. *)
Fixpoint admitted_all `{Host} `{MapOrder} `{Net} `{Engines} header r
    (bodies : list (result CreateProjectRequest)) (w : world) : world :=
  match bodies with
  | [] => w
  | body :: bodies => admitted_all header r bodies (admittedProject header r body w).2
  end.

(** Each of them answers that it has created a project. *)
Fixpoint all_created `{Host} `{MapOrder} `{Net} `{Engines} header r
    (bodies : list (result CreateProjectRequest)) (w : world) : Prop :=
  match bodies with
  | [] => True
  | body :: bodies => (∃ item, (admittedProject header r body w).1 = JSON 201 item)
                      ∧ all_created header r bodies (admittedProject header r body w).2
  end.

(** The quota check and the creation are two steps: requests whose checks
    all pass before the first of them creates take the user past its limit by
    any number. *)
Theorem project_quota_race `{Host} `{MapOrder} `{Net} `{Engines} header r bodies w :
  limited (principal r) →
  enforceProjectQuota (w_data w) (principal r) = None → all_created header r bodies w →
  let subject := pr_Subject (principal r) in
  (owned (w_data w) subject < project_limit (w_data w) subject)%Z
  ∧ owned (w_data (admitted_all header r bodies w)) subject
    = (owned (w_data w) subject + Z.of_nat (length bodies))%Z.
Proof.
  intros Hl Hq Hall subject. split; [by apply enforceProjectQuota_None|]. clear Hq. revert w Hall. induction bodies as [|body bodies IH]; intros w; simpl; [lia|].
  intros [[item Hi] Hrest]. rewrite (IH _ Hrest).
  pose proof (admittedProject_owned header r body w) as [_ Hc].
  destruct (Hc item Hi) as [Hown _]. subst subject. rewrite Hown. lia.
Qed.

(** Updating a pipeline definition by its identifier checks the caller's
    access to the project the request names, never to the project the
    definition belongs to: a caller overwrites the jobs of any definition whose
    identifier it knows. *)
Theorem definition_overwrite `{Host} `{MapOrder} `{Net} `{Engines} header r id req req' w i victim :
  id ≠ "" → projectAllowed (w_data w) (principal r) (upd_ProjectID req) = true →
  hasProject (st_Projects (w_data w)) (upd_ProjectID req) →
  undeployed (w_data w) req = None → validatePipelineDefinition req = Ok req' →
  list_find (λ d, pd_ID d = id) (st_Definitions (w_data w)) = Some (i, victim) →
  wp (upsertPipelineDefinition header r id (Ok req)) w (λ _ w',
    ∃ stored, st_Definitions (w_data w') = <[i := stored]> (st_Definitions (w_data w))
      ∧ pd_ID stored = id ∧ pd_ProjectID stored = pd_ProjectID victim
      ∧ pd_Jobs stored = upd_Jobs req' ∧ pd_Name stored = upd_Name req').
Proof.
  intros Hid Hallowed Hproject Hdep Hv Hf. apply list_find_hit in Hf as Hi. destruct Hi as [Hi Hvid].
  unfold upsertPipelineDefinition, decoded. apply wp_bind, wp_data. rewrite Hallowed, Hdep.
  cbn [negb]. unfold mutate. apply wp_bind. unfold UpsertPipelineDefinition. rewrite Hv.
  apply validate_Ok_normalized in Hv as [_ ->].
  apply wp_bind, wp_data. rewrite decide_False by (intros Hn; by apply Hn).
  apply wp_bind, wp_now. rewrite (list_find_ext _ (λ d, pd_ID d = id)), Hf.
  2: { intros d. unfold updates_definition. naive_solver. }
  wp_run. exists (victim <|pd_Name := upd_Name (normalized req)|>
    <|pd_Version := upd_Version (normalized req)|>
    <|pd_ExecutionMode := upd_ExecutionMode (normalized req)|>
    <|pd_Jobs := upd_Jobs (normalized req)|> <|pd_RepositoryURL := upd_RepositoryURL req|>
    <|pd_CommitSHA := upd_CommitSHA req|> <|pd_UpdatedAt := clock (w_tick w)|>).
  by rewrite (per_data _ _ _ Hper).
Qed.

Lemma applyResourceProfile_Disabled req req' :
  applyResourceProfile req = Ok req' → uar_Disabled req' = uar_Disabled req.
Proof.
  unfold applyResourceProfile. cbv zeta. set (p := TrimSpace _). destruct (decide (p = "")).
  - cbn. by intros [= <-].
  - destruct (list_find _ _) as [[i profile]|]; [|done]. case_decide; by intros [= <-].
Qed.

(** A grant that takes the administrator's role or suspends its holder. *)
Lemma validateAccess_demotes subject req access :
  validateAccess subject req = Ok access → uar_Role req ≠ RoleAdmin ∨ uar_Disabled req = true →
  ua_Role access = "user" ∨ ua_Disabled access = true.
Proof.
  unfold validateAccess. cbv zeta. case_decide as Hsub; [done|].
  set (req1 := if decide (uar_Role req = "") then _ else _).
  case_decide as Hrole; [done|]. simpl. case_match eqn:Hsrv; [done|].
  intros (req2&Hprof&Hrest)%result_bind_Ok.
  pose proof (applyResourceProfile_Ok _ _ Hprof) as (Hr&_).
  pose proof (applyResourceProfile_Disabled _ _ Hprof) as Hd.
  case_decide as Hneg; [done|]. injection Hrest as <-. simpl in *. rewrite Hr, Hd.
  unfold req1 in *. unfold RoleAdmin. destruct (decide (uar_Role req = "")); simpl in *; [by left|].
  intros [Hne|?]; [left|by right].
  apply not_and_l in Hrole as [?%dec_stable|?%dec_stable]; congruence.
Qed.

(** An administrator cannot demote or suspend itself under its own name, but
    can under its name padded with spaces: the new grant is stored under the
    trimmed name, in front of the old one, and decides from then on. *)
Theorem self_demotion `{Host} `{MapOrder} `{Net} `{Engines} header r subject req access w :
  Forall access_ok (st_UserAccess (w_data w)) →
  TrimSpace subject = pr_Subject (principal r) → validateAccess subject req = Ok access →
  uar_Role req ≠ RoleAdmin ∨ uar_Disabled req = true →
  wp (upsertUserAccess header r subject (Ok req)) w (λ reply w',
    if decide (subject = pr_Subject (principal r))
    then (∃ message, reply = APIErr 400 "invalid_request" message) ∧ w' = w
    else ∃ granted, repo_AccessFor (w_data w') (pr_Subject (principal r)) = Some granted
           ∧ (ua_Role granted = "user" ∨ ua_Disabled granted = true)).
Proof.
  intros Hok Htrim Hv Hdemote. unfold upsertUserAccess, decoded.
  destruct (decide (subject = pr_Subject (principal r))) as [Hs|Hs].
  { rewrite decide_True by done. apply wp_ret. eauto. }
  rewrite decide_False by by intros [? _]. unfold mutate. apply wp_bind.
  assert (ua_Role access = "user" ∨ ua_Disabled access = true) as Hgrant.
  { by eapply validateAccess_demotes. }
  apply validateAccess_Ok in Hv as Hok'. destruct Hok' as [_ Hsub].
  unfold UpsertUserAccess. rewrite Hv. wp_run.
  - found. match goal with Hl : _ !! _ = Some _ |- _ =>
      apply (Forall_lookup_at _ _ _ _ Hok) in Hl as [[_ ?] _ _ _ _] end. congruence.
  - rewrite (per_data _ _ _ Hper). simpl. rewrite decide_True by congruence. simpl. eauto.
Qed.

(** A token never carries more than its creator's access: for a caller
    without a platform role every service of a created token is one of the
    caller's, every project one it may act on, and the reply shows the secret
    once and never its digest; a request beyond that is refused without effect. *)
Theorem token_scope_bounded `{Host} r req w :
  privileged (principal r) = false →
  let d := w_data w in
  wp (createAPIToken r (Ok req)) w (λ reply w',
    (∀ created, reply = JSON 201 created →
       tok_Subject (ctk_Token created) = pr_Subject (principal r)
       ∧ tok_SecretHash (ctk_Token created) = ""
       ∧ (∃ token rest, st_APITokens (w_data w') = token :: rest ∧ ctk_Token created = hide_hash token)
       ∧ (∀ s, s ∈ tok_Services (ctk_Token created) →
            ∃ s', s' ∈ pr_Services (principal r) ∧ TrimSpace s' = s)
       ∧ (∀ p, p ∈ tok_ProjectIDs (ctk_Token created) →
            ∃ p', projectAllowed d (principal r) p' = true ∧ TrimSpace p' = p))
    ∧ (¬ ctr_Services req ⊆ pr_Services (principal r)
       ∨ Exists (λ p, projectAllowed d (principal r) p = false) (ctr_ProjectIDs req) →
       reply = APIErr 403 "invalid_scope" "token scope exceeds your effective access" ∧ w' = w)).
Proof.
  intros Hp d. unfold createAPIToken, decoded. apply wp_bind, wp_data. fold d.
  assert (tokenScopesAllowed d (principal r) (ctr_Services req) (ctr_ProjectIDs req) = true
    ↔ ctr_Services req ⊆ pr_Services (principal r)
      ∧ Forall (λ p, projectAllowed d (principal r) p = true) (ctr_ProjectIDs req)) as Hscope.
  { unfold tokenScopesAllowed. rewrite Hp, andb_true_iff, bool_decide_eq_true, forallb_forall, Forall_forall.
    by setoid_rewrite list_elem_of_In. }
  destruct (tokenScopesAllowed _ _ _ _) eqn:Hs; cbn [negb].
  - destruct Hscope as [Hscope _]. specialize (Hscope eq_refl). destruct Hscope as [Hsrv Hprj].
    rewrite Forall_forall in Hprj. apply wp_bind.
    eapply wp_mono; [apply CreateAPIToken_stored|]. intros [created err] w' Hst. apply wp_ret.
    split.
    + intros c Hc. destruct err as [[]|]; try done. injection Hc as <-.
      destruct (Hst eq_refl) as [[rest Hrest] _ _ _ Hsub Hss Hps]. simpl in *.
      split_and!; [done|done|by exists (ctk_Token created), rest|..].
      * rewrite Hss. intros s (_&v&Hv&<-)%elem_of_unique. eauto.
      * rewrite Hps. intros p (_&v&Hv&<-)%elem_of_unique. eauto.
    + intros [?|(p&Hpin&Hno)%Exists_exists]; [done|]. rewrite (Hprj p Hpin) in Hno. done.
  - apply wp_ret. split; [done|]. done.
Qed.

(** Visitors of the blog see published posts only: the list holds every
    published post, without its content, and nothing else; a post is shown by its
    slug or identifier only while it is published. *)
Theorem blog_published `{Host} slug w :
  let shown := st_BlogPosts (w_data w) in
  (blogPosts w).2 = w ∧ (blogPost slug w).2 = w
  ∧ (∃ listed, (blogPosts w).1 = JSON 200 listed
     ∧ (∀ id, id ∈ bp_ID <$> listed
              ↔ ∃ post, post ∈ shown ∧ bp_ID post = id ∧ bp_Status post = "published")
     ∧ Forall (λ post, bp_Content post = "" ∧ bp_Status post = "published") listed)
  ∧ (∀ post, (blogPost slug w).1 = JSON 200 post →
       post ∈ shown ∧ bp_Status post = "published" ∧ (bp_Slug post = slug ∨ bp_ID post = slug)).
Proof.
  intros shown. unfold blogPosts, BlogPosts, blogPost, BlogPost_get. run_M.
  split; [done|]. split; [by destruct (list_find _ _) as [[]|]|]. split.
  - eexists. split; [reflexivity|]. split.
    + intros id. rewrite <- list_fmap_compose, list_elem_of_fmap. setoid_rewrite list_elem_of_filter.
      unfold clone. simpl. naive_solver.
    + apply Forall_fmap, Forall_forall. intros post [Hst _]%list_elem_of_filter. done.
  - intros post. destruct (list_find _ _) as [[i p]|] eqn:Hf; simpl; [|done].
    case_decide as Hd; [done|]. intros [= <-].
    apply list_find_hit in Hf as [Hi Hp]. apply Decidable.not_or in Hd as [_ Hd%dec_stable].
    split; [by eapply list_elem_of_lookup_2|]. split; [done|]. tauto.
Qed.

(** ** Witnesses

    Alice may own two projects and owns one; another project is Bob's, with a
    run and a definition of its own. *)

#[local] Existing Instance quiet_host.
#[local] Existing Instance listed_order.

Definition no_engines : Engines := {|
  OPENFAAS_URL := ""; OPENFAAS_USER := ""; OPENFAAS_PASSWORD := ""; PREFECT_API_URL := ""
|}.
#[local] Existing Instance no_engines.
#[local] Instance silent_net : Net := {|
  http_do := λ _ _, Err (ErrIO "connection refused");
  json_value := λ _, Some "{}";
  json_id := λ _, Ok "id";
  json_any := λ _, None;
  json_functions := λ _, Ok [];
  basic_auth := λ _ _, ""
|}.

Definition alice : Principal :=
  mkPrincipal "alice" "" "" ["user"] [] ["pipelines"; "projects"] ["prj-1"] false true "".
Definition alice_token : Principal :=
  mkPrincipal "alice" "" "" ["user"] [] ["projects"] ["prj-9"] false true "api_token".
Definition by_ (caller : Principal) : request := mkRequest "" "" "" ∅ "" (Some caller).

Definition project_of (id name owner : string) : Project :=
  zero <|prj_ID := id|> <|prj_Name := name|> <|prj_OwnerSubject := owner|>.

Definition shared_world : world :=
  (booting "" ∅) <|w_data := zero
    <|st_UserAccess := [mkUserAccess "alice" "" "user" ["projects"] ["prj-1"] (mkStorageGrant 0 [])
        (mkComputeGrant "custom" 0 0 0 "" 0 2 0 0) false 0%Z 0%Z]|>
    <|st_Projects := [project_of "prj-1" "churn" "alice"; project_of "prj-2" "fraud" "bob"]|>
    <|st_Runs := [zero <|run_ID := "run-2"|> <|run_ProjectID := "prj-2"|> <|run_Status := "queued"|>]|>
    <|st_Definitions := [chain <|pd_ProjectID := "prj-2"|>]|>|>.

Definition new_project (name : string) : result CreateProjectRequest :=
  Ok (mkCreateProjectRequest name "" "" "" "" "").

Lemma project_listing_witness :
  project_of "prj-1" "churn" "alice" ∈ filterProjects (st_Projects (w_data shared_world)) alice_token
  ∧ projectAllowed (w_data shared_world) alice_token "prj-1" = false
  ∧ (project_of "prj-1" "churn" "alice" ∈ filterProjects (st_Projects (w_data shared_world)) alice
     ↔ projectAllowed (w_data shared_world) alice "prj-1" = true).
Proof.
  assert (keys_unique prj_ID (st_Projects (w_data shared_world))) as Hu
    by (apply (bool_decide_unpack _); vm_compute; exact I).
  destruct (project_listing (w_data shared_world) alice_token (project_of "prj-1" "churn" "alice"))
    as [_ Ht]; [by split|exact Hu|left|].
  destruct (Ht eq_refl) as [_ Hleak]. destruct Hleak as [? ?]; [done|by apply (bool_decide_unpack _)|].
  split_and!; [done..|].
  destruct (project_listing (w_data shared_world) alice (project_of "prj-1" "churn" "alice"))
    as [Hs _]; [by split|exact Hu|left|]. by apply Hs.
Defined.

Lemma foreign_run_hidden_witness :
  run_ID <$> st_Runs (w_data shared_world) = ["run-2"]
  ∧ cancelRun "" (by_ alice) "run-2" shared_world
    = (APIErr 404 "not_found" "run not found", shared_world).
Proof.
  split; [reflexivity|].
  apply (foreign_run_hidden "" (by_ alice) "run-2" shared_world).
  intros x [->|[]%not_elem_of_nil]%elem_of_cons _. vm_compute. reflexivity.
Defined.

Lemma project_quota_witness :
  let w := (createProject "" (by_ alice) (new_project "Ranking") shared_world).2 in
  owned (w_data w) "alice" = 2%Z
  ∧ (createProject "" (by_ alice) (new_project "Search") w).2 = w.
Proof.
  intros w. split; [vm_compute; reflexivity|].
  destruct (project_quota "" (by_ alice) (new_project "Search") w) as [Hfull _]; [by split|].
  apply Hfull. vm_compute. discriminate.
Defined.

Lemma project_quota_race_witness :
  let bodies := [new_project "Ranking"; new_project "Search"; new_project "Pricing"] in
  project_limit (w_data shared_world) "alice" = 2%Z
  ∧ owned (w_data (admitted_all "" (by_ alice) bodies shared_world)) "alice" = 4%Z.
Proof.
  intros bodies. split; [reflexivity|].
  destruct (project_quota_race "" (by_ alice) bodies shared_world) as [_ Hrace].
  - by split.
  - vm_compute. reflexivity.
  - vm_compute. split_and!; [by eexists..|exact I].
  - etransitivity; [exact Hrace|]. vm_compute. reflexivity.
Defined.

Lemma definition_overwrite_witness :
  projectAllowed (w_data shared_world) alice "prj-2" = false
  ∧ ∃ stored, st_Definitions (w_data (upsertPipelineDefinition "" (by_ alice) "pipe-1"
                (Ok (churn_request <|upd_ProjectID := "prj-1"|> <|upd_Jobs := take 1 (upd_Jobs churn_request)|>))
                shared_world).2) = [stored]
     ∧ pd_ProjectID stored = "prj-2" ∧ pd_Name stored = "churn".
Proof.
  split; [vm_compute; reflexivity|].
  destruct (definition_overwrite "" (by_ alice) "pipe-1"
    (churn_request <|upd_ProjectID := "prj-1"|> <|upd_Jobs := take 1 (upd_Jobs churn_request)|>)
    (normalized (churn_request <|upd_ProjectID := "prj-1"|>
                               <|upd_Jobs := take 1 (upd_Jobs churn_request)|>))
    shared_world 0 (chain <|pd_ProjectID := "prj-2"|>))
    as (stored&Hd&_&Hp&_&Hn); [done|vm_compute; reflexivity|..].
  - apply (bool_decide_unpack _). vm_compute. exact I.
  - vm_compute. reflexivity.
  - vm_compute. reflexivity.
  - vm_compute. reflexivity.
  - exists stored. split; [exact Hd|]. split; [exact Hp|exact Hn].
Defined.

Definition root_admin : Principal :=
  mkPrincipal "root" "" "" ["admin"] [] [] [] false true "".
Definition demotion : UpsertUserAccessRequest := alice_grant <|uar_Role := "user"|>.
Definition root_world : world :=
  (UpsertUserAccess "root" alice_grant "setup" (booting "" ∅)).2.

Lemma self_demotion_witness :
  (ua_Role <$> repo_AccessFor (w_data root_world) "root") = Some "admin"
  ∧ (upsertUserAccess "" (by_ root_admin) "root" (Ok demotion) root_world).2 = root_world
  ∧ ∃ granted, repo_AccessFor
        (w_data (upsertUserAccess "" (by_ root_admin) " root" (Ok demotion) root_world).2) "root"
        = Some granted ∧ (ua_Role granted = "user" ∨ ua_Disabled granted = true).
Proof.
  assert (Forall access_ok (st_UserAccess (w_data root_world))) as Hok.
  { constructor; [|constructor].
    destruct (validateAccess "root" alice_grant) as [access|e] eqn:Hv;
      [|vm_compute in Hv; discriminate].
    pose proof (stored_access_ok _ _ _ 0%Z 0%Z Hv) as Hok. vm_compute in Hv.
    injection Hv as <-. exact Hok. }
  split; [vm_compute; reflexivity|].
  assert (uar_Role demotion ≠ RoleAdmin ∨ uar_Disabled demotion = true) as Hd by by left.
  split.
  - destruct (validateAccess "root" demotion) as [access|e] eqn:Hv; [|vm_compute in Hv; discriminate].
    pose proof (self_demotion "" (by_ root_admin) "root" demotion access root_world Hok eq_refl Hv Hd)
      as Hguard.
    unfold wp in Hguard. rewrite decide_True in Hguard by reflexivity. exact (proj2 Hguard).
  - destruct (validateAccess " root" demotion) as [access|e] eqn:Hv; [|vm_compute in Hv; discriminate].
    pose proof (self_demotion "" (by_ root_admin) " root" demotion access root_world Hok eq_refl Hv Hd)
      as Hbypass.
    unfold wp in Hbypass. rewrite decide_False in Hbypass by discriminate. exact Hbypass.
Defined.

Lemma token_scope_bounded_witness :
  (createAPIToken (by_ alice) (Ok (ci_request <|ctr_ProjectIDs := ["prj-2"]|>)) shared_world).2
    = shared_world
  ∧ ∃ created, (createAPIToken (by_ alice) (Ok ci_request) shared_world).1 = JSON 201 created
               ∧ tok_SecretHash (ctk_Token created) = "".
Proof.
  split.
  - apply (token_scope_bounded (by_ alice) (ci_request <|ctr_ProjectIDs := ["prj-2"]|>) shared_world);
      [reflexivity|]. right. left. vm_compute. reflexivity.
  - destruct (token_scope_bounded (by_ alice) ci_request shared_world) as [Hc _]; [reflexivity|].
    destruct (createAPIToken (by_ alice) (Ok ci_request) shared_world) as [[status created| |] w'] eqn:Hr;
      vm_compute in Hr; try discriminate.
    exists created. assert (status = 201%Z) as -> by (injection Hr; congruence).
    split; [reflexivity|]. by destruct (Hc created eq_refl) as (_&?&_).
Defined.
