(* ===== verification/Sessions.v ===== *)
(** * Browser sessions (internal/auth/session.go, local_session.go)

    How a browser signs in: through the identity provider, whose ID token then
    is the session cookie, or in local mode with one user name and password,
    against sessions the process keeps in memory.  A handler takes a visit, what
    net/http read of a request, and answers with the cookies to set. *)

From S2P Require Import Prelude GoStrings Types World Tokens Auth Integrations Urls.

Open Scope string_scope.

(** ** Visits, cookies and replies *)

(** A request, the values of its query, and the form [ParseForm] reads, if any. *)
Record visit := mkVisit {
  v_request : request;
  v_query : gmap string string;
  v_form : option (gmap string string)
}.

Definition query_value (v : visit) (key : string) : string := default "" (v_query v !! key).
Definition cookie_of (v : visit) (name : string) : option string := rq_cookies (v_request v) !! name.

Inductive same_site : Type := SameSiteDefaultMode | SameSiteLaxMode.

Record cookie := mkCookie {
  ck_Name : string;
  ck_Value : string;
  ck_Path : string;
  ck_MaxAge : Z;
  ck_Expires : Time;
  ck_HttpOnly : bool;
  ck_Secure : bool;
  ck_SameSite : same_site
}.

Record reply (A : Type) := mkReply { rp_cookies : list cookie; rp_response : response A }.
Arguments mkReply {A}.
Arguments rp_cookies {A}.
Arguments rp_response {A}.

(** A duration, in nanoseconds. *)
Definition seconds (n : Z) : Z := (n * 1000000000)%Z.
Definition ten_minutes : Z := seconds 600.
Definition eight_hours : Z := seconds 28800.

Definition stateCookieName : string := "nexus_oauth_state".
Definition returnCookieName : string := "nexus_return_to".
Definition localSessionCookie : string := "nexus_local_session".

(** [safeReturnTo] *)
Definition safeReturnTo (value : string) : string :=
  if decide (value = "") then "/console.html" else
  match Parse value with
  | None => "/console.html"
  | Some parsed =>
      if decide (IsAbs parsed ∨ u_Host parsed ≠ "" ∨ HasPrefix (u_Path parsed) "/" = false
                 ∨ HasPrefix (u_Path parsed) "//" = true)
      then "/console.html" else RequestURI parsed
  end.

(** ** Signing in through the identity provider *)

Record SessionConfig := mkSessionConfig {
  sc_ClientID : string;
  sc_ClientSecret : string;
  sc_AuthURL : string;
  sc_TokenURL : string;
  sc_RedirectURL : string;
  sc_Secure : bool
}.

(** What the handlers ask of the OAuth library: the provider's address for a
    state, and the ID token a code buys, empty if the answer holds none. *)
Class OAuth := {
  auth_code_url : SessionConfig → list string → string → string;
  oauth_exchange : SessionConfig → nat → string → result string
}.

(** The local sessions: the time each token's ends. *)
Abbreviation session_map := (gmap string Time).

Definition scopes : list string := ["openid"; "profile"; "email"; "groups"].

Section sessions.
Context `{Host} `{AuthEnv} `{OAuth} {A : Type}.
Variable next : visit → M (reply A).

Definition denied (status : Z) (message : string) : M (reply A) :=
  mret (mkReply [] (Denied status message)).

Definition randomToken (size : nat) : M (option string) :=
  value ← ask (λ k, rand_read k size); mret (base64url_encode <$> value).

Definition NewSessionManager (config : SessionConfig) : result SessionConfig :=
  if decide (sc_ClientID config = "" ∨ sc_ClientSecret config = "" ∨ sc_AuthURL config = ""
             ∨ sc_TokenURL config = "" ∨ sc_RedirectURL config = "")
  then Err (ErrMsg "OIDC browser session configuration is incomplete") else Ok config.

Definition setCookie (config : SessionConfig) (name value : string) (ttl : Z) : M cookie :=
  t ← now;
  mret (mkCookie name value "/" (Z.quot ttl 1000000000) (t + ttl)%Z true (sc_Secure config)
          SameSiteLaxMode).

Definition clearCookie (config : SessionConfig) (name : string) : cookie :=
  mkCookie name "" "/" (-1) (seconds 1) true (sc_Secure config) SameSiteLaxMode.

Definition login (config : SessionConfig) (v : visit) : M (reply A) :=
  state ← randomToken 32;
  match state with
  | None => denied 500 "could not start login"
  | Some state =>
      let returnTo := safeReturnTo (query_value v "return_to") in
      state_cookie ← setCookie config stateCookieName state ten_minutes;
      return_cookie ← setCookie config returnCookieName returnTo ten_minutes;
      mret (mkReply [state_cookie; return_cookie]
              (Redirected (auth_code_url config scopes state)))
  end.

Definition callback (config : SessionConfig) (v : visit) : M (reply A) :=
  match cookie_of v stateCookieName with
  | None => denied 400 "invalid login state"
  | Some state =>
      if decide (state = "" ∨ state ≠ query_value v "state")
      then denied 400 "invalid login state" else
      if decide (query_value v "error" ≠ "")
      then denied 401 "identity provider rejected login" else
      token ← ask (λ k, oauth_exchange config k (query_value v "code"));
      match token with
      | Err _ => denied 401 "login token exchange failed"
      | Ok rawIDToken =>
          if decide (rawIDToken = "")
          then denied 401 "identity provider returned no ID token" else
          match Verify rawIDToken with
          | None => denied 401 "identity token validation failed"
          | Some _ =>
              session ← setCookie config SessionCookieName rawIDToken eight_hours;
              let target := match cookie_of v returnCookieName with
                            | Some value => safeReturnTo value
                            | None => "/console.html"
                            end in
              mret (mkReply [session; clearCookie config stateCookieName;
                             clearCookie config returnCookieName] (Redirected target))
          end
      end
  end.

Definition logout (config : SessionConfig) : M (reply A) :=
  mret (mkReply [clearCookie config SessionCookieName] (Redirected "/")).

(** [SessionManager.Handler] *)
Definition session_Handler (config : SessionConfig) (v : visit) : M (reply A) :=
  let path := rq_path (v_request v) in
  if decide (path = "/auth/login") then login config v else
  if decide (path = "/auth/callback") then callback config v else
  if decide (path = "/auth/logout") then logout config else next v.

(** ** Local sessions *)

(** [LocalSessionManager]: its user name and password; its sessions, with the
    time each ends, are the state of its handlers. *)
Record LocalSessionManager := mkLocalSessionManager { lm_username : string; lm_password : string }.

Definition NewLocalSessionManager (username password : string)
    : LocalSessionManager * session_map :=
  (mkLocalSessionManager username password, ∅).

Definition FormValue (form : gmap string string) (key : string) : string := default "" (form !! key).

(** The form of a login with the manager's credentials. *)
Definition credentials (s : LocalSessionManager) (v : visit) : option (gmap string string) :=
  form ← v_form v;
  if decide (FormValue form "username" = lm_username s ∧ FormValue form "password" = lm_password s)
  then Some form else None.

Definition local_login (s : LocalSessionManager) (v : visit) (sessions : session_map)
    : M (reply A * session_map) :=
  match credentials s v with
  | None => mret (mkReply [] (Redirected "/login.html?error=invalid"), sessions)
  | Some form =>
      token ← randomToken 32;
      match token with
      | None => r ← denied 500 "could not create session"; mret (r, sessions)
      | Some token =>
          t ← now;
          let expires := (t + eight_hours)%Z in
          mret (mkReply [mkCookie localSessionCookie token "/" (Z.quot eight_hours 1000000000)
                           expires true false SameSiteLaxMode]
                  (Redirected (safeReturnTo (FormValue form "return_to"))),
                <[token := expires]> sessions)
      end
  end.

Definition local_logout (v : visit) (sessions : session_map) : M (reply A * session_map) :=
  let sessions := match cookie_of v localSessionCookie with
                  | Some value => delete value sessions
                  | None => sessions
                  end in
  mret (mkReply [mkCookie localSessionCookie "" "/" (-1) (seconds 1) true false SameSiteLaxMode]
          (Redirected "/"), sessions).

Definition authenticated (v : visit) (sessions : session_map) : M bool :=
  match cookie_of v localSessionCookie with
  | None => mret false
  | Some value =>
      match sessions !! value with
      | None => mret false
      | Some expires => t ← now; mret (bool_decide (t <= expires)%Z)
      end
  end.

Definition localConsolePath (path : string) : Prop :=
  path = "/console.html" ∨ path = "/app.js" ∨ path = "/styles.css".
#[export] Instance localConsolePath_dec path : Decision (localConsolePath path).
Proof. unfold localConsolePath. apply _. Defined.

(** [LocalSessionManager.Handler] *)
Definition local_Handler (s : LocalSessionManager) (v : visit) (sessions : session_map)
    : M (reply A * session_map) :=
  let path := rq_path (v_request v) in
  if decide (path = "/auth/local/login" ∧ rq_method (v_request v) = "POST")
  then local_login s v sessions else
  if decide (path = "/auth/logout") then local_logout v sessions else
  let served := r ← next v; mret (r, sessions) in
  if decide (localConsolePath path) then
    ok ← authenticated v sessions;
    if ok : bool then served else
    mret (mkReply [] (Redirected ("/login.html?return_to=" ++ QueryEscape (rq_uri (v_request v)))),
          sessions)
  else served.
End sessions.
