(* ===== verification/SessionProps.v ===== *)
(** * What browser sessions promise *)

From Stdlib Require Import Ascii.
From S2P Require Import Prelude GoStrings Types World Tokens Auth Integrations Urls Sessions.

Open Scope string_scope.

(** ** Return addresses *)

(** A location that a browser resolves on the site that sent it: no control
    bytes, which browsers skip, and either a path, but not the start of a host
    (two slashes, of either kind), or a segment that starts with an escape. *)
Definition on_site (location : string) : bool :=
  all_bytes (λ a, negb (is_ctl a)) location &&
  match location with
  | String a rest =>
      if Ascii.eqb a "/" then
        match rest with
        | String b _ => negb (Ascii.eqb b "/" || Ascii.eqb b "\")
        | EmptyString => true
        end
      else Ascii.eqb a "%"
  | EmptyString => false
  end.

(** What is known of a URL [safeReturnTo] accepts. *)
Record reference (u : url) : Prop := {
  reference_opaque : u_Opaque u = "";
  reference_query : all_bytes (λ a, negb (is_ctl a)) (u_RawQuery u) = true
}.

Lemma ToLower_empty s : ToLower s = "" → s = "".
Proof. destruct s as [|a [|b [|c s]]]; simpl; repeat case_match; done. Qed.

Lemma setPath_reference p u u' : setPath p u = Some u' → reference u → reference u'.
Proof.
  unfold setPath. destruct (unescape_path p); simpl; [|done]. intros [= <-] [Ho Hq].
  by split.
Qed.

Lemma setPath_scheme p u u' : setPath p u = Some u' → u_Scheme u' = u_Scheme u.
Proof. unfold setPath. destruct (unescape_path p); simpl; [|done]. by intros [= <-]. Qed.

Lemma all_bytes_tail P a s : all_bytes P (String a s) = true → all_bytes P s = true.
Proof. simpl. by intros [_ ?]%andb_true_iff. Qed.

Lemma scheme_loop_rest P first s scheme rest :
  all_bytes P s = true → scheme_loop first s = Some (Some (scheme, rest)) →
  all_bytes P rest = true.
Proof.
  revert first scheme. induction s as [|a s IH]; intros first scheme Hs; simpl; [done|].
  apply all_bytes_tail in Hs.
  assert (Hnext : ∀ next, next = scheme_loop false s →
    option_map (option_map (λ '(scheme, rest), (String a scheme, rest))) next
      = Some (Some (scheme, rest)) → all_bytes P rest = true).
  { intros [[[sc r]|]|] Hn; simpl; try done. intros [= <- <-]. by eapply IH. }
  repeat case_match; try done; try (by apply (Hnext _ eq_refl)).
  by intros [= <- <-].
Qed.

Lemma getScheme_rest P raw scheme rest :
  all_bytes P raw = true → getScheme raw = Some (scheme, rest) → all_bytes P rest = true.
Proof.
  unfold getScheme. intros Hraw. destruct (scheme_loop true raw) as [[[sc r]|]|] eqn:E; simpl; try done.
  - intros [= <- <-]. by eapply scheme_loop_rest.
  - by intros [= <- <-].
Qed.

(** The query of a URL that parsed holds no control byte; without a scheme it
    is not opaque. *)
Lemma parse_reference raw u : parse raw = Some u → u_Scheme u = "" → reference u.
Proof.
  unfold parse. destruct (all_bytes _ raw) eqn:Hraw; simpl; [|done].
  case_decide; [by intros [= <-]|].
  destruct (getScheme raw) as [[scheme rest]|] eqn:Hs; simpl; [|done].
  eapply getScheme_rest in Hs; [|exact Hraw].
  apply (all_bytes_cut _ "?"%char) in Hs as [_ Hq].
  destruct (cut "?" rest) as [before query]. unfold after in Hq. simpl in Hq.
  set (v := if decide (query = Some "") then _ else _).
  assert (Hv : reference v.2 ∧ u_Scheme v.2 = ToLower scheme).
  { subst v. case_decide; simpl; by repeat split. }
  destruct v as [rest' v]. simpl in Hv. destruct Hv as [Hv Hscheme].
  destruct (decide (scheme = "")) as [->|Hne].
  - rewrite (bool_decide_eq_false_2 ("" ≠ "")) by (intros Hne; by apply Hne). rewrite andb_false_r.
    intros Hu _. revert Hu. repeat case_match; intros Hu; try discriminate Hu;
      try (destruct (parseAuthority _) as [[??]|]; simpl in Hu; [|discriminate Hu]);
      (eapply setPath_reference; [exact Hu|split; apply Hv]).
  - intros Hu Hnil. exfalso. apply Hne, ToLower_empty. rewrite <-Hscheme.
    rewrite <-Hnil. symmetry.
    revert Hu. repeat case_match; intros Hu; try discriminate Hu;
      try (by injection Hu as <-);
      try (destruct (parseAuthority _) as [[??]|]; simpl in Hu; [|discriminate Hu]);
      by apply setPath_scheme in Hu.
Qed.

(** The first bytes of an encoded path whose path starts with one slash. *)
Lemma EscapedPath_start u :
  HasPrefix (u_Path u) "/" = true → HasPrefix (u_Path u) "//" = false →
  on_site (EscapedPath u) = true.
Proof.
  intros H1 H2. pose proof (EscapedPath_bytes u) as Hbytes.
  unfold on_site. apply andb_true_iff. split.
  { eapply all_bytes_impl, Hbytes. intros a Ha. by destruct (encoded_path_byte_plain a Ha) as [-> _]. }
  apply HasPrefix_spec in H1 as [p Hp]. rewrite str_app_cons, str_app_nil_l in Hp.
  assert (Hsecond : ∀ b q, p = String b q → Ascii.eqb b "/" = false).
  { intros b q ->. rewrite Hp in H2. destruct (Ascii.eqb_spec b "/") as [->|]; [|done].
    change (String "/" (String "/" q)) with ("//" ++ q) in H2. by rewrite HasPrefix_app in H2. }
  assert (Hread : unescape_path (EscapedPath u) = Some (String "/" p)).
  { unfold EscapedPath. case_decide as H; [rewrite <-Hp; apply H|].
    rewrite decide_False by congruence. rewrite <-Hp. apply unescape_escape_path. }
  destruct (EscapedPath u) as [|a rest]; [discriminate Hread|].
  destruct (Ascii.eqb_spec a "/") as [->|Hslash].
  - destruct rest as [|b rest]; [done|]. simpl in Hbytes.
    rewrite !andb_true_iff in Hbytes. destruct Hbytes as (Hb&_).
    destruct (encoded_path_byte_plain b Hb) as (_&Hback&_).
    rewrite (Ascii.eqb_sym b "\"), Hback, orb_false_r. apply negb_true_iff.
    destruct (Ascii.eqb_spec b "/") as [->|]; [|done]. simpl in Hread.
    destruct (unescape_path rest) as [q|]; simplify_eq/=.
    by apply (Hsecond "/"%char q).
  - destruct (Ascii.eqb_spec a "%") as [->|Hpercent]; [done|]. exfalso. simpl in Hread.
    destruct (byte_is 37 a) eqn:E.
    + apply Hpercent. apply N.eqb_eq in E. rewrite <-(ascii_N_embedding a), E. reflexivity.
    + destruct (unescape_path rest); by simplify_eq/=.
Qed.

Lemma on_site_query s q :
  on_site s = true → all_bytes (λ a, negb (is_ctl a)) q = true → on_site (s ++ "?" ++ q) = true.
Proof.
  unfold on_site. rewrite !all_bytes_app. intros [Hs Hm]%andb_true_iff Hq. rewrite Hs, Hq. simpl.
  destruct s as [|a [|b s]]; done.
Qed.

(** Addresses on the site: a path of bytes that need no escape. *)
Definition local_path (p : string) : Prop :=
  all_bytes path_byte p = true ∧ HasPrefix p "/" = true ∧ HasPrefix p "//" = false.

Definition address_byte (a : ascii) : bool := negb (is_ctl a) && negb (Ascii.eqb "#" a).

Lemma path_byte_plain a :
  path_byte a = true →
  negb (is_ctl a) = true ∧ Ascii.eqb a "#" = false ∧ Ascii.eqb a "?" = false ∧ byte_is 37 a = false.
Proof.
  intros Ha.
  assert (implb (path_byte a) (negb (is_ctl a) && negb (Ascii.eqb a "#") && negb (Ascii.eqb a "?")
    && negb (byte_is 37 a)) = true) as H.
  { apply (forall_bytes (λ a, implb (path_byte a) (negb (is_ctl a) && negb (Ascii.eqb a "#")
      && negb (Ascii.eqb a "?") && negb (byte_is 37 a)))). vm_compute. reflexivity. }
  rewrite Ha in H. simpl in H. rewrite !andb_true_iff, !negb_true_iff in H.
  rewrite negb_true_iff. naive_solver.
Qed.

Lemma path_bytes_escape p : all_bytes path_byte p = true →
  escape_path p = p ∧ unescape_path p = Some p.
Proof.
  intros Hp. pose proof (escape_id path_byte p Hp) as Hesc. split; [done|].
  rewrite <-Hesc at 1. apply unescape_escape_path.
Qed.

Lemma getScheme_slash s : getScheme (String "/" s) = Some ("", String "/" s).
Proof. reflexivity. Qed.

(** What a fragment leaves as it was. *)
Lemma fragment_reference (f : string) u u' :
  (if decide (f = "") then Some u' else setFragment f u') = Some u →
  u_Scheme u = u_Scheme u' ∧ (reference u' → reference u).
Proof.
  case_decide; [by intros [= <-]|]. unfold setFragment.
  destruct (unescape_path f); simpl; [|done]. intros [= <-]. split; [done|]. by intros [? ?].
Qed.

Lemma safe_reference value : on_site (safeReturnTo value) = true.
Proof.
  unfold safeReturnTo. case_decide; [done|]. destruct (Parse value) as [u|] eqn:Hparse; [|done].
  case_decide as Hsafe; [done|]. unfold IsAbs in Hsafe.
  assert (Habs : u_Scheme u = "") by (apply dec_stable; tauto).
  assert (H1 : HasPrefix (u_Path u) "/" = true) by (apply not_false_iff_true; tauto).
  assert (H2 : HasPrefix (u_Path u) "//" = false) by (apply not_true_iff_false; tauto).
  unfold Parse in Hparse. destruct (cut "#" value) as [raw fragment].
  destruct (parse raw) as [u'|] eqn:Hu; [|discriminate]. simpl in Hparse.
  apply fragment_reference in Hparse as (Hscheme&Href).
  destruct (Href (parse_reference _ _ Hu ltac:(congruence))) as [Hopaque Hquery].
  pose proof (EscapedPath_start u H1 H2) as Hpath.
  unfold RequestURI. rewrite (decide_True (P := u_Opaque u = "")) by done. simpl.
  rewrite (decide_False (P := EscapedPath u = "")) by (intros E; rewrite E in Hpath; discriminate).
  unfold query_part. case_decide; [by apply on_site_query|by rewrite str_app_nil_r].
Qed.

(** A path, and the query after it. *)
Definition address (p : string) (query : option string) : string :=
  p ++ match query with Some q => "?" ++ q | None => "" end.

Definition query_ok (query : option string) : Prop :=
  all_bytes address_byte (default "" query) = true.

Lemma address_bytes P p query :
  local_path p → query_ok query → (∀ a, path_byte a = true → P a = true) →
  (∀ a, address_byte a = true → P a = true) → P "?"%char = true →
  all_bytes P (address p query) = true.
Proof.
  intros (Hp&_) Hq HP HQ Hmark. unfold address. rewrite all_bytes_app, andb_true_iff.
  split; [by apply (all_bytes_impl path_byte)|]. destruct query as [q|]; [|done].
  simpl. rewrite Hmark. by apply (all_bytes_impl address_byte).
Qed.

Lemma parse_address p query :
  local_path p → query_ok query →
  parse (address p query)
  = Some (mkUrl "" "" None "" p "" false (bool_decide (query = Some "")) (default "" query) "" "").
Proof.
  intros Hlocal Hquery. unfold parse. rewrite address_bytes; try done.
  2: { intros a Ha. by destruct (path_byte_plain a Ha). }
  2: { unfold address_byte. by intros a [??]%andb_true_iff. }
  destruct Hlocal as (Hp&H1&H2).
  assert (∃ s, p = String "/" s) as [s Hs].
  { apply HasPrefix_spec in H1 as [s Hs]. by exists s. }
  rewrite decide_False by (unfold address; rewrite Hs; by simpl).
  assert (getScheme (address p query) = Some ("", address p query)) as ->.
  { unfold address. by rewrite Hs, str_app_cons, getScheme_slash. }
  assert (cut "?" (address p query) = (p, query)) as Hcut.
  { assert (all_bytes (λ a, negb (Ascii.eqb a "?")) p = true) as Hcut.
    { eapply all_bytes_impl, Hp. intros a Ha. by destruct (path_byte_plain a Ha) as (_&_&->&_). }
    unfold address. destruct query; [by apply cut_at|]. rewrite str_app_nil_r. by apply cut_none. }
  destruct (path_bytes_escape p Hp) as [Hesc Hread].
  cbn [mbind option_bind]. rewrite Hcut.
  case_decide as Hempty; cbn [fst snd]; rewrite H1, H2; cbn [negb andb]; rewrite ?andb_false_r; cbn [negb andb];
    unfold setPath; rewrite Hread; cbn [mbind option_bind];
    rewrite Hesc, (decide_True (P := p = p)) by done; cbn.
  - by rewrite Hempty, (bool_decide_eq_true_2 (Some "" = Some "")).
  - by rewrite (bool_decide_eq_false_2 (query = Some "")).
Qed.

Lemma safe_identity p query :
  local_path p → query_ok query → safeReturnTo (address p query) = address p query.
Proof.
  intros Hlocal Hquery. pose proof (parse_address p query Hlocal Hquery) as Hparse.
  pose proof Hlocal as (Hp&H1&H2). destruct (path_bytes_escape p Hp) as [Hesc Hread].
  assert (Hne : p ≠ "") by (intros ->; discriminate H1).
  assert (Hstar : p ≠ "*") by (intros ->; discriminate H1).
  unfold safeReturnTo. rewrite decide_False by (unfold address; by destruct p).
  unfold Parse. rewrite cut_none.
  2: { apply address_bytes; try done.
       - intros a Ha. by destruct (path_byte_plain a Ha) as (_&->&_).
       - unfold address_byte. intros a [_ Ha]%andb_true_iff. by rewrite Ascii.eqb_sym. }
  rewrite Hparse. simpl. unfold IsAbs. simpl.
  rewrite decide_False by (rewrite H1, H2; intros [?|[?|[?|?]]]; done).
  unfold RequestURI, EscapedPath. simpl.
  rewrite (decide_False (P := p = "*")), Hesc, (decide_False (P := p = "")) by done.
  unfold address. destruct query as [[|a q]|]; simpl.
  - done.
  - done.
  - done.
Qed.

(** The sign-in pages never send a browser to another site: whatever
    return address a request carries, the location they answer with resolves on
    the site itself; and an address of the site, a path with or without a query,
    is kept as it is. *)
Theorem return_address value :
  on_site (safeReturnTo value) = true
  ∧ (∀ p query, value = address p query → local_path p → query_ok query →
     safeReturnTo value = value).
Proof. split; [apply safe_reference|]. intros p query ->. apply safe_identity. Qed.

(** ** Local sessions *)

Section local.
Context `{Host} `{AuthEnv} {A : Type}.
Variable next : visit → M (reply A).
Variable s : LocalSessionManager.

(** The visits a manager has answered, each with the process it found, with the
    sessions they leave; between two of them the rest of the process runs. *)
Inductive reaches : list (visit * world) → session_map → world → Prop :=
  | reaches_start w : reaches [] (NewLocalSessionManager (lm_username s) (lm_password s)).2 w
  | reaches_visit h sessions w v r sessions' w' :
      reaches h sessions w → local_Handler next s v sessions w = (r, sessions', w') →
      reaches (h ++ [(v, w)])%list sessions' w'
  | reaches_other h sessions w w' : reaches h sessions w → reaches h sessions w'.

Definition is_login (v : visit) : Prop :=
  rq_path (v_request v) = "/auth/local/login" ∧ rq_method (v_request v) = "POST".
#[local] Instance is_login_dec v : Decision (is_login v).
Proof. unfold is_login. apply _. Defined.

(** The session a visit opens: its token and its end.  A login opens one if it
    carries the manager's credentials and the random source answers. *)
Definition opened (v : visit) (w : world) : option (string * Time) :=
  if decide (is_login v) then
    _ ← credentials s v; random ← rand_read (w_tick w) 32;
    Some (base64url_encode random, (clock (S (w_tick w)) + eight_hours)%Z)
  else None.

(** The session a visit closes. *)
Definition closed (v : visit) : option string :=
  if decide (rq_path (v_request v) = "/auth/logout") then cookie_of v localSessionCookie else None.

Definition touches (token : string) (x : visit * world) : Prop :=
  fst <$> opened x.1 x.2 = Some token ∨ closed x.1 = Some token.

(** A session of a history: opened by one of its visits, and since then neither
    opened again nor closed. *)
Definition live (h : list (visit * world)) (token : string) (expires : Time) : Prop :=
  ∃ before v w after, h = (before ++ (v, w) :: after)%list
    ∧ opened v w = Some (token, expires) ∧ Forall (λ x, ¬ touches token x) after.

Lemma live_snoc h x token expires :
  live (h ++ [x])%list token expires ↔
  opened x.1 x.2 = Some (token, expires) ∨ (live h token expires ∧ ¬ touches token x).
Proof.
  split.
  - intros (b&v&w&a&E&Ho&Ha). destruct a as [|y a _] using rev_ind.
    + apply app_inj_tail in E as [_ ->]. by left.
    + rewrite app_comm_cons, app_assoc in E. apply app_inj_tail in E as [-> ->].
      apply Forall_app in Ha as [Ha Hy]. right. split; [|by inversion Hy].
      exists b, v, w, a. by split_and!.
  - intros [Ho|[(b&v&w&a&->&Ho&Ha) Hx]].
    + exists h, x.1, x.2, []. split_and!; [by destruct x|done|constructor].
    + exists b, v, w, (a ++ [x])%list. split_and!; [by rewrite <-app_assoc|done|].
      apply Forall_app. split; [done|]. by constructor.
Qed.

(** What a visit does to the sessions. *)
Lemma local_Handler_sessions v sessions w :
  (local_Handler next s v sessions w).1.2
  = match opened v w with
    | Some (token, expires) => <[token := expires]> sessions
    | None => match closed v with Some token => delete token sessions | None => sessions end
    end.
Proof.
  unfold local_Handler, opened, closed.
  destruct (decide (is_login v)) as [Hlogin|Hlogin].
  - rewrite (decide_True (P := _ ∧ _)) by exact Hlogin. destruct Hlogin as [-> _].
    unfold local_login, randomToken, denied. destruct (credentials s v); simpl; [|done].
    unfold mbind, M_bind, ask. simpl. by destruct (rand_read (w_tick w) 32).
  - rewrite (decide_False (P := _ ∧ _)) by exact Hlogin.
    case_decide as Hout; [done|].
    assert (Hserved : ∀ w, ((r ← next v; mret (M := M) (r, sessions)) w).1.2 = sessions).
    { intros w'. unfold mbind, M_bind. by destruct (next v w'). }
    case_decide; [|apply Hserved].
    unfold authenticated. destruct (cookie_of v _) as [c|]; [|done].
    destruct (sessions !! c) as [e|]; [|done].
    pose proof (Hserved (w <|w_tick := S (w_tick w)|>)) as Hnext.
    unfold now, ask, mbind, M_bind in *. simpl in *. by case_bool_decide.
Qed.

Lemma opened_not_closed v w x : opened v w = Some x → closed v = None.
Proof. unfold opened, closed, is_login. case_decide as Hl; [|done]. by destruct Hl as [-> _]. Qed.

Lemma live_sessions h sessions w token expires :
  reaches h sessions w → sessions !! token = Some expires ↔ live h token expires.
Proof.
  intros Hr. revert token expires.
  induction Hr as [w|h sessions w v r sessions' w' Hr IH Hv|]; intros token expires; [| |done].
  - simpl. rewrite lookup_empty. split; [done|]. by intros ([]&?&?&?&?&_).
  - pose proof (local_Handler_sessions v sessions w) as Hs. rewrite Hv in Hs. simpl in Hs. subst.
    rewrite live_snoc, <-IH. unfold touches. simpl.
    destruct (opened v w) as [[t e]|] eqn:Ho; simpl.
    + rewrite lookup_insert_Some. split.
      * intros [[-> ->]|[Hne Hl]]; [by left|]. right. split; [done|].
        rewrite (opened_not_closed v w (t, e)) by done. by intros [[= ->]|].
      * intros [[= -> ->]|[Hl Hn]]; [by left|]. right. split; [|done]. intros ->. apply Hn. by left.
    + destruct (closed v) as [t|]; simpl.
      * rewrite lookup_delete_Some. split; [intros [Hne Hl]|intros [|[Hl Hn]]]; try done.
        -- right. split; [done|]. by intros [|[= ->]].
        -- split; [|done]. intros ->. apply Hn. by right.
      * split; [intros Hl; right; split; [done|]; by intros [|]|by intros [|[Hl _]]].
Qed.

Definition ticked (w : world) : world := w <|w_tick := S (w_tick w)|>.

(** The cookie a login sets. *)
Definition login_cookie (token : string) (expires : Time) : cookie :=
  mkCookie localSessionCookie token "/" 28800 expires true false SameSiteLaxMode.

Lemma login_reply v sessions w :
  is_login v →
  rp_cookies (local_Handler next s v sessions w).1.1
  = match opened v w with Some (token, expires) => [login_cookie token expires] | None => [] end.
Proof.
  intros Hl. unfold local_Handler, opened. rewrite (decide_True (P := _ ∧ _)) by exact Hl.
  rewrite decide_True by done. unfold local_login, randomToken, denied.
  destruct (credentials s v); simpl; [|done].
  unfold mbind, M_bind, ask. simpl. by destruct (rand_read (w_tick w) 32).
Qed.

(** Whether a visit comes with a live session, at the next reading of the clock. *)
Definition signed_in (h : list (visit * world)) (v : visit) (w : world) : Prop :=
  ∃ token expires, cookie_of v localSessionCookie = Some token ∧ live h token expires
    ∧ (clock (w_tick w) <= expires)%Z.

Lemma console_visit h sessions w v :
  reaches h sessions w → localConsolePath (rq_path (v_request v)) →
  (signed_in h v w →
   local_Handler next s v sessions w = let '(r, w') := next v (ticked w) in (r, sessions, w'))
  ∧ (¬ signed_in h v w →
     (local_Handler next s v sessions w).1 = (mkReply [] (Redirected
       ("/login.html?return_to=" ++ QueryEscape (rq_uri (v_request v)))), sessions)).
Proof.
  intros Hr Hpath. unfold local_Handler.
  rewrite (decide_False (P := _ ∧ _)) by (intros [Hp _]; destruct Hpath as [?|[?|?]]; congruence).
  rewrite (decide_False (P := _ = "/auth/logout")) by (destruct Hpath as [?|[?|?]]; congruence).
  rewrite decide_True by done. unfold signed_in, authenticated, ticked.
  destruct (cookie_of v localSessionCookie) as [token|]; [|split; [by intros (?&?&?&_)|done]].
  destruct (sessions !! token) as [expires|] eqn:Hl.
  - unfold now, ask, mbind, M_bind. simpl. case_bool_decide as Htime; (split; intros Hsigned).
    + done.
    + exfalso. apply Hsigned. exists token, expires. by rewrite <-(live_sessions h sessions w).
    + exfalso. destruct Hsigned as (t&e&[= <-]&Hlive&He).
      pose proof (proj2 (live_sessions h sessions w token e Hr) Hlive) as Hlive'.
      by pose proof (eq_trans (eq_sym Hl) Hlive') as [= ->].
    + done.
  - split; [|done]. intros (t&e&[= <-]&Hlive&_).
    pose proof (proj2 (live_sessions h sessions w token e Hr) Hlive) as Hlive'.
    by pose proof (eq_trans (eq_sym Hl) Hlive').
Qed.

(** C29: local sessions: after any visits, a visit to the console's pages is
    served exactly when its cookie is the token of a login with the manager's
    user name and password, the latest to give that token, which no visit has
    logged out since and which is at most eight hours old; any other visit to
    them is sent to the login page.  A login sets the cookie of the session it
    opened, or none if it opened none. *)
Theorem local_sessions h sessions w v :
  reaches h sessions w →
  (localConsolePath (rq_path (v_request v)) →
   (signed_in h v w →
    local_Handler next s v sessions w = let '(r, w') := next v (ticked w) in (r, sessions, w'))
   ∧ (¬ signed_in h v w →
      (local_Handler next s v sessions w).1 = (mkReply [] (Redirected
        ("/login.html?return_to=" ++ QueryEscape (rq_uri (v_request v)))), sessions)))
  ∧ (is_login v →
     rp_cookies (local_Handler next s v sessions w).1.1
     = match opened v w with
       | Some (token, expires) => [login_cookie token expires]
       | None => []
       end).
Proof. intros Hr. split; [by apply console_visit|apply login_reply]. Qed.
End local.

(** ** Signing in through the identity provider *)

Section oidc.
Context `{Host} `{AuthEnv} `{OAuth} {A : Type}.
Variable next : visit → M (reply A).
Variable config : SessionConfig.

(** The cookies a browser keeps after a reply. *)
Definition keep (cookies : gmap string string) (c : cookie) : gmap string string :=
  if decide (ck_MaxAge c < 0)%Z then delete (ck_Name c) cookies
  else <[ck_Name c := ck_Value c]> cookies.
Definition kept (cookies : gmap string string) (set : list cookie) : gmap string string :=
  foldl keep cookies set.

(** A callback that brings back the state of this browser's login and the code of
    an ID token the verifier accepts. *)
Definition accepted (v : visit) (w : world) (raw : string) (principal : Principal) : Prop :=
  ∃ state, cookie_of v stateCookieName = Some state ∧ state ≠ "" ∧ query_value v "state" = state
    ∧ query_value v "error" = ""
    ∧ oauth_exchange config (w_tick w) (query_value v "code") = Ok raw ∧ raw ≠ ""
    ∧ Verify raw = Some principal.

Definition own_path (path : string) : Prop :=
  path = "/auth/login" ∨ path = "/auth/callback" ∨ path = "/auth/logout".

Lemma callback_accepted v w raw principal :
  rq_path (v_request v) = "/auth/callback" → accepted v w raw principal →
  ∃ expires, (session_Handler next config v w).1 = mkReply
    [mkCookie SessionCookieName raw "/" 28800 expires true (sc_Secure config) SameSiteLaxMode;
     clearCookie config stateCookieName; clearCookie config returnCookieName]
    (Redirected (from_option safeReturnTo "/console.html" (cookie_of v returnCookieName))).
Proof.
  intros Hpath (state&Hc&Hne&Hq&He&Hx&Hraw&Hv).
  unfold session_Handler. rewrite Hpath, decide_False, decide_True by done.
  unfold callback. rewrite Hc, decide_False by (intros [?|?]; congruence).
  rewrite decide_False by (intros Hn; by apply Hn).
  unfold mbind, M_bind, ask. rewrite Hx. rewrite decide_False, Hv by done.
  unfold setCookie, now, ask, mret, M_ret, mbind, M_bind. simpl.
  eexists. by destruct (cookie_of v returnCookieName).
Qed.

Lemma callback_cases v w :
  rq_path (v_request v) = "/auth/callback" →
  (∃ raw principal, accepted v w raw principal)
  ∨ ∃ status message, (session_Handler next config v w).1 = mkReply [] (Denied status message).
Proof.
  intros Hpath. unfold session_Handler. rewrite Hpath, decide_False, decide_True by done.
  unfold callback, denied. destruct (cookie_of v stateCookieName) as [state|] eqn:Hc; [|by eauto].
  case_decide as Hs; [by eauto|]. case_decide as He; [by eauto|].
  unfold mbind, M_bind, ask. destruct (oauth_exchange _ _ _) as [raw|] eqn:Hx; [|by eauto].
  case_decide as Hraw; [by eauto|]. destruct (Verify raw) as [principal|] eqn:Hv; [|by eauto].
  left. exists raw, principal, state.
  split_and!; try done; [by intros ->; apply Hs; left|].
  apply dec_stable. intros Hn. apply Hs. right. congruence.
Qed.

(** A session through the identity provider: the sign-in pages set a
    session cookie exactly on a callback that brings back the state of the login
    this browser started and a code the provider exchanges for an ID token the
    verifier accepts, and the cookie is that token; every other callback is
    denied and sets nothing. *)
Theorem session_cookie v w :
  own_path (rq_path (v_request v)) →
  let r := (session_Handler next config v w).1 in
  (∀ c, c ∈ rp_cookies r → ck_Name c = SessionCookieName → ck_Value c ≠ "" →
     rq_path (v_request v) = "/auth/callback"
     ∧ ∃ principal, accepted v w (ck_Value c) principal)
  ∧ (rq_path (v_request v) = "/auth/callback" →
     (∀ raw principal, accepted v w raw principal →
        ∃ c, c ∈ rp_cookies r ∧ ck_Name c = SessionCookieName ∧ ck_Value c = raw)
     ∧ ((∀ raw principal, ¬ accepted v w raw principal) →
        ∃ status message, r = mkReply [] (Denied status message))).
Proof.
  intros Hown r. split.
  - intros c Hc Hname Hvalue.
    destruct Hown as [Hp|[Hp|Hp]].
    + exfalso. revert Hc. unfold r, session_Handler. rewrite Hp. simpl.
      unfold login, randomToken, setCookie, denied, ask, now, ask.
      unfold mbind, M_bind. simpl. destruct (rand_read _ _); simpl; [|by rewrite elem_of_nil].
      rewrite !elem_of_cons, elem_of_nil. by intros [->|[->|[]]].
    + split; [done|]. unfold r in Hc.
      destruct (callback_cases v w Hp) as [(raw&principal&Ha)|(status&message&E)].
      * exists principal. destruct (callback_accepted v w raw principal Hp Ha) as [expires E].
        rewrite E in Hc. simpl in Hc. rewrite !elem_of_cons, elem_of_nil in Hc.
        by destruct Hc as [->|[->|[->|[]]]].
      * rewrite E in Hc. by rewrite elem_of_nil in Hc.
    + exfalso. revert Hc. unfold r, session_Handler. rewrite Hp. simpl. rewrite elem_of_cons, elem_of_nil. by intros [->|[]].
  - intros Hp. split.
    + intros raw principal Ha. destruct (callback_accepted v w raw principal Hp Ha) as [expires E].
      unfold r. rewrite E. simpl. eexists. split; [by left|done].
    + intros Hno. destruct (callback_cases v w Hp) as [(raw&principal&Ha)|Hd]; [|done].
      by destruct (Hno raw principal).
Qed.

End oidc.

(** ** Witnesses *)

Lemma return_address_witness :
  on_site (safeReturnTo "//evil.example/x") = true
  ∧ safeReturnTo "/app.js?v=1" = "/app.js?v=1".
Proof.
  split; [exact (proj1 (return_address "//evil.example/x"))|].
  refine (proj2 (return_address "/app.js?v=1") "/app.js" (Some "v=1") eq_refl _ _).
  - split_and!; reflexivity.
  - reflexivity.
Defined.

Definition page_of (v : visit) : M (reply string) := mret (mkReply [] (Served (rq_path (v_request v)))).

Definition browse (method path : string) (cookies : gmap string string) : request :=
  mkRequest method path "" cookies path None.

Definition manager : LocalSessionManager := mkLocalSessionManager "admin" "pw".

Definition login_visit : visit :=
  mkVisit (browse "POST" "/auth/local/login" ∅) ∅
    (Some {["username" := "admin"; "password" := "pw"; "return_to" := "/console.html"]}).

Definition session_token : string := base64url_encode (String.concat "" (replicate 32 "r")).

Definition console_with_cookie : visit :=
  mkVisit (browse "GET" "/console.html" {[localSessionCookie := session_token]}) ∅ None.

Definition logged_in : world := mkWorld 2 "" zero ∅.

#[local] Instance test_oauth : OAuth := {|
  auth_code_url := λ config _ state, sc_AuthURL config ++ "?state=" ++ state;
  oauth_exchange := λ _ _ code, if decide (code = "code") then Ok "jwt" else Err (ErrIO "oauth2")
|}.

Lemma local_sessions_witness :
  ∃ sessions,
    reaches (H := quiet_host) page_of manager
      [(login_visit, booting "" ∅)] sessions logged_in
    ∧ (local_Handler (H := quiet_host) page_of manager console_with_cookie
         sessions logged_in).1.1 = mkReply [] (Served "/console.html").
Proof.
  set (run := local_Handler (H := quiet_host) page_of manager login_visit ∅
                (booting "" ∅)).
  assert (Hr : reaches (H := quiet_host) page_of manager
    ([] ++ [(login_visit, booting "" ∅)])%list run.1.2 logged_in).
  { eapply reaches_other, (reaches_visit page_of manager [] ∅ (booting "" ∅) login_visit
      run.1.1 run.1.2 run.2); [apply reaches_start|].
    change (run = (run.1.1, run.1.2, run.2)). by destruct run as [[r m] w]. }
  exists run.1.2. split; [exact Hr|].
  pose proof (local_sessions (H := quiet_host) page_of manager _ _ logged_in
                console_with_cookie Hr) as [Hconsole _].
  destruct Hconsole as [Hserved _]; [by left|]. rewrite Hserved; [reflexivity|].
  exists session_token, (1 + eight_hours)%Z.
  split_and!; [vm_compute; reflexivity| |vm_compute; discriminate].
  exists [], login_visit, (booting "" ∅), [].
  split_and!; [reflexivity|vm_compute; reflexivity|constructor].
Defined.

Definition oidc_config : SessionConfig :=
  mkSessionConfig "nexus" "secret" "https://dex/auth" "https://dex/token" "https://n/auth/callback" true.

Definition start_visit : visit :=
  mkVisit (browse "GET" "/auth/login" ∅) {["return_to" := "/app.js"]} None.

Definition first_reply : reply string :=
  (session_Handler (H := quiet_host) (H0 := plain_env) page_of oidc_config start_visit (booting "" ∅)).1.

Definition back_visit : visit :=
  mkVisit (browse "GET" "/auth/callback" (kept ∅ (rp_cookies first_reply)))
    {["state" := session_token; "code" := "code"]} None.

Lemma session_cookie_witness :
  ∃ c, c ∈ rp_cookies (session_Handler (H := quiet_host) (H0 := plain_env) page_of oidc_config
             back_visit logged_in).1
    ∧ ck_Name c = SessionCookieName ∧ ck_Value c = "jwt".
Proof.
  refine (proj1 (proj2 (session_cookie (H := quiet_host) (H0 := plain_env) page_of oidc_config
    back_visit logged_in (or_intror (or_introl eq_refl))) eq_refl) "jwt"
    (zero <|pr_Subject := "bob"|> <|pr_Email := "bob@example.com"|> <|pr_Roles := ["user"]|>) _).
  exists session_token. split_and!; try (vm_compute; reflexivity); vm_compute; discriminate.
Defined.

