(* ===== verification/Kube.v ===== *)
(** * The Kubernetes API as the program uses it (pkg/kube/v1alpha1, and the
    objects of internal/operator)

    The custom resources of the platform, the workloads made of them, and the
    calls of an API server on the objects of a cluster: an object has a version
    that every write changes, a write must bring the version it read, and the
    status of a custom resource is a subresource, written on its own.  Any call
    may fail, carried out or not. *)

From S2P Require Import Prelude GoStrings Types World.

Open Scope string_scope.

(** ** Custom resources (types.go) *)

Record ReplicaSpec := mkReplicaSpec { rep_Min : Z; rep_Max : Z }.
Record LLMSpec := mkLLMSpec { llm_Backend : string; llm_InferenceServiceRef : string }.
Record ToolReference := mkToolReference { tref_Name : string; tref_Version : string }.
Record TrafficPolicy := mkTrafficPolicy { tp_CanaryWeight : Z; tp_StableRef : string }.

Record NexusAgentSpec := mkNexusAgentSpec {
  nas_Version : string;
  nas_Image : string;
  nas_GraphModule : string;
  nas_Replicas : ReplicaSpec;
  nas_LLM : LLMSpec;
  nas_Tools : list ToolReference;
  nas_LangfuseProject : string;
  nas_TrafficPolicy : TrafficPolicy
}.

(** The [Ready] condition, the only one the controllers set. *)
Record condition := mkCondition { con_Status : bool; con_Reason : string; con_Message : string }.

Record NexusAgentStatus := mkNexusAgentStatus {
  nat_Phase : string;
  nat_ReadyReplicas : Z;
  nat_ObservedGeneration : Z;
  nat_Conditions : option condition
}.

Record WorkspaceComputeSpec := mkWorkspaceComputeSpec {
  wc_VCPUs : Z;
  wc_MemoryGB : Z;
  wc_GPUs : Z;
  wc_GPUType : string;
  wc_MaxVMs : Z
}.

Record NexusWorkspaceSpec := mkNexusWorkspaceSpec {
  nws_Subject : string;
  nws_Services : list string;
  nws_Compute : WorkspaceComputeSpec;
  nws_StorageGB : Z;
  nws_Disabled : bool
}.

Record NexusWorkspaceStatus := mkNexusWorkspaceStatus {
  nwt_Phase : string;
  nwt_ReadyReplicas : Z;
  nwt_WorkbenchURL : string;
  nwt_IDEURL : string;
  nwt_ObservedGeneration : Z;
  nwt_Conditions : option condition
}.

Record NexusPipelineRunSpec := mkNexusPipelineRunSpec {
  nps_PipelineRef : string;
  nps_Parameters : list (string * string);
  nps_ServiceAccountName : string
}.

Record NexusPipelineRunStatus := mkNexusPipelineRunStatus {
  npt_Phase : string;
  npt_WorkflowRef : string;
  npt_StartedAt : option Time;
  npt_FinishedAt : option Time;
  npt_Message : string
}.

Record PromotionGate := mkPromotionGate { pg_Metric : string; pg_Operator : string; pg_Value : float64 }.

Record NexusModelPromotionSpec := mkNexusModelPromotionSpec {
  nms_ModelName : string;
  nms_Version : string;
  nms_TargetStage : string;
  nms_Gates : list PromotionGate
}.

Record NexusModelPromotionStatus := mkNexusModelPromotionStatus {
  nmt_Phase : string;
  nmt_Message : string;
  nmt_InferenceServiceRef : string
}.

#[export] Instance zero_NexusAgentStatus : Zero NexusAgentStatus := mkNexusAgentStatus "" 0 0 None.
#[export] Instance zero_NexusWorkspaceStatus : Zero NexusWorkspaceStatus :=
  mkNexusWorkspaceStatus "" 0 "" "" 0 None.
#[export] Instance zero_NexusPipelineRunStatus : Zero NexusPipelineRunStatus :=
  mkNexusPipelineRunStatus "" "" None None "".
#[export] Instance zero_NexusModelPromotionStatus : Zero NexusModelPromotionStatus :=
  mkNexusModelPromotionStatus "" "" "".

(** ** Workloads *)

(** An environment variable: its value, or the key of a secret it is read from. *)
Inductive env_source : Type :=
  | Value (v : string)
  | SecretKeyRef (secret key : string).

Record resources := mkResources {
  res_milliCPU : Z;
  res_memory : Z;
  (** The extended resource and its quantity, if one is requested. *)
  res_gpu : option (string * Z)
}.

Record container := mkContainer {
  ctn_Name : string;
  ctn_Image : string;
  ctn_Port : Z;
  ctn_Env : list (string * env_source);
  (** Requests and limits, which are the same. *)
  ctn_Resources : option resources;
  ctn_Mounts : list (string * string);
  ctn_ReadOnlyRootFilesystem : bool
}.

Record deployment := mkDeployment {
  dep_Replicas : Z;
  dep_Selector : gmap string string;
  dep_PodLabels : gmap string string;
  dep_Containers : list container;
  (** The volumes, each by its claim, and the group of the pod's files. *)
  dep_Volumes : list (string * string);
  dep_FSGroup : option Z
}.

Record service_port := mkServicePort { sp_Name : string; sp_Port : Z; sp_TargetPort : Z }.
Record service := mkService { svc_Selector : gmap string string; svc_Ports : list service_port }.

Record claim := mkClaim {
  pvc_AccessModes : list string;
  (** The storage requested, in bytes. *)
  pvc_Storage : option Z;
  pvc_StorageClass : option string
}.

(** ** Objects *)

Inductive kspec : Type :=
  | CustomSpec (spec : any)
  | DeploymentSpec (d : deployment)
  | ServiceSpec (s : service)
  | ClaimSpec (c : claim)
  | SecretSpec (token : option string).

Inductive kstatus : Type :=
  | NoStatus
  | AgentStatus (s : NexusAgentStatus)
  | WorkspaceStatus (s : NexusWorkspaceStatus)
  | PipelineRunStatus (s : NexusPipelineRunStatus)
  | PromotionStatus (s : NexusModelPromotionStatus)
  | DeploymentStatus (readyReplicas : Z).

Record kobject := mkObject {
  ko_Labels : gmap string string;
  ko_Finalizers : list string;
  (** The object that controls this one: its resource and name. *)
  ko_Owner : option (string * string);
  ko_Spec : kspec;
  ko_Status : kstatus;
  ko_ResourceVersion : Z;
  ko_Generation : Z;
  ko_Deleted : bool
}.
#[export] Instance eta_kobject : Eta kobject := λ o,
  mkObject (ko_Labels o) (ko_Finalizers o) (ko_Owner o) (ko_Spec o) (ko_Status o)
    (ko_ResourceVersion o) (ko_Generation o) (ko_Deleted o).

(** The resource, namespace and name of an object. *)
Abbreviation key := (string * string * string)%type.

(** A process and the cluster it acts on. *)
Record kube := mkKube {
  kb_world : world;
  kb_objects : gmap key kobject;
  kb_version : Z
}.
#[export] Instance eta_kube : Eta kube := λ s, mkKube (kb_world s) (kb_objects s) (kb_version s).

Definition K (A : Type) : Type := kube → A * kube.
#[export] Instance K_ret : MRet K := λ A a s, (a, s).
#[export] Instance K_bind : MBind K := λ A B f m s, let '(a, s') := m s in f a s'.

(** A computation of the process. *)
Definition host {A} (m : M A) : K A :=
  λ s, let '(a, w) := m (kb_world s) in (a, s <|kb_world := w|>).

(** ** The API server *)

Class KubeAPI := {
  (** The error of a call, and whether it was carried out all the same. *)
  api_error : nat → option (string * bool);
  (** The generation an update gives an object. *)
  next_generation : kobject → kobject → Z;
  (** The comparison of [CreateOrUpdate], which skips an update that changes nothing. *)
  deep_equal : kobject → kobject → bool;
  deep_equal_eq o o' : deep_equal o o' = true → o = o'
}.

(** [IsNotFound], [IsAlreadyExists], [IsConflict]; the errors of the
    environment are none of them. *)
Definition IsNotFound (e : gerror) : Prop := e = ErrNotFound.
Definition already_exists : gerror := ErrMsg "already exists".
Definition IsAlreadyExists (e : gerror) : Prop := e = already_exists.
Definition IsConflict (e : gerror) : Prop := e = ErrConflict.
#[export] Instance IsNotFound_dec e : Decision (IsNotFound e).
Proof. unfold IsNotFound. apply _. Defined.
#[export] Instance IsAlreadyExists_dec e : Decision (IsAlreadyExists e).
Proof. unfold IsAlreadyExists. apply _. Defined.
#[export] Instance IsConflict_dec e : Decision (IsConflict e).
Proof. unfold IsConflict. apply _. Defined.

Section api.
Context `{KubeAPI}.

Definition api_call {A} (change : kube → result (A * kube)) : K (result A) := λ s,
  let k := w_tick (kb_world s) in
  let s := s <|kb_world := (kb_world s) <|w_tick := S k|>|> in
  match api_error k, change s with
  | Some (msg, true), Ok (_, s') => (Err (ErrIO msg), s')
  | Some (msg, _), _ => (Err (ErrIO msg), s)
  | None, Ok (a, s') => (Ok a, s')
  | None, Err e => (Err e, s)
  end.

(** The cluster with an object written: it takes the next version. *)
Definition written (n : key) (o : kobject) (s : kube) : kobject * kube :=
  let o := o <|ko_ResourceVersion := kb_version s|> in
  (o, s <|kb_objects := <[n := o]> (kb_objects s)|> <|kb_version := (kb_version s + 1)%Z|>).

Definition kget (n : key) : K (result kobject) := api_call (λ s,
  match kb_objects s !! n with Some o => Ok (o, s) | None => Err ErrNotFound end).

Definition kcreate (n : key) (o : kobject) : K (result kobject) := api_call (λ s,
  match kb_objects s !! n with
  | Some _ => Err already_exists
  | None => Ok (written n (o <|ko_Generation := 1%Z|> <|ko_Status := NoStatus|>) s)
  end).

(** An update keeps the status; one that removes the last finalizer of an
    object that is being deleted ends it. *)
Definition kupdate (n : key) (o : kobject) : K (result kobject) := api_call (λ s,
  match kb_objects s !! n with
  | None => Err ErrNotFound
  | Some current =>
      if decide (ko_ResourceVersion o ≠ ko_ResourceVersion current) then Err ErrConflict else
      if decide (ko_Deleted current = true ∧ ko_Finalizers o = [])
      then Ok (o, s <|kb_objects := delete n (kb_objects s)|>)
      else Ok (written n (o <|ko_Status := ko_Status current|> <|ko_Deleted := ko_Deleted current|>
                            <|ko_Generation := next_generation current o|>) s)
  end).

(** [Status().Update] *)
Definition kupdate_status (n : key) (o : kobject) : K (result kobject) := api_call (λ s,
  match kb_objects s !! n with
  | None => Err ErrNotFound
  | Some current =>
      if decide (ko_ResourceVersion o ≠ ko_ResourceVersion current) then Err ErrConflict
      else Ok (written n (current <|ko_Status := ko_Status o|>) s)
  end).

(** An object with finalizers waits for them. *)
Definition kdelete (n : key) : K (result unit) := api_call (λ s,
  match kb_objects s !! n with
  | None => Err ErrNotFound
  | Some current =>
      if decide (ko_Finalizers current = [])
      then Ok (tt, s <|kb_objects := delete n (kb_objects s)|>)
      else Ok (tt, (written n (current <|ko_Deleted := true|>) s).2)
  end).

(** [controllerutil.CreateOrUpdate]: the object as the server has it is changed by
    [mutate], then created or updated; the object, if all went well. *)
Definition CreateOrUpdate (n : key) (mutate : kobject → K (result kobject)) : K (result kobject) :=
  r ← kget n;
  match r with
  | Err e =>
      if decide (IsNotFound e) then
        o ← mutate (mkObject ∅ [] None (CustomSpec ANull) NoStatus 0 0 false);
        match o with Ok o => kcreate n o | Err e => mret (Err e) end
      else mret (Err e)
  | Ok existing =>
      o ← mutate existing;
      match o with
      | Err e => mret (Err e)
      | Ok o => if deep_equal existing o then mret (Ok o) else kupdate n o
      end
  end.
End api.
