(* ===== verification/Dispatcher.v ===== *)
(** * From lifecycle commands to custom resources
    (internal/integrations/dispatcher.go, kafka_consumer.go, cmd/integration-worker)

    The integration worker reads the commands the repository left in its
    outbox from the broker and turns each into one custom resource of the
    platform's cluster, for the operator to act on. *)

From Stdlib Require Import Ascii SpecFloat.
From S2P Require Import Prelude GoStrings Types World Tokens Integrations Kube.

Open Scope string_scope.

(** ** Commands *)

Record LifecycleCommand := mkLifecycleCommand {
  lc_ID : string;
  lc_Kind : string;
  lc_Action : string;
  (** The resource, as it came. *)
  lc_Resource : string;
  lc_Tenant : string
}.

Record KafkaRecord := mkKafkaRecord { kr_Topic : string; kr_Key : string; kr_Value : string }.

Class CommandJson := {
  (** [json.Unmarshal] of a command, of an object, and of a batch of records. *)
  decode_command : string → result LifecycleCommand;
  decode_resource : string → result (gmap string any);
  decode_records : string → result (list KafkaRecord);
  decode_base_uri : string → result string;
  (** [int64(number)] of a number outside its range, which the machine decides. *)
  int64_overflow : float64 → Z
}.

(** ** Names *)

(** [[^a-z0-9]+] replaced by a dash; [dash] tells whether the run began before. *)
Fixpoint collapse (dash : bool) (s : string) : string :=
  match s with
  | EmptyString => EmptyString
  | String a s' =>
      if is_lower_alnum a then String a (collapse false s')
      else if dash then collapse true s' else String "-" (collapse true s')
  end.

Section names.
Context `{Host}.

Definition dnsName (name fallback : string) : string :=
  let name := if decide (name = "") then fallback else name in
  let raw := ToLower name in
  let value := TrimByte "-" (collapse false raw) in
  let value := if decide (value = "") then "resource" else value in
  if decide (String.length value <= 63) then value else
  let digest := String.substring 0 8 (hex_encode (sha256_sum raw)) in
  TrimByte "-" (String.substring 0 54 value) ++ "-" ++ digest.
End names.

(** ** Values of decoded JSON *)

Definition fields : Type := gmap string any.
Definition field (r : fields) (k : string) : any := default ANull (r !! k).

(** [value.(string)], [value.(map[string]any)] and [value.([]any)], the zero value
    when it is of another type. *)
Definition as_string (v : any) : string := match v with AStr s => s | _ => "" end.
Definition as_object (v : any) : fields := match v with AObj kvs => list_to_map kvs | _ => ∅ end.
Definition as_list (v : any) : list any := match v with AList l => l | _ => [] end.

Definition toolRefs (value : any) : list any :=
  (λ item, AObj [("name", item); ("version", AStr "latest")]) <$> as_list value.

(** A number without its fraction. *)
Definition truncate (f : float64) : option Z :=
  match f with
  | S754_zero _ => Some 0%Z
  | S754_finite s m e =>
      let n := if decide (0 <= e)%Z then (Z.pos m * 2 ^ e)%Z else (Z.pos m / 2 ^ (- e))%Z in
      Some (if s then (- n)%Z else n)
  | _ => None
  end.

Section dispatcher.
Context `{Host} `{CommandJson} `{KubeAPI}.

Definition integer (value : any) : Z :=
  match value with
  | AFloat number =>
      match truncate number with
      | Some n => if decide (is_int64 n) then n else int64_overflow number
      | None => int64_overflow number
      end
  | AInt number => number
  | _ => 0%Z
  end.

(** What a command asks for: a resource, its name and its spec, or nothing. *)
Inductive target : Type :=
  | Resource (plural name : string) (spec : any)
  | Nothing
  | Unsupported.

Definition target_of (command : LifecycleCommand) (resource : fields) : target :=
  let f := field resource in
  let name := if decide (as_string (f "name") = "") then lc_ID command else as_string (f "name") in
  let kind := lc_Kind command in
  if decide (kind = "pipeline_run") then
    Resource "nexuspipelineruns" name
      (AObj [("pipelineRef", f "name"); ("parameters", AObj [("project_id", f "project_id")])])
  else if decide (kind = "model") then
    if decide (lc_Action command ≠ "model.promoted") then Nothing else
    Resource "nexusmodelpromotions" name
      (AObj [("modelName", f "name"); ("version", f "version"); ("targetStage", f "stage")])
  else if decide (kind = "agent") then
    Resource "nexusagents" name (AObj [
      ("version", f "version"); ("image", f "image"); ("graphModule", f "graph_module");
      ("replicas", AObj [("min", f "replicas"); ("max", f "replicas")]);
      ("llm", AObj [("backend", f "llm_backend")]); ("tools", AList (toolRefs (f "tools")));
      ("trafficPolicy", AObj [("canaryWeight", f "canary_weight")])])
  else if decide (kind = "tool") then
    Resource "nexustools" name (AObj [("version", f "version"); ("description", f "description");
      ("tags", f "tags"); ("inputSchema", f "input_schema")])
  else if decide (kind = "connection") then
    Resource "nexusconnections" name (AObj [("type", f "type"); ("endpoint", f "endpoint");
      ("secretRef", AObj [("name", f "secret_ref")])])
  else if decide (kind = "user_access") then
    let compute := field (as_object (f "compute")) in
    let storage := field (as_object (f "storage")) in
    Resource "nexusworkspaces" ("workspace-" ++ lc_ID command) (AObj [
      ("subject", f "subject"); ("services", f "services"); ("disabled", f "disabled");
      ("compute", AObj [("vcpus", AInt (integer (compute "vcpus")));
         ("memoryGB", AInt (integer (compute "memory_gb"))); ("gpus", AInt (integer (compute "gpus")));
         ("gpuType", compute "gpu_type"); ("maxVMs", AInt (integer (compute "max_vms")))]);
      ("storageGB", AInt (integer (storage "size_gb")))])
  else Unsupported.

(** [%q], of a string without characters to escape. *)
Definition quoted (s : string) : string := String "034" (s ++ String "034" "").

Definition labels_of (command : LifecycleCommand) : gmap string string :=
  <["mlaiops.io/tenant" := lc_Tenant command]>
    {["mlaiops.io/resource-id" := lc_ID command]}.

Definition error_result {A} (r : result A) : option gerror :=
  match r with Ok _ => None | Err e => Some e end.

Definition dispatch_command (namespace : string) (command : LifecycleCommand)
    (resource : fields) : K (option gerror) :=
  match target_of command resource with
  | Unsupported => mret (Some (ErrMsg ("unsupported lifecycle kind " ++ quoted (lc_Kind command))))
  | Nothing => mret None
  | Resource plural name spec =>
      let n := (plural, namespace, dnsName name (lc_ID command)) in
      let object := mkObject (labels_of command) [] None (CustomSpec spec) NoStatus 0 0 false in
      if decide (lc_Kind command = "user_access" ∧ lc_Action command = "access.deleted") then
        r ← kdelete n;
        mret (match r with
              | Err e => if decide (IsNotFound e) then None else Some e
              | Ok _ => None
              end)
      else
        existing ← kget n;
        match existing with
        | Err e => if decide (IsNotFound e)
                   then r ← kcreate n object; mret (error_result r) else mret (Some e)
        | Ok existing =>
            r ← kupdate n (object <|ko_ResourceVersion := ko_ResourceVersion existing|>);
            mret (error_result r)
        end
  end.

(** [Dispatcher.Dispatch] *)
Definition Dispatch (namespace : string) (record : KafkaRecord) : K (option gerror) :=
  match decode_command (kr_Value record) with
  | Err e => mret (Some e)
  | Ok command =>
      match decode_resource (lc_Resource command) with
      | Err e => mret (Some e)
      | Ok resource => dispatch_command namespace command resource
      end
  end.

(** The loop over a batch of [main]: an error is logged, and the next record is
    dispatched. *)
Fixpoint dispatch_all (namespace : string) (records : list KafkaRecord) : K (list gerror) :=
  match records with
  | [] => mret []
  | record :: records =>
      err ← Dispatch namespace record;
      errs ← dispatch_all namespace records;
      mret (match err with Some e => e :: errs | None => errs end)
  end.
End dispatcher.

(** ** The consumer (kafka_consumer.go) *)

Record KafkaConsumer := mkKafkaConsumer {
  kc_restURL : string;
  kc_baseURI : string;
  kc_group : string;
  kc_instance : string
}.

Definition NewKafkaConsumer (restURL group instance : string) : KafkaConsumer :=
  mkKafkaConsumer (TrimRightByte "/" restURL) "" group instance.

Section consumer.
Context `{Host} `{Net} `{CommandJson} `{KubeAPI}.

Definition kc_request {A} `{Zero A} (method endpoint : string) (input : option any)
    (decode : option (string → result A)) : M (result A) :=
  match match input with None => Some "" | Some v => json_value v end with
  | None => mret (Err (ErrIO "json"))
  | Some body =>
      let headers := [("Content-Type", "application/vnd.kafka.v2+json");
                      ("Accept", "application/vnd.kafka.json.v2+json")] in
      response ← ask (λ k, http_do k (mkHttpRequest method endpoint headers (Some body)));
      mret (match response with
            | Err e => Err e
            | Ok response =>
                if decide (¬ status_ok (hp_StatusCode response))
                then Err (ErrMsg ("Kafka REST returned " ++ pretty (hp_StatusCode response)))
                else match decode with
                     | None => Ok zero
                     | Some decode =>
                         if decide (hp_StatusCode response = 204)%Z then Ok zero
                         else decode (hp_Body response)
                     end
            end)
  end.

Definition Connect (c : KafkaConsumer) (topics : list string) : M (option gerror * KafkaConsumer) :=
  let payload := AObj [("name", AStr (kc_instance c)); ("format", AStr "json");
    ("auto.offset.reset", AStr "earliest"); ("auto.commit.enable", AStr "true")] in
  response ← kc_request "POST" (kc_restURL c ++ "/consumers/" ++ kc_group c) (Some payload)
               (Some decode_base_uri);
  match response with
  | Err e => mret (Some e, c)
  | Ok base =>
      let c := mkKafkaConsumer (kc_restURL c) base (kc_group c) (kc_instance c) in
      if decide (base = "")
      then mret (Some (ErrMsg "Kafka REST consumer did not return base_uri"), c) else
      r ← kc_request (A := unit) "POST" (base ++ "/subscription")
            (Some (AObj [("topics", AList (AStr <$> topics))])) None;
      mret (error_result r, c)
  end.

Definition Poll (c : KafkaConsumer) : M (result (list KafkaRecord)) :=
  if decide (kc_baseURI c = "") then mret (Err (ErrMsg "consumer is not connected")) else
  kc_request "GET" (kc_baseURI c ++ "/records") None (Some decode_records).

Definition Close (c : KafkaConsumer) : M (option gerror) :=
  if decide (kc_baseURI c = "") then mret None else
  r ← kc_request (A := unit) "DELETE" (kc_baseURI c) None None; mret (error_result r).

(** ** The worker (cmd/integration-worker/main.go) *)

Definition command_topics_read : list string := [
  "mlaiops.pipeline.commands"; "mlaiops.model.commands"; "mlaiops.agent.commands";
  "mlaiops.tool.commands"; "mlaiops.connection.commands"; "mlaiops.workspace.commands"
].

(** One turn of the loop: the errors it logs. *)
Definition worker_turn (c : KafkaConsumer) (namespace : string) : K (list gerror) :=
  records ← host (Poll c);
  match records with
  | Err e => mret [e]
  | Ok records => dispatch_all namespace records
  end.

(** The loop, for the given number of turns. *)
Fixpoint worker_loop (turns : nat) (c : KafkaConsumer) (namespace : string) : K (list gerror) :=
  match turns with
  | O => mret []
  | S turns => errs ← worker_turn c namespace; rest ← worker_loop turns c namespace;
               mret (errs ++ rest)%list
  end.

(** [main]: connect, poll, close. *)
Definition worker_main (turns : nat) (restURL instance namespace : string) : K (list gerror) :=
  '(err, c) ← host (Connect (NewKafkaConsumer restURL "mlaiops-integration" instance)
                      command_topics_read);
  match err with
  | Some e => mret [e]
  | None => errs ← worker_loop turns c namespace; _ ← host (Close c); mret errs
  end.
End consumer.
