(* ===== verification/Operator.v ===== *)
(** * The operator (internal/operator)

    The reconcilers of the platform's custom resources: agents into deployments
    and services, workspaces into a volume, a secret, a deployment and a service,
    pipeline runs into Kubeflow runs, and model promotions into MLflow stage
    transitions and KServe services. *)

From Stdlib Require Import Ascii.
From S2P Require Import Prelude GoStrings Types World Tokens Integrations Kube.

Open Scope string_scope.

(** What a reconciler returns: when to be called again, in nanoseconds, and its error. *)
Record outcome := mkOutcome { oc_RequeueAfter : Z; oc_Error : option gerror }.
Definition done_ : outcome := mkOutcome 0 None.
Definition failed (e : gerror) : outcome := mkOutcome 0 (Some e).

Class OperatorEnv := {
  (** The specs of the custom resources, read from what the server keeps. *)
  decode_agent : any → option NexusAgentSpec;
  decode_workspace : any → option NexusWorkspaceSpec;
  decode_run : any → option NexusPipelineRunSpec;
  decode_promotion : any → option NexusModelPromotionSpec;
  (** The order in which a loop visits a map. *)
  map_order : nat → gmap string string → list (string * string);
  map_order_perm k m : map_order k m ≡ₚ map_to_list m;
  (** [strings.ToUpper] of a letter of Latin-1 outside ASCII. *)
  upper_latin1 : ascii → string
}.

(** ** The plan of an agent (reconciler.go) *)

Record AgentSpec := mkAgentSpec {
  as_Name : string;
  as_Namespace : string;
  as_Version : string;
  as_Image : string;
  as_GraphModule : string;
  as_MinReplicas : Z;
  as_MaxReplicas : Z;
  as_LLMBackend : string;
  as_LangfuseProject : string;
  as_CanaryWeight : Z;
  as_StableRef : string
}.
#[export] Instance eta_AgentSpec : Eta AgentSpec := λ s,
  mkAgentSpec (as_Name s) (as_Namespace s) (as_Version s) (as_Image s) (as_GraphModule s)
    (as_MinReplicas s) (as_MaxReplicas s) (as_LLMBackend s) (as_LangfuseProject s)
    (as_CanaryWeight s) (as_StableRef s).

Record Container := mkPlanContainer {
  pc_Name : string;
  pc_Image : string;
  pc_Port : Z;
  pc_Env : gmap string string
}.

Record AgentWorkload := mkAgentWorkload {
  aw_Name : string;
  aw_Namespace : string;
  aw_Labels : gmap string string;
  aw_Replicas : Z;
  aw_Containers : list Container;
  aw_Annotations : gmap string string
}.

Record TrafficRoute := mkTrafficRoute {
  tr_StableDestination : string;
  tr_CanaryDestination : string;
  tr_StableWeight : Z;
  tr_CanaryWeight : Z
}.

Record AgentPlan := mkAgentPlan { ap_Workload : AgentWorkload; ap_Traffic : TrafficRoute }.

(** A replacer of single bytes by dashes. *)
Fixpoint dashes (bytes s : string) : string :=
  match s with
  | EmptyString => EmptyString
  | String a s' => String (if contains_byte a bytes then "-"%char else a) (dashes bytes s')
  end.

Definition sanitizeVersion (version : string) : string :=
  TrimByte "-" (dashes "._" (ToLower version)).

Definition plan_of (spec : AgentSpec) : AgentPlan :=
  let name := as_Name spec ++ "-" ++ sanitizeVersion (as_Version spec) in
  let labels : gmap string string := list_to_map [
    ("app.kubernetes.io/name", as_Name spec); ("app.kubernetes.io/component", "agent");
    ("app.kubernetes.io/managed-by", "mlaiops-operator"); ("mlaiops.io/version", as_Version spec)] in
  let env : gmap string string := list_to_map [
    ("MLAIOPS_AGENT_NAME", as_Name spec); ("MLAIOPS_AGENT_VERSION", as_Version spec);
    ("MLAIOPS_GRAPH_MODULE", as_GraphModule spec); ("MLAIOPS_LLM_BACKEND", as_LLMBackend spec);
    ("MLAIOPS_LANGFUSE_PROJECT", as_LangfuseProject spec);
    ("OPENAI_BASE_URL", "http://localhost:8081/v1")] in
  let traffic :=
    if decide (as_StableRef spec = "") then mkTrafficRoute name name 100 0
    else mkTrafficRoute (as_StableRef spec) name (100 - as_CanaryWeight spec) (as_CanaryWeight spec) in
  mkAgentPlan
    (mkAgentWorkload name (as_Namespace spec) labels (as_MinReplicas spec)
       [mkPlanContainer "agent" (as_Image spec) 8000 env;
        mkPlanContainer "trace-proxy" "ghcr.io/mlaiops/trace-proxy:latest" 8081
          {["MLAIOPS_AGENT_NAME" := as_Name spec]}]
       {["mlaiops.io/inject-trace-proxy" := "true"]})
    traffic.

Definition ReconcileAgent (spec : AgentSpec) : result AgentPlan :=
  if decide (TrimSpace (as_Name spec) = "" ∨ TrimSpace (as_Namespace spec) = "")
  then Err (ErrMsg "name and namespace are required") else
  if decide (as_Image spec = "" ∨ as_Version spec = "" ∨ as_GraphModule spec = "")
  then Err (ErrMsg "image, version and graph module are required") else
  if decide (as_CanaryWeight spec < 0 ∨ 100 < as_CanaryWeight spec)%Z
  then Err (ErrMsg "canary weight must be between 0 and 100") else
  let spec := if decide (as_MinReplicas spec < 1)%Z then spec <|as_MinReplicas := 1%Z|> else spec in
  if decide (as_MaxReplicas spec < as_MinReplicas spec)%Z
  then Err (ErrMsg "max replicas must be greater than or equal to min replicas") else
  Ok (plan_of spec).

(** ** Reading and writing objects *)

Section reconcilers.
Context `{Host} `{KubeAPI} `{OperatorEnv} `{Net}.

(** [client.Get] of a custom resource. *)
Definition kget_as {S} (decode : any → option S) (n : key) : K (result (kobject * S)) :=
  r ← kget n;
  mret (match r with
        | Err e => Err e
        | Ok o => match ko_Spec o with
                  | CustomSpec v => match decode v with
                                    | Some spec => Ok (o, spec)
                                    | None => Err (ErrIO "decode")
                                    end
                  | _ => Err (ErrIO "decode")
                  end
        end).

(** [_ = r.Status().Update(ctx, object)]: the object as the server answered, or
    as it was. *)
Definition status_ignored (n : key) (o : kobject) (s : kstatus) : K kobject :=
  let o := o <|ko_Status := s|> in
  r ← kupdate_status n o; mret (match r with Ok o' => o' | Err _ => o end).

Definition status_update (n : key) (o : kobject) (s : kstatus) : K (option gerror) :=
  r ← kupdate_status n (o <|ko_Status := s|>);
  mret (match r with Ok _ => None | Err e => Some e end).

(** [SetControllerReference]: an object has one controller. *)
Definition SetControllerReference (owner : string * string) (o : kobject) : result kobject :=
  if decide (ko_Owner o = None ∨ ko_Owner o = Some owner) then Ok (o <|ko_Owner := Some owner|>)
  else Err (ErrMsg "already owned by another controller").

Definition ready_replicas (o : kobject) : Z :=
  match ko_Status o with DeploymentStatus n => n | _ => 0%Z end.

(** ** Agents (agent_controller.go) *)

Definition agentFinalizer : string := "mlaiops.io/agent-cleanup".

Definition agent_status (o : kobject) : NexusAgentStatus :=
  match ko_Status o with AgentStatus s => s | _ => zero end.

Definition agent_spec (namespace name : string) (spec : NexusAgentSpec) : AgentSpec :=
  mkAgentSpec name namespace (nas_Version spec) (nas_Image spec) (nas_GraphModule spec)
    (rep_Min (nas_Replicas spec)) (rep_Max (nas_Replicas spec)) (llm_Backend (nas_LLM spec))
    (nas_LangfuseProject spec) (tp_CanaryWeight (nas_TrafficPolicy spec))
    (tp_StableRef (nas_TrafficPolicy spec)).

(** [envVars], in the order its loop visits the map. *)
Definition envVars (values : gmap string string) : K (list (string * env_source)) :=
  order ← host (ask (λ k, map_order k values)); mret (fmap (M := list) (λ '(name, value), (name, Value value)) order).

Definition agent_selector (name : string) (spec : NexusAgentSpec) : gmap string string :=
  <["mlaiops.io/agent" := name]> {["mlaiops.io/version" := nas_Version spec]}.

Definition agent_deployment (name : string) (spec : NexusAgentSpec) (plan : AgentPlan)
    (o : kobject) : K (result kobject) :=
  let selector := agent_selector name spec in
  let env i := default ∅ (pc_Env <$> aw_Containers (ap_Workload plan) !! i) in
  let image := default "" (pc_Image <$> aw_Containers (ap_Workload plan) !! 1) in
  agent_env ← envVars (env 0); proxy_env ← envVars (env 1);
  let volumes := match ko_Spec o with DeploymentSpec d => dep_Volumes d | _ => [] end in
  let group := match ko_Spec o with DeploymentSpec d => dep_FSGroup d | _ => None end in
  mret (SetControllerReference ("nexusagents", name)
    (o <|ko_Labels := aw_Labels (ap_Workload plan)|>
       <|ko_Spec := DeploymentSpec (mkDeployment (aw_Replicas (ap_Workload plan)) selector selector
         [mkContainer "agent" (nas_Image spec) 8000 agent_env None [] true;
          mkContainer "trace-proxy" image 8081 proxy_env None [] true] volumes group)|>)).

Definition agent_service (name : string) (selector : gmap string string) (o : kobject)
    : K (result kobject) :=
  mret (SetControllerReference ("nexusagents", name)
    (o <|ko_Spec := ServiceSpec (mkService selector [mkServicePort "http" 80 8000])|>)).

Definition agent_fail (n : key) (o : kobject) (reason : string) (e : gerror) : K outcome :=
  let s := agent_status o in
  _ ← status_ignored n o (AgentStatus (mkNexusAgentStatus "Failed" (nat_ReadyReplicas s)
        (nat_ObservedGeneration s) (Some (mkCondition false reason (error_text e)))));
  mret (failed e).

(** The part of [Reconcile] after the finalizer is set. *)
Definition agent_workload (namespace name : string) (o : kobject) (spec : NexusAgentSpec)
    : K outcome :=
  let n := ("nexusagents", namespace, name) in
  match ReconcileAgent (agent_spec namespace name spec) with
  | Err e => agent_fail n o "InvalidSpec" e
  | Ok plan =>
      let workload := aw_Name (ap_Workload plan) in
      deployment ← CreateOrUpdate ("deployments", namespace, workload)
                     (agent_deployment name spec plan);
      match deployment with
      | Err e => mret (failed e)
      | Ok deployment =>
          service ← CreateOrUpdate ("services", namespace, workload)
                      (agent_service name (agent_selector name spec));
          match service with
          | Err e => mret (failed e)
          | Ok _ =>
              err ← status_update n o (AgentStatus (mkNexusAgentStatus "Ready"
                (ready_replicas deployment) (ko_Generation o)
                (Some (mkCondition true "WorkloadReconciled"
                   ("Deployment " ++ workload ++ " reconciled")))));
              mret (match err with
                    | Some e => if decide (IsConflict e) then done_ else failed e
                    | None => done_
                    end)
          end
      end
  end.

(** [AgentReconciler.Reconcile] *)
Definition agent_Reconcile (namespace name : string) : K outcome :=
  let n := ("nexusagents", namespace, name) in
  r ← kget_as decode_agent n;
  match r with
  | Err e => mret (if decide (IsNotFound e) then done_ else failed e)
  | Ok (o, spec) =>
      let has := bool_decide (agentFinalizer ∈ ko_Finalizers o) in
      if ko_Deleted o then
        if has then
          r ← kupdate n (o <|ko_Finalizers := filter (λ f, f ≠ agentFinalizer) (ko_Finalizers o)|>);
          mret (match r with Ok _ => done_ | Err e => failed e end)
        else mret done_
      else if has then agent_workload namespace name o spec else
        r ← kupdate n (o <|ko_Finalizers := (ko_Finalizers o ++ [agentFinalizer])%list|>);
        match r with
        | Err e => mret (failed e)
        | Ok o => agent_workload namespace name o spec
        end
  end.

(** ** Pipeline runs (lifecycle_controllers.go) *)

Definition run_status (o : kobject) : NexusPipelineRunStatus :=
  match ko_Status o with PipelineRunStatus s => s | _ => zero end.

(** The first of the keys that holds a string. *)
Definition stringValue (values : any) (keys : list string) : string :=
  let strings := omap (M := list) (λ k : string,
    match values with
    | AObj kvs => match (list_to_map kvs : gmap string any) !! k with
                  | Some (AStr v) => Some v
                  | _ => None
                  end
    | _ => None
    end) keys in
  default "" (head strings).

Definition ten_seconds : Z := 10000000000.
Definition fifteen_seconds : Z := 15000000000.

(** [PipelineReconciler.Reconcile] *)
Definition pipeline_Reconcile (kfp : Client) (experimentID namespace name : string) : K outcome :=
  let n := ("nexuspipelineruns", namespace, name) in
  r ← kget_as decode_run n;
  match r with
  | Err e => mret (if decide (IsNotFound e) then done_ else failed e)
  | Ok (o, spec) =>
      let s := run_status o in
      if decide (npt_WorkflowRef s ≠ "" ∨ npt_Phase s = "Succeeded") then mret done_ else
      t ← host now;
      let s := mkNexusPipelineRunStatus "Submitting" (npt_WorkflowRef s) (Some t)
                 (npt_FinishedAt s) (npt_Message s) in
      o ← status_ignored n o (PipelineRunStatus s);
      submitted ← host (kfp_Submit kfp experimentID (nps_PipelineRef spec) name
                          (nps_Parameters spec));
      match submitted with
      | Err e =>
          _ ← status_ignored n o (PipelineRunStatus (mkNexusPipelineRunStatus "Failed"
                (npt_WorkflowRef s) (npt_StartedAt s) (npt_FinishedAt s) (error_text e)));
          mret (mkOutcome ten_seconds (Some e))
      | Ok result =>
          let reference := stringValue result ["run_id"; "runId"; "id"] in
          err ← status_update n o (PipelineRunStatus (mkNexusPipelineRunStatus "Running" reference
                  (npt_StartedAt s) (npt_FinishedAt s) "Submitted to KFP"));
          mret (mkOutcome 0 err)
      end
  end.

(** ** Model promotions (lifecycle_controllers.go) *)

Definition promotion_status (o : kobject) : NexusModelPromotionStatus :=
  match ko_Status o with PromotionStatus s => s | _ => zero end.

Definition dnsLabel (value : string) : string := TrimByte "-" (ToLower (dashes "._/" value)).

(** The stage with its first letter in upper case. *)
Definition stage_of (targetStage : string) : string :=
  match targetStage with
  | EmptyString => ""
  | String a rest =>
      (if is_lower a then String (ascii_of_N (N_of_ascii a - 32)) ""
       else if (N_of_ascii a <? 128)%N then String a "" else upper_latin1 a) ++ rest
  end.

Definition inference_service (modelName version : string) : kobject :=
  mkObject ∅ [] None (CustomSpec (AObj [("predictor", AObj [("model", AObj [
      ("modelFormat", AObj [("name", AStr "mlflow")]);
      ("storageUri", AStr ("models:/" ++ modelName ++ "/" ++ version))])])])) NoStatus 0 0 false.

(** [ModelPromotionReconciler.Reconcile] *)
Definition promotion_Reconcile (mlflow : Client) (namespace name : string) : K outcome :=
  let n := ("nexusmodelpromotions", namespace, name) in
  r ← kget_as decode_promotion n;
  match r with
  | Err e => mret (if decide (IsNotFound e) then done_ else failed e)
  | Ok (o, spec) =>
      let s := promotion_status o in
      if decide (nmt_Phase s = "Succeeded") then mret done_ else
      let fail_with (message : string) := status_ignored n o (PromotionStatus
            (mkNexusModelPromotionStatus "Failed" message (nmt_InferenceServiceRef s))) in
      if decide (nms_TargetStage spec = "") then
        _ ← fail_with "targetStage is required";
        mret (failed (ErrMsg "targetStage is required"))
      else
        moved ← host (mlflow_TransitionStage mlflow (nms_ModelName spec) (nms_Version spec)
                        (stage_of (nms_TargetStage spec)));
        match moved with
        | Err e => _ ← fail_with (error_text e); mret (mkOutcome fifteen_seconds (Some e))
        | Ok _ =>
            let ref := dnsLabel (nms_ModelName spec ++ "-" ++ nms_Version spec) in
            created ← kcreate ("inferenceservices", namespace, ref)
                        (inference_service (nms_ModelName spec) (nms_Version spec));
            let succeed :=
              err ← status_update n o (PromotionStatus (mkNexusModelPromotionStatus "Succeeded"
                      "MLflow stage transitioned and KServe resource created" ref));
              mret (mkOutcome 0 err) in
            match created with
            | Err e => if decide (IsAlreadyExists e) then succeed else mret (failed e)
            | Ok _ => succeed
            end
        end
  end.
End reconcilers.
