(* ===== verification/Workspace.v ===== *)
(** * The workspace reconciler (internal/operator/workspace_controller.go)

    One bounded workspace per access grant: a persistent volume, a secret with
    the password of its services, a deployment whose containers split what was
    granted, and a service. *)

From S2P Require Import Prelude GoStrings Types World Tokens Kube Operator.

Open Scope string_scope.

Record WorkspaceReconciler := mkWorkspaceReconciler {
  wr_WorkbenchImage : string;
  wr_IDEImage : string;
  wr_GatewayURL : string;
  wr_FeatureURL : string;
  wr_StorageURL : string;
  wr_MLflowURL : string;
  wr_PrefectURL : string;
  wr_LangfuseURL : string;
  wr_KafkaRESTURL : string;
  wr_StorageClass : string
}.

Definition gigabyte : Z := 1073741824.

(** ** The containers *)

(** The services a workspace runs, of those it is granted. *)
Definition workspace_services (spec : NexusWorkspaceSpec) : list string :=
  filter (λ service, service ∈ nws_Services spec) ["workbench"; "ide"].

(** The share of each of [n] services: milli-CPUs and bytes. *)
Definition cpu_share (spec : NexusWorkspaceSpec) (n : nat) : Z :=
  Z.quot (wc_VCPUs (nws_Compute spec) * 1000) (Z.of_nat n).
Definition memory_share (spec : NexusWorkspaceSpec) (n : nat) : Z :=
  Z.quot (wc_MemoryGB (nws_Compute spec) * 1024 * 1024 * 1024) (Z.of_nat n).

Definition gpu_of (spec : NexusWorkspaceSpec) (service : string) : option (string * Z) :=
  let c := nws_Compute spec in
  if decide (service = "workbench" ∧ 0 < wc_GPUs c)%Z
  then Some (if decide (wc_GPUType c = "") then "nvidia.com/gpu" else wc_GPUType c, wc_GPUs c)
  else None.

Definition workspace_env (r : WorkspaceReconciler) (spec : NexusWorkspaceSpec)
    (authSecret service : string) : list (string * env_source) :=
  ([("MLAIOPS_URL", Value (wr_GatewayURL r)); ("MLAIOPS_FEATURE_GATEWAY_URL", Value (wr_FeatureURL r));
    ("MLAIOPS_STORAGE_PROXY_URL", Value (wr_StorageURL r));
    ("MLFLOW_TRACKING_URI", Value (wr_MLflowURL r)); ("PREFECT_API_URL", Value (wr_PrefectURL r));
    ("LANGFUSE_HOST", Value (wr_LangfuseURL r)); ("KAFKA_REST_URL", Value (wr_KafkaRESTURL r));
    ("NEXUS_SUBJECT", Value (nws_Subject spec)); ("NEXUS_WORKSPACE", Value "/workspace")]
   ++ (if decide (service = "workbench")
       then [("S3_MOUNT_OPTIONAL", Value "true"); ("JUPYTER_TOKEN", SecretKeyRef authSecret "token")]
       else [("PASSWORD", SecretKeyRef authSecret "token")]))%list.

Definition workspace_container (r : WorkspaceReconciler) (spec : NexusWorkspaceSpec)
    (authSecret : string) (n : nat) (service : string) : container :=
  let '(image, port) := if decide (service = "ide") then (wr_IDEImage r, 8080%Z)
                        else (wr_WorkbenchImage r, 8888%Z) in
  mkContainer service image port (workspace_env r spec authSecret service)
    (Some (mkResources (cpu_share spec n) (memory_share spec n) (gpu_of spec service)))
    [("workspace", "/workspace")] false.

Definition containers (r : WorkspaceReconciler) (spec : NexusWorkspaceSpec) (authSecret : string)
    : list container :=
  let services := workspace_services spec in
  workspace_container r spec authSecret (length services) <$> services.

Definition workspacePorts (services : list string) : list service_port :=
  ((if decide ("workbench" ∈ services) then [mkServicePort "workbench" 8888 8888] else [])
   ++ (if decide ("ide" ∈ services) then [mkServicePort "ide" 8080 8080] else []))%list.

(** ** Reconciling *)

Section reconciler.
Context `{Host} `{KubeAPI} `{OperatorEnv}.
Variable reconciler : WorkspaceReconciler.

Definition workspace_labels (name : string) : gmap string string := list_to_map [
  ("app.kubernetes.io/name", name); ("app.kubernetes.io/component", "workspace");
  ("app.kubernetes.io/managed-by", "mlaiops-operator"); ("mlaiops.io/workspace", name)].

Definition workspace_status (o : kobject) : NexusWorkspaceStatus :=
  match ko_Status o with WorkspaceStatus s => s | _ => zero end.

Definition claim_of (o : kobject) : claim :=
  match ko_Spec o with ClaimSpec c => c | _ => mkClaim [] None None end.

(** The claim asks for what is granted, and never for less than it did. *)
Definition workspace_claim (name : string) (spec : NexusWorkspaceSpec) (o : kobject)
    : K (result kobject) :=
  let c := claim_of o in
  let requested := (nws_StorageGB spec * 1024 * 1024 * 1024)%Z in
  let storage := if decide (default 0%Z (pvc_Storage c) < requested)%Z then Some requested
                 else pvc_Storage c in
  let storage_class := if decide (wr_StorageClass reconciler = "") then pvc_StorageClass c
               else Some (wr_StorageClass reconciler) in
  mret (SetControllerReference ("nexusworkspaces", name)
    (o <|ko_Labels := workspace_labels name|>
       <|ko_Spec := ClaimSpec (mkClaim ["ReadWriteOnce"] storage storage_class)|>)).

(** The secret keeps its token; a new one gets 24 random bytes. *)
Definition workspace_secret (name : string) (o : kobject) : K (result kobject) :=
  let current := match ko_Spec o with SecretSpec (Some token) => token | _ => "" end in
  token ← (if decide (current = "")
           then value ← host (ask (λ k, rand_read k 24)); mret (base64url_encode <$> value)
           else mret (Some current));
  mret (match token with
        | None => Err (ErrIO "rand")
        | Some token => SetControllerReference ("nexusworkspaces", name)
            (o <|ko_Labels := workspace_labels name|> <|ko_Spec := SecretSpec (Some token)|>)
        end).

Definition workspace_deployment (name : string) (spec : NexusWorkspaceSpec) (o : kobject)
    : K (result kobject) :=
  let cs := containers reconciler spec (name ++ "-auth") in
  let replicas := if decide (nws_Disabled spec = true ∨ length cs = 0%nat) then 0%Z else 1%Z in
  mret (SetControllerReference ("nexusworkspaces", name)
    (o <|ko_Labels := workspace_labels name|>
       <|ko_Spec := DeploymentSpec (mkDeployment replicas {["mlaiops.io/workspace" := name]}
           (workspace_labels name) cs [("workspace", name)] (Some 1000%Z))|>)).

Definition workspace_service (name : string) (spec : NexusWorkspaceSpec) (o : kobject)
    : K (result kobject) :=
  mret (SetControllerReference ("nexusworkspaces", name)
    (o <|ko_Labels := workspace_labels name|>
       <|ko_Spec := ServiceSpec (mkService {["mlaiops.io/workspace" := name]}
                                   (workspacePorts (nws_Services spec)))|>)).

Definition workspace_fail (n : key) (o : kobject) (reason : string) (e : gerror) : K outcome :=
  let s := workspace_status o in
  _ ← status_ignored n o (WorkspaceStatus (mkNexusWorkspaceStatus "Failed" (nwt_ReadyReplicas s)
        (nwt_WorkbenchURL s) (nwt_IDEURL s) (nwt_ObservedGeneration s)
        (Some (mkCondition false reason (error_text e)))));
  mret (failed e).

Definition workspace_ready (namespace name : string) (o deployment : kobject)
    (spec : NexusWorkspaceSpec) : NexusWorkspaceStatus :=
  let address port := "http://" ++ name ++ "." ++ namespace ++ ".svc:" ++ port in
  mkNexusWorkspaceStatus (if nws_Disabled spec then "Suspended" else "Ready")
    (ready_replicas deployment)
    (if decide ("workbench" ∈ nws_Services spec) then address "8888" else "")
    (if decide ("ide" ∈ nws_Services spec) then address "8080" else "")
    (ko_Generation o)
    (Some (mkCondition true "WorkspaceReconciled"
             "Persistent workspace and assigned services reconciled")).

(** The service of a workspace, or its removal. *)
Definition reconcile_service (namespace name : string) (spec : NexusWorkspaceSpec)
    : K (option gerror) :=
  let n := ("services", namespace, name) in
  if decide (length (containers reconciler spec (name ++ "-auth")) = 0%nat) then
    deleted ← kdelete n;
    mret (match deleted with
          | Err e => if decide (IsNotFound e) then None else Some e
          | Ok _ => None
          end)
  else
    service ← CreateOrUpdate n (workspace_service name spec);
    mret (match service with Ok _ => None | Err e => Some e end).

Definition invalid_workspace (spec : NexusWorkspaceSpec) : Prop :=
  nws_Subject spec = "" ∨ (wc_VCPUs (nws_Compute spec) < 1)%Z
  ∨ (wc_MemoryGB (nws_Compute spec) < 1)%Z ∨ (nws_StorageGB spec < 1)%Z.
#[export] Instance invalid_workspace_dec spec : Decision (invalid_workspace spec).
Proof. unfold invalid_workspace. apply _. Defined.

(** [WorkspaceReconciler.Reconcile] *)
Definition workspace_Reconcile (namespace name : string) : K outcome :=
  let n := ("nexusworkspaces", namespace, name) in
  read ← kget_as decode_workspace n;
  match read with
  | Err e => mret (if decide (IsNotFound e) then done_ else failed e)
  | Ok (o, spec) =>
      if decide (invalid_workspace spec)
      then workspace_fail n o "InvalidSpec"
             (ErrMsg "subject, vcpus, memoryGB and storageGB must be positive") else
      pvc ← CreateOrUpdate ("persistentvolumeclaims", namespace, name) (workspace_claim name spec);
      match pvc with Err e => mret (failed e) | Ok _ =>
      secret ← CreateOrUpdate ("secrets", namespace, name ++ "-auth") (workspace_secret name);
      match secret with Err e => mret (failed e) | Ok _ =>
      deployment ← CreateOrUpdate ("deployments", namespace, name) (workspace_deployment name spec);
      match deployment with Err e => mret (failed e) | Ok deployment =>
      err ← reconcile_service namespace name spec;
      match err with Some e => mret (failed e) | None =>
      err ← status_update n o (WorkspaceStatus (workspace_ready namespace name o deployment spec));
      mret (match err with
            | Some e => if decide (IsConflict e) then done_ else failed e
            | None => done_
            end)
      end end end end
  end.
End reconciler.
