(* ===== verification/KubeProps.v ===== *)
(** * What the dispatcher and the operator promise *)

From Stdlib Require Import Ascii.
From S2P Require Import Prelude GoStrings Types World Tokens Integrations Kube Dispatcher Operator Workspace.

Open Scope string_scope.

(** ** Names *)

Definition label_byte (a : ascii) : bool := is_lower_alnum a || Ascii.eqb a "-".

(** The string neither is empty nor starts with a dash. *)
Definition starts_alnum (s : string) : bool :=
  match s with String a _ => is_lower_alnum a | EmptyString => false end.

(** A label of a DNS name, as RFC 1123 has it. *)
Definition dns_label (s : string) : Prop :=
  String.length s <= 63 ∧ all_bytes label_byte s = true
  ∧ starts_alnum s = true ∧ starts_alnum (String.rev s) = true.

Lemma all_bytes_rev P s : all_bytes P (String.rev s) = all_bytes P s.
Proof.
  induction s as [|a s IH]; [done|].
  rewrite str_rev_cons, all_bytes_app, IH. simpl. by rewrite andb_true_r, andb_comm.
Qed.

Lemma str_length_rev s : String.length (String.rev s) = String.length s.
Proof.
  induction s as [|a s IH]; [done|]. rewrite str_rev_cons, str_length_app, IH. simpl. lia.
Qed.

Lemma starts_app s t : starts_alnum s = true → starts_alnum (s ++ t) = true.
Proof. by destruct s. Qed.

Section trim_byte.
Implicit Types s : string.

Lemma TrimLeftByte_suffix c s : ∃ u, s = u ++ TrimLeftByte c s.
Proof. apply trim_suffix. Qed.

Lemma TrimLeftByte_bytes P c s : all_bytes P s = true → all_bytes P (TrimLeftByte c s) = true.
Proof.
  intros Hs. destruct (TrimLeftByte_suffix c s) as [u Hu]. rewrite Hu, all_bytes_app in Hs.
  by apply andb_true_iff in Hs as [_ ?].
Qed.

Lemma TrimLeftByte_length c s : String.length (TrimLeftByte c s) <= String.length s.
Proof.
  destruct (TrimLeftByte_suffix c s) as [u Hu]. rewrite Hu at 2. rewrite str_length_app. lia.
Qed.

(** A label byte other than the dash stops the trimming. *)
Lemma TrimLeftByte_starts s :
  all_bytes label_byte s = true → TrimLeftByte "-" s ≠ "" → starts_alnum (TrimLeftByte "-" s) = true.
Proof.
  intros Hs Hne. pose proof (TrimLeftByte_bytes _ "-" _ Hs) as Hb.
  pose proof (trim_trimmed (Ascii.eqb "-") (λ _ _, false) (λ _ _ _, false) s) as Ht.
  fold (TrimLeftByte "-" s) in Ht. destruct (TrimLeftByte "-" s) as [|a r]; [done|].
  unfold trimmed in Ht. apply andb_true_iff in Ht as [Ha%negb_true_iff _].
  simpl in Hb. apply andb_true_iff in Hb as [Hb _]. unfold label_byte in Hb.
  rewrite (Ascii.eqb_sym a "-"), Ha, orb_false_r in Hb. done.
Qed.

Lemma TrimLeftByte_id s : starts_alnum s = true → TrimLeftByte "-" s = s.
Proof.
  intros Hs. unfold TrimLeftByte. apply trim_id. destruct s as [|a s]; [done|].
  unfold trimmed. destruct (Ascii.eqb_spec "-" a) as [<-|]; [done|]. by destruct s as [|? [|? ?]].
Qed.

Lemma TrimByte_bytes P c s : all_bytes P s = true → all_bytes P (TrimByte c s) = true.
Proof.
  intros Hs. unfold TrimByte, TrimRightByte. rewrite all_bytes_rev.
  apply TrimLeftByte_bytes. rewrite all_bytes_rev. by apply TrimLeftByte_bytes.
Qed.

Lemma TrimByte_length c s : String.length (TrimByte c s) <= String.length s.
Proof.
  unfold TrimByte, TrimRightByte. rewrite str_length_rev.
  pose proof (TrimLeftByte_length c (String.rev (TrimLeftByte c s))).
  rewrite str_length_rev in *. pose proof (TrimLeftByte_length c s). lia.
Qed.

(** Trimming the end keeps a start that is no dash. *)
Lemma TrimRight_starts s :
  all_bytes label_byte s = true → starts_alnum s = true →
  starts_alnum (TrimRightByte "-" s) = true.
Proof.
  intros Hb Hs. unfold TrimRightByte.
  destruct (TrimLeftByte_suffix "-" (String.rev s)) as [u Hu].
  apply (f_equal String.rev) in Hu. rewrite str_rev_involutive, str_rev_app in Hu.
  destruct (String.rev (TrimLeftByte "-" (String.rev s))) as [|a r] eqn:E.
  - exfalso. destruct s as [|a s]; [done|].
    assert (Hnil : TrimLeftByte "-" (String.rev (String a s)) = "").
    { rewrite <-(str_rev_involutive (TrimLeftByte _ _)), E. done. }
    rewrite str_rev_cons in Hnil.
    assert (Hkeep : ∀ t, TrimLeftByte "-" (t ++ String a "") ≠ "").
    { clear -Hs. cbn [starts_alnum] in Hs. intros t. unfold TrimLeftByte.
      induction t as [|b t IH]; rewrite ?str_app_nil_l, ?str_app_cons; cbn [trim_with].
      - destruct (Ascii.eqb_spec "-" a) as [<-|]; [discriminate Hs|done].
      - destruct (Ascii.eqb "-" b); [apply IH|]. by destruct t as [|? [|? ?]]. }
    by apply Hkeep in Hnil.
  - rewrite Hu in Hs. by simpl in *.
Qed.

Lemma TrimByte_label s :
  all_bytes label_byte s = true → TrimByte "-" s ≠ "" →
  starts_alnum (TrimByte "-" s) = true ∧ starts_alnum (String.rev (TrimByte "-" s)) = true.
Proof.
  intros Hs Hne. unfold TrimByte in *.
  assert (Hl : TrimLeftByte "-" s ≠ "") by (intros E; by rewrite E in Hne).
  pose proof (TrimLeftByte_bytes _ "-" _ Hs) as Hb. split.
  - apply TrimRight_starts; [done|]. by apply TrimLeftByte_starts.
  - unfold TrimRightByte in *. rewrite str_rev_involutive. apply TrimLeftByte_starts.
    + by rewrite all_bytes_rev.
    + intros E. apply Hne. by rewrite E.
Qed.

Lemma TrimByte_nonempty s :
  all_bytes label_byte s = true → starts_alnum s = true → TrimByte "-" s ≠ "".
Proof.
  intros Hb Hs. unfold TrimByte. rewrite TrimLeftByte_id by done.
  pose proof (TrimRight_starts s Hb Hs) as H. by destruct (TrimRightByte "-" s).
Qed.
End trim_byte.

Lemma collapse_bytes dash s : all_bytes label_byte (collapse dash s) = true.
Proof.
  revert dash. induction s as [|a s IH]; intros dash; [done|]. simpl.
  destruct (is_lower_alnum a) eqn:E; simpl.
  - unfold label_byte. rewrite E. apply IH.
  - destruct dash; [apply IH|]. simpl. apply IH.
Qed.

Lemma substring_prefix n s : ∃ t, s = String.substring 0 n s ++ t.
Proof.
  revert s. induction n as [|n IH]; intros s; [exists s; by destruct s|].
  destruct s as [|a s]; [by exists ""|]. simpl. destruct (IH s) as [t Ht].
  exists t. by rewrite str_app_cons, <-Ht.
Qed.

Lemma substring_length n s :
  String.length (String.substring 0 n s) = min n (String.length s).
Proof.
  revert s. induction n as [|n IH]; intros s; [by destruct s|].
  destruct s as [|a s]; [done|]. simpl. by rewrite IH.
Qed.

Lemma hex_encode_bytes s :
  all_bytes is_lower_alnum (hex_encode s) = true ∧ String.length (hex_encode s) = 2 * String.length s.
Proof.
  induction s as [|a s [IH1 IH2]]; [done|]. cbn [hex_encode all_bytes String.length].
  rewrite IH1, IH2. split; [|lia]. rewrite andb_true_r.
  apply (forall_bytes (λ a, is_lower_alnum (char_at hex_alphabet (N_of_ascii a / 16))
    && is_lower_alnum (char_at hex_alphabet (N_of_ascii a mod 16)))). vm_compute. reflexivity.
Qed.

Lemma all_bytes_substring P n s : all_bytes P s = true → all_bytes P (String.substring 0 n s) = true.
Proof.
  intros Hs. destruct (substring_prefix n s) as [t Ht]. rewrite Ht, all_bytes_app in Hs.
  by apply andb_true_iff in Hs as [? _].
Qed.

Lemma starts_rev_app s t : starts_alnum (String.rev t) = true → starts_alnum (String.rev (s ++ t)) = true.
Proof. intros Ht. rewrite str_rev_app. by apply starts_app. Qed.

Lemma starts_all t : all_bytes is_lower_alnum t = true → t ≠ "" → starts_alnum t = true.
Proof. destruct t; [done|]. simpl. by intros [? _]%andb_true_iff. Qed.

(** C34: every name the dispatcher gives an object is a valid DNS label, at most
    63 bytes, lower-case letters, digits and inner dashes, whatever the name and
    the identifier of the resource are. *)
Theorem name_valid `{Host} name fallback :
  (∀ s, String.length (sha256_sum s) = 32) → dns_label (dnsName name fallback).
Proof.
  intros Hsha. unfold dnsName. set (raw := ToLower _).
  pose proof (collapse_bytes false raw) as Hc.
  set (value := TrimByte "-" (collapse false raw)).
  assert (Hvalue : ∀ v, v = (if decide (value = "") then "resource" else value) →
    all_bytes label_byte v = true ∧ starts_alnum v = true ∧ starts_alnum (String.rev v) = true).
  { intros v ->. case_decide as E; [by vm_compute|].
    destruct (TrimByte_label _ Hc E) as [??]. split; [|done]. by apply TrimByte_bytes. }
  destruct (Hvalue _ eq_refl) as (Hb&Hs&Hr). cbv zeta.
  set (v := if decide (value = "") then "resource" else value) in *.
  case_decide as Hlen; [by split_and!|].
  set (head := TrimByte "-" (String.substring 0 54 v)).
  set (digest := String.substring 0 8 (hex_encode (sha256_sum raw))).
  assert (Hdigest : all_bytes is_lower_alnum digest = true ∧ String.length digest = 8).
  { destruct (hex_encode_bytes (sha256_sum raw)) as [H1 H2]. unfold digest. split.
    - by apply all_bytes_substring.
    - rewrite substring_length, H2, Hsha. done. }
  destruct Hdigest as [Hd1 Hd2].
  pose proof (all_bytes_substring _ 54 _ Hb) as Hsub.
  assert (Hstart : starts_alnum (String.substring 0 54 v) = true) by by destruct v.
  pose proof (TrimByte_nonempty _ Hsub Hstart) as Hne.
  destruct (TrimByte_label _ Hsub Hne) as [Hh _]. fold head in Hh, Hne.
  split_and!.
  - rewrite !str_length_app, Hd2. simpl.
    assert (String.length head <= 54); [|lia].
    etransitivity; [apply TrimByte_length|]. rewrite substring_length. lia.
  - unfold head. rewrite !all_bytes_app, (TrimByte_bytes _ "-" _ Hsub). simpl.
    eapply all_bytes_impl; [|exact Hd1]. unfold label_byte. by intros a ->.
  - by apply starts_app.
  - apply starts_rev_app, starts_rev_app. apply starts_all.
    + by rewrite all_bytes_rev.
    + intros E. apply (f_equal String.length) in E. rewrite str_length_rev, Hd2 in E. done.
Qed.

(** ** What an operation leaves alone *)

Section framing.
Context `{Host} `{KubeAPI}.

(** The computation keeps what the cluster satisfies. *)
Definition keeps {A : Type} (P : gmap key kobject → Prop) (m : K A) : Prop :=
  ∀ s, P (kb_objects s) → P (kb_objects (m s).2).

Lemma keeps_ret {A} P (a : A) : keeps P (mret (M := K) a).
Proof. by intros s. Qed.

Lemma keeps_bind {A B} P (m : K A) (f : A → K B) :
  keeps P m → (∀ a, keeps P (f a)) → keeps P (m ≫= f).
Proof.
  intros Hm Hf s Hs. unfold mbind, K_bind. specialize (Hm s Hs).
  destruct (m s) as [a s']. by apply Hf.
Qed.

Lemma keeps_host {A} P (m : M A) : keeps P (host m).
Proof. intros s Hs. unfold host. by destruct (m (kb_world s)). Qed.

Lemma keeps_api {A} P (change : kube → result (A * kube)) :
  (∀ s a s', P (kb_objects s) → change s = Ok (a, s') → P (kb_objects s')) →
  keeps P (api_call change).
Proof.
  intros Hc s Hs. unfold api_call. cbv zeta.
  match goal with |- context [change ?x] => destruct (change x) as [[a s']|] eqn:E end;
    destruct (api_error _) as [[msg []]|]; simpl; first [done | by (eapply Hc; [|exact E])].
Qed.

Lemma keeps_kget P n : keeps P (kget n).
Proof. apply keeps_api. intros s a s' Hs. destruct (kb_objects s !! n); [|done]. by intros [= <- <-]. Qed.
End framing.

(** The calls that keep a property; [frame] walks through a computation of them. *)
Create HintDb keeps discriminated.
#[export] Hint Resolve keeps_ret keeps_host keeps_kget : keeps.

Ltac frame :=
  repeat first
    [ solve [auto with keeps]
    | apply keeps_bind; intros
    | match goal with
      | |- keeps _ (match ?r with _ => _ end) => destruct r
      | |- keeps _ (let _ := _ in _) => cbv zeta
      end ].

(** ** Objects an operator has settled *)

(** The status of a promotion that has succeeded, or of a run that Kubeflow has. *)
Definition settled (plural : string) (st : kstatus) : Prop :=
  match st with
  | PromotionStatus s => plural = "nexusmodelpromotions" ∧ nmt_Phase s = "Succeeded"
  | PipelineRunStatus s =>
      plural = "nexuspipelineruns" ∧ (npt_WorkflowRef s ≠ "" ∨ npt_Phase s = "Succeeded")
  | _ => False
  end.

Definition settled_at (n : key) (objects : gmap key kobject) : Prop :=
  ∃ o, objects !! n = Some o ∧ ko_Deleted o = false ∧ settled n.1.1 (ko_Status o).

Section settled.
Context `{Host} `{KubeAPI} `{OperatorEnv} `{Net} `{CommandJson}.
Variable n : key.

Lemma settled_other n' o objects :
  n' ≠ n → settled_at n objects → settled_at n (<[n' := o]> objects).
Proof. intros Hne (o'&Ho&?). exists o'. by rewrite lookup_insert_ne. Qed.

Lemma keeps_kcreate n' o : keeps (settled_at n) (kcreate n' o).
Proof.
  apply keeps_api. intros s a s' Hs. destruct (kb_objects s !! n') eqn:E; [done|].
  intros [= <- <-]. apply (settled_other n'); [|done]. intros ->. destruct Hs as (o'&?&_). congruence.
Qed.

Lemma keeps_kupdate n' o : keeps (settled_at n) (kupdate n' o).
Proof.
  apply keeps_api. intros s a s' Hs. destruct (kb_objects s !! n') as [c|] eqn:E; [|done].
  case_decide; [done|]. case_decide as Hdel.
  - intros [= <- <-]. destruct Hs as (o'&Ho&Hd&Hset). exists o'. simpl.
    rewrite lookup_delete_ne; [done|]. intros ->. destruct Hdel. congruence.
  - intros [= <- <-]. destruct (decide (n' = n)) as [->|]; [|by apply (settled_other n')].
    destruct Hs as (o'&Ho&Hd&Hset). simplify_eq. eexists. simpl. by rewrite lookup_insert_eq.
Qed.

Lemma keeps_kupdate_status n' o : n' ≠ n → keeps (settled_at n) (kupdate_status n' o).
Proof.
  intros Hne. apply keeps_api. intros s a s' Hs.
  destruct (kb_objects s !! n') as [c|] eqn:E; [|done]. case_decide; [done|].
  intros [= <- <-]. by apply (settled_other n').
Qed.

Lemma keeps_kdelete n' : n' ≠ n → keeps (settled_at n) (kdelete n').
Proof.
  intros Hne. apply keeps_api. intros s a s' Hs.
  destruct (kb_objects s !! n') as [c|] eqn:E; [|done]. case_decide.
  - intros [= <- <-]. destruct Hs as (o'&Ho&?). exists o'. simpl. by rewrite lookup_delete_ne.
  - intros [= <- <-]. by apply (settled_other n').
Qed.
#[local] Hint Resolve keeps_kcreate keeps_kupdate : keeps.

Lemma keeps_CreateOrUpdate n' mutate :
  (∀ o, keeps (settled_at n) (mutate o)) → keeps (settled_at n) (CreateOrUpdate n' mutate).
Proof. intros Hm. unfold CreateOrUpdate. frame. Qed.

Lemma settled_plural objects :
  settled_at n objects → n.1.1 = "nexusmodelpromotions" ∨ n.1.1 = "nexuspipelineruns".
Proof. intros (o&_&_&Hs). destruct (ko_Status o); simpl in Hs; naive_solver. Qed.

(** Keys of other resources. *)
Lemma keeps_other_status plural namespace name o :
  plural ≠ "nexusmodelpromotions" → plural ≠ "nexuspipelineruns" →
  keeps (settled_at n) (kupdate_status (plural, namespace, name) o).
Proof.
  intros Hp Hr s Hs. apply keeps_kupdate_status; [|done].
  intros E. by destruct (settled_plural _ Hs) as [Hn|Hn]; rewrite <-E in Hn.
Qed.

Lemma keeps_other_delete plural namespace name :
  plural ≠ "nexusmodelpromotions" → plural ≠ "nexuspipelineruns" →
  keeps (settled_at n) (kdelete (plural, namespace, name)).
Proof.
  intros Hp Hr s Hs. apply keeps_kdelete; [|done].
  intros E. by destruct (settled_plural _ Hs) as [Hn|Hn]; rewrite <-E in Hn.
Qed.

#[local] Hint Extern 1 (keeps _ (kupdate_status _ _)) => by apply keeps_other_status : keeps.
#[local] Hint Extern 1 (keeps _ (kdelete _)) => by apply keeps_other_delete : keeps.
#[local] Hint Extern 1 (keeps _ (CreateOrUpdate _ _)) => apply keeps_CreateOrUpdate : keeps.

Lemma target_of_access command resource plural name spec :
  target_of command resource = Resource plural name spec → lc_Kind command = "user_access" →
  plural = "nexusworkspaces".
Proof. unfold target_of. intros Ht Hk. rewrite Hk in Ht. simpl in Ht. by injection Ht as <-. Qed.

Lemma keeps_dispatch namespace record : keeps (settled_at n) (Dispatch namespace record).
Proof.
  unfold Dispatch. destruct (decode_command _) as [command|]; [|frame].
  destruct (decode_resource _) as [resource|]; [|frame].
  unfold dispatch_command. destruct (target_of command resource) as [plural name spec| |] eqn:Ht; [|frame..].
  cbv zeta. case_decide as Hdel.
  - apply target_of_access in Ht as ->; [|by destruct Hdel]. frame.
  - frame.
Qed.

Lemma keeps_envVars values : keeps (settled_at n) (envVars values).
Proof. unfold envVars. frame. Qed.
#[local] Hint Resolve keeps_envVars : keeps.

Lemma keeps_agent namespace name : keeps (settled_at n) (agent_Reconcile namespace name).
Proof.
  assert (Hw : ∀ o spec, keeps (settled_at n) (agent_workload namespace name o spec)).
  { intros o spec. unfold agent_workload, agent_fail, status_ignored, status_update.
    frame; unfold agent_deployment, agent_service; intros; frame. }
  unfold agent_Reconcile, kget_as. frame; apply Hw.
Qed.

Lemma keeps_workspace reconciler namespace name :
  keeps (settled_at n) (workspace_Reconcile reconciler namespace name).
Proof.
  unfold workspace_Reconcile, kget_as, workspace_fail, reconcile_service, status_ignored,
    status_update.
  frame; unfold workspace_claim, workspace_secret, workspace_deployment, workspace_service;
    intros; frame.
Qed.
End settled.

(** The process after one call. *)
Definition called_once (s : kube) : kube :=
  s <|kb_world := (kb_world s) <|w_tick := S (w_tick (kb_world s))|>|>.

(** A reconcile that only reads its object: it is done, or reports that the read
    failed. *)
Definition only_reads (m : K outcome) (s : kube) : Prop :=
  (m s).2 = called_once s
  ∧ ((m s).1 = done_ ∨ ∃ msg, (m s).1 = failed (ErrIO msg)).

Section settled_reconciles.
Context `{Host} `{KubeAPI} `{OperatorEnv} `{Net} `{CommandJson}.

Lemma settled_read {S} (decode : any → option S) (f : kobject → S → K outcome) n s :
  settled_at n (kb_objects s) →
  (∀ o spec, settled n.1.1 (ko_Status o) → f o spec = mret done_) →
  only_reads (r ← kget_as decode n;
              match r with
              | Err e => mret (if decide (IsNotFound e) then done_ else failed e)
              | Ok (o, spec) => f o spec
              end) s.
Proof.
  intros (o&Ho&_&Hset) Hf. unfold kget_as, kget, api_call, mbind, K_bind, only_reads, called_once.
  cbv zeta. simpl. rewrite Ho.
  destruct (api_error _) as [[msg []]|]; simpl; [split; [done|right; by exists msg]..|].
  destruct (ko_Spec o); simpl; try (split; [done|right; by eexists]).
  destruct (decode spec); simpl; [|split; [done|right; by eexists]].
  rewrite Hf by done. split; [done|by left].
Qed.

Lemma pipeline_settled kfp experimentID namespace name s :
  settled_at ("nexuspipelineruns", namespace, name) (kb_objects s) →
  only_reads (pipeline_Reconcile kfp experimentID namespace name) s.
Proof.
  intros Hs. apply settled_read; [done|]. intros o spec Hset. simpl in Hset.
  unfold run_status. destruct (ko_Status o); try (exfalso; naive_solver).
  by rewrite decide_True by apply Hset.
Qed.

Lemma promotion_settled mlflow namespace name s :
  settled_at ("nexusmodelpromotions", namespace, name) (kb_objects s) →
  only_reads (promotion_Reconcile mlflow namespace name) s.
Proof.
  intros Hs. apply settled_read; [done|]. intros o spec Hset. simpl in Hset.
  unfold promotion_status. destruct (ko_Status o); try (exfalso; naive_solver).
  by rewrite decide_True by apply Hset.
Qed.

#[local] Hint Resolve keeps_kcreate keeps_kupdate : keeps.

Lemma keeps_pipeline n kfp experimentID namespace name :
  keeps (settled_at n) (pipeline_Reconcile kfp experimentID namespace name).
Proof.
  destruct (decide (n = ("nexuspipelineruns", namespace, name))) as [->|Hne].
  - intros s Hs. by rewrite (proj1 (pipeline_settled kfp experimentID namespace name s Hs)).
  - assert (∀ o, keeps (settled_at n) (kupdate_status ("nexuspipelineruns", namespace, name) o))
      by (intros; by apply keeps_kupdate_status).
    unfold pipeline_Reconcile, kget_as, status_ignored, status_update. frame.
Qed.

Lemma keeps_promotion n mlflow namespace name :
  keeps (settled_at n) (promotion_Reconcile mlflow namespace name).
Proof.
  destruct (decide (n = ("nexusmodelpromotions", namespace, name))) as [->|Hne].
  - intros s Hs. by rewrite (proj1 (promotion_settled mlflow namespace name s Hs)).
  - assert (∀ o, keeps (settled_at n) (kupdate_status ("nexusmodelpromotions", namespace, name) o))
      by (intros; by apply keeps_kupdate_status).
    unfold promotion_Reconcile, kget_as, status_ignored, status_update. frame.
Qed.

(** What the integration worker and the operator do, one at a time. *)
Inductive action : Type :=
  | DispatchRecord (namespace : string) (record : KafkaRecord)
  | ReconcileAgentObject (namespace name : string)
  | ReconcileWorkspace (reconciler : WorkspaceReconciler) (namespace name : string)
  | ReconcileRun (kfp : Client) (experimentID namespace name : string)
  | ReconcilePromotion (mlflow : Client) (namespace name : string).

Definition act (a : action) : K unit :=
  match a with
  | DispatchRecord namespace record => _ ← Dispatch namespace record; mret tt
  | ReconcileAgentObject namespace name => _ ← agent_Reconcile namespace name; mret tt
  | ReconcileWorkspace reconciler namespace name =>
      _ ← workspace_Reconcile reconciler namespace name; mret tt
  | ReconcileRun kfp experimentID namespace name =>
      _ ← pipeline_Reconcile kfp experimentID namespace name; mret tt
  | ReconcilePromotion mlflow namespace name => _ ← promotion_Reconcile mlflow namespace name; mret tt
  end.

Fixpoint act_all (actions : list action) : K unit :=
  match actions with [] => mret tt | a :: actions => _ ← act a; act_all actions end.

Lemma keeps_actions n actions : keeps (settled_at n) (act_all actions).
Proof.
  pose proof (keeps_dispatch n) as Hd. pose proof (keeps_agent n) as Ha.
  pose proof (keeps_workspace n) as Hw. pose proof (keeps_pipeline n) as Hr.
  pose proof (keeps_promotion n) as Hm.
  induction actions as [|a actions IH]; simpl; [apply keeps_ret|].
  apply keeps_bind; [|done]. destruct a; simpl; (apply keeps_bind; [done|intros; apply keeps_ret]).
Qed.

End settled_reconciles.

(** ** What a dispatch leaves in the cluster *)

Section dispatches.
Context `{Host} `{KubeAPI} `{CommandJson}.
(** A server that answers every call. *)
Hypothesis answers : ∀ k, api_error k = None.

Lemma answered {A} (change : kube → result (A * kube)) s :
  api_call change s = match change (called_once s) with
                      | Ok (a, s') => (Ok a, s')
                      | Err e => (Err e, called_once s)
                      end.
Proof using answers.
  unfold api_call, called_once. cbv zeta. rewrite answers. by destruct (change _) as [[a s']|e].
Qed.

(** The object of a command. *)
Definition commanded (command : LifecycleCommand) (spec : any) (st : kstatus) (o : kobject) : Prop :=
  ko_Spec o = CustomSpec spec ∧ ko_Labels o = labels_of command ∧ ko_Status o = st
  ∧ ko_Finalizers o = [] ∧ ko_Deleted o = false.

Lemma dispatch_effect namespace command resource s :
  let r := dispatch_command namespace command resource s in
  match target_of command resource with
  | Unsupported => r.1 ≠ None ∧ r.2 = s
  | Nothing => r.1 = None ∧ r.2 = s
  | Resource plural name spec =>
      let n := (plural, namespace, dnsName name (lc_ID command)) in
      r.1 = None
      ∧ if decide (lc_Kind command = "user_access" ∧ lc_Action command = "access.deleted") then
          from_option ko_Finalizers [] (kb_objects s !! n) = [] →
          kb_objects r.2 = delete n (kb_objects s)
        else from_option ko_Deleted false (kb_objects s !! n) = false →
             ∃ o, kb_objects r.2 = <[n := o]> (kb_objects s)
               ∧ commanded command spec (from_option ko_Status NoStatus (kb_objects s !! n)) o
  end.
Proof using answers.
  intros r. unfold r, dispatch_command. clear r.
  destruct (target_of command resource) as [plural name spec| |]; [|done..].
  set (n := (plural, namespace, dnsName name (lc_ID command))). cbv zeta.
  case_decide as Hdel; unfold kdelete, kget, kcreate, kupdate, mbind, K_bind; rewrite answered; simpl;
    destruct (kb_objects s !! n) as [o|] eqn:Ho; simpl.
  - split; [by case_decide|]. intros Hf. by rewrite decide_True by done.
  - split; [done|]. intros _. by rewrite delete_id.
  - rewrite answered. simpl. rewrite Ho. simpl.
    match goal with |- context [decide (?x ≠ ?x)] => rewrite (decide_False (P := x ≠ x)) by (by intros Hn) end.
    split; [by case_decide|]. intros Hd. rewrite decide_False by (intros [? _]; congruence).
    eexists. split; [done|]. by split_and!.
  - rewrite answered. simpl. rewrite Ho. simpl. split; [done|]. intros _. eexists. split; [done|]. by split_and!.
Qed.

(** A dispatch on a server that answers: the cluster differs in one object at
    most, the one named after the command's resource, which takes the command's
    spec and labels and keeps the status it had; so dispatching the command
    again changes neither.  A deletion removes that object, present or not, and
    a command of an unknown kind is refused and changes nothing. *)
Theorem dispatched namespace command resource s :
  let r := dispatch_command namespace command resource s in
  match target_of command resource with
  | Unsupported => r.1 ≠ None ∧ r.2 = s
  | Nothing => r.1 = None ∧ r.2 = s
  | Resource plural name spec =>
      let n := (plural, namespace, dnsName name (lc_ID command)) in
      r.1 = None
      ∧ if decide (lc_Kind command = "user_access" ∧ lc_Action command = "access.deleted") then
          from_option ko_Finalizers [] (kb_objects s !! n) = [] →
          kb_objects r.2 = delete n (kb_objects s)
        else from_option ko_Deleted false (kb_objects s !! n) = false →
             ∃ o, kb_objects r.2 = <[n := o]> (kb_objects s)
               ∧ commanded command spec (from_option ko_Status NoStatus (kb_objects s !! n)) o
  end.
Proof using answers. apply dispatch_effect. Qed.

(** The name of a user's workspace. *)
Definition workspace_name (subject : string) : string := dnsName ("workspace-" ++ subject) subject.

Definition access_command (action subject tenant : string) : LifecycleCommand :=
  mkLifecycleCommand subject "user_access" action "" tenant.

Lemma access_upserted namespace subject tenant resource s :
  let n := ("nexusworkspaces", namespace, workspace_name subject) in
  from_option ko_Deleted false (kb_objects s !! n) = false →
  ∃ o, kb_objects (dispatch_command namespace (access_command "access.upserted" subject tenant)
                     resource s).2 = <[n := o]> (kb_objects s)
    ∧ ko_Labels o !! "mlaiops.io/resource-id" = Some subject
    ∧ ko_Finalizers o = [] ∧ ko_Deleted o = false.
Proof using answers.
  intros n Hn.
  pose proof (dispatch_effect namespace (access_command "access.upserted" subject tenant)
                resource s) as [_ D].
  rewrite decide_False in D by (by intros [_ ?]). destruct (D Hn) as (o&E&_&L&_&F&Hd).
  exists o. split; [exact E|]. split_and!; [by rewrite L|done..].
Qed.

(** Workspaces are named by what a DNS label keeps of the subject, so two
    users whose subjects differ only in other characters, such as [a.b] and
    [a-b], have one workspace between them: granting the second hands it the
    first one's workspace, volume and secret included, and removing the first
    user's grant deletes the workspace of the second. *)
Theorem workspace_shared namespace tenant first second r1 r2 s :
  workspace_name first = workspace_name second →
  let n := ("nexusworkspaces", namespace, workspace_name first) in
  kb_objects s !! n = None →
  let granted := (dispatch_command namespace (access_command "access.upserted" first tenant) r1 s).2 in
  let both := (dispatch_command namespace (access_command "access.upserted" second tenant) r2 granted).2 in
  let removed := (dispatch_command namespace (access_command "access.deleted" first tenant) ∅ both).2 in
  (∃ o, kb_objects granted = <[n := o]> (kb_objects s)
        ∧ ko_Labels o !! "mlaiops.io/resource-id" = Some first)
  ∧ (∃ o, kb_objects both = <[n := o]> (kb_objects s)
          ∧ ko_Labels o !! "mlaiops.io/resource-id" = Some second)
  ∧ kb_objects removed = kb_objects s.
Proof using answers.
  intros Hname n Hnone granted both removed.
  destruct (access_upserted namespace first tenant r1 s) as (o1&E1&L1&F1&D1).
  { unfold n in Hnone. by rewrite Hnone. }
  fold granted in E1. fold n in E1.
  destruct (access_upserted namespace second tenant r2 granted) as (o2&E2&L2&F2&D2).
  { rewrite <-Hname. fold n. by rewrite E1, lookup_insert_eq. }
  fold both in E2. rewrite <-Hname in E2. fold n in E2. rewrite E1, insert_insert_eq in E2.
  split; [by exists o1|]. split; [by exists o2|].
  pose proof (dispatch_effect namespace (access_command "access.deleted" first tenant) ∅ both)
    as [_ D].
  rewrite decide_True in D by done.
  assert (Hd : kb_objects removed = delete n (kb_objects both)).
  { apply D. change (from_option ko_Finalizers [] (kb_objects both !! n) = []).
    by rewrite E2, lookup_insert_eq. }
  by rewrite Hd, E2, delete_insert_id.
Qed.
End dispatches.
