(* ===== verification/OperatorProps.v ===== *)
(** * What the operator's reconcilers promise *)

From S2P Require Import Prelude GoStrings Types World Tokens Integrations Kube Dispatcher Operator Workspace KubeProps.

Open Scope string_scope.

(** ** Agents *)

(** The specs the planner accepts. *)
Definition admissible (spec : AgentSpec) : Prop :=
  TrimSpace (as_Name spec) ≠ "" ∧ TrimSpace (as_Namespace spec) ≠ ""
  ∧ as_Image spec ≠ "" ∧ as_Version spec ≠ "" ∧ as_GraphModule spec ≠ ""
  ∧ (0 <= as_CanaryWeight spec <= 100)%Z ∧ (Z.max 1 (as_MinReplicas spec) <= as_MaxReplicas spec)%Z.

(** The planner accepts exactly the admissible agents; the plan it makes of
    one splits the traffic into two shares of at most 100 that add up to 100, all
    of it stable when no stable version is named; it runs between one and the
    agent's maximum of replicas, at least its minimum; and its two containers are
    the agent and the proxy the agent's model calls go to. *)
Theorem agent_plan spec :
  match ReconcileAgent spec with
  | Err _ => ¬ admissible spec
  | Ok plan =>
      admissible spec
      ∧ (let t := ap_Traffic plan in
         (0 <= tr_CanaryWeight t <= 100 ∧ 0 <= tr_StableWeight t <= 100
          ∧ tr_StableWeight t + tr_CanaryWeight t = 100)%Z
         ∧ (as_StableRef spec = "" → tr_CanaryWeight t = 0%Z
            ∧ tr_StableDestination t = aw_Name (ap_Workload plan)))
      ∧ (let w := ap_Workload plan in
         (Z.max 1 (as_MinReplicas spec) <= aw_Replicas w <= as_MaxReplicas spec)%Z
         ∧ ∃ agent proxy, aw_Containers w = [agent; proxy] ∧ pc_Image agent = as_Image spec
           ∧ pc_Env agent !! "OPENAI_BASE_URL"
             = Some ("http://localhost:" ++ pretty (pc_Port proxy) ++ "/v1"))
  end.
Proof.
  unfold ReconcileAgent, admissible.
  case_decide as H1; [tauto|]. case_decide as H2; [tauto|]. case_decide as H3; [lia|].
  set (spec' := if decide (as_MinReplicas spec < 1)%Z then spec <|as_MinReplicas := 1%Z|> else spec).
  assert (Hmin : as_MinReplicas spec' = Z.max 1 (as_MinReplicas spec)
    ∧ as_MaxReplicas spec' = as_MaxReplicas spec ∧ as_CanaryWeight spec' = as_CanaryWeight spec
    ∧ as_StableRef spec' = as_StableRef spec ∧ as_Image spec' = as_Image spec).
  { subst spec'. case_decide; simpl; split_and!; try done; lia. }
  destruct Hmin as (Hmin&Hmax&Hw&Hs&Hi). rewrite Hmin, Hmax.
  case_decide as H4; [lia|]. split; [split_and!; try tauto; lia|]. split.
  - simpl. rewrite Hs. case_decide; simpl; [split; [lia|done]|]. rewrite Hw. split; [lia|tauto].
  - simpl. rewrite Hmin. split; [lia|]. eexists _, _. split_and!; [done|done|].
    vm_compute. reflexivity.
Qed.

Section agents.
Context `{Host} `{KubeAPI} `{OperatorEnv} `{Net}.

(** The same agent with another traffic policy. *)
Definition with_traffic (spec : NexusAgentSpec) (policy : TrafficPolicy) : NexusAgentSpec :=
  mkNexusAgentSpec (nas_Version spec) (nas_Image spec) (nas_GraphModule spec) (nas_Replicas spec)
    (nas_LLM spec) (nas_Tools spec) (nas_LangfuseProject spec) policy.

(** The traffic route of the plan reaches nothing: a reconcile does the same
    to the cluster, and answers the same, whatever valid canary weight and stable
    version the agent has. *)
Theorem traffic_ignored namespace name o spec policy policy' :
  (0 <= tp_CanaryWeight policy <= 100)%Z → (0 <= tp_CanaryWeight policy' <= 100)%Z →
  agent_workload namespace name o (with_traffic spec policy)
  = agent_workload namespace name o (with_traffic spec policy').
Proof.
  intros Hp Hp'. unfold agent_workload, ReconcileAgent. simpl.
  rewrite !(decide_False (P := (_ < 0 ∨ _)%Z)) by (simpl; lia).
  case_decide; [done|]. case_decide; [done|].
  repeat case_decide; done.
Qed.
End agents.

(** ** What [CreateOrUpdate] leaves *)

Section create_or_update.
Context `{Host} `{KubeAPI}.

(** The object at a key is not being deleted. *)
Definition stays (n : key) (objects : gmap key kobject) : Prop :=
  ∀ o, objects !! n = Some o → ko_Deleted o = false.

(** An object at a key with a spec that satisfies [Q]. *)
Definition spec_at (n : key) (Q : kspec → Prop) (objects : gmap key kobject) : Prop :=
  ∃ o, objects !! n = Some o ∧ Q (ko_Spec o).

Definition blank : kobject := mkObject ∅ [] None (CustomSpec ANull) NoStatus 0 0 false.

(** A property of one key's object is kept by the calls on other keys. *)
Definition local_to (n : key) (P : gmap key kobject → Prop) : Prop :=
  ∀ m m', m !! n = m' !! n → P m → P m'.

Lemma stays_local n : local_to n (stays n).
Proof. intros m m' E Hm o Ho. apply (Hm o). congruence. Qed.
Lemma spec_at_local n Q : local_to n (spec_at n Q).
Proof. intros m m' E (o&Ho&?). exists o. split; [congruence|done]. Qed.

Lemma spec_at_mono n (Q Q' : kspec → Prop) m :
  (∀ k, Q k → Q' k) → spec_at n Q m → spec_at n Q' m.
Proof. intros HQ (o&?&?). exists o. auto. Qed.

Section other_keys.
Variables (n n' : key) (P : gmap key kobject → Prop).
Hypothesis (HP : local_to n P) (Hne : n' ≠ n).

Lemma keeps_other_write o objects : P objects → P (<[n' := o]> objects).
Proof using HP Hne. apply HP. by rewrite lookup_insert_ne. Qed.

Lemma other_kcreate o : keeps P (kcreate n' o).
Proof using HP Hne.
  apply keeps_api. intros s a s' Hs. destruct (_ !! n'); [done|]. intros [= <- <-].
  by apply (keeps_other_write _ (kb_objects s)).
Qed.
Lemma other_kupdate o : keeps P (kupdate n' o).
Proof using HP Hne.
  apply keeps_api. intros s a s' Hs. destruct (_ !! n'); [|done]. case_decide; [done|].
  case_decide; intros [= <- <-]; [|by apply (keeps_other_write _ (kb_objects s))].
  simpl. eapply HP, Hs. by rewrite lookup_delete_ne.
Qed.
Lemma other_kupdate_status o : keeps P (kupdate_status n' o).
Proof using HP Hne.
  apply keeps_api. intros s a s' Hs. destruct (_ !! n'); [|done]. case_decide; [done|].
  intros [= <- <-]. by apply (keeps_other_write _ (kb_objects s)).
Qed.
Lemma other_kdelete : keeps P (kdelete n').
Proof using HP Hne.
  apply keeps_api. intros s a s' Hs. destruct (_ !! n'); [|done].
  case_decide; intros [= <- <-]; [|by apply (keeps_other_write _ (kb_objects s))].
  simpl. eapply HP, Hs. by rewrite lookup_delete_ne.
Qed.
Lemma other_CreateOrUpdate mutate :
  (∀ o, keeps P (mutate o)) → keeps P (CreateOrUpdate n' mutate).
Proof using HP Hne.
  intros Hm. pose proof other_kcreate. pose proof other_kupdate. unfold CreateOrUpdate. frame.
Qed.

(** The same, of a step that succeeded. *)
Lemma after_other mutate s r s' :
  (∀ o, keeps P (mutate o)) → CreateOrUpdate n' mutate s = (r, s') →
  P (kb_objects s) → P (kb_objects s').
Proof using HP Hne.
  intros Hm E Hs. pose proof (other_CreateOrUpdate mutate Hm s Hs) as X. by rewrite E in X.
Qed.
End other_keys.

(** A successful call carried its change out. *)
Lemma api_call_ok {A} (change : kube → result (A * kube)) s a s' :
  api_call change s = (Ok a, s') → change (called_once s) = Ok (a, s').
Proof.
  unfold api_call. fold (called_once s). cbv zeta.
  destruct (api_error _) as [[msg []]|]; destruct (change _) as [[b s'']|e]; naive_solver.
Qed.

(** After a success the server has the object [mutate] made of the one it had. *)
Lemma CreateOrUpdate_ok n mutate s o s' :
  (∀ o P, keeps P (mutate o)) → stays n (kb_objects s) →
  CreateOrUpdate n mutate s = (Ok o, s') →
  ∃ s1 o1, (mutate (default blank (kb_objects s !! n)) s1).1 = Ok o1
    ∧ spec_at n (λ spec, spec = ko_Spec o1) (kb_objects s').
Proof.
  intros Hm Hstays. unfold CreateOrUpdate, mbind, K_bind.
  destruct (kget n s) as [r s1] eqn:Hget.
  assert (Hobjects : kb_objects s1 = kb_objects s).
  { pose proof (keeps_kget (λ m, m = kb_objects s) n s eq_refl) as E. by rewrite Hget in E. }
  destruct r as [existing|e].
  - apply api_call_ok in Hget. change (kb_objects (called_once s)) with (kb_objects s) in Hget.
    destruct (kb_objects s !! n) as [o0|] eqn:Ho; [|done]. injection Hget as -> <-.
    pose proof (Hm existing (λ m, m = kb_objects s) (called_once s) Hobjects) as Hsame.
    destruct (mutate existing _) as [[o1|] s2] eqn:Hmut; [|done]. simpl in Hsame.
    destruct (deep_equal existing o1) eqn:Heq; intros Hok.
    + apply deep_equal_eq in Heq as <-. injection Hok as <- <-.
      exists (called_once s), existing. simpl. rewrite Hmut. split; [done|].
      exists existing. by rewrite Hsame.
    + apply api_call_ok in Hok. change (kb_objects (called_once s2)) with (kb_objects s2) in Hok.
      rewrite Hsame, Ho in Hok. case_decide; [done|].
      rewrite decide_False in Hok by (intros [Hd _]; by rewrite (Hstays existing Ho) in Hd).
      injection Hok as <- <-. exists (called_once s), o1. simpl. rewrite Hmut. split; [done|].
      eexists. simpl. by rewrite lookup_insert_eq.
  - case_decide as Hnf; [|done]. unfold IsNotFound in Hnf. subst e.
    assert (Ho : kb_objects s !! n = None).
    { revert Hget. unfold kget, api_call. cbv zeta. fold (called_once s).
      destruct (api_error _) as [[msg []]|]; destruct (kb_objects (called_once s) !! n) eqn:E;
        try done. }
    rewrite Ho. simpl.
    pose proof (Hm blank (λ m, m = kb_objects s) s1 Hobjects) as Hsame. fold blank.
    destruct (mutate blank s1) as [[o1|] s2] eqn:Hmut; [|done]. simpl in Hsame. intros Hok.
    apply api_call_ok in Hok. change (kb_objects (called_once s2)) with (kb_objects s2) in Hok.
    rewrite Hsame, Ho in Hok. injection Hok as <- <-.
    exists s1, o1. rewrite Hmut. split; [done|]. eexists. simpl. by rewrite lookup_insert_eq.
Qed.
End create_or_update.

(** ** Workspaces *)

Definition total (f : resources → Z) (cs : list container) : Z :=
  foldr (λ c n, (from_option f 0 (ctn_Resources c) + n)%Z) 0%Z cs.
Definition gpus (res : resources) : Z := from_option snd 0%Z (res_gpu res).

(** A deployment within what the workspace is granted: stopped when it is
    suspended or runs nothing, one pod otherwise, whose containers mount the
    workspace's volume. *)
Definition within_grant (name : string) (spec : NexusWorkspaceSpec) (d : deployment) : Prop :=
  let c := nws_Compute spec in
  dep_Replicas d = (if nws_Disabled spec || bool_decide (dep_Containers d = []) then 0 else 1)%Z
  ∧ (0 <= total res_milliCPU (dep_Containers d) <= wc_VCPUs c * 1000)%Z
  ∧ (0 <= total res_memory (dep_Containers d) <= wc_MemoryGB c * gigabyte)%Z
  ∧ (total gpus (dep_Containers d) <= Z.max 0 (wc_GPUs c))%Z
  ∧ dep_Volumes d = [("workspace", name)].

Lemma share_bounds granted n : (0 <= granted)%Z → (0 < n)%Z →
  (0 <= Z.quot granted n)%Z ∧ (n * Z.quot granted n <= granted)%Z.
Proof.
  intros Hg Hn. rewrite Z.quot_div_nonneg by lia.
  split; [by apply Z.div_pos|by apply Z.mul_div_le].
Qed.

Lemma services_cases spec :
  workspace_services spec ∈ [[]; ["workbench"]; ["ide"]; ["workbench"; "ide"]].
Proof.
  unfold workspace_services. rewrite !filter_cons, filter_nil.
  repeat case_decide; set_solver.
Qed.

Lemma container_resources r spec secret n service :
  ctn_Resources (workspace_container r spec secret n service)
  = Some (mkResources (cpu_share spec n) (memory_share spec n) (gpu_of spec service)).
Proof. unfold workspace_container. by case_decide. Qed.

(** A total over the containers of a workspace, by the services it runs. *)
Lemma total_containers (f : resources → Z) r spec secret :
  total f (containers r spec secret)
  = foldr (λ service n, f (mkResources (cpu_share spec (length (workspace_services spec)))
             (memory_share spec (length (workspace_services spec))) (gpu_of spec service)) + n)%Z 0%Z
      (workspace_services spec).
Proof.
  unfold containers. generalize (length (workspace_services spec)) as n. intros n.
  unfold total. induction (workspace_services spec) as [|service l IH]; [done|].
  rewrite fmap_cons. cbn [foldr]. by rewrite container_resources, IH.
Qed.

Lemma containers_within r spec name d :
  ¬ invalid_workspace spec →
  dep_Replicas d = (if decide (nws_Disabled spec = true
                      ∨ length (containers r spec (name ++ "-auth")) = 0%nat) then 0 else 1)%Z →
  dep_Containers d = containers r spec (name ++ "-auth") → dep_Volumes d = [("workspace", name)] →
  within_grant name spec d.
Proof.
  intros Hvalid Hrep Hc Hvol. unfold invalid_workspace in Hvalid. unfold within_grant.
  rewrite Hc. cbv zeta. split; [|split; [|split; [|split; [|exact Hvol]]]].
  { rewrite Hrep. destruct (containers r spec (name ++ "-auth")) as [|c cs]; cbn [length].
    - rewrite decide_True by (by right). by rewrite orb_true_r.
    - rewrite bool_decide_eq_false_2, orb_false_r by done.
      destruct (nws_Disabled spec); [by rewrite decide_True by (by left)|].
      rewrite decide_False; [done|]. by intros [?|?]. }
  all: clear Hrep Hc; rewrite total_containers; pose proof (services_cases spec) as Hcases;
    rewrite !elem_of_cons, elem_of_nil in Hcases.
  - destruct (share_bounds (wc_VCPUs (nws_Compute spec) * 1000) 1) as [??]; [lia..|].
    destruct (share_bounds (wc_VCPUs (nws_Compute spec) * 1000) 2) as [??]; [lia..|].
    unfold cpu_share. destruct Hcases as [->|[->|[->|[->|[]]]]]; simpl; lia.
  - unfold memory_share, gigabyte.
    destruct (share_bounds (wc_MemoryGB (nws_Compute spec) * 1024 * 1024 * 1024) 1) as [??]; [lia..|].
    destruct (share_bounds (wc_MemoryGB (nws_Compute spec) * 1024 * 1024 * 1024) 2) as [??]; [lia..|].
    destruct Hcases as [->|[->|[->|[->|[]]]]]; simpl; lia.
  - unfold gpus, gpu_of. destruct Hcases as [->|[->|[->|[->|[]]]]]; simpl;
      repeat case_decide; simpl; lia.
Qed.

Section workspaces.
Context `{Host} `{KubeAPI} `{OperatorEnv}.
Variable reconciler : WorkspaceReconciler.

Definition requested_storage (spec : NexusWorkspaceSpec) : Z := (nws_StorageGB spec * gigabyte)%Z.

(** What the claim and the secret at a key held before. *)
Definition claimed (objects : gmap key kobject) (n : key) : Z :=
  default 0%Z (objects !! n ≫= λ o, pvc_Storage (claim_of o)).
Definition token_at (objects : gmap key kobject) (n : key) : string :=
  default "" (objects !! n ≫= λ o, match ko_Spec o with SecretSpec t => t | _ => None end).

Definition claim_within (before requested : Z) (spec : kspec) : Prop :=
  ∃ c bytes, spec = ClaimSpec c ∧ pvc_Storage c = Some bytes
    ∧ (requested <= bytes)%Z ∧ (before <= bytes)%Z ∧ (bytes = before ∨ bytes = requested).
Definition secret_kept (before : string) (spec : kspec) : Prop :=
  ∃ token, spec = SecretSpec (Some token) ∧ (before ≠ "" → token = before).
Definition deployment_within (name : string) (spec : NexusWorkspaceSpec) (k : kspec) : Prop :=
  ∃ d, k = DeploymentSpec d ∧ within_grant name spec d.

(** A step of a reconcile that ends without an error went well. *)
Lemma step_ok {A} (m : K (result A)) (f : A → K outcome) s out s' :
  (x ← m; match x with Err e => mret (failed e) | Ok a => f a end) s = (out, s') →
  oc_Error out = None → ∃ a s1, m s = (Ok a, s1) ∧ f a s1 = (out, s').
Proof.
  unfold mbind, K_bind. destruct (m s) as [[a|e] s1]; [by eauto|].
  intros [= <- <-]. done.
Qed.

Lemma SetController_spec owner o o' :
  SetControllerReference owner o = Ok o' → ko_Spec o' = ko_Spec o.
Proof. unfold SetControllerReference. case_decide; [by intros [= <-]|done]. Qed.

Lemma keeps_mutations name spec P o :
  keeps P (workspace_claim reconciler name spec o) ∧ keeps P (workspace_secret name o)
  ∧ keeps P (workspace_deployment reconciler name spec o)
  ∧ keeps P (workspace_service name spec o).
Proof.
  unfold workspace_claim, workspace_secret, workspace_deployment, workspace_service.
  split_and!; frame.
Qed.

Lemma claim_ok name spec before o s1 o1 :
  before = default 0%Z (pvc_Storage (claim_of o)) → (0 < requested_storage spec)%Z →
  (workspace_claim reconciler name spec o s1).1 = Ok o1 →
  claim_within before (requested_storage spec) (ko_Spec o1).
Proof.
  intros -> Hpos Hok. unfold workspace_claim, mret, K_ret in Hok. simpl in Hok.
  apply SetController_spec in Hok. rewrite Hok. clear Hok. simpl.
  assert ((nws_StorageGB spec * 1024 * 1024 * 1024)%Z = requested_storage spec) as ->.
  { unfold requested_storage, gigabyte. lia. }
  case_decide.
  - eexists _, _. split; [done|]. simpl. split_and!; [done|lia|lia|by right].
  - destruct (pvc_Storage (claim_of o)) as [b|]; simpl in *; [|lia].
    eexists _, _. split; [done|]. simpl. split_and!; [done|lia|lia|by left].
Qed.

Lemma secret_ok name before o s1 o1 :
  before = default "" (match ko_Spec o with SecretSpec t => t | _ => None end) →
  (workspace_secret name o s1).1 = Ok o1 → secret_kept before (ko_Spec o1).
Proof.
  intros -> Hok. unfold workspace_secret in Hok.
  assert (Hcur : (match ko_Spec o with SecretSpec (Some t) => t | _ => "" end)
    = default "" (match ko_Spec o with SecretSpec t => t | _ => None end)).
  { destruct (ko_Spec o) as [| | | |[]]; done. }
  rewrite Hcur in Hok. unfold mbind, K_bind in Hok.
  set (before := default "" _) in *.
  destruct (decide (before = "")) as [E|E].
  - destruct (host _ s1) as [[v|] s2]; simpl in Hok; [|done].
    apply SetController_spec in Hok. rewrite Hok. eexists. split; [done|]. done.
  - simpl in Hok. apply SetController_spec in Hok. rewrite Hok. eexists. by split.
Qed.

Lemma deployment_ok name spec o s1 o1 :
  ¬ invalid_workspace spec → (workspace_deployment reconciler name spec o s1).1 = Ok o1 →
  deployment_within name spec (ko_Spec o1).
Proof.
  intros Hv Hok. unfold workspace_deployment, mret, K_ret in Hok. simpl in Hok.
  apply SetController_spec in Hok. rewrite Hok. eexists. split; [done|].
  by apply (containers_within reconciler).
Qed.

Lemma reconcile_service_local namespace name spec n P :
  local_to n P → n.1.1 ≠ "services" → keeps P (reconcile_service reconciler namespace name spec).
Proof using H H0 reconciler.
  intros HP Hn. unfold reconcile_service.
  assert (Hne : ("services", namespace, name) ≠ n) by (intros <-; by apply Hn).
  pose proof (other_kdelete n _ P HP Hne).
  pose proof (other_CreateOrUpdate n _ P HP Hne (workspace_service name spec)
    (λ o, proj2 (proj2 (proj2 (keeps_mutations name spec P o))))).
  frame.
Qed.

(** Reading the workspace changes no object. *)
Lemma kget_as_objects {S} (decode : any → option S) n s :
  kb_objects (kget_as decode n s).2 = kb_objects s.
Proof.
  assert (Hk : keeps (λ m, m = kb_objects s) (kget_as decode n)) by (unfold kget_as; frame).
  by apply (Hk s).
Qed.

Lemma kget_as_read {S} (decode : any → option S) n s r s1 o v spec :
  kget_as decode n s = (r, s1) → kb_objects s !! n = Some o → ko_Spec o = CustomSpec v →
  decode v = Some spec → r = Ok (o, spec) ∨ ∃ msg, r = Err (ErrIO msg).
Proof.
  unfold kget_as, kget, api_call, mbind, K_bind. cbv zeta. simpl. intros Hr Ho Hv Hd.
  rewrite Ho in Hr.
  destruct (api_error _) as [[msg []]|]; simpl in Hr; injection Hr as <- <-; [right; by exists msg..|].
  rewrite Hv, Hd. by left.
Qed.

(** The rest of a reconcile, from the service on, keeps the other objects. *)
Lemma workspace_end namespace name spec (o d : kobject) n P s out s' :
  local_to n P → n.1.1 ≠ "services" → n.1.1 ≠ "nexusworkspaces" →
  (err ← reconcile_service reconciler namespace name spec;
   match err with
   | Some e => mret (failed e)
   | None =>
       err ← status_update ("nexusworkspaces", namespace, name) o
               (WorkspaceStatus (workspace_ready namespace name o d spec));
       mret (match err with
             | Some e => if decide (IsConflict e) then done_ else failed e
             | None => done_
             end)
   end) s = (out, s') → P (kb_objects s) → P (kb_objects s').
Proof using H H0 reconciler.
  intros HP Hn1 Hn2 Hrun Hs.
  pose proof (reconcile_service_local namespace name spec n P HP Hn1) as Hservice.
  assert (Hne : ("nexusworkspaces", namespace, name) ≠ n) by (intros <-; by apply Hn2).
  pose proof (other_kupdate_status n _ P HP Hne) as Hstatus.
  match type of Hrun with ?m s = _ => assert (Hk : keeps P m) by (unfold status_update; frame) end.
  specialize (Hk s Hs). by rewrite Hrun in Hk.
Qed.

(** The steps of a reconcile that ends without an error. *)
Lemma workspace_steps namespace name s o v spec out s' :
  kb_objects s !! ("nexusworkspaces", namespace, name) = Some o → ko_Spec o = CustomSpec v →
  decode_workspace v = Some spec →
  workspace_Reconcile reconciler namespace name s = (out, s') → oc_Error out = None →
  ¬ invalid_workspace spec ∧ ∃ a1 a2 d s0 s1 s2 s3, kb_objects s0 = kb_objects s
    ∧ CreateOrUpdate ("persistentvolumeclaims", namespace, name) (workspace_claim reconciler name spec) s0
      = (Ok a1, s1)
    ∧ CreateOrUpdate ("secrets", namespace, name ++ "-auth") (workspace_secret name) s1 = (Ok a2, s2)
    ∧ CreateOrUpdate ("deployments", namespace, name) (workspace_deployment reconciler name spec) s2
      = (Ok d, s3)
    ∧ ∀ n P, local_to n P → n.1.1 ≠ "services" → n.1.1 ≠ "nexusworkspaces" →
        P (kb_objects s3) → P (kb_objects s').
Proof using H H0 H1 reconciler.
  intros Ho Hv Hd Hrun Hout. unfold workspace_Reconcile in Hrun. unfold mbind at 1, K_bind at 1 in Hrun.
  destruct (kget_as decode_workspace _ s) as [r s0] eqn:Hread.
  pose proof (kget_as_objects decode_workspace ("nexusworkspaces", namespace, name) s) as E0.
  rewrite Hread in E0. simpl in E0.
  destruct (kget_as_read _ _ _ _ _ _ _ _ Hread Ho Hv Hd) as [->|[msg ->]].
  2: { rewrite decide_False in Hrun by done. by injection Hrun as <- <-. }
  case_decide as Hvalid.
  { unfold workspace_fail, mbind, K_bind in Hrun. destruct (status_ignored _ _ _ _).
    by injection Hrun as <- <-. }
  apply step_ok in Hrun as (a1&s1&C1&Hrun); [|done].
  apply step_ok in Hrun as (a2&s2&C2&Hrun); [|done].
  apply step_ok in Hrun as (d&s3&C3&Hrun); [|done].
  split; [done|]. exists a1, a2, d, s0, s1, s2, s3. split_and!; [done..|].
  intros n P HP Hn1 Hn2. by apply (workspace_end namespace name spec o d n P s3 out s').
Qed.

(** C32: a reconcile of a workspace that ends without an error leaves what the
    grant allows and no more: the containers of its deployment ask together for
    at most the granted CPU, memory and GPUs, none of it runs while the
    workspace is suspended, its volume holds at least the granted storage and
    never shrinks, and its secret keeps the token it had. *)
Theorem workspace_reconciled namespace name s o v spec out s' :
  let volume := ("persistentvolumeclaims", namespace, name) in
  let secret := ("secrets", namespace, name ++ "-auth") in
  let pods := ("deployments", namespace, name) in
  kb_objects s !! ("nexusworkspaces", namespace, name) = Some o → ko_Spec o = CustomSpec v →
  decode_workspace v = Some spec →
  stays volume (kb_objects s) → stays secret (kb_objects s) → stays pods (kb_objects s) →
  workspace_Reconcile reconciler namespace name s = (out, s') → oc_Error out = None →
  spec_at volume (claim_within (claimed (kb_objects s) volume) (requested_storage spec)) (kb_objects s')
  ∧ spec_at secret (secret_kept (token_at (kb_objects s) secret)) (kb_objects s')
  ∧ spec_at pods (deployment_within name spec) (kb_objects s').
Proof using All.
  intros volume secret pods Ho Hv Hd Sv Ss Sp Hrun Hout.
  destruct (workspace_steps _ _ _ _ _ _ _ _ Ho Hv Hd Hrun Hout)
    as (Hvalid&a1&a2&d&s0&s1&s2&s3&E0&C1&C2&C3&Hend).
  fold volume in C1. fold secret in C2. fold pods in C3. rewrite <-E0 in *.
  assert (Mv : ∀ o P, keeps P (workspace_claim reconciler name spec o))
    by (intros o' P; apply (keeps_mutations name spec P o')).
  assert (Ms : ∀ o P, keeps P (workspace_secret name o))
    by (intros o' P; apply (keeps_mutations name spec P o')).
  assert (Md : ∀ o P, keeps P (workspace_deployment reconciler name spec o))
    by (intros o' P; apply (keeps_mutations name spec P o')).
  pose proof (λ n P HP Hne, after_other n volume P HP Hne _ s0 _ s1 (λ o, Mv o P) C1) as F1.
  pose proof (λ n P HP Hne, after_other n secret P HP Hne _ s1 _ s2 (λ o, Ms o P) C2) as F2.
  pose proof (λ n P HP Hne, after_other n pods P HP Hne _ s2 _ s3 (λ o, Md o P) C3) as F3.
  assert (Ls : kb_objects s1 !! secret = kb_objects s0 !! secret).
  { by apply (F1 secret (λ m, m !! secret = kb_objects s0 !! secret)); [intros m m' -> |..]. }
  split_and!.
  - destruct (CreateOrUpdate_ok _ _ _ _ _ Mv Sv C1) as (w&o1&Hok&Hat).
    apply (Hend volume); [apply spec_at_local|done..|].
    apply (F3 volume); [apply spec_at_local|done|]. apply (F2 volume); [apply spec_at_local|done|].
    eapply spec_at_mono, Hat. intros k ->. eapply claim_ok, Hok.
    + unfold claimed. by destruct (kb_objects s0 !! volume).
    + unfold requested_storage, gigabyte, invalid_workspace in *. lia.
  - assert (Ss1 : stays secret (kb_objects s1)) by (by apply (F1 secret); [apply stays_local|..]).
    destruct (CreateOrUpdate_ok _ _ _ _ _ Ms Ss1 C2) as (w&o1&Hok&Hat).
    apply (Hend secret); [apply spec_at_local|done..|].
    apply (F3 secret); [apply spec_at_local|done|].
    eapply spec_at_mono, Hat. intros k ->. eapply secret_ok, Hok.
    rewrite Ls. unfold token_at. by destruct (kb_objects s0 !! secret).
  - assert (Sp2 : stays pods (kb_objects s2)).
    { apply (F2 pods); [apply stays_local|done|]. by apply (F1 pods); [apply stays_local|..]. }
    destruct (CreateOrUpdate_ok _ _ _ _ _ Md Sp2 C3) as (w&o1&Hok&Hat).
    apply (Hend pods); [apply spec_at_local|done..|].
    eapply spec_at_mono, Hat. intros k ->. by eapply deployment_ok, Hok.
Qed.
End workspaces.

(** ** The order of the environment *)

Section churn.
Context `{Host} `{KubeAPI} `{OperatorEnv}.
Hypothesis answers : ∀ k, api_error k = None.

Definition variables (order : list (string * string)) : list (string * env_source) :=
  (λ '(name, value), (name, Value value)) <$> order.

Lemma variables_inj l l' : variables l = variables l' → l = l'.
Proof. apply (list_fmap_eq_inj _). intros [] []. naive_solver. Qed.

(** The variables of an agent's containers are written in the order in which
    a loop visits a map: a reconcile that visits them in another order than the
    one that made the deployment replaces the containers of an unchanged agent,
    so its pods are rolled out again. *)
Theorem env_order_churn n name spec plan s o d c rest k :
  let env := default ∅ (pc_Env <$> aw_Containers (ap_Workload plan) !! 0%nat) in
  kb_objects s !! n = Some o → ko_Deleted o = false → ko_Owner o = Some ("nexusagents", name) →
  ko_Spec o = DeploymentSpec d → dep_Containers d = c :: rest →
  ctn_Env c = variables (map_order k env) →
  map_order (S (w_tick (kb_world s))) env ≠ map_order k env →
  let s' := (CreateOrUpdate n (agent_deployment name spec plan) s).2 in
  ∃ o' d', kb_objects s' !! n = Some o' ∧ ko_Spec o' = DeploymentSpec d'
    ∧ ko_ResourceVersion o' = kb_version s ∧ dep_Containers d' ≠ dep_Containers d
    ∧ (∃ c', head (dep_Containers d') = Some c' ∧ ctn_Env c' ≡ₚ ctn_Env c).
Proof using answers.
  intros env Ho Hdel Hown Hd Hc Henv Horder s'.
  set (w := S (w_tick (kb_world s))) in *.
  assert (Hget : kget n s = (Ok o, called_once s)).
  { unfold kget. rewrite answered by done. change (kb_objects (called_once s)) with (kb_objects s).
    by rewrite Ho. }
  set (r := agent_deployment name spec plan o (called_once s)).
  assert (Hmut : ∃ o1 d1 c1, r.1 = Ok o1 ∧ ko_Spec o1 = DeploymentSpec d1
    ∧ head (dep_Containers d1) = Some c1 ∧ ctn_Env c1 = variables (map_order w env)
    ∧ ko_Deleted o1 = false ∧ ko_ResourceVersion o1 = ko_ResourceVersion o
    ∧ kb_objects r.2 = kb_objects s ∧ kb_version r.2 = kb_version s).
  { unfold r, agent_deployment, envVars, host, ask, mbind, K_bind, mret, K_ret. simpl.
    unfold SetControllerReference. simpl. rewrite Hown, Hdel. simpl.
    rewrite decide_True by (by right). do 3 eexists. by split_and!. }
  destruct Hmut as (o1&d1&c1&Hok&Hspec&Hhead&Henv1&Hdel1&Hrv&Hobj&Hver).
  assert (Hneq : dep_Containers d1 ≠ dep_Containers d).
  { intros E. rewrite E, Hc in Hhead. injection Hhead as <-. apply Horder.
    apply variables_inj. by rewrite <-Henv1, <-Henv. }
  unfold s', CreateOrUpdate, mbind, K_bind. rewrite Hget. fold r.
  destruct r as [r1 s1]. simpl in *. subst r1.
  destruct (deep_equal o o1) eqn:Heq.
  { apply deep_equal_eq in Heq as <-. rewrite Hd in Hspec. by injection Hspec as <-. }
  unfold kupdate. rewrite answered by done.
  change (kb_objects (called_once s1)) with (kb_objects s1). rewrite Hobj, Ho.
  rewrite decide_False by (intros Hn; by apply Hn).
  rewrite decide_False by (intros [? _]; congruence). simpl.
  eexists _, d1. rewrite lookup_insert_eq. split_and!; [done|done|by rewrite <-Hver|done|].
  exists c1. split; [done|]. rewrite Henv1, Henv. unfold variables.
  by rewrite !map_order_perm.
Qed.
End churn.
