(* ===== verification/KubeWitness.v ===== *)
(** * The cluster theorems at concrete inputs

    A cluster whose server answers every call, JSON documents that decode to one
    value each, and the theorems on the dispatcher and the operator applied to
    what they leave in it. *)

From S2P Require Import Prelude GoStrings Types World Tokens Integrations Kube Dispatcher Operator Workspace KubeProps OperatorProps.

Open Scope string_scope.

Definition digest_host : Host := {|
  clock := λ k, Z.of_nat k;
  os_mkdir_error := λ _, None;
  os_rename_error := λ _, None;
  os_write_error := λ _, None;
  os_read_error := λ _, None;
  json_marshal := λ _, None;
  json_unmarshal := λ _, (zero, None);
  rand_read := λ _ n, Some (String.concat "" (replicate n "r"));
  sha256_sum := λ _, "0123456789abcdef0123456789abcdef"
|}.
#[local] Existing Instance digest_host.

Definition quiet_api : KubeAPI.
Proof. refine {| api_error := λ _, None; next_generation := λ _ _, 1%Z; deep_equal := λ _ _, false |}. done. Defined.
#[local] Existing Instance quiet_api.

Lemma quiet_answers k : api_error k = None.
Proof. reflexivity. Qed.

#[local] Instance quiet_net : Net := {|
  http_do := λ _ _, Ok (mkHttpResponse 200 "{}" "");
  json_value := λ _, Some "{}";
  json_id := λ raw, Ok raw;
  json_any := λ _, Some (AObj [("id", AStr "kfp-1")]);
  json_functions := λ _, Ok [];
  basic_auth := λ _ _, ""
|}.

(** The documents of the broker, each of its version. *)
Definition promotion_fields (version : string) : fields :=
  <["name" := AStr "churn"]> (<["version" := AStr version]> {["stage" := AStr "production"]}).

#[local] Instance quiet_json : CommandJson := {|
  decode_command := λ raw, Ok (mkLifecycleCommand "mdl-1" "model" "model.promoted" raw "team");
  decode_resource := λ raw, Ok (promotion_fields raw);
  decode_records := λ _, Ok [];
  decode_base_uri := λ raw, Ok raw;
  int64_overflow := λ _, 0%Z
|}.

Definition text (kvs : list (string * any)) (k : string) : string :=
  as_string (field (list_to_map kvs) k).

Definition quiet_operator : OperatorEnv.
Proof.
  refine {|
    decode_agent := λ _, None;
    decode_workspace := λ _,
      Some (mkNexusWorkspaceSpec "alice" ["workbench"; "ide"] (mkWorkspaceComputeSpec 4 8 1 "" 2) 10 false);
    decode_run := λ _, None;
    decode_promotion := λ v, match v with
      | AObj kvs => Some (mkNexusModelPromotionSpec (text kvs "modelName") (text kvs "version")
                            (text kvs "targetStage") [])
      | _ => None end;
    map_order := λ k m, if Nat.ltb k 3 then map_to_list m else reverse (map_to_list m);
    upper_latin1 := λ a, String a ""
  |}.
  intros k m. case_match; [done|]. apply reverse_Permutation.
Defined.
#[local] Existing Instance quiet_operator.

Definition empty_cluster : kube := mkKube (booting "" ∅) ∅ 1.

Definition mlflow : Client := mkClient "http://mlflow" "".

Definition promote (version : string) : action :=
  DispatchRecord "team" (mkKafkaRecord "mlaiops.model.commands" "" version).

(** The first promotion of the model, dispatched and reconciled. *)
Definition promoted_once : kube :=
  (act_all [promote "1"; ReconcilePromotion mlflow "team" "churn"] empty_cluster).2.

Lemma name_valid_witness : dns_label (dnsName "Fraud Model (EU)" "mdl-1").
Proof. apply name_valid. reflexivity. Defined.


Definition tool_command : LifecycleCommand := mkLifecycleCommand "tol-1" "tool" "tool.registered" "" "team".
Definition tool_fields : fields := {["name" := AStr "Lookup"]}.

Lemma dispatched_witness :
  ∃ o, kb_objects (dispatch_command "team" tool_command tool_fields empty_cluster).2
       = <[("nexustools", "team", "lookup") := o]> ∅
       ∧ ko_Labels o = labels_of tool_command.
Proof.
  pose proof (dispatched quiet_answers "team" tool_command tool_fields empty_cluster) as [_ D].
  destruct (D eq_refl) as (o&E&_&L&_). exists o. split; [exact E|exact L].
Defined.

Lemma workspace_shared_witness :
  workspace_name "a.b" = workspace_name "a-b"
  ∧ kb_objects (dispatch_command "team" (access_command "access.deleted" "a.b" "t") ∅
      (dispatch_command "team" (access_command "access.upserted" "a-b" "t") ∅
        (dispatch_command "team" (access_command "access.upserted" "a.b" "t") ∅ empty_cluster).2).2).2
    = ∅.
Proof.
  assert (Hname : workspace_name "a.b" = workspace_name "a-b") by (vm_compute; reflexivity).
  split; [exact Hname|].
  pose proof (workspace_shared quiet_answers "team" "t" "a.b" "a-b" ∅ ∅ empty_cluster Hname eq_refl)
    as (_&_&E).
  exact E.
Defined.

Definition one_agent : AgentSpec :=
  mkAgentSpec "support" "team" "2.1" "img" "graph" 0 3 "openai" "" 15 "support-2-0".

Lemma agent_plan_witness : ∃ plan, ReconcileAgent one_agent = Ok plan
  ∧ (tr_StableWeight (ap_Traffic plan) + tr_CanaryWeight (ap_Traffic plan) = 100)%Z.
Proof.
  pose proof (agent_plan one_agent) as P. exists (plan_of (one_agent <|as_MinReplicas := 1%Z|>)).
  split; [reflexivity|]. exact (proj2 (proj2 (proj1 (proj1 (proj2 P))))).
Defined.

Definition agent_of (weight : Z) : NexusAgentSpec :=
  mkNexusAgentSpec "2.1" "img" "graph" (mkReplicaSpec 1 3) (mkLLMSpec "openai" "") [] ""
    (mkTrafficPolicy weight "support-2-0").

Lemma traffic_ignored_witness :
  agent_workload "team" "support" blank (with_traffic (agent_of 0) (mkTrafficPolicy 5 "a"))
  = agent_workload "team" "support" blank (with_traffic (agent_of 0) (mkTrafficPolicy 95 "b")).
Proof. apply traffic_ignored; simpl; lia. Defined.

Definition with_workspace : kube :=
  empty_cluster <|kb_objects := {[("nexusworkspaces", "team", "w") := blank]}|>.

Definition reconciler : WorkspaceReconciler := mkWorkspaceReconciler "jupyter" "ide" "" "" "" "" "" "" "" "".

Lemma workspace_reconciled_witness :
  spec_at ("deployments", "team", "w") (deployment_within "w"
      (mkNexusWorkspaceSpec "alice" ["workbench"; "ide"] (mkWorkspaceComputeSpec 4 8 1 "" 2) 10 false))
    (kb_objects (workspace_Reconcile reconciler "team" "w" with_workspace).2).
Proof.
  set (run := workspace_Reconcile reconciler "team" "w" with_workspace).
  refine (proj2 (proj2 (workspace_reconciled reconciler "team" "w" with_workspace blank ANull _
    run.1 run.2 eq_refl eq_refl eq_refl _ _ _ _ _))).
  - intros o Ho. vm_compute in Ho. discriminate.
  - intros o Ho. vm_compute in Ho. discriminate.
  - intros o Ho. vm_compute in Ho. discriminate.
  - unfold run. apply surjective_pairing.
  - vm_compute. reflexivity.
Defined.

Definition agent_plan_of : AgentPlan := plan_of one_agent.
Definition first_agent : kube :=
  (CreateOrUpdate ("deployments", "team", "support-2-1")
     (agent_deployment "support" (agent_of 15) agent_plan_of) empty_cluster).2.

Lemma env_order_churn_witness :
  ∃ o' d', kb_objects (CreateOrUpdate ("deployments", "team", "support-2-1")
      (agent_deployment "support" (agent_of 15) agent_plan_of) first_agent).2
      !! ("deployments", "team", "support-2-1") = Some o' ∧ ko_Spec o' = DeploymentSpec d'
    ∧ ko_ResourceVersion o' = 2%Z.
Proof.
  edestruct (env_order_churn quiet_answers ("deployments", "team", "support-2-1") "support"
    (agent_of 15) agent_plan_of first_agent) with (k := 1%nat) as (o'&d'&E&Hd&Hv&_).
  - vm_compute. reflexivity.
  - reflexivity.
  - reflexivity.
  - reflexivity.
  - reflexivity.
  - vm_compute. reflexivity.
  - vm_compute. discriminate.
  - exists o', d'. split; [exact E|]. split; [exact Hd|exact Hv].
Defined.
