(* ===== verification/Feature.v ===== *)
(** * Online features (internal/feature, cmd/feature-gateway)

    The feature values of entities, by service: kept in the process, in Redis or
    by a Feast server, behind one lookup. *)

From S2P Require Import Prelude GoStrings Types World Integrations.

Open Scope string_scope.

(** ** Requests (service.go) *)

Abbreviation values := (gmap string any).

Record Request := mkFeatureRequest {
  fr_FeatureService : string;
  fr_Entities : list values
}.

Record Result := mkFeatureResult {
  fres_Values : values;
  fres_Statuses : gmap string string
}.

Record Response := mkFeatureResponse { fresp_Results : list Result }.
#[export] Instance zero_Response : Zero Response := mkFeatureResponse [].

Class FeatureEnv := {
  (** [fmt.Sprintf] of a value with [%v]. *)
  sprint : any → string;
  (** [json.Marshal] and [json.Unmarshal] of feature values. *)
  encode_values : values → option string;
  decode_values : string → option values;
  (** The error of a call of the Redis server, and whether it was carried out
      all the same. *)
  redis_error : nat → option bool;
  (** The columns and their statuses of a Feast response. *)
  decode_feast : string → result (list string * list (list any * list string))
}.

Section lookup.
Context `{FeatureEnv}.

(** [EntityKey]: the single entry of the map. *)
Definition EntityKey (entity : values) : result string :=
  match map_to_list entity with
  | [(key, value)] =>
      if decide (key = "") then Err (ErrMsg "entity identifier cannot be empty") else
      match value with
      | ANull => Err (ErrMsg "entity identifier cannot be empty")
      | _ => Ok (key ++ "=" ++ sprint value)
      end
  | _ => Err (ErrMsg "each entity must contain exactly one identifier")
  end.

Definition invalid_request : gerror :=
  ErrMsg "feature_service and at least one entity are required".

Definition incomplete (request : Request) : Prop :=
  fr_FeatureService request = "" ∨ fr_Entities request = [].
#[export] Instance incomplete_dec request : Decision (incomplete request).
Proof.
  unfold incomplete. destruct (fr_Entities request); [left; by right|].
  destruct (decide (fr_FeatureService request = "")); [left; by left|right].
  by intros [?|?].
Defined.

(** The row of an entity, from what the store holds. *)
Definition row_of (found : option values) : Result :=
  match found with
  | None => mkFeatureResult ∅ {["entity" := "NOT_FOUND"]}
  | Some vs => mkFeatureResult vs ((λ _, "PRESENT") <$> vs)
  end.
End lookup.

(** What a store answers, over a state of its own: the interface [Store]. *)
Class FeatureStore (St : Type) := {
  store_Get : string → string → St → option values * St;
  store_Put : string → string → values → St → St
}.

Section stores.
Context `{FeatureEnv}.

(** The loop of [Lookup]. *)
Fixpoint lookup_rows {St : Type} `{FeatureStore St} (service : string) (entities : list values) (s : St)
    : result (list Result) * St :=
  match entities with
  | [] => (Ok [], s)
  | entity :: entities =>
      match EntityKey entity with
      | Err e => (Err e, s)
      | Ok key =>
          let '(found, s) := store_Get service key s in
          let '(rows, s) := lookup_rows service entities s in
          (cons (row_of found) <$> rows, s)
      end
  end.

Definition Lookup {St : Type} `{FeatureStore St} (request : Request) (s : St) : result Response * St :=
  if decide (incomplete request) then (Err invalid_request, s) else
  let '(rows, s) := lookup_rows (fr_FeatureService request) (fr_Entities request) s in
  (mkFeatureResponse <$> rows, s).

(** ** In the process *)

Definition memory : Type := gmap string (gmap string values).

Definition memory_Get (service key : string) (m : memory) : option values * memory :=
  (m !! service ≫= lookup key, m).

Definition memory_Put (service key : string) (vs : values) (m : memory) : memory :=
  <[service := <[key := vs]> (default ∅ (m !! service))]> m.

#[export] Instance memory_store : FeatureStore memory := {|
  store_Get := memory_Get;
  store_Put := memory_Put
|}.

Definition NewMemoryStore : memory := ∅.

(** ** In Redis (redis.go) *)

(** The documents of the server, and the number of calls made of it.  The
    gateway opens its store without an expiry. *)
Record redis := mkRedis { rd_calls : nat; rd_documents : gmap string string }.

Definition key (service entityKey : string) : string :=
  "mlaiops:features:" ++ service ++ ":" ++ entityKey.

Definition redis_Get (service entityKey : string) (r : redis) : option values * redis :=
  let r' := mkRedis (S (rd_calls r)) (rd_documents r) in
  match redis_error (rd_calls r) with
  | Some _ => (None, r')
  | None => (rd_documents r !! key service entityKey ≫= decode_values, r')
  end.

Definition redis_Put (service entityKey : string) (vs : values) (r : redis) : redis :=
  match encode_values vs with
  | None => r
  | Some raw =>
      let stored := <[key service entityKey := raw]> (rd_documents r) in
      mkRedis (S (rd_calls r))
        (match redis_error (rd_calls r) with Some false => rd_documents r | _ => stored end)
  end.

#[export] Instance redis_store : FeatureStore redis := {|
  store_Get := redis_Get;
  store_Put := redis_Put
|}.
End stores.

(** ** Through Feast (feast.go) *)

Section feast.
Context `{FeatureEnv} `{Net}.

(** The columns of the request: the values of each identifier, in the order of
    the entities that have it. *)
Fixpoint feast_columns (entities : list values) (columns : gmap string (list any))
    : result (gmap string (list any)) :=
  match entities with
  | [] => Ok columns
  | entity :: entities =>
      match EntityKey entity with
      | Err e => Err e
      | Ok _ => feast_columns entities
          (map_fold (λ k v columns, <[k := (default [] (columns !! k) ++ [v])%list]> columns)
             columns entity)
      end
  end.

Definition feast_request (service : string) (columns : gmap string (list any)) : any :=
  AObj [("feature_service", AStr service); ("entities", AObj (map_to_list (AList <$> columns)))].

(** The row of the i-th entity: the i-th value and status of each column. *)
Definition feast_row (names : list string) (columns : list (list any * list string)) (i : nat)
    : Result :=
  let named := zip names columns in
  mkFeatureResult
    (list_to_map (reverse (omap (M := list) (λ '(name, c), (λ v, (name, v)) <$> c.1 !! i) named)))
    (list_to_map (reverse (omap (M := list) (λ '(name, c), (λ v, (name, v)) <$> c.2 !! i) named))).

Definition feast_decode (n : nat) (raw : string) : result Response :=
  match decode_feast raw with
  | Err e => Err (ErrMsg ("invalid feast response: " ++ error_text e))
  | Ok (names, columns) =>
      if decide (length columns ≠ length names)
      then Err (ErrMsg "feast response feature names and results are misaligned")
      else Ok (mkFeatureResponse (feast_row names columns <$> seq 0 n))
  end.

(** [FeastClient.Lookup]; [json.Marshal] of the request is not checked, and a
    status line is given by its code. *)
Definition feast_Lookup (baseURL : string) (request : Request) : M (result Response) :=
  if decide (incomplete request) then mret (Err invalid_request) else
  match feast_columns (fr_Entities request) ∅ with
  | Err e => mret (Err e)
  | Ok columns =>
      let body := default "" (json_value (feast_request (fr_FeatureService request) columns)) in
      response ← ask (λ k, http_do k (mkHttpRequest "POST" (baseURL ++ "/get-online-features")
                   [("Content-Type", "application/json")] (Some body)));
      mret (match response with
            | Err e => Err (ErrMsg ("feast server unreachable: " ++ error_text e))
            | Ok response =>
                if decide (hp_StatusCode response ≠ 200%Z)
                then Err (ErrMsg ("feast server returned " ++ pretty (hp_StatusCode response)))
                else feast_decode (length (fr_Entities request)) (hp_Body response)
            end)
  end.
End feast.

(** ** The gateway (cmd/feature-gateway) *)

Section gateway.
Context `{FeatureEnv}.

Inductive feature_answer : Type :=
  | Looked (response : Response)
  | Written
  | Refused (status : Z) (message : string).

(** [authorized] *)
Definition gateway_authorized (token authorization : string) : Prop :=
  token = "" ∨ authorization = "Bearer " ++ token.
#[export] Instance gateway_authorized_dec token authorization :
  Decision (gateway_authorized token authorization).
Proof. unfold gateway_authorized. apply _. Defined.

(** The two endpoints, over a store; the body is what [decode] made of it. *)
Definition get_online_features {St : Type} `{FeatureStore St} (body : result Request) (s : St)
    : feature_answer * St :=
  match body with
  | Err e => (Refused 400 (error_text e), s)
  | Ok request =>
      let '(response, s) := Lookup request s in
      (match response with
       | Ok response => Looked response
       | Err e => Refused 422 (error_text e)
       end, s)
  end.

Definition put_features {St : Type} `{FeatureStore St} (token authorization service entity : string)
    (body : result values) (s : St) : feature_answer * St :=
  if decide (¬ gateway_authorized token authorization) then (Refused 401 "unauthorized", s) else
  match body with
  | Err e => (Refused 400 (error_text e), s)
  | Ok vs => (Written, store_Put service entity vs s)
  end.

(** Which store the process serves from: Feast first, then Redis, else memory. *)
Inductive feature_mode : Type :=
  | FeastMode (url : string)
  | RedisMode (url : string)
  | MemoryMode.

Definition feature_mode_of (feast_url redis_url : string) : feature_mode :=
  if decide (feast_url ≠ "") then FeastMode feast_url else
  if decide (redis_url ≠ "") then RedisMode redis_url else MemoryMode.

(** The two endpoints in front of Feast, which has no store of the process. *)
Definition feast_get_online_features `{Net} (url : string) (body : result Request) : M feature_answer :=
  match body with
  | Err e => mret (Refused 400 (error_text e))
  | Ok request =>
      response ← feast_Lookup url request;
      mret (match response with
            | Ok response => Looked response
            | Err e => Refused 422 (error_text e)
            end)
  end.

Definition feast_put_features (token authorization : string) : feature_answer :=
  if decide (¬ gateway_authorized token authorization) then Refused 401 "unauthorized"
  else Refused 501 "materialization writes go through Feast in feast mode".
End gateway.
