(* ===== verification/FeatureProps.v ===== *)
(** * What feature lookups promise *)

From Stdlib Require Import Ascii.
From S2P Require Import Prelude GoStrings Types World Integrations Urls Feature.

Open Scope string_scope.

(** ** The gateway's operations, over any store *)

Inductive feature_op : Type :=
  | PutFeatures (service entity : string) (vs : values)
  | LookupFeatures (request : Request).

Definition op_service (o : feature_op) : string :=
  match o with PutFeatures service _ _ => service | LookupFeatures r => fr_FeatureService r end.

(** A service name without a colon. *)
Definition plain_service (service : string) : Prop :=
  all_bytes (λ a, negb (Ascii.eqb a ":")) service = true.

Section props.
Context `{FeatureEnv}.

Definition feature_step {St : Type} `{FeatureStore St} (o : feature_op) (s : St)
    : option (result Response) * St :=
  match o with
  | PutFeatures service entity vs => (None, store_Put service entity vs s)
  | LookupFeatures request => let '(r, s) := Lookup request s in (Some r, s)
  end.

Fixpoint feature_run {St : Type} `{FeatureStore St} (ops : list feature_op) (s : St)
    : list (option (result Response)) * St :=
  match ops with
  | [] => ([], s)
  | o :: ops => let '(r, s) := feature_step o s in
                let '(rs, s) := feature_run ops s in (r :: rs, s)
  end.

(** ** Redis against the process's own store *)

(** Values that read back from their document. *)
Definition reads_back (vs : values) : Prop :=
  ∃ raw, encode_values vs = Some raw ∧ decode_values raw = Some vs.

(** An operation on a service without a colon, of values that read back. *)
Definition plain_op (o : feature_op) : Prop :=
  plain_service (op_service o)
  ∧ match o with PutFeatures _ _ vs => reads_back vs | LookupFeatures _ => True end.

Lemma key_inj service entity service' entity' :
  plain_service service → plain_service service' →
  key service entity = key service' entity' → service = service' ∧ entity = entity'.
Proof.
  intros Hs Hs' E. unfold key in E. apply str_app_inj in E.
  apply (f_equal (cut ":")) in E.
  change (service ++ ":" ++ entity) with (service ++ String ":" entity) in E.
  change (service' ++ ":" ++ entity') with (service' ++ String ":" entity') in E.
  rewrite !cut_at in E by done. by simplify_eq.
Qed.

(** The two stores hold the same values for the services without a colon. *)
Definition same_features (r : redis) (m : memory) : Prop :=
  ∀ service entity, plain_service service →
    rd_documents r !! key service entity ≫= decode_values = m !! service ≫= lookup entity.

(** A server that answers every call. *)
Hypothesis healthy : ∀ k, redis_error k = None.

Lemma put_same service entity vs r m :
  plain_service service → reads_back vs → same_features r m →
  same_features (store_Put service entity vs r) (store_Put service entity vs m).
Proof using healthy.
  intros Hs Hback Hrm service' entity' Hs'. simpl. unfold redis_Put, memory_Put.
  destruct Hback as (raw&Henc&Hdec).
  rewrite Henc, healthy. simpl.
  destruct (decide (service = service' ∧ entity = entity')) as [[<- <-]|Hne].
  - rewrite lookup_insert_eq. cbn [mbind option_bind]. rewrite Hdec.
    unfold memory in *. rewrite lookup_insert_eq. cbn [mbind option_bind]. by rewrite lookup_insert_eq.
  - rewrite lookup_insert_ne by (intros E; by apply Hne, key_inj).
    rewrite Hrm by done. unfold memory in *. destruct (decide (service = service')) as [<-|].
    + rewrite lookup_insert_eq. simpl. rewrite lookup_insert_ne by naive_solver.
      destruct (m !! service); [done|]. simpl. by rewrite lookup_empty.
    + by rewrite lookup_insert_ne.
Qed.

Lemma get_same service entity r m :
  plain_service service → same_features r m →
  (store_Get service entity r).1 = (store_Get service entity m).1
  ∧ same_features (store_Get service entity r).2 (store_Get service entity m).2.
Proof using healthy.
  intros Hs Hrm. simpl. unfold redis_Get. rewrite healthy. simpl. split; [|done].
  by apply Hrm.
Qed.

Lemma rows_same service entities r m :
  plain_service service → same_features r m →
  (lookup_rows service entities r).1 = (lookup_rows service entities m).1
  ∧ same_features (lookup_rows service entities r).2 (lookup_rows service entities m).2.
Proof using healthy.
  intros Hs. revert r m. induction entities as [|entity entities IH]; intros r m Hrm; [done|].
  cbn [lookup_rows]. destruct (EntityKey entity) as [k|e]; [|done].
  destruct (get_same service k r m Hs Hrm) as [Hget Hrm'].
  destruct (store_Get service k r) as [v r'], (store_Get service k m) as [v' m']. simpl in *. subst v'.
  destruct (IH r' m' Hrm') as [Hrows Hrm''].
  destruct (lookup_rows service entities r') as [x r''], (lookup_rows service entities m') as [x' m''].
  simpl in *. by subst.
Qed.

Lemma step_same o r m :
  plain_op o → same_features r m →
  (feature_step o r).1 = (feature_step o m).1
  ∧ same_features (feature_step o r).2 (feature_step o m).2.
Proof using healthy.
  intros [Hs Hback] Hrm. destruct o as [service entity vs|request]; simpl in *.
  - split; [done|]. by apply put_same.
  - unfold Lookup. case_decide; [done|].
    destruct (rows_same _ (fr_Entities request) r m Hs Hrm) as [Hrows Hrm'].
    destruct (lookup_rows _ _ r) as [x r'], (lookup_rows _ _ m) as [x' m']. simpl in *. by subst.
Qed.

(** C35: the Redis store refines the store of the process: with a server that
    answers, any sequence of writes of values that read back and of lookups, of
    services whose names hold no colon, is answered as by the process's own
    store. *)
Theorem redis_refines ops calls :
  Forall plain_op ops →
  (feature_run ops (mkRedis calls ∅)).1 = (feature_run ops NewMemoryStore).1.
Proof using healthy.
  assert (Hrun : ∀ r m, same_features r m → Forall plain_op ops →
    (feature_run ops r).1 = (feature_run ops m).1).
  { induction ops as [|o ops IH]; intros r m Hrm Hops; [done|].
    inversion Hops as [|? ? Ho Hrest]; subst. cbn [feature_run].
    destruct (step_same o r m Ho Hrm) as [Hstep Hrm'].
    destruct (feature_step o r) as [x r'], (feature_step o m) as [x' m']. simpl in *. subst x'.
    specialize (IH r' m' Hrm' Hrest).
    destruct (feature_run ops r') as [xs r''], (feature_run ops m') as [xs' m'']. simpl in *. by subst. }
  intros Hops. apply Hrun; [|done]. intros service entity _. simpl. by rewrite !lookup_empty.
Qed.

(** With a colon in a service's name the documents collide: what is written
    for an entity of one service is read as the values of an entity of another,
    which the store of the process keeps apart. *)
Theorem redis_services_collide a b entity vs calls :
  reads_back vs →
  let wrote := store_Put a (b ++ ":" ++ entity) vs (mkRedis calls ∅) in
  (store_Get (a ++ ":" ++ b) entity wrote).1 = Some vs
  ∧ (store_Get (a ++ ":" ++ b) entity (store_Put a (b ++ ":" ++ entity) vs NewMemoryStore)).1 = None.
Proof using healthy.
  intros Hback wrote. split.
  - simpl. unfold redis_Get, wrote. simpl. unfold redis_Put, memory_Put.
    destruct Hback as (raw&Henc&Hdec).
    rewrite Henc, !healthy. simpl.
    assert (key (a ++ ":" ++ b) entity = key a (b ++ ":" ++ entity)) as ->.
    { unfold key. by rewrite !str_app_assoc. }
    by rewrite lookup_insert_eq.
  - simpl. unfold memory_Put, memory, NewMemoryStore. rewrite lookup_insert_ne; [done|]. intros E.
    apply (f_equal String.length) in E. rewrite !str_length_app in E. simpl in E. lia.
Qed.
End props.

(** ** What a lookup answers *)

(** The values last written for an entity of a service. *)
Definition last_written (ops : list feature_op) (service entity : string) : option values :=
  foldl (λ found o, match o with
                    | PutFeatures service' entity' vs =>
                        if decide (service' = service ∧ entity' = entity) then Some vs else found
                    | LookupFeatures _ => found
                    end) None ops.

Section answers.
Context `{FeatureEnv}.

Lemma memory_Lookup request (m : memory) :
  Lookup request m
  = (if decide (incomplete request) then Err invalid_request else
     mkFeatureResponse <$> foldr (λ entity rows,
       key ← EntityKey entity;
       cons (row_of (m !! fr_FeatureService request ≫= lookup key)) <$> rows) (Ok []) (fr_Entities request), m).
Proof.
  unfold Lookup. case_decide; [done|].
  assert (Hrows : lookup_rows (fr_FeatureService request) (fr_Entities request) m
    = (foldr (λ entity rows, key ← EntityKey entity;
         cons (row_of (m !! fr_FeatureService request ≫= lookup key)) <$> rows) (Ok [])
         (fr_Entities request), m)).
  { induction (fr_Entities request) as [|entity entities IH]; [done|]. cbn [lookup_rows foldr].
    destruct (EntityKey entity) as [k|e]; [|done]. simpl. by rewrite IH. }
  by rewrite Hrows.
Qed.

Lemma memory_contents ops service entity :
  (feature_run ops NewMemoryStore).2 !! service ≫= lookup entity = last_written ops service entity.
Proof.
  unfold last_written, NewMemoryStore.
  assert (Hrun : ∀ (m : memory) found, m !! service ≫= lookup entity = found →
    (feature_run ops m).2 !! service ≫= lookup entity
    = foldl (λ found o, match o with
        | PutFeatures service' entity' vs =>
            if decide (service' = service ∧ entity' = entity) then Some vs else found
        | LookupFeatures _ => found end) found ops).
  { induction ops as [|o ops IH]; intros m found Hm; [done|]. cbn [feature_run foldl].
    destruct o as [service' entity' vs|request]; cbn [feature_step].
    - specialize (IH (store_Put service' entity' vs m)).
      destruct (feature_run ops _) as [rs m']. simpl in *. apply IH. clear IH.
      unfold memory_Put, memory in *. case_decide as Hd.
      + destruct Hd as [-> ->]. rewrite lookup_insert_eq. simpl. by rewrite lookup_insert_eq.
      + destruct (decide (service' = service)) as [->|].
        * rewrite lookup_insert_eq. simpl. rewrite lookup_insert_ne by naive_solver.
          destruct (m !! service); simpl in *; [done|]. by rewrite lookup_empty.
        * by rewrite lookup_insert_ne.
    - rewrite memory_Lookup. specialize (IH m found Hm). by destruct (feature_run ops m). }
  apply Hrun. done.
Qed.

(** After any writes and lookups, a lookup in the process's store answers one
    row for each entity, in their order, of the values last written for that
    entity of that service, or of none; or the error of a request without service
    or entities, or of its first entity that has not exactly one identifier. *)
Theorem lookup_answers ops request :
  (Lookup request (feature_run ops NewMemoryStore).2).1
  = if decide (incomplete request) then Err invalid_request else
    mkFeatureResponse <$> foldr (λ entity rows,
      key ← EntityKey entity;
      cons (row_of (last_written ops (fr_FeatureService request) key)) <$> rows)
      (Ok []) (fr_Entities request).
Proof.
  rewrite memory_Lookup. simpl. case_decide; [done|]. f_equal.
  induction (fr_Entities request) as [|entity entities IH]; [done|]. cbn [foldr].
  destruct (EntityKey entity); [|done]. simpl. by rewrite IH, memory_contents.
Qed.
End answers.

(** ** Feast *)

Section feast_props.
Context `{FeatureEnv} `{Net}.

(** A Feast request has one column for each identifier, so it says nothing of
    the order of entities with different identifiers: two such entities and the
    same two swapped are one request, and are answered the same rows, although
    the i-th row is meant to be of the i-th entity. *)
Theorem feast_order_lost baseURL service k1 v1 k2 v2 w :
  k1 ≠ k2 → (∃ key, EntityKey {[k1 := v1]} = Ok key) → (∃ key, EntityKey {[k2 := v2]} = Ok key) →
  feast_Lookup baseURL (mkFeatureRequest service [{[k1 := v1]}; {[k2 := v2]}]) w
  = feast_Lookup baseURL (mkFeatureRequest service [{[k2 := v2]}; {[k1 := v1]}]) w.
Proof.
  intros Hne [key1 H1] [key2 H2]. unfold feast_Lookup.
  destruct (decide (service = "")) as [->|Hs].
  { by rewrite !decide_True by (by left). }
  rewrite !(decide_False (P := incomplete _)) by (intros [?|?]; done).
  cbn [fr_FeatureService fr_Entities].
  assert (Hcolumns : feast_columns [{[k1 := v1]}; {[k2 := v2]}] ∅
    = feast_columns [{[k2 := v2]}; {[k1 := v1]}] ∅).
  { cbn [feast_columns]. rewrite H1, H2, !map_fold_singleton.
    rewrite !lookup_empty, !lookup_insert_ne, !lookup_empty by done. simpl. f_equal.
    by apply insert_insert_ne. }
  rewrite Hcolumns. done.
Qed.
End feast_props.

(** ** Witnesses *)

Definition feature_env : FeatureEnv := {|
  sprint v := match v with AStr s => s | _ => "?" end;
  encode_values vs := Some (match vs !! "f" with Some (AStr s) => s | _ => "" end);
  decode_values raw := Some {["f" := AStr raw]};
  redis_error := λ _, None;
  decode_feast := λ raw, Ok (["f"], [([AStr raw], ["PRESENT"])])
|}.

#[local] Existing Instance feature_env.

Lemma redis_answers k : redis_error k = None.
Proof. reflexivity. Qed.

Definition features_of (s : string) : values := {["f" := AStr s]}.
Definition user_entity : values := {["user" := AStr "7"]}.

Lemma redis_refines_witness :
  (feature_run
     [PutFeatures "profile" "user=7" (features_of "x");
      LookupFeatures (mkFeatureRequest "profile" [user_entity])] (mkRedis 0 ∅)).1
  = [None; Some (Ok (mkFeatureResponse [row_of (Some (features_of "x"))]))].
Proof.
  rewrite (redis_refines redis_answers); [vm_compute; reflexivity|].
  constructor; [split; [reflexivity|exists "x"; split; vm_compute; reflexivity]|].
  constructor; [split; [reflexivity|exact I]|constructor].
Defined.

Lemma redis_services_collide_witness :
  (store_Get ("a" ++ ":" ++ "b") "user=7"
    (store_Put "a" ("b" ++ ":" ++ "user=7")
       (features_of "x") (mkRedis 0 ∅))).1 = Some (features_of "x").
Proof.
  apply (redis_services_collide redis_answers).
  exists "x". split; vm_compute; reflexivity.
Defined.

#[local] Instance feast_net : Net := {|
  http_do := λ _ _, Ok (mkHttpResponse 200 "1" "");
  json_value := λ _, Some "{}";
  json_id := λ raw, Ok raw;
  json_any := λ _, None;
  json_functions := λ _, Ok [];
  basic_auth := λ _ _, ""
|}.

Lemma feast_order_lost_witness :
  let user : values := {["user" := AStr "7"]} in
  let driver : values := {["driver" := AStr "3"]} in
  feast_Lookup "http://feast" (mkFeatureRequest "profile" [user; driver]) (booting "" ∅)
  = feast_Lookup "http://feast" (mkFeatureRequest "profile" [driver; user]) (booting "" ∅).
Proof.
  refine (feast_order_lost "http://feast" "profile" "user" (AStr "7") "driver" (AStr "3")
            (booting "" ∅) _ _ _).
  - discriminate.
  - by exists "user=7".
  - by exists "driver=3".
Defined.
