(* ===== verification/Serving.v ===== *)
(** * The serving manager (internal/serving, cmd/serving-manager)

    One container per deployed model version, run by the Docker engine: created,
    started, listed and removed through its HTTP API. *)

From Stdlib Require Import Ascii.
From S2P Require Import Prelude GoStrings Urls Types World Auth Integrations.

Open Scope string_scope.

Record Manager := mkManager {
  mg_APIVersion : string;
  mg_BaseURL : string;
  mg_Image : string;
  mg_Network : string;
  mg_Env : list string;
  mg_Port : Z
}.

Record Deployment := mkServingDeployment {
  sd_Name : string;
  sd_ArtifactURI : string;
  sd_Endpoint : string;
  sd_State : string
}.

Definition NewManager (image network : string) (env : list string) : Manager :=
  mkManager "" "" image network env 5001.

Class ServingEnv := {
  (** [json.Unmarshal] of the identifier of a created container, and of the labels
      and state of listed ones. *)
  decode_created : string → result string;
  decode_containers : string → result (list (gmap string string * string))
}.

Definition containerName (deployment : string) : string := "mlaiops-serve-" ++ deployment.

Definition docker_limit : N := 1048576.

Section manager.
Context `{Net} `{ServingEnv}.
Variable m : Manager.

(** [do]: the status, with the error, and what [output] decoded; a 404 is not an
    error, and only a successful response with a body is decoded. *)
Definition docker {A} `{Zero A} (method path : string) (input : option any)
    (output : option (string → result A)) : M (Z * result A) :=
  let base := (if decide (mg_BaseURL m = "") then "http://docker" else mg_BaseURL m)
              ++ (if decide (mg_APIVersion m = "") then "" else "/" ++ mg_APIVersion m) in
  match match input with None => Some None | Some v => Some <$> json_value v end with
  | None => mret (0%Z, Err (ErrIO "json"))
  | Some body =>
      let headers := match input with Some _ => [("Content-Type", "application/json")] | None => [] end in
      response ← ask (λ k, http_do k (mkHttpRequest method (base ++ path) headers body));
      mret (match response with
            | Err e => (0%Z, Err (ErrMsg ("docker engine unreachable: " ++ error_text e)))
            | Ok response =>
                let status := hp_StatusCode response in
                let raw := first_bytes docker_limit (hp_Body response) in
                (status,
                 if decide (400 <= status ∧ status ≠ 404)%Z
                 then Err (ErrMsg ("docker engine returned " ++ pretty status ++ ": " ++ TrimSpace raw))
                 else match output with
                      | None => Ok zero
                      | Some output =>
                          if decide (raw ≠ "" ∧ status < 300)%Z then output raw else Ok zero
                      end)
            end)
  end.

Definition Undeploy (name : string) : M (option gerror) :=
  r ← docker (A := unit) "DELETE" ("/containers/" ++ PathEscape (containerName name) ++ "?force=true")
        None None;
  mret (if decide (r.1 = 404)%Z then None else match r.2 with Ok _ => None | Err e => Some e end).

(** The body of a creation. *)
Definition container_of (name artifactURI : string) : any := AObj [
  ("Image", AStr (mg_Image m));
  ("Cmd", AList (AStr <$> ["mlflow"; "models"; "serve"; "-m"; artifactURI; "-h"; "0.0.0.0";
                           "-p"; pretty (mg_Port m); "--env-manager"; "local"]));
  ("Env", AList (AStr <$> mg_Env m));
  ("Labels", AObj [("mlaiops.serving", AStr "true"); ("mlaiops.model", AStr name);
                   ("mlaiops.artifact", AStr artifactURI)]);
  ("HostConfig", AObj [("NetworkMode", AStr (mg_Network m));
                       ("RestartPolicy", AObj [("Name", AStr "unless-stopped")])])].

Definition endpoint_of (name : string) : string :=
  "http://" ++ containerName name ++ ":" ++ pretty (mg_Port m).

Definition Deploy (name artifactURI : string) : M (result string) :=
  if decide (name = "" ∨ artifactURI = "")
  then mret (Err (ErrMsg "name and artifact_uri are required")) else
  if decide (mg_Image m = "") then mret (Err (ErrMsg "serving image is not configured")) else
  _ ← Undeploy name;
  created ← docker "POST" ("/containers/create?name=" ++ QueryEscape (containerName name))
              (Some (container_of name artifactURI)) (Some decode_created);
  match created.2 with
  | Err e => mret (Err e)
  | Ok id =>
      started ← docker (A := unit) "POST" ("/containers/" ++ id ++ "/start") None None;
      mret (match started.2 with Err e => Err e | Ok _ => Ok (endpoint_of name) end)
  end.

Definition serving_filter : string :=
  "{" ++ String "034" ("label" ++ String "034" (":[" ++ String "034" ("mlaiops.serving=true"
    ++ String "034" "]}"))).

Definition ListDeployments : M (result (list Deployment)) :=
  r ← docker "GET" ("/containers/json?all=true&filters=" ++ QueryEscape serving_filter) None
        (Some decode_containers);
  mret (fmap (M := list) (λ '(labels, state),
          let name := default "" (labels !! "mlaiops.model") in
          mkServingDeployment name (default "" (labels !! "mlaiops.artifact")) (endpoint_of name) state)
        <$> r.2).
End manager.

(** ** The process *)

Class ServingVariables := {
  env_MLFLOW_TRACKING_URI : string;
  env_MLFLOW_S3_ENDPOINT_URL : string;
  env_AWS_ACCESS_KEY_ID : string;
  env_AWS_SECRET_ACCESS_KEY : string;
  env_SERVE_IMAGE : string;
  env_PLATFORM_NETWORK : string;
  env_DOCKER_HOST_URL : string;
  env_DOCKER_API_VERSION : string;
  (** [MLAIOPS_INTERNAL_TOKEN] *)
  env_serving_token : string
}.

(** An answer: a status with a value, an error, or no content. *)
Inductive serving_reply (A : Type) : Type :=
  | Deployed (status : Z) (value : A)
  | ServingError (status : Z) (message : string)
  | Removed.
Arguments Deployed {A} status value.
Arguments ServingError {A} status message.
Arguments Removed {A}.

Section server.
Context `{Net} `{ServingEnv} `{ServingVariables}.

(** The variables a serving container is given: those that are set. *)
Definition container_env : list string :=
  (λ '(key, value), key ++ "=" ++ value) <$> filter (λ v, v.2 ≠ "") [
    ("MLFLOW_TRACKING_URI", env_MLFLOW_TRACKING_URI);
    ("MLFLOW_S3_ENDPOINT_URL", env_MLFLOW_S3_ENDPOINT_URL);
    ("AWS_ACCESS_KEY_ID", env_AWS_ACCESS_KEY_ID);
    ("AWS_SECRET_ACCESS_KEY", env_AWS_SECRET_ACCESS_KEY)].

(** The manager of the process; the socket is the transport's business. *)
Definition serving_manager : Manager :=
  let m := NewManager (if decide (env_SERVE_IMAGE = "") then "mlaiops-mlflow" else env_SERVE_IMAGE)
             (if decide (env_PLATFORM_NETWORK = "") then "mlaiops_default" else env_PLATFORM_NETWORK)
             container_env in
  mkManager env_DOCKER_API_VERSION
    (if decide (env_DOCKER_HOST_URL = "") then mg_BaseURL m else env_DOCKER_HOST_URL)
    (mg_Image m) (mg_Network m) (mg_Env m) (mg_Port m).

(** [authorized]: the secret, with or without its scheme. *)
Definition serving_authorized (authorization : string) : bool :=
  bool_decide (env_serving_token = "") || bool_decide (TrimPrefix authorization "Bearer " = env_serving_token).

Definition when_serving_authorized {A} (authorization : string) (handle : M (serving_reply A))
    : M (serving_reply A) :=
  if serving_authorized authorization then handle else mret (ServingError 401 "unauthorized").

(** [GET /deployments] *)
Definition get_deployments (authorization : string) : M (serving_reply (list Deployment)) :=
  when_serving_authorized authorization (
    r ← ListDeployments serving_manager;
    mret (match r with Ok l => Deployed 200 l | Err e => ServingError 502 (error_text e) end)).

(** [POST /deployments]: the decoded name and artifact, answered with the name and
    the endpoint. *)
Definition post_deployments (authorization : string) (body : result (string * string))
    : M (serving_reply (string * string)) :=
  when_serving_authorized authorization (
    match body with
    | Err e => mret (ServingError 400 (error_text e))
    | Ok (name, artifactURI) =>
        r ← Deploy serving_manager name artifactURI;
        mret (match r with
              | Ok endpoint => Deployed 201 (name, endpoint)
              | Err e => ServingError 422 (error_text e)
              end)
    end).

(** [DELETE /deployments/{name}] *)
Definition delete_deployment (authorization name : string) : M (serving_reply unit) :=
  when_serving_authorized authorization (
    e ← Undeploy serving_manager name;
    mret (match e with Some e => ServingError 502 (error_text e) | None => Removed end)).
End server.

(** ** Properties *)

Section props.
Context `{Net} `{ServingEnv}.

(** The Docker engine answers 404 both for a container it does not have and for
    an image it does not have, and the manager takes every 404 for success: on
    an engine without the serving image, which answers 404 to the removal, the
    creation and the start, a deployment reports the endpoint of a container
    that does not exist. *)
Theorem deploy_without_image m name artifactURI w :
  name ≠ "" → artifactURI ≠ "" → mg_Image m ≠ "" →
  json_value (container_of m name artifactURI) ≠ None →
  (∀ k r, ∃ message, http_do k r = Ok (mkHttpResponse 404 message "")) →
  (Deploy m name artifactURI w).1 = Ok (endpoint_of m name)
  ∧ (Undeploy m name w).1 = None.
Proof.
  intros Hn Ha Hi Hj H404.
  assert (Hcall : ∀ A (zA : Zero A) method path input (output : option (string → result A)) w,
    match input with Some v => json_value v ≠ None | None => True end →
    (docker m method path input output w).1 = (404%Z, Ok zero)).
  { intros A zA method path input output w' Hin. unfold docker, ask, mbind, M_bind, mret, M_ret.
    assert (∃ body, match input with None => Some None | Some v => Some <$> json_value v end = Some body)
      as [body ->].
    { destruct input as [v|]; [|by exists None].
      destruct (json_value v) as [b|]; [by exists (Some b)|done]. }
    set (req := mkHttpRequest _ _ _ _). destruct (H404 (w_tick w') req) as [msg ->].
    simpl. f_equal. destruct output; [|done]. by rewrite (decide_False (P := _ ∧ (404 < 300)%Z)) by (intros [_ ?]; lia). }
  assert (Hundeploy : ∀ w, (Undeploy m name w).1 = None).
  { intros w'. unfold Undeploy, mbind at 1, M_bind at 1.
    specialize (Hcall unit _ "DELETE" ("/containers/" ++ PathEscape (containerName name) ++ "?force=true")
                  None None w' I).
    destruct (docker _ _ _ _ _ w') as [r w'']. simpl in *. by subst r. }
  split; [|apply Hundeploy].
  unfold Deploy. rewrite decide_False by (by intros [?|?]). rewrite decide_False by done.
  unfold mbind, M_bind. destruct (Undeploy m name w) as [u w1].
  pose proof (Hcall _ _ "POST" ("/containers/create?name=" ++ QueryEscape (containerName name))
    (Some (container_of m name artifactURI)) (Some decode_created) w1 Hj) as Hcreate.
  destruct (docker _ _ _ _ _ w1) as [c w2]. simpl in Hcreate. subst c. cbn [snd].
  pose proof (Hcall unit _ "POST" ("/containers/" ++ zero ++ "/start") None None w2 I) as Hstart.
  destruct (docker _ _ _ _ _ w2) as [c w3]. simpl in Hstart. by subst c.
Qed.
End props.

(** ** Witness *)

Definition no_image_net : Net := {|
  http_do := λ _ _, Ok (mkHttpResponse 404 "no such image" "");
  json_value := λ _, Some "{}";
  json_id := λ raw, Ok raw;
  json_any := λ _, None;
  json_functions := λ _, Ok [];
  basic_auth := λ _ _, ""
|}.

Definition serving_env : ServingEnv := {|
  decode_created := λ raw, Ok raw;
  decode_containers := λ _, Ok []
|}.

Definition local_manager : Manager := NewManager "mlaiops-mlflow" "mlaiops_default" [].

Lemma deploy_without_image_witness :
  (Deploy (H := no_image_net) (H0 := serving_env) local_manager "fraud-1" "s3://m"
     (booting "" ∅)).1 = Ok "http://mlaiops-serve-fraud-1:5001".
Proof.
  refine (proj1 (deploy_without_image (H := no_image_net) (H0 := serving_env)
    local_manager "fraud-1" "s3://m" (booting "" ∅) _ _ _ _ _)).
  - discriminate.
  - discriminate.
  - discriminate.
  - discriminate.
  - intros k r. by exists "no such image".
Defined.
