(* ===== verification/Storage.v ===== *)
(** * Object storage (internal/storage, cmd/storage-proxy, httpapi/server.go)

    The storage proxy is the one process with the object store's credentials.
    It signs the URLs of the requests it makes for the console's browser, and
    those it hands to callers ([Presign]), in AWS's query-signing scheme; the
    gateway forwards the browser's requests to it once the caller's grant has
    been checked ([storageProxy]).  HMAC-SHA-256 is defined over the hash of
    [Host]. *)

From Stdlib Require Import Ascii.
From S2P Require Import Prelude GoStrings Urls Dates Types World Access Tokens Auth HttpAccess Integrations.
From S2P Require Import Dispatch Handlers.

Open Scope string_scope.

(** ** Signing (presign.go) *)

Record Config := mkConfig {
  cfg_Endpoint : string;
  cfg_Region : string;
  cfg_AccessKey : string;
  cfg_SecretKey : string
}.

(** [Request] *)
Record PresignRequest := mkPresignRequest {
  ps_Bucket : string;
  ps_Key : string;
  ps_Operation : string;
  ps_TTLSeconds : Z
}.

Definition newline : string := String (ascii_of_N 10) "".

Section signing.
Context `{Host}.

(** The bytes of a block-size key, each combined with [pad]. *)
Definition xor_byte (pad : N) (a : ascii) : ascii := ascii_of_N (N.lxor pad (N_of_ascii a)).
Fixpoint xor_bytes (pad : N) (s : string) : string :=
  match s with EmptyString => "" | String a s' => String (xor_byte pad a) (xor_bytes pad s') end.

Definition hmac_block : nat := 64.

(** [hmac.New(sha256.New, key)], of one write. *)
Definition hmacSHA (key value : string) : string :=
  let key := if (hmac_block <? String.length key)%nat then sha256_sum key else key in
  let key := key ++ String.concat "" (replicate (hmac_block - String.length key)
                                        (String (ascii_of_N 0) "")) in
  sha256_sum (xor_bytes 92 key ++ sha256_sum (xor_bytes 54 key ++ value)).

(** The parameters of a query in the order they are encoded in. *)
Definition query_keys (values : Values) : list string := sort_Strings (fst <$> map_to_list values).
Definition key_pairs (values : Values) (k : string) : list (string * string) :=
  pair k <$> sort_Strings (default [] (values !! k)).
Definition query_pairs (values : Values) : list (string * string) :=
  concat (key_pairs values <$> query_keys values).

Definition encodeQuery (values : Values) : string := Join (query_pair <$> query_pairs values) "&".

Definition scope_of (date region : string) : string := date ++ "/" ++ region ++ "/s3/aws4_request".

Definition canonical_request (method path query host : string) : string :=
  Join [method; path; query; "host:" ++ host ++ newline; "host"; "UNSIGNED-PAYLOAD"] newline.

(** The signature of a canonical request, by the key derived for a day, a region
    and the service. *)
Definition signature (secret date region timestamp scope canonical : string) : string :=
  let toSign := "AWS4-HMAC-SHA256" ++ newline ++ timestamp ++ newline ++ scope ++ newline
                ++ hex_encode (sha256_sum canonical) in
  let key := hmacSHA ("AWS4" ++ secret) date in
  let key := hmacSHA key region in
  let key := hmacSHA key "s3" in
  let key := hmacSHA key "aws4_request" in
  hex_encode (hmacSHA key toSign).

(** The lines [Presign] and [signedURL] share: the signing parameters are set,
    the request they describe is signed, and the signature added. *)
Definition signing_query (config : Config) (region : string) (query : Values) (expires : string)
    (now : Time) : Values :=
  Values_Set "X-Amz-SignedHeaders" "host"
    (Values_Set "X-Amz-Expires" expires
      (Values_Set "X-Amz-Date" (format_timestamp now)
        (Values_Set "X-Amz-Credential"
          (cfg_AccessKey config ++ "/" ++ scope_of (format_date now) region)
          (Values_Set "X-Amz-Algorithm" "AWS4-HMAC-SHA256" query)))).

Definition region_of (config : Config) : string :=
  if decide (cfg_Region config = "") then "us-east-1" else cfg_Region config.

Definition signed_url (config : Config) (method : string) (endpoint : url) (query : Values)
    (expires : string) (now : Time) : string :=
  let region := region_of config in
  let query := signing_query config region query expires now in
  let canonical := canonical_request method (EscapedPath endpoint) (encodeQuery query)
                     (u_Host endpoint) in
  let value := signature (cfg_SecretKey config) (format_date now) region (format_timestamp now)
                 (scope_of (format_date now) region) canonical in
  url_String (endpoint <|u_RawQuery := encodeQuery (Values_Set "X-Amz-Signature" value query)|>).

Definition unconfigured (config : Config) : Prop :=
  cfg_Endpoint config = "" ∨ cfg_AccessKey config = "" ∨ cfg_SecretKey config = "".
#[export] Instance unconfigured_dec config : Decision (unconfigured config).
Proof. unfold unconfigured. apply _. Defined.

Definition storage_unconfigured : gerror :=
  ErrMsg "storage endpoint and credentials must be configured".

(** [path.Join] of a slash and other elements. *)
Definition path_Join (elements : list string) : string :=
  "/" ++ Join (clean_segments (Join ("/" :: elements) "/")) "/".

Definition Presign (config : Config) (request : PresignRequest) (now : Time) : result string :=
  if decide (unconfigured config) then Err storage_unconfigured else
  if decide (ps_Bucket request = "" ∨ ps_Key request = ""
             ∨ contains_byte "/" (ps_Bucket request) = true ∨ Contains (ps_Key request) ".." = true)
  then Err (ErrMsg "valid bucket and key are required") else
  let method := ToUpper (ps_Operation request) in
  if decide (method ≠ "GET" ∧ method ≠ "PUT") then Err (ErrMsg "operation must be GET or PUT") else
  let ttl := if decide (ps_TTLSeconds request <= 0)%Z then 300%Z else ps_TTLSeconds request in
  if decide (900 < ttl)%Z then Err (ErrMsg "ttl_seconds cannot exceed 900") else
  match Parse (cfg_Endpoint config) with
  | None => Err (ErrIO "url")
  | Some endpoint =>
      let endpoint := endpoint <|u_Path := path_Join [u_Path endpoint; ps_Bucket request; ps_Key request]|> in
      Ok (signed_url config method endpoint (ParseQuery (u_RawQuery endpoint)) (pretty ttl) now)
  end.

(** [Browser.signedURL] *)
Definition signedURL (config : Config) (method rawPath : string) (query : Values) (now : Time)
    : result string :=
  if decide (unconfigured config) then Err storage_unconfigured else
  match Parse (cfg_Endpoint config) with
  | None => Err (ErrIO "url")
  | Some endpoint => Ok (signed_url config method (endpoint <|u_Path := rawPath|>) query "300" now)
  end.

(** A server's check of a signed URL ([verifySigV4], presign_test.go): the
    signature of the request it received, without its signature parameter. *)
Definition verifySigV4 (method rawURL secret : string) : bool :=
  match Parse rawURL with
  | None => false
  | Some parsed =>
      let query := ParseQuery (u_RawQuery parsed) in
      let provided := Values_Get query "X-Amz-Signature" in
      let query := delete "X-Amz-Signature" query in
      match Split (Values_Get query "X-Amz-Credential") "/" with
      | [access; date; region; service; request] =>
          let canonical := canonical_request method (EscapedPath parsed) (encodeQuery query)
                             (u_Host parsed) in
          bool_decide (provided = signature secret date region (Values_Get query "X-Amz-Date")
            (Join [date; region; service; request] "/") canonical)
      | _ => false
      end
  end.
End signing.

(** ** The browser (browse.go) *)

Record Bucket := mkBucket { bk_Name : string; bk_CreatedAt : string }.

Record Object := mkObject { ob_Key : string; ob_Size : Z; ob_LastModified : string }.

Record Listing := mkListing {
  ls_Bucket : string;
  ls_Prefix : string;
  ls_Objects : list Object;
  ls_Prefixes : list string
}.

Record Preview := mkPreview {
  pv_Bucket : string;
  pv_Key : string;
  pv_ContentType : string;
  pv_Size : Z;
  pv_Truncated : bool;
  pv_Content : string
}.

(** A response of the object store: the whole body, or the error of reading it. *)
Record s3_response := mkS3Response {
  s3_StatusCode : Z;
  s3_Status : string;
  s3_ContentType : string;
  s3_ContentLength : Z;
  s3_Body : string;
  s3_ReadError : option string
}.

(** [http.Client.Get] of a URL, per call. *)
Abbreviation object_store := (nat → string → result s3_response).

Class ObjectXML := {
  (** [xml.Decode] of the buckets, and of the objects and common prefixes, of a
      listing. *)
  decode_buckets : string → result (list Bucket);
  decode_objects : string → result (list Object * list string)
}.

Record Browser := mkBrowser { br_Config : Config; br_PreviewLimit : Z }.

Definition default_preview : Z := 65536.
Definition NewBrowser (config : Config) : Browser := mkBrowser config default_preview.

Section browser.
Context `{Host} `{ObjectXML}.
Variable s3 : object_store.
Variable b : Browser.

(** [Browser.get] *)
Definition browser_get (rawPath : string) (query : Values) : M (result s3_response) :=
  t ← now;
  match signedURL (br_Config b) "GET" rawPath query t with
  | Err e => mret (Err e)
  | Ok signed =>
      response ← ask (λ k, s3 k signed);
      mret (match response with
            | Err e => Err (ErrMsg ("object store unreachable: " ++ error_text e))
            | Ok response =>
                if decide (s3_StatusCode response ≠ 200 ∧ s3_StatusCode response ≠ 206)%Z
                then Err (ErrMsg ("object store returned " ++ s3_Status response ++ ": "
                       ++ TrimSpace (first_bytes 2048 (s3_Body response))))
                else Ok response
            end)
  end.

Definition ListBuckets : M (result (list Bucket)) :=
  response ← browser_get "/" ∅;
  mret (match response with
        | Err e => Err e
        | Ok response =>
            match decode_buckets (s3_Body response) with
            | Err e => Err (ErrMsg ("invalid bucket listing: " ++ error_text e))
            | Ok buckets => Ok buckets
            end
        end).

Definition listing_query (prefix : string) : Values :=
  let query := Values_Set "max-keys" "500" (Values_Set "delimiter" "/" (Values_Set "list-type" "2" ∅)) in
  if decide (prefix = "") then query else Values_Set "prefix" prefix query.

Definition ListObjects (bucket prefix : string) : M (result Listing) :=
  if decide (bucket = "" ∨ contains_byte "/" bucket = true)
  then mret (Err (ErrMsg "valid bucket is required")) else
  response ← browser_get ("/" ++ bucket) (listing_query prefix);
  mret (match response with
        | Err e => Err e
        | Ok response =>
            match decode_objects (s3_Body response) with
            | Err e => Err (ErrMsg ("invalid object listing: " ++ error_text e))
            | Ok (objects, prefixes) => Ok (mkListing bucket prefix objects prefixes)
            end
        end).

(** [io.ReadAll(io.LimitReader(body, n))]: a limit that is not positive reads nothing. *)
Definition read_limited (n : Z) (response : s3_response) : result string :=
  if decide (n <= 0)%Z then Ok "" else
  let content := first_bytes (Z.to_N n) (s3_Body response) in
  match s3_ReadError response with
  | Some msg =>
      if decide (Z.of_nat (String.length (s3_Body response)) < n)%Z then Err (ErrIO msg) else Ok content
  | None => Ok content
  end.

Definition PreviewObject (bucket key : string) : M (result Preview) :=
  if decide (bucket = "" ∨ key = "" ∨ Contains key ".." = true)
  then mret (Err (ErrMsg "valid bucket and key are required")) else
  let limit := if decide (br_PreviewLimit b <= 0)%Z then default_preview else br_PreviewLimit b in
  response ← browser_get ("/" ++ bucket ++ "/" ++ key) ∅;
  mret (match response with
        | Err e => Err e
        | Ok response =>
            match read_limited (add64 limit 1) response with
            | Err e => Err e
            | Ok content =>
                let long := bool_decide (limit < Z.of_nat (String.length content))%Z in
                Ok (mkPreview bucket key (s3_ContentType response) (s3_ContentLength response) long
                      (if long then first_bytes (Z.to_N limit) content else content))
            end
        end).
End browser.

(** ** The storage proxy (cmd/storage-proxy/main.go) *)

Inductive written (A : Type) : Type :=
  | Written (status : Z) (value : A)
  | Failed (status : Z) (error : string).
Arguments Written {A}.
Arguments Failed {A}.

Section proxy.
Context `{Host} `{ObjectXML}.
Variable s3 : object_store.
Variable config : Config.
(** [MLAIOPS_INTERNAL_TOKEN] *)
Variable token : string.

(** The proxy's requests: the [Authorization] header and the raw query. *)
Definition authorized (authorization : string) : Prop :=
  token = "" ∨ authorization = "Bearer " ++ token.
#[export] Instance authorized_dec authorization : Decision (authorized authorization).
Proof. unfold authorized. apply _. Defined.

Definition when_authorized {A} (authorization : string) (handle : M (written A)) : M (written A) :=
  if decide (authorized authorization) then handle else mret (Failed 401 "unauthorized").

Definition bad_gateway {A} (r : result A) : written A :=
  match r with Ok value => Written 200 value | Err e => Failed 502 (error_text e) end.

Definition proxy_buckets (authorization : string) : M (written (list Bucket)) :=
  when_authorized authorization (buckets ← ListBuckets s3 (NewBrowser config); mret (bad_gateway buckets)).

Definition proxy_objects (authorization raw : string) : M (written Listing) :=
  when_authorized authorization (
    let query := ParseQuery raw in
    listing ← ListObjects s3 (NewBrowser config) (Values_Get query "bucket") (Values_Get query "prefix");
    mret (bad_gateway listing)).

Definition proxy_object (authorization raw : string) : M (written Preview) :=
  when_authorized authorization (
    let query := ParseQuery raw in
    preview ← PreviewObject s3 (NewBrowser config) (Values_Get query "bucket") (Values_Get query "key");
    mret (bad_gateway preview)).

(** The URL and [expires_in] of [POST /presign]. *)
Definition proxy_presign (authorization : string) (body : result PresignRequest)
    : M (written (string * Z)) :=
  when_authorized authorization (
    match body with
    | Err e => mret (Failed 400 (error_text e))
    | Ok request =>
        t ← now;
        mret (match Presign config request t with
              | Err e => Failed 422 (error_text e)
              | Ok signed => Written 200 (signed, ps_TTLSeconds request)
              end)
    end).
End proxy.

(** ** The gateway's side (httpapi/server.go) *)

Class StorageGateway := {
  STORAGE_PROXY_URL : string;
  storage_token : string;
  (** [json.Decode] of an object's [buckets]. *)
  json_buckets : string → result (list (gmap string any))
}.

(** What [storageProxy] writes: an error, the buckets it filtered, or the body of
    the proxy as it came. *)
Inductive storage_reply : Type :=
  | StorageError (status : Z) (code message : string)
  | StorageBuckets (status : Z) (buckets : list (gmap string any))
  | StorageCopy (status : Z) (body : string).

Section gateway.
Context `{Net} `{StorageGateway}.
Implicit Types r : request.

Definition storage_target (path raw : string) : string :=
  TrimRightByte "/" (if decide (STORAGE_PROXY_URL = "") then "http://localhost:8084" else STORAGE_PROXY_URL)
  ++ path ++ (if decide (raw = "") then "" else "?" ++ raw).

Definition bucket_name (bucket : gmap string any) : string :=
  match bucket !! "name" with Some (AStr name) => name | _ => "" end.

Definition granted_buckets (d : state) r : list string :=
  default [] (sg_Buckets ∘ ua_Storage <$> repo_AccessFor d (pr_Subject (principal r))).

Definition storage_denied : storage_reply :=
  StorageError 403 "access_denied" "storage bucket is not assigned to this user".

(** [storageProxy], of one path and a request with its raw query. *)
Definition storageProxy (path : string) r (raw : string) : M storage_reply :=
  d ← data;
  if negb (storageAllowed d (principal r) (Values_Get (ParseQuery raw) "bucket"))
  then mret storage_denied else
  let headers := if decide (storage_token = "") then []
                 else [("Authorization", "Bearer " ++ storage_token)] in
  response ← ask (λ k, http_do k (mkHttpRequest "GET" (storage_target path raw) headers None));
  match response with
  | Err e => mret (StorageError 502 "storage_unreachable" (error_text e))
  | Ok response =>
      if decide (path = "/buckets" ∧ RoleUser ∈ pr_Roles (principal r)) then
        match json_buckets (hp_Body response) with
        | Err e => mret (StorageError 502 "storage_unreachable" (error_text e))
        | Ok buckets =>
            d ← data;
            mret (StorageBuckets (hp_StatusCode response)
                    (filter (λ bucket, bucket_name bucket ∈ granted_buckets d r) buckets))
        end
      else mret (StorageCopy (hp_StatusCode response) (hp_Body response))
  end.
End gateway.
