(* ===== verification/StorageProps.v ===== *)
(** * What the storage proxy promises *)

From Stdlib Require Import Ascii.
From stdpp Require Import sorting.
From S2P Require Import Prelude GoStrings Urls Dates Types World Access Tokens Auth HttpAccess Integrations.
From S2P Require Import Dispatch Handlers Storage.

Open Scope string_scope.

(** ** Encoded queries *)

Definition add_pair (m : Values) (p : string * string) : Values :=
  <[p.1 := app (default [] (m !! p.1)) [p.2]]> m.

Lemma add_pairs_key k vs (m : Values) :
  foldl add_pair m (pair k <$> vs)
  = if decide (vs = []) then m else <[k := app (default [] (m !! k)) vs]> m.
Proof.
  revert m. induction vs as [|v vs IH]; intros m; [done|]. cbn [fmap list_fmap foldl]. rewrite IH.
  rewrite (decide_False (P := v :: vs = [])) by done. unfold add_pair. cbn [fst snd].
  case_decide as Hvs; [by subst|]. rewrite lookup_insert_eq, insert_insert_eq. simpl.
  by rewrite <-app_assoc.
Qed.

Definition no_empty (q : Values) : Prop := ∀ k vs, q !! k = Some vs → vs ≠ [].

Lemma add_pairs_keys q ks (m : Values) k :
  NoDup ks → (∀ k', k' ∈ ks → ∃ vs, q !! k' = Some vs ∧ vs ≠ []) →
  foldl add_pair m (concat (key_pairs q <$> ks)) !! k
  = if decide (k ∈ ks) then Some (app (default [] (m !! k)) (sort_Strings (default [] (q !! k))))
    else m !! k.
Proof.
  intros Hnd. revert m. induction Hnd as [|k' ks Hk' Hnd IH]; intros m Hks.
  { by rewrite decide_False by set_solver. }
  cbn [fmap list_fmap concat]. rewrite foldl_app, IH by set_solver.
  destruct (Hks k') as (vs&Hvs&Hne); [set_solver|].
  unfold key_pairs. rewrite add_pairs_key, Hvs. cbn [default from_option id].
  rewrite (decide_False (P := sort_Strings vs = [])) by (by intros ?%sort_Strings_nil).
  destruct (decide (k = k')) as [->|Hk].
  - rewrite (decide_False (P := k' ∈ ks)), (decide_True (P := k' ∈ k' :: ks)) by set_solver.
    by rewrite lookup_insert_eq, Hvs.
  - rewrite lookup_insert_ne by done. by repeat case_decide; set_solver.
Qed.

Lemma query_keys_spec q :
  NoDup (query_keys q) ∧ ∀ k, k ∈ query_keys q ↔ is_Some (q !! k).
Proof.
  unfold query_keys, sort_Strings. split.
  - rewrite merge_sort_Permutation. apply NoDup_fst_map_to_list.
  - intros k. rewrite merge_sort_Permutation, list_elem_of_fmap. split.
    + intros ([k' v]&->&?%elem_of_map_to_list). by eexists.
    + intros [v Hv]. exists (k, v). by rewrite elem_of_map_to_list.
Qed.

(** An encoded query parses as the query, each key's values sorted. *)
Lemma ParseQuery_encode q : no_empty q → ParseQuery (encodeQuery q) = sort_Strings <$> q.
Proof.
  intros Hq. unfold encodeQuery. rewrite ParseQuery_pairs. apply map_eq. intros k.
  destruct (query_keys_spec q) as [Hnd Hin]. unfold query_pairs.
  rewrite (add_pairs_keys q _ ∅ k Hnd), lookup_fmap, lookup_empty.
  - cbn [default from_option id app]. case_decide as Hk; rewrite Hin in Hk.
    + by destruct Hk as [vs ->].
    + by apply eq_None_not_Some in Hk as ->.
  - intros k' Hk'. apply Hin in Hk' as [vs Hvs]. eauto.
Qed.

Lemma encodeQuery_sorted q : encodeQuery (sort_Strings <$> q) = encodeQuery q.
Proof.
  unfold encodeQuery, query_pairs.
  assert (query_keys (sort_Strings <$> q) = query_keys q) as ->.
  { apply sort_Strings_perm. rewrite map_to_list_fmap, <-list_fmap_compose.
    apply eq_subrelation; [apply _|]. apply list_fmap_ext. by intros _ [? ?] _. }
  do 3 f_equal. apply list_fmap_ext. intros _ k _. unfold key_pairs. f_equal.
  rewrite lookup_fmap. destruct (q !! k); [|done]. cbn. apply sort_Strings_idemp.
Qed.

Lemma query_pair_text p : all_bytes query_text_byte (query_pair p) = true.
Proof.
  assert (∀ s, all_bytes encoded_query_byte s = true → all_bytes query_text_byte s = true) as H.
  { intros s. apply all_bytes_impl. intros a Ha.
    assert (implb (encoded_query_byte a) (query_text_byte a) = true) as H.
    { by apply (forall_bytes (λ a, implb (encoded_query_byte a) (query_text_byte a))). }
    by rewrite Ha in H. }
  unfold query_pair. rewrite !all_bytes_app, (H _ (QueryEscape_bytes _)), (H _ (escape_value_bytes _)).
  done.
Qed.

Lemma encodeQuery_text q : all_bytes query_text_byte (encodeQuery q) = true.
Proof.
  unfold encodeQuery. induction (query_pairs q) as [|p [|p' l] IH]; [done|apply query_pair_text|].
  cbn [fmap list_fmap Join] in *. rewrite !all_bytes_app, query_pair_text, IH. done.
Qed.

(** ** Signatures *)

Section signing.
Context `{Host}.

Lemma server_url_query u raw : server_url u → server_url (u <|u_RawQuery := raw|>).
Proof. by intros []. Qed.

Lemma Values_Get_sorted (q : Values) k v : q !! k = Some [v] → Values_Get (sort_Strings <$> q) k = v.
Proof. intros Hk. unfold Values_Get. rewrite lookup_fmap, Hk. done. Qed.

Lemma signing_query_spec config region query expires t (q := signing_query config region query expires t) :
  q !! "X-Amz-Credential" = Some [cfg_AccessKey config ++ "/" ++ scope_of (format_date t) region]
  ∧ q !! "X-Amz-Date" = Some [format_timestamp t]
  ∧ q !! "X-Amz-Expires" = Some [expires]
  ∧ q !! "X-Amz-Signature" = query !! "X-Amz-Signature"
  ∧ (no_empty query → no_empty q).
Proof.
  subst q. unfold signing_query, Values_Set.
  split_and!; try (by repeat (rewrite lookup_insert_eq || rewrite lookup_insert_ne by done)).
  intros Hq k vs. repeat (intros [[_ <-]|[_ ?]]%lookup_insert_Some; [done|]; revert select (_ !! _ = _)).
  apply Hq.
Qed.

Lemma Split_scope access date region :
  no_slash access → no_slash date → no_slash region →
  Split (access ++ "/" ++ scope_of date region) "/" = [access; date; region; "s3"; "aws4_request"].
Proof.
  intros Ha Hd Hr. unfold scope_of.
  apply (Split_Join "/" [access; date; region; "s3"; "aws4_request"]); [done|].
  by repeat constructor.
Qed.

Lemma signed_url_verifies config method endpoint query expires t :
  server_url endpoint → HasPrefix (u_Path endpoint) "/" = true →
  no_empty query → query !! "X-Amz-Signature" = None →
  no_slash (cfg_AccessKey config) → no_slash (region_of config) →
  verifySigV4 method (signed_url config method endpoint query expires t) (cfg_SecretKey config) = true.
Proof.
  intros Hserver Hpath Hq Hsig Haccess Hregion. unfold signed_url. cbv zeta.
  set (q := signing_query config (region_of config) query expires t).
  set (v := signature _ _ _ _ _ _).
  destruct (signing_query_spec config (region_of config) query expires t)
    as (Hcred&Hdate&_&Hnone&Hne). fold q in Hcred, Hdate, Hnone, Hne.
  rewrite Hsig in Hnone. specialize (Hne Hq).
  destruct (Parse_String (endpoint <|u_RawQuery := encodeQuery (Values_Set "X-Amz-Signature" v q)|>))
    as (u&Hparse&Hhost&_&Hescaped&Hraw);
    [by apply server_url_query|done|apply encodeQuery_text|].
  unfold verifySigV4. rewrite Hparse, Hraw, Hhost, Hescaped. cbn [u_RawQuery u_Host set_field].
  rewrite ParseQuery_encode.
  2: { intros k vs. unfold Values_Set. intros [[_ <-]|[_ ?]]%lookup_insert_Some; [done|by eapply Hne]. }
  assert (delete "X-Amz-Signature" (sort_Strings <$> Values_Set "X-Amz-Signature" v q)
          = sort_Strings <$> q) as ->.
  { unfold Values_Set. rewrite fmap_insert, delete_insert_eq. apply delete_id.
    by rewrite lookup_fmap, Hnone. }
  rewrite encodeQuery_sorted, (Values_Get_sorted q _ _ Hcred), (Values_Get_sorted q _ _ Hdate).
  rewrite Split_scope by auto using format_date_no_slash.
  rewrite (Values_Get_sorted _ "X-Amz-Signature" v) by apply lookup_insert_eq.
  by apply bool_decide_eq_true_2.
Qed.
End signing.

(** ** Paths *)

Definition kept_segment (s : string) : Prop := s ≠ "" ∧ s ≠ ".".
#[export] Instance kept_segment_dec s : Decision (kept_segment s).
Proof. unfold kept_segment. apply _. Defined.

Lemma clean_no_dots acc l :
  Forall (λ s, s ≠ "..") l → foldl clean_step acc l = (acc ++ filter kept_segment l)%list.
Proof.
  intros Hl. revert acc. induction Hl as [|s l Hs _ IH]; intros acc; [by rewrite app_nil_r|].
  cbn [foldl]. rewrite IH. unfold clean_step. rewrite filter_cons. unfold kept_segment.
  destruct (decide (s = "")) as [->|]; [by rewrite decide_True, decide_False by tauto|].
  destruct (decide (s = ".")) as [->|]; [by rewrite decide_True, decide_False by tauto|].
  rewrite (decide_False (P := s = "" ∨ _)), (decide_False (P := s = "..")), (decide_True (P := s ≠ "" ∧ _)) by tauto.
  by rewrite <-app_assoc.
Qed.

(** The path [Presign] signs: the endpoint's own, the bucket and the key. *)
Lemma path_Join_segments base bucket key :
  no_slash bucket →
  path_Join [base; bucket; key]
  = "/" ++ Join (foldl clean_step (clean_step (clean_segments base) bucket) (Split key "/")) "/".
Proof.
  intros Hb. unfold path_Join, clean_segments at 1. do 2 f_equal.
  change (Join ["/"; base; bucket; key] "/") with
    (String "/" (String "/" (base ++ String "/" (bucket ++ String "/" key)))).
  change (String "/" (String "/" (base ++ String "/" (bucket ++ String "/" key))))
    with ("" ++ String "/" ("" ++ String "/" (base ++ String "/" (bucket ++ String "/" key)))).
  rewrite !Split_app, (Split_none "/" bucket), !foldl_app by done. done.
Qed.

(** A key without two dots in a row has no such segment. *)
Lemma Contains_app_l s t p : Contains t p = true → Contains (s ++ t) p = true.
Proof.
  intros Ht. induction s as [|a s IH]; [done|]. rewrite str_app_cons. cbn [Contains].
  by rewrite IH, orb_true_r.
Qed.

Lemma Contains_prefix p t : Contains (p ++ t) p = true.
Proof. destruct (p ++ t) eqn:E; cbn [Contains]; by rewrite <-E, prefix_app. Qed.

Lemma split_acc_segment c acc s seg :
  seg ∈ split_acc c acc s → ∃ before after, String.rev acc ++ s = before ++ seg ++ after.
Proof.
  revert acc. induction s as [|a s IH]; intros acc; cbn [split_acc].
  - intros ->%list_elem_of_singleton. exists "", "". by rewrite str_app_nil_l.
  - destruct (Ascii.eqb a c).
    + intros [->|Hin]%elem_of_cons; [by exists "", (String a s)|].
      destruct (IH "" Hin) as (b&f&E). exists (String.rev acc ++ String a b), f.
      rewrite <-str_app_assoc, str_app_cons, <-E. done.
    + intros Hin. destruct (IH (String a acc) Hin) as (b&f&E). exists b, f.
      rewrite <-E, str_rev_cons, <-str_app_assoc. done.
Qed.

Lemma no_dots_segments key : Contains key ".." = false → Forall (λ s, s ≠ "..") (Split key "/").
Proof.
  intros Hkey. apply Forall_forall. intros s Hs ->.
  destruct (split_acc_segment _ _ _ _ Hs) as (b&f&E). rewrite str_app_nil_l in E. subst key.
  rewrite Contains_app_l in Hkey; [done|]. apply Contains_prefix.
Qed.

(** ** Presigned URLs *)

Section presign.
Context `{Host}.

Lemma Presign_Ok config req t signed :
  Presign config req t = Ok signed →
  ∃ endpoint, Parse (cfg_Endpoint config) = Some endpoint
    ∧ ps_Bucket req ≠ "" ∧ ps_Key req ≠ "" ∧ no_slash (ps_Bucket req) ∧ Contains (ps_Key req) ".." = false
    ∧ (ToUpper (ps_Operation req) = "GET" ∨ ToUpper (ps_Operation req) = "PUT")
    ∧ (ps_TTLSeconds req <= 900)%Z
    ∧ let ttl := if decide (ps_TTLSeconds req <= 0)%Z then 300%Z else ps_TTLSeconds req in
      signed = signed_url config (ToUpper (ps_Operation req))
        (endpoint <|u_Path := path_Join [u_Path endpoint; ps_Bucket req; ps_Key req]|>)
        (ParseQuery (u_RawQuery endpoint)) (pretty ttl) t.
Proof.
  unfold Presign. case_decide; [done|]. case_decide as Hreq; [done|]. case_decide as Hm; [done|].
  cbv zeta. case_decide as Httl; [done|]. destruct (Parse (cfg_Endpoint config)) as [e|]; [|done].
  intros [= <-]. exists e. unfold no_slash.
  assert (ToUpper (ps_Operation req) = "GET" ∨ ToUpper (ps_Operation req) = "PUT").
  { destruct (decide (ToUpper (ps_Operation req) = "GET")); [by left|].
    destruct (decide (ToUpper (ps_Operation req) = "PUT")); [by right|]. tauto. }
  split_and!; try done.
  - tauto.
  - tauto.
  - apply not_true_iff_false. tauto.
  - apply not_true_iff_false. tauto.
  - case_decide; lia.
Qed.

Lemma path_Join_slash l : HasPrefix (path_Join l) "/" = true.
Proof. unfold path_Join. apply HasPrefix_app. Qed.

Lemma server_url_path u p : server_url u → server_url (u <|u_Path := p|>).
Proof. by intros []. Qed.

(** A signed URL parses back to the host, the path and the query it was made of. *)
Lemma signed_url_parses config method endpoint query expires t :
  server_url endpoint → HasPrefix (u_Path endpoint) "/" = true → no_empty query →
  ∃ u, Parse (signed_url config method endpoint query expires t) = Some u
    ∧ u_Host u = u_Host endpoint ∧ u_Path u = u_Path endpoint
    ∧ Values_Get (ParseQuery (u_RawQuery u)) "X-Amz-Expires" = expires.
Proof.
  intros Hserver Hpath Hq. unfold signed_url. cbv zeta.
  set (q := signing_query config (region_of config) query expires t). set (v := signature _ _ _ _ _ _).
  destruct (signing_query_spec config (region_of config) query expires t) as (_&_&Hexpires&_&Hne).
  fold q in Hexpires, Hne. specialize (Hne Hq).
  destruct (Parse_String (endpoint <|u_RawQuery := encodeQuery (Values_Set "X-Amz-Signature" v q)|>))
    as (u&Hparse&Hhost&Hp&_&Hraw); [by apply server_url_query|done|apply encodeQuery_text|].
  exists u. split_and!; [done..|]. rewrite Hraw. cbn [u_RawQuery set_field]. rewrite ParseQuery_encode.
  - apply Values_Get_sorted. unfold Values_Set. by rewrite lookup_insert_ne.
  - intros k vs. unfold Values_Set. intros [[_ <-]|[_ ?]]%lookup_insert_Some; [done|by eapply Hne].
Qed.

Lemma clean_step_bucket base bucket :
  bucket ≠ "" →
  clean_step base bucket = if decide (bucket = ".") then base else
                           if decide (bucket = "..") then removelast base else (base ++ [bucket])%list.
Proof. intros Hb. unfold clean_step. repeat case_decide; try done; naive_solver. Qed.

End presign.

(** ** The browser *)

(** A path of one of some buckets. *)
Definition within_buckets (buckets : list string) (p : string) : Prop :=
  ∃ bucket, bucket ∈ buckets ∧ bucket ≠ "" ∧ (p = "/" ++ bucket ∨ HasPrefix p ("/" ++ bucket ++ "/") = true).

Section browsing.
Context `{Host} `{ObjectXML}.

Definition get_signed (config : Config) : Prop :=
  ∃ endpoint, Parse (cfg_Endpoint config) = Some endpoint ∧ server_url endpoint.

(** A request of the browser reads the store at the path it is for, only. *)
Lemma browser_get_local b p query s1 s2 w :
  get_signed (br_Config b) → HasPrefix p "/" = true → no_empty query →
  (∀ k signed u, Parse signed = Some u → u_Path u = p → s1 k signed = s2 k signed) →
  browser_get s1 b p query w = browser_get s2 b p query w.
Proof.
  intros (endpoint&Hparse&Hserver) Hp Hq Hs. unfold browser_get.
  cbv beta delta [mbind M_bind now ask mret M_ret fst] iota.
  destruct (signedURL _ "GET" p query _) as [signed|] eqn:Hsigned; [|done].
  enough (s1 (w_tick (w <|w_tick := S (w_tick w)|>)) signed
          = s2 (w_tick (w <|w_tick := S (w_tick w)|>)) signed) as -> by done.
  unfold signedURL in Hsigned. case_decide; [done|]. rewrite Hparse in Hsigned. injection Hsigned as <-.
  destruct (signed_url_parses (br_Config b) "GET" (endpoint <|u_Path := p|>) query "300" (clock (w_tick w)))
    as (u&Hu&_&Hpath&_); [by apply server_url_path|done|done|].
  by apply (Hs _ _ u).
Qed.

Lemma no_empty_listing prefix : no_empty (listing_query prefix).
Proof.
  intros k vs. unfold listing_query, Values_Set.
  case_decide; repeat (intros [[_ <-]|[_ ?]]%lookup_insert_Some; [done|]; revert select (_ !! _ = _));
    by rewrite lookup_empty.
Qed.

(** Two stores that agree on a bucket's paths. *)
Definition agree_on (buckets : list string) (s1 s2 : object_store) : Prop :=
  ∀ k signed u, Parse signed = Some u → within_buckets buckets (u_Path u) → s1 k signed = s2 k signed.

Lemma proxy_object_local config token authorization raw buckets s1 s2 w :
  get_signed config → agree_on buckets s1 s2 →
  (Values_Get (ParseQuery raw) "bucket" = "" ∨ Values_Get (ParseQuery raw) "bucket" ∈ buckets) →
  proxy_object s1 config token authorization raw w = proxy_object s2 config token authorization raw w.
Proof.
  intros Hc Hs Hb. unfold proxy_object, when_authorized. case_decide; [|done]. cbv zeta.
  unfold PreviewObject. case_decide as Hreq; [done|]. cbv zeta.
  cbv beta delta [mbind M_bind] iota. rewrite (browser_get_local _ _ _ s1 s2); [done|done|apply HasPrefix_app| |].
  - intros k vs. by rewrite lookup_empty.
  - intros k signed u Hu Hp. apply (Hs _ _ u Hu). eexists. split_and!; [naive_solver|tauto|].
    right. rewrite Hp. by rewrite !str_app_assoc, HasPrefix_app.
Qed.

Lemma proxy_objects_local config token authorization raw buckets s1 s2 w :
  get_signed config → agree_on buckets s1 s2 →
  (Values_Get (ParseQuery raw) "bucket" = "" ∨ Values_Get (ParseQuery raw) "bucket" ∈ buckets) →
  proxy_objects s1 config token authorization raw w = proxy_objects s2 config token authorization raw w.
Proof.
  intros Hc Hs Hb. unfold proxy_objects, when_authorized. case_decide; [|done]. cbv zeta.
  unfold ListObjects. case_decide as Hreq; [done|]. cbv zeta.
  cbv beta delta [mbind M_bind] iota. rewrite (browser_get_local _ _ _ s1 s2); [done|done|apply HasPrefix_app| |].
  - apply no_empty_listing.
  - intros k signed u Hu Hp. apply (Hs _ _ u Hu). eexists. split_and!; [naive_solver|tauto|by left].
Qed.

Lemma storageAllowed_limited d value bucket :
  limited value → storageAllowed d value bucket = true →
  bucket = "" ∨ bucket ∈ default [] (sg_Buckets ∘ ua_Storage <$> repo_AccessFor d (pr_Subject value)).
Proof.
  intros Hl. unfold storageAllowed. rewrite decide_False by tauto.
  destruct (repo_AccessFor d (pr_Subject value)) as [access|]; [|done].
  case_decide; [done|]. case_decide; [by left|]. intros Hb%bool_decide_eq_true. by right.
Qed.

(** C38: a user of the storage browser sees the buckets of its grant and nothing
    else.  What the gateway answers to a limited caller is a refusal, or the
    names of granted buckets for the list of buckets; and where it forwards a
    request, what the storage proxy answers to it is the same for any two object
    stores that agree on the granted buckets, whatever they hold elsewhere. *)
Theorem storage_confined `{Net} `{StorageGateway} config p (r : request) raw w :
  get_signed config → limited (principal r) →
  let reply := (storageProxy p r raw w).1 in
  let buckets := granted_buckets (w_data w) r in
  (p = "/buckets" → ∀ status body, reply ≠ StorageCopy status body)
  ∧ (∀ status listed, reply = StorageBuckets status listed →
      Forall (λ bucket, bucket_name bucket ∈ buckets) listed)
  ∧ (reply = storage_denied
     ∨ ∀ s1 s2 token authorization w', agree_on buckets s1 s2 →
         proxy_object s1 config token authorization raw w'
           = proxy_object s2 config token authorization raw w'
         ∧ proxy_objects s1 config token authorization raw w'
           = proxy_objects s2 config token authorization raw w').
Proof.
  intros Hc Hl. cbv zeta. unfold storageProxy.
  cbv beta delta [mbind M_bind data ask mret M_ret] iota.
  destruct (storageAllowed (w_data w) (principal r) _) eqn:Hallowed; cbn [negb].
  2: { split_and!; [done..|by left]. }
  apply storageAllowed_limited in Hallowed; [|done].
  assert (RoleUser ∈ pr_Roles (principal r)) as Hrole.
  { destruct Hl as [_ Hl]. by apply hasRole_spec in Hl. }
  split_and!.
  - intros -> status body. destruct (http_do _ _) as [response|]; [|done].
    rewrite decide_True by done. by destruct (json_buckets _).
  - intros status listed. destruct (http_do _ _) as [response|]; [|done].
    case_decide; [|done]. destruct (json_buckets _); [|done]. intros [= _ <-]. apply Forall_forall. intros bucket Hb. by apply list_elem_of_filter in Hb as [? _].
  - right. intros s1 s2 token authorization w' Hs. split.
    + eapply proxy_object_local; eauto.
    + eapply proxy_objects_local; eauto.
Qed.

(** ** Previews *)

Lemma first_bytes_length n s :
  (Z.of_nat (String.length (first_bytes n s)) = Z.min (Z.of_N n) (Z.of_nat (String.length s)))%Z.
Proof.
  revert n. induction s as [|a s IH]; intros n; cbn [first_bytes String.length]; [lia|].
  destruct (N.eqb_spec n 0) as [->|Hn]; cbn [String.length]; [lia|]. rewrite !Nat2Z.inj_succ, IH. lia.
Qed.

Lemma first_bytes_first n m s : (n <= m)%N → first_bytes n (first_bytes m s) = first_bytes n s.
Proof.
  revert n m. induction s as [|a s IH]; intros n m Hnm; [done|]. cbn [first_bytes].
  destruct (N.eqb_spec m 0) as [->|Hm].
  - cbn [first_bytes]. by assert (n = 0)%N as -> by lia.
  - cbn [first_bytes]. destruct (N.eqb_spec n 0); [done|]. f_equal. apply IH. lia.
Qed.

Lemma first_bytes_all n s : (Z.of_nat (String.length s) <= Z.of_N n)%Z → first_bytes n s = s.
Proof.
  revert n. induction s as [|a s IH]; intros n Hn; [done|]. cbn [first_bytes String.length] in *.
  destruct (N.eqb_spec n 0) as [->|]; [lia|]. f_equal. apply IH. lia.
Qed.

Lemma read_limited_Ok n response content :
  (0 < n)%Z → read_limited n response = Ok content → content = first_bytes (Z.to_N n) (s3_Body response).
Proof.
  intros Hn. unfold read_limited. rewrite decide_False by lia. cbv zeta.
  repeat case_match; by intros [= <-].
Qed.

(** A preview is bounded: it holds the first bytes of the object, at most the
    browser's limit of them (64 KiB where none is set), and says it is truncated
    exactly when the object is longer. *)
Theorem preview_bounded s3 b bucket key w preview :
  (br_PreviewLimit b < int64_max)%Z →
  (PreviewObject s3 b bucket key w).1 = Ok preview →
  let limit := if decide (br_PreviewLimit b <= 0)%Z then default_preview else br_PreviewLimit b in
  ∃ k signed response, s3 k signed = Ok response
    ∧ pv_Content preview = first_bytes (Z.to_N limit) (s3_Body response)
    ∧ (Z.of_nat (String.length (pv_Content preview)) <= limit)%Z
    ∧ pv_Truncated preview = bool_decide (limit < Z.of_nat (String.length (s3_Body response)))%Z
    ∧ pv_Bucket preview = bucket ∧ pv_Key preview = key.
Proof.
  intros Hmax. unfold PreviewObject. case_decide; [done|]. cbv zeta.
  set (limit := if decide (br_PreviewLimit b <= 0)%Z then default_preview else br_PreviewLimit b).
  assert (0 < limit < int64_max)%Z as Hlimit by (subst limit; unfold default_preview, int64_max in *; case_decide; lia).
  assert (add64 limit 1 = limit + 1)%Z as ->.
  { apply wrap64_id. unfold is_int64, int64_min, int64_max in *. lia. }
  unfold browser_get. cbv beta delta [mbind M_bind now ask mret M_ret fst] iota.
  destruct (signedURL _ _ _ _ _) as [signed|]; [|done].
  destruct (s3 _ signed) as [response|] eqn:Hs; [|done]. case_decide; [done|].
  destruct (read_limited _ _) as [content|] eqn:Hread; [|done]. intros [= <-].
  apply read_limited_Ok in Hread as ->; [|lia]. do 3 eexists. split; [exact Hs|]. cbn.
  pose proof (first_bytes_length (Z.to_N (limit + 1)) (s3_Body response)) as Hlen.
  pose proof (first_bytes_first (Z.to_N limit) (Z.to_N (limit + 1)) (s3_Body response) ltac:(lia)) as Hfirst.
  case_bool_decide as Hlong; split_and!; try done.
  - rewrite Hfirst, first_bytes_length. lia.
  - symmetry. apply bool_decide_eq_true_2. lia.
  - rewrite <-Hfirst. symmetry. apply first_bytes_all. lia.
  - lia.
  - symmetry. apply bool_decide_eq_false_2. lia.
Qed.
End browsing.

(** ** The theorems at concrete inputs *)

Definition minio : Config := mkConfig "http://minio:9000" "" "mlaiops" "secret".
Definition minio_url : url := zero <|u_Scheme := "http"|> <|u_Host := "minio:9000"|>.

Lemma minio_parses : Parse (cfg_Endpoint minio) = Some minio_url.
Proof. vm_compute. reflexivity. Qed.

Lemma minio_server : server_url minio_url.
Proof. by split; vm_compute. Qed.

Definition download : PresignRequest := mkPresignRequest "models" "churn/1/model.pkl" "get" 300.
Definition noon : Time := 1782993600000000000%Z.


(** A request for the bucket [..], without a lifetime. *)
Definition upload : PresignRequest := mkPresignRequest ".." "vault//key" "PUT" 0.


#[local] Instance deaf_net : Net := {|
  http_do := λ _ _, Ok (mkHttpResponse 200 "{}" "");
  json_value := λ _, None;
  json_id := λ _, Err (ErrIO "json");
  json_any := λ _, None;
  json_functions := λ _, Err (ErrIO "json");
  basic_auth := λ _ _, ""
|}.

#[local] Instance storage_gateway : StorageGateway := {|
  STORAGE_PROXY_URL := "";
  storage_token := "t";
  json_buckets := λ _, Ok [{["name" := AStr "reports"]}; {["name" := AStr "vault"]}]
|}.

#[local] Instance listing_xml : ObjectXML := {|
  decode_buckets := λ _, Ok [];
  decode_objects := λ _, Ok ([], [])
|}.

Definition bob : request := mkRequest "" "" "" ∅ ""
  (Some (mkPrincipal "bob" "" "" ["user"] [] ["storage"] [] false true "")).

Definition bob_world : world :=
  (booting "" ∅) <|w_data := zero <|st_UserAccess :=
    [zero <|ua_Subject := "bob"|> <|ua_Storage := mkStorageGrant 5 ["reports"]|>]|>|>.

(** A store that holds one object of another bucket. *)
Definition vault : object_store := λ _ signed,
  match Parse signed with
  | Some u => if decide (u_Path u = "/vault/key") then Ok (mkS3Response 200 "" "" 3 "key" None)
              else Err (ErrIO "404")
  | None => Err (ErrIO "404")
  end.

Lemma storage_confined_witness :
  proxy_object (H := quiet_host) (λ _ _, Err (ErrIO "404")) minio "t" "Bearer t" "bucket=reports&key=q1"
      bob_world
    = proxy_object (H := quiet_host) vault minio "t" "Bearer t" "bucket=reports&key=q1" bob_world
  ∧ (storageProxy "/object" bob "bucket=vault&key=key" bob_world).1 = storage_denied.
Proof.
  split; [|vm_compute; reflexivity].
  destruct (proj2 (proj2 (storage_confined (H := quiet_host) minio "/object" bob "bucket=reports&key=q1"
    bob_world (ex_intro _ minio_url (conj minio_parses minio_server)) (conj eq_refl eq_refl))))
    as [Hdenied|Hsame]; [vm_compute in Hdenied; done|].
  refine (proj1 (Hsame (λ _ _, Err (ErrIO "404")) vault "t" "Bearer t" bob_world _)).
  intros k signed u Hu (bucket&Hin&_&Hp). unfold vault. rewrite Hu, decide_False; [done|].
  intros Hpath. assert (bucket = "reports") as -> by set_solver.
  rewrite Hpath in Hp. destruct Hp as [Hp|Hp]; vm_compute in Hp; done.
Defined.

Definition wordy : object_store := λ _ _, Ok (mkS3Response 200 "200 OK" "text/plain" 11 "hello world" None).

Lemma preview_bounded_witness :
  ∃ preview, (PreviewObject (H := quiet_host) wordy (mkBrowser minio 5) "reports" "q1" bob_world).1 = Ok preview
    ∧ (Z.of_nat (String.length (pv_Content preview)) <= 5)%Z.
Proof.
  destruct ((PreviewObject (H := quiet_host) wordy (mkBrowser minio 5) "reports" "q1" bob_world).1)
    as [preview|] eqn:E; [|vm_compute in E; done].
  exists preview. split; [done|].
  destruct (preview_bounded (H := quiet_host) wordy (mkBrowser minio 5) "reports" "q1" bob_world preview
              ltac:(done) E) as (_&_&_&_&_&Hlen&_).
  exact Hlen.
Defined.
