(* ===== verification/Metrics.v ===== *)
(** * The metrics collector (internal/metrics, cmd/metrics-collector)

    Two pollers and the page Prometheus scrapes: the health of the configured
    targets, and what the gateway says of agents, runs and realtime consumers. *)

From Stdlib Require Import Ascii SpecFloat.
From S2P Require Import Prelude GoStrings Urls Types Floats World Pipelines Runs Integrations.

Open Scope string_scope.

(** [encoding/json] on the gateway's documents: the identifiers of a page of
    agents, the usage of one, the statuses of a list of runs, the gauges. *)
Record usage := mkUsage {
  us_Sessions : Z;
  us_Active : Z;
  us_InputTokens : float64;
  us_OutputTokens : float64;
  us_CostUSD : float64
}.

Class MetricsJson := {
  decode_agents : string → result (list string);
  decode_usage : string → result usage;
  decode_runs : string → result (list string);
  decode_demos : string → result (gmap string (gmap string any));
  (** A response's status line. *)
  status_line : Z → string
}.

(** [time.Time.Unix], and that of the zero time, the first of January of year 1. *)
Definition unix (t : option Time) : Z :=
  match t with Some t => (t / 1000000000)%Z | None => (-62135596800)%Z end.

Definition newline : string := String "010" "".
Definition lines (l : list string) : string := String.concat "" ((λ x, x ++ newline) <$> l).

(** ** Component health *)

Record Collector := mkCollector {
  co_targets : gmap string string;
  co_up : gmap string float64;
  co_checked : gmap string Time
}.
#[export] Instance eta_Collector : Eta Collector := λ c,
  mkCollector (co_targets c) (co_up c) (co_checked c).

(** [New] *)
Definition NewCollector (targets : gmap string string) : Collector := mkCollector targets ∅ ∅.

Definition component_line (name : string) (value : string) : string :=
  "mlaiops_component_up{component=" ++ quote name ++ "} " ++ value.
Definition checked_line (name : string) (value : string) : string :=
  "mlaiops_component_last_check_timestamp_seconds{component=" ++ quote name ++ "} " ++ value.

Definition collector_text (c : Collector) : list string :=
  let names := sort_Strings (elements (dom (co_targets c))) in
  ("# HELP mlaiops_component_up Whether a platform component health endpoint is reachable."
   :: "# TYPE mlaiops_component_up gauge"
   :: ((λ name, component_line name (format_g (default zero (co_up c !! name)))) <$> names)
   ++ "# HELP mlaiops_component_last_check_timestamp_seconds Last component health check."
   :: "# TYPE mlaiops_component_last_check_timestamp_seconds gauge"
   :: ((λ name, checked_line name (pretty (unix (co_checked c !! name)))) <$> names))%list.

(** [Collector.Prometheus] *)
Definition Collector_Prometheus (c : Collector) : string := lines (collector_text c).

Section collector.
Context `{Host} `{Net} `{MapOrder}.

(** What one target's answer says. *)
Definition up_of (response : result http_response) : float64 :=
  match response with
  | Ok response => if decide (status_ok (hp_StatusCode response)) then float_one else zero
  | Err _ => zero
  end.

Definition poll_target (c : Collector) (name endpoint : string) : M Collector :=
  response ← ask (λ k, http_do k (mkHttpRequest "GET" endpoint [] None));
  t ← now;
  mret (c <|co_up := <[name := up_of response]> (co_up c)|> <|co_checked := <[name := t]> (co_checked c)|>).

Fixpoint poll_targets (c : Collector) (names : list string) : M Collector :=
  match names with
  | [] => mret c
  | name :: names =>
      c ← poll_target c name (default "" (co_targets c !! name));
      poll_targets c names
  end.

(** [Collector.Poll], over the targets in the order of their map. *)
Definition Collector_Poll (c : Collector) : M Collector := poll_targets c (map_order (co_targets c)).
End collector.

(** [parseTargets] *)
Definition default_targets : gmap string string :=
  {["gateway" := "http://mlaiops-gateway:8080/api/v1/health"]}.

Definition add_target (targets : gmap string string) (item : string) : gmap string string :=
  match cut "=" item with
  | (name, Some endpoint) => <[TrimSpace name := TrimSpace endpoint]> targets
  | (_, None) => targets
  end.

Definition parseTargets (raw : string) : gmap string string :=
  if decide (raw = "") then default_targets
  else foldl add_target ∅ (Split raw ",").

(** ** Platform metrics *)

Record PlatformCollector := mkPlatformCollector {
  pc_GatewayURL : string;
  pc_Token : string;
  pc_metrics : gmap string float64;
  pc_scraped : option Time
}.
#[export] Instance eta_PlatformCollector : Eta PlatformCollector := λ p,
  mkPlatformCollector (pc_GatewayURL p) (pc_Token p) (pc_metrics p) (pc_scraped p).

Definition NewPlatformCollector (gatewayURL token : string) : PlatformCollector :=
  mkPlatformCollector (TrimRightByte "/" gatewayURL) token ∅ None.

Abbreviation samples := (gmap string float64).

(** The name of a sample: a family and its labels. *)
Definition sample (family : string) (labels : list (string * string)) : string :=
  family ++ "{" ++ Join ((λ '(name, value), name ++ "=" ++ quote value) <$> labels) "," ++ "}".

Definition active_sessions agent := sample "mlaiops_agent_active_sessions" [("agent", agent)].
Definition sessions_total agent := sample "mlaiops_agent_sessions_total" [("agent", agent)].
Definition tokens_total agent kind :=
  sample "mlaiops_llm_tokens_used_total" [("agent", agent); ("type", kind)].
Definition cost_total agent := sample "mlaiops_llm_cost_usd_total" [("agent", agent)].
Definition runs_total status := sample "mlaiops_pipeline_runs_total" [("status", status)].
Definition events_total demo := sample "mlaiops_realtime_events_total" [("demo", demo)].
Definition latency demo := sample "mlaiops_realtime_avg_latency_ms" [("demo", demo)].
Definition flagged_total demo := sample "mlaiops_realtime_flagged_total" [("demo", demo)].

Definition add_usage (agent : string) (u : usage) (collected : samples) : samples :=
  <[cost_total agent := us_CostUSD u]>
  (<[tokens_total agent "output" := us_OutputTokens u]>
  (<[tokens_total agent "input" := us_InputTokens u]>
  (<[sessions_total agent := float_of_int (us_Sessions u)]>
  (<[active_sessions agent := float_of_int (us_Active u)]> collected)))).

(** [byStatus] *)
Definition count_status (byStatus : samples) (status : string) : samples :=
  <[status := float_add (default zero (byStatus !! status)) float_one]> byStatus.

Definition by_status (runs : list string) : samples := foldl count_status ∅ runs.

(** [stats[field].(float64)] *)
Definition add_gauge (name : string) (value : option any) (collected : samples) : samples :=
  match value with Some (AFloat f) => <[name := f]> collected | _ => collected end.

Definition add_stats (demo : string) (stats : gmap string any) (collected : samples) : samples :=
  add_gauge (flagged_total demo) (stats !! "flagged")
  (add_gauge (latency demo) (stats !! "avg_latency_ms")
  (add_gauge (events_total demo) (stats !! "events") collected)).

Section platform.
Context `{Host} `{Net} `{MetricsJson} `{MapOrder}.

(** The request of [get], and what it makes of the answer. *)
Definition get_request (p : PlatformCollector) (path : string) : http_request :=
  mkHttpRequest "GET" (pc_GatewayURL p ++ path)
    (if decide (pc_Token p = "") then [] else [("Authorization", "Bearer " ++ pc_Token p)]) None.

Definition got {A} (path : string) (target : string → result A) (response : result http_response)
    : result A :=
  match response with
  | Err e => Err e
  | Ok response =>
      if decide (hp_StatusCode response ≠ 200)%Z
      then Err (ErrMsg ("gateway returned " ++ status_line (hp_StatusCode response) ++ " for " ++ path))
      else target (first_bytes body_limit (hp_Body response))
  end.

Definition platform_get {A} (p : PlatformCollector) (path : string) (target : string → result A)
    : M (result A) :=
  response ← ask (λ k, http_do k (get_request p path)); mret (got path target response).

Definition usage_path (agent : string) : string := "/api/v1/agents/" ++ agent ++ "/usage".

Fixpoint collect_agents (p : PlatformCollector) (agents : list string) (collected : samples) : M samples :=
  match agents with
  | [] => mret collected
  | agent :: agents =>
      usage ← platform_get p (usage_path agent) decode_usage;
      collect_agents p agents (match usage with Ok u => add_usage agent u collected | Err _ => collected end)
  end.

Definition add_runs (byStatus collected : samples) : samples :=
  foldl (λ collected status, match byStatus !! status with
                             | Some count => <[runs_total status := count]> collected
                             | None => collected
                             end) collected (map_order byStatus).

Definition add_demos (demos : gmap string (gmap string any)) (collected : samples) : samples :=
  foldl (λ collected demo, add_stats demo (default ∅ (demos !! demo)) collected) collected (map_order demos).

(** [PlatformCollector.Poll]: its error, which is always nil, and the collector. *)
Definition Platform_Poll (p : PlatformCollector) : M (option gerror * PlatformCollector) :=
  if decide (pc_GatewayURL p = "") then mret (None, p) else
  agents ← platform_get p "/api/v1/agents" decode_agents;
  collected ← match agents with Ok agents => collect_agents p agents ∅ | Err _ => mret ∅ end;
  runs ← platform_get p "/api/v1/pipelines/runs" decode_runs;
  let collected := match runs with Ok runs => add_runs (by_status runs) collected | Err _ => collected end in
  realtime ← platform_get p "/api/v1/realtime" decode_demos;
  let collected := match realtime with Ok demos => add_demos demos collected | Err _ => collected end in
  t ← now;
  mret (None, p <|pc_metrics := collected|> <|pc_scraped := Some t|>).
End platform.

Definition platform_text (p : PlatformCollector) : list string :=
  ("# Platform metrics aggregated from control-plane state."
   :: ((λ key, (key ++ " " ++ format_g (default zero (pc_metrics p !! key)))%string)
       <$> sort_Strings (elements (dom (pc_metrics p))))
   ++ match pc_scraped p with
      | Some t => [("mlaiops_platform_last_scrape_timestamp_seconds " ++ pretty (unix (Some t)))%string]
      | None => []
      end)%list.

(** [PlatformCollector.Prometheus] *)
Definition Platform_Prometheus (p : PlatformCollector) : string := lines (platform_text p).

(** ** The process *)

Section process.
Context `{Host} `{Net} `{MetricsJson} `{MapOrder}.

(** The collectors [main] makes of [MLAIOPS_METRICS_TARGETS], [MLAIOPS_URL] and
    [MLAIOPS_TOKEN]. *)
Definition metrics_main (targets url token : string) : Collector * PlatformCollector :=
  (NewCollector (parseTargets targets), NewPlatformCollector url token).

(** One turn of the loop, every fifteen seconds. *)
Definition metrics_turn (s : Collector * PlatformCollector) : M (Collector * PlatformCollector) :=
  c ← Collector_Poll s.1; r ← Platform_Poll s.2; mret (c, r.2).

(** [GET /metrics] *)
Definition metrics_page (s : Collector * PlatformCollector) : string :=
  Collector_Prometheus s.1 ++ Platform_Prometheus s.2.
End process.
