(* ===== verification/MetricsProps.v ===== *)
(** * What the metrics say

    The samples of a poll are those of the gateway's answers, under names that
    no two of them share; a target is up when it answered this poll well. *)

From Stdlib Require Import Ascii SpecFloat.
From stdpp Require Import sorting.
From S2P Require Import Prelude GoStrings Urls Types Floats World Pipelines Runs Integrations Metrics.

Open Scope string_scope.

(** ** Quoted text reads back *)

Definition unquoted_escape (c : ascii) : ascii :=
  match N_of_ascii c with
  | 97 => ascii_of_N 7 | 98 => ascii_of_N 8 | 116 => ascii_of_N 9 | 110 => ascii_of_N 10
  | 118 => ascii_of_N 11 | 102 => ascii_of_N 12 | 114 => ascii_of_N 13
  | _ => c
  end%N.

Definition hex_of (c : ascii) : N :=
  let n := N_of_ascii c in (if n <? 65 then n - 48 else n - 87)%N.

(** The text of a quoted string whose opening quote was read, and what follows. *)
Fixpoint read_quoted (s : string) : option (string * string) :=
  match s with
  | EmptyString => None
  | String a s =>
      if decide (a = dquote) then Some ("", s) else
      if decide (a = backslash) then
        match s with
        | String "x" (String h (String l s)) =>
            '(v, rest) ← read_quoted s; Some (String (ascii_of_N (16 * hex_of h + hex_of l)) v, rest)
        | String c s => '(v, rest) ← read_quoted s; Some (String (unquoted_escape c) v, rest)
        | EmptyString => None
        end
      else '(v, rest) ← read_quoted s; Some (String a v, rest)
  end.

Lemma read_quote_byte a s :
  read_quoted (quote_byte a ++ s) = '(v, rest) ← read_quoted s; Some (String a v, rest).
Proof. by destruct a as [[] [] [] [] [] [] [] []]. Qed.

Lemma read_quote_body s rest : read_quoted (quote_body s ++ String dquote rest) = Some (s, rest).
Proof.
  induction s as [|a s IH]; [done|]. cbn [quote_body].
  by rewrite <-str_app_assoc, read_quote_byte, IH.
Qed.

(** Two quoted strings that start texts that agree. *)
Lemma quote_inv s t x y : quote s ++ x = quote t ++ y → s = t ∧ x = y.
Proof.
  assert (∀ u z, quote u ++ z = String dquote (quote_body u ++ String dquote z)) as Hq.
  { intros u z. unfold quote. rewrite str_app_cons, <-str_app_assoc. done. }
  rewrite !Hq. intros [= E]. pose proof (read_quote_body s x) as Hs.
  rewrite E, read_quote_body in Hs. by injection Hs.
Qed.

(** ** The names of the samples *)

Inductive metric : Type :=
  | ActiveSessions (agent : string)
  | SessionsTotal (agent : string)
  | TokensTotal (agent kind : string)
  | CostTotal (agent : string)
  | RunsTotal (status : string)
  | EventsTotal (demo : string)
  | Latency (demo : string)
  | FlaggedTotal (demo : string).

#[export] Instance metric_eq_dec : EqDecision metric.
Proof. solve_decision. Defined.

Definition metric_name (m : metric) : string :=
  match m with
  | ActiveSessions a => active_sessions a
  | SessionsTotal a => sessions_total a
  | TokensTotal a k => tokens_total a k
  | CostTotal a => cost_total a
  | RunsTotal s => runs_total s
  | EventsTotal d => events_total d
  | Latency d => latency d
  | FlaggedTotal d => flagged_total d
  end.

Lemma sample_one family label v :
  sample family [(label, v)] = (family ++ "{" ++ label ++ "=") ++ quote v ++ "}".
Proof. unfold sample. cbn [fmap list_fmap Join]. by rewrite !str_app_assoc. Qed.

Lemma tokens_name a k :
  tokens_total a k
  = "mlaiops_llm_tokens_used_total{agent=" ++ quote a ++ ",type=" ++ quote k ++ "}".
Proof. unfold tokens_total, sample. cbn [fmap list_fmap Join]. by rewrite <-!str_app_assoc. Qed.

#[export] Instance metric_name_inj : Inj (=) (=) metric_name.
Proof.
  assert (∀ p s t, p ++ quote s ++ "}" = p ++ quote t ++ "}" → s = t) as Hone.
  { intros p s t E%str_app_inj. by apply quote_inv in E as [-> _]. }
  intros m1 m2. destruct m1, m2; cbn [metric_name];
    unfold active_sessions, sessions_total, cost_total, runs_total, events_total, latency, flagged_total;
    rewrite ?sample_one, ?tokens_name; intros E;
    try (apply Hone in E as ->; reflexivity); try discriminate E.
  apply str_app_inj, quote_inv in E as [-> E]. by apply (Hone ",type=") in E as ->.
Qed.


(** ** What each step adds *)

Section samples.
Implicit Types c : samples.

(** The samples of one usage, by their names. *)
Definition usage_sample (u : usage) (agent : string) (m : metric) : option float64 :=
  match m with
  | ActiveSessions a => if decide (a = agent) then Some (float_of_int (us_Active u)) else None
  | SessionsTotal a => if decide (a = agent) then Some (float_of_int (us_Sessions u)) else None
  | TokensTotal a k =>
      if decide (a = agent) then
        if decide (k = "input") then Some (us_InputTokens u) else
        if decide (k = "output") then Some (us_OutputTokens u) else None
      else None
  | CostTotal a => if decide (a = agent) then Some (us_CostUSD u) else None
  | _ => None
  end.

Lemma lookup_named (m m' : metric) (v : float64) c :
  <[metric_name m' := v]> c !! metric_name m
  = if decide (m = m') then Some v else c !! metric_name m.
Proof.
  case_decide as E; [subst; apply lookup_insert_eq|]. rewrite lookup_insert_ne; [done|].
  intros Hn. by apply (inj metric_name) in Hn.
Qed.

Lemma add_usage_sample agent u c m :
  add_usage agent u c !! metric_name m
  = match usage_sample u agent m with Some v => Some v | None => c !! metric_name m end.
Proof.
  unfold add_usage.
  change (cost_total agent) with (metric_name (CostTotal agent)).
  change (tokens_total agent "output") with (metric_name (TokensTotal agent "output")).
  change (tokens_total agent "input") with (metric_name (TokensTotal agent "input")).
  change (sessions_total agent) with (metric_name (SessionsTotal agent)).
  change (active_sessions agent) with (metric_name (ActiveSessions agent)).
  rewrite !lookup_named. unfold usage_sample. destruct m; repeat case_decide; simplify_eq; done.
Qed.

(** [n] increments of a counter. *)
Definition increments (n : nat) : float64 := Nat.iter n (λ x, float_add x float_one) zero.
Definition occurrences (status : string) (runs : list string) : nat := length (filter (eq status) runs).

Lemma occurrences_none status runs : status ∉ runs → occurrences status runs = 0%nat.
Proof.
  unfold occurrences. induction runs as [|r runs IH]; [done|]. intros [Hr Hn]%not_elem_of_cons.
  rewrite filter_cons_False by done. by apply IH.
Qed.

Lemma occurrences_snoc status runs r :
  occurrences status (runs ++ [r])
  = if decide (status = r) then S (occurrences status runs) else occurrences status runs.
Proof.
  unfold occurrences. rewrite filter_app, length_app. case_decide.
  - rewrite filter_cons_True by done. rewrite filter_nil. cbn. lia.
  - rewrite filter_cons_False by done. rewrite filter_nil. cbn. lia.
Qed.

Lemma by_status_sample runs status :
  by_status runs !! status
  = if decide (status ∈ runs) then Some (increments (occurrences status runs)) else None.
Proof.
  unfold by_status. induction runs as [|r runs IH] using rev_ind; [done|].
  rewrite foldl_app, occurrences_snoc. cbn [foldl]. unfold count_status at 1.
  destruct (decide (status = r)) as [<-|E].
  - rewrite (lookup_insert_eq (M := gmap string)), decide_True by set_solver. rewrite IH.
    f_equal. case_decide as Hin; [done|]. by rewrite occurrences_none.
  - rewrite (lookup_insert_ne (M := gmap string)), IH by done.
    by rewrite (decide_ext (status ∈ (runs ++ [r])%list) (status ∈ runs)) by set_solver.
Qed.

(** What a sample is about: an agent, a status, a demo. *)
Definition about (m : metric) : string :=
  match m with
  | ActiveSessions x | SessionsTotal x | TokensTotal x _ | CostTotal x | RunsTotal x | EventsTotal x
  | Latency x | FlaggedTotal x => x
  end.

(** A loop whose turns each set some samples about their own subject. *)
Lemma fold_samples (step : samples → string → samples) (value : string → metric → option float64) l c m :
  (∀ c k m, step c k !! metric_name m = from_option Some (c !! metric_name m) (value k m)) →
  (∀ k m v, value k m = Some v → about m = k) →
  foldl step c l !! metric_name m
  = if decide (about m ∈ l) then from_option Some (c !! metric_name m) (value (about m) m)
    else c !! metric_name m.
Proof.
  intros Hstep Habout. revert c. induction l as [|k l IH]; intros c; [done|]. cbn [foldl].
  rewrite IH, Hstep. destruct (decide (about m = k)) as [<-|Hne].
  - rewrite (decide_True (P := about m ∈ about m :: l)) by left. case_decide; [|done].
    by destruct (value (about m) m).
  - rewrite (decide_ext (about m ∈ k :: l) (about m ∈ l)) by set_solver.
    destruct (value k m) as [v|] eqn:E; [|done]. by apply Habout in E.
Qed.

Definition run_sample (byStatus : samples) (m : metric) : option float64 :=
  match m with RunsTotal s => byStatus !! s | _ => None end.

Definition gauge (value : option any) : option float64 :=
  match value with Some (AFloat f) => Some f | _ => None end.

Definition stats_sample (stats : gmap string any) (m : metric) : option float64 :=
  match m with
  | EventsTotal _ => gauge (stats !! "events")
  | Latency _ => gauge (stats !! "avg_latency_ms")
  | FlaggedTotal _ => gauge (stats !! "flagged")
  | _ => None
  end.

Lemma add_gauge_named m' value c m :
  add_gauge (metric_name m') value c !! metric_name m
  = from_option Some (c !! metric_name m) (if decide (m = m') then gauge value else None).
Proof.
  unfold add_gauge, gauge. destruct value as [[]|]; try by case_decide.
  rewrite lookup_named. by case_decide.
Qed.

Lemma add_stats_sample demo stats c m :
  add_stats demo stats c !! metric_name m
  = from_option Some (c !! metric_name m) (if decide (about m = demo) then stats_sample stats m else None).
Proof.
  unfold add_stats.
  change (flagged_total demo) with (metric_name (FlaggedTotal demo)).
  change (latency demo) with (metric_name (Latency demo)).
  change (events_total demo) with (metric_name (EventsTotal demo)).
  rewrite !add_gauge_named. destruct m; repeat case_decide; simplify_eq; done.
Qed.

Context `{MapOrder}.

Lemma map_order_elem {V} (g : gmap string V) k : k ∈ map_order g ↔ is_Some (g !! k).
Proof.
  rewrite (map_order_perm g), list_elem_of_fmap. split.
  - intros ([k' v]&->&Hv%elem_of_map_to_list). by exists v.
  - intros [v Hv]. exists (k, v). by rewrite elem_of_map_to_list.
Qed.

Lemma add_runs_sample byStatus c m :
  add_runs byStatus c !! metric_name m = from_option Some (c !! metric_name m) (run_sample byStatus m).
Proof.
  unfold add_runs.
  rewrite (fold_samples _ (λ k m, if decide (m = RunsTotal k) then byStatus !! k else None)).
  - destruct m; try by case_decide. cbn [about run_sample]. rewrite (decide_True (P := RunsTotal _ = _)) by done.
    case_decide as Hin; [done|]. rewrite map_order_elem, <-eq_None_not_Some in Hin. by rewrite Hin.
  - intros c' k m'. change (runs_total k) with (metric_name (RunsTotal k)).
    destruct (byStatus !! k); [rewrite lookup_named|]; by case_decide.
  - intros k m' v. by case_decide; subst.
Qed.

Definition demo_sample (demos : gmap string (gmap string any)) (m : metric) : option float64 :=
  stats ← demos !! about m; stats_sample stats m.

Lemma add_demos_sample demos c m :
  add_demos demos c !! metric_name m = from_option Some (c !! metric_name m) (demo_sample demos m).
Proof.
  unfold add_demos, demo_sample.
  rewrite (fold_samples _ (λ k m, if decide (about m = k) then stats_sample (default ∅ (demos !! k)) m else None)).
  - rewrite (decide_True (P := about m = about m)) by done. case_decide as Hin.
    + apply map_order_elem in Hin as [stats ->]. done.
    + rewrite map_order_elem, <-eq_None_not_Some in Hin. by rewrite Hin.
  - intros c' k m'. apply add_stats_sample.
  - intros k m' v. by case_decide.
Qed.
End samples.

(** ** A poll *)

Section poll.
Context `{Host} `{Net} `{MetricsJson} `{MapOrder}.
(** A gateway that gives each request one answer. *)
Variable answer : http_request → result http_response.
Hypothesis Hanswer : ∀ k r, http_do k r = answer r.

Definition reply {A} (p : PlatformCollector) (path : string) (target : string → result A) : result A :=
  got path target (answer (get_request p path)).

Lemma platform_get_reply {A} p path (target : string → result A) w :
  (platform_get p path target w).1 = reply p path target.
Proof using Hanswer. unfold platform_get, reply. run_M. by rewrite Hanswer. Qed.

Definition agent_sample p (m : metric) : option float64 :=
  match reply p (usage_path (about m)) decode_usage with Ok u => usage_sample u (about m) m | Err _ => None end.

Lemma usage_sample_about u agent m :
  usage_sample u agent m = if decide (about m = agent) then usage_sample u (about m) m else None.
Proof. case_decide; subst; [done|]. destruct m; cbn in *; try done; by rewrite decide_False. Qed.

Definition collected_agent p c agent : samples :=
  match reply p (usage_path agent) decode_usage with Ok u => add_usage agent u c | Err _ => c end.

Lemma collect_agents_reply p agents c w :
  (collect_agents p agents c w).1 = foldl (collected_agent p) c agents.
Proof using Hanswer.
  revert c w. induction agents as [|a agents IH]; intros c w; [done|].
  cbn [collect_agents foldl]. unfold mbind, M_bind.
  destruct (platform_get p (usage_path a) decode_usage w) as [u w'] eqn:E.
  pose proof (platform_get_reply p (usage_path a) decode_usage w) as Hr. rewrite E in Hr. cbn in Hr. subst u.
  apply IH.
Qed.

Lemma collect_agents_sample p agents c w m :
  (collect_agents p agents c w).1 !! metric_name m
  = if decide (about m ∈ agents) then from_option Some (c !! metric_name m) (agent_sample p m)
    else c !! metric_name m.
Proof using Hanswer.
  rewrite collect_agents_reply,
    (fold_samples _ (λ k m, if decide (about m = k) then agent_sample p m else None)).
  - by rewrite (decide_True (P := about m = about m)).
  - intros c' k m'. unfold collected_agent, agent_sample.
    destruct (decide (about m' = k)) as [<-|Hne]; destruct (reply _ _ _) as [u|] eqn:E; try done.
    + rewrite add_usage_sample. by destruct (usage_sample _ _ _).
    + by rewrite add_usage_sample, usage_sample_about, decide_False by done.
  - intros k m' v. by case_decide.
Qed.
(** What a metric is, by the gateway's answers; none for a page that failed. *)
Definition measured p (m : metric) : option float64 :=
  match m with
  | RunsTotal status =>
      match reply p "/api/v1/pipelines/runs" decode_runs with
      | Ok runs => if decide (status ∈ runs) then Some (increments (occurrences status runs)) else None
      | Err _ => None
      end
  | EventsTotal _ | Latency _ | FlaggedTotal _ =>
      match reply p "/api/v1/realtime" decode_demos with Ok demos => demo_sample demos m | Err _ => None end
  | _ =>
      match reply p "/api/v1/agents" decode_agents with
      | Ok agents => if decide (about m ∈ agents) then agent_sample p m else None
      | Err _ => None
      end
  end.

Definition collected p : samples :=
  let c := match reply p "/api/v1/agents" decode_agents with
           | Ok agents => foldl (collected_agent p) ∅ agents | Err _ => ∅ end in
  let c := match reply p "/api/v1/pipelines/runs" decode_runs with
           | Ok runs => add_runs (by_status runs) c | Err _ => c end in
  match reply p "/api/v1/realtime" decode_demos with Ok demos => add_demos demos c | Err _ => c end.

Lemma Poll_collected p w :
  pc_GatewayURL p ≠ "" →
  ∃ t, (Platform_Poll p w).1 = (None, p <|pc_metrics := collected p|> <|pc_scraped := Some t|>).
Proof using Hanswer.
  intros Hp. unfold Platform_Poll, collected. rewrite decide_False by done. unfold mbind, M_bind.
  pose proof (platform_get_reply p "/api/v1/agents" decode_agents w) as Ha.
  destruct (platform_get p "/api/v1/agents" decode_agents w) as [agents w1]. cbn in Ha. subst agents.
  assert ((match reply p "/api/v1/agents" decode_agents with
           | Ok agents => collect_agents p agents ∅ | Err _ => mret ∅ end w1).1
          = match reply p "/api/v1/agents" decode_agents with
            | Ok agents => foldl (collected_agent p) ∅ agents | Err _ => ∅ end) as Hc.
  { destruct (reply p "/api/v1/agents" decode_agents); [apply collect_agents_reply|done]. }
  destruct (match reply p "/api/v1/agents" decode_agents with
            | Ok agents => collect_agents p agents ∅ | Err _ => mret ∅ end w1) as [c w2]. cbn in Hc. subst c.
  pose proof (platform_get_reply p "/api/v1/pipelines/runs" decode_runs w2) as Hr.
  destruct (platform_get p "/api/v1/pipelines/runs" decode_runs w2) as [runs w3]. cbn in Hr. subst runs.
  pose proof (platform_get_reply p "/api/v1/realtime" decode_demos w3) as Hd.
  destruct (platform_get p "/api/v1/realtime" decode_demos w3) as [demos w4]. cbn in Hd. subst demos.
  unfold now, ask, mret, M_ret. by eexists.
Qed.

Lemma collected_sample p m : collected p !! metric_name m = measured p m.
Proof using Hanswer.
  unfold collected, measured.
  set (c1 := match reply p "/api/v1/agents" decode_agents with Ok _ => _ | Err _ => _ end).
  assert (c1 !! metric_name m
          = match reply p "/api/v1/agents" decode_agents with
            | Ok agents => if decide (about m ∈ agents) then agent_sample p m else None
            | Err _ => None
            end) as Hc1.
  { unfold c1. destruct (reply p "/api/v1/agents" decode_agents) as [agents|]; [|apply lookup_empty].
    rewrite <-(collect_agents_reply p agents ∅ (mkWorld 0 "" zero ∅)), collect_agents_sample, lookup_empty.
    by case_decide; [destruct (agent_sample p m)|]. }
  set (c2 := match reply p "/api/v1/pipelines/runs" decode_runs with Ok _ => _ | Err _ => _ end).
  assert (c2 !! metric_name m = match m with RunsTotal _ => measured p m | _ => c1 !! metric_name m end) as Hc2.
  { unfold c2, measured. destruct (reply p "/api/v1/pipelines/runs" decode_runs) as [runs|].
    - rewrite add_runs_sample. destruct m; try done. cbn [run_sample]. rewrite by_status_sample.
      case_decide; [done|]. cbn [from_option]. rewrite Hc1.
      unfold agent_sample. by repeat case_match.
    - destruct m; try done. rewrite Hc1. unfold agent_sample. by repeat case_match. }
  assert (match m with EventsTotal _ | Latency _ | FlaggedTotal _ => c2 !! metric_name m = None | _ => True end) as Hc3.
  { destruct m; try done; rewrite Hc2, Hc1; unfold agent_sample; by repeat case_match. }
  destruct (reply p "/api/v1/realtime" decode_demos) as [demos|].
  - rewrite add_demos_sample. unfold demo_sample.
    destruct m; try (rewrite Hc3; by destruct (mbind _ _));
      destruct (demos !! _); cbn [from_option mbind option_bind stats_sample]; by rewrite Hc2, ?Hc1.
  - destruct m; try done; by rewrite Hc2, ?Hc1.
Qed.

(** Nothing but samples is collected. *)
Definition named (c : samples) : Prop := ∀ key v, c !! key = Some v → ∃ m, key = metric_name m.

Lemma named_insert m v c : named c → named (<[metric_name m := v]> c).
Proof. intros Hc key v' [[<- _]|[_ ?]]%lookup_insert_Some; eauto. Qed.

Lemma named_fold (step : samples → string → samples) l c :
  (∀ c k, named c → named (step c k)) → named c → named (foldl step c l).
Proof. intros Hs. revert c. induction l; cbn; auto. Qed.

Lemma named_gauge m value c : named c → named (add_gauge (metric_name m) value c).
Proof. intros Hc. unfold add_gauge. destruct value as [[]|]; try done. by apply named_insert. Qed.

Lemma collected_named p : named (collected p).
Proof.
  assert (named ∅) as He by (intros key v Hk; by rewrite lookup_empty in Hk).
  assert (∀ c, named c → ∀ demos, named (add_demos demos c)) as Hdemos.
  { intros c Hc demos. apply named_fold; [|done]. intros c' demo Hc'. unfold add_stats.
    apply (named_gauge (FlaggedTotal demo)), (named_gauge (Latency demo)), (named_gauge (EventsTotal demo)), Hc'. }
  assert (∀ c, named c → ∀ b, named (add_runs b c)) as Hruns.
  { intros c Hc b. apply named_fold; [|done]. intros c' s Hc'. destruct (b !! s); [|done].
    by apply (named_insert (RunsTotal s)). }
  assert (∀ agents, named (foldl (collected_agent p) ∅ agents)) as Hagents.
  { intros agents. apply named_fold; [|done]. intros c a Hc. unfold collected_agent.
    destruct (reply _ _ _); [|done]. unfold add_usage.
    apply (named_insert (CostTotal a)), (named_insert (TokensTotal a "output")),
      (named_insert (TokensTotal a "input")), (named_insert (SessionsTotal a)), (named_insert (ActiveSessions a)), Hc. }
  unfold collected. repeat case_match; auto.
Qed.

Lemma elem_of_sort_Strings (l : list string) x : x ∈ sort_Strings l ↔ x ∈ l.
Proof. unfold sort_Strings. by rewrite merge_sort_Permutation. Qed.

Lemma elem_of_platform_text p t line :
  pc_scraped p = Some t →
  line ∈ platform_text p ↔
    line = "# Platform metrics aggregated from control-plane state."
    ∨ line = "mlaiops_platform_last_scrape_timestamp_seconds " ++ pretty (unix (Some t))
    ∨ ∃ key v, pc_metrics p !! key = Some v ∧ line = key ++ " " ++ format_g v.
Proof.
  intros Ht. unfold platform_text. rewrite Ht, elem_of_cons, elem_of_app, list_elem_of_singleton, list_elem_of_fmap.
  assert (∀ key, key ∈ sort_Strings (elements (dom (pc_metrics p))) ↔ is_Some (pc_metrics p !! key)) as Hk.
  { intros key. by rewrite elem_of_sort_Strings, elem_of_elements, elem_of_dom. }
  split.
  - intros [?|[(key&->&[v Hv]%Hk)|?]]; [by left| |by right; left]. do 2 right. exists key, v. by rewrite Hv.
  - intros [?|[?|(key&v&Hv&->)]]; [by left|by right; right|]. right; left. exists key.
    rewrite Hv. split; [done|]. apply Hk. by eexists.
Qed.

(** C37: what the platform page shows.  With a gateway that gives each request one
    answer, a poll leaves exactly one sample for each metric of the gateway's
    answers (the usage of each listed agent, the number of runs of each status, the
    gauges of each realtime consumer), with the value the answer gives; no two
    metrics share a name, whatever quotes, commas or braces their labels hold; the
    page is the header, one line per sample and the time of the poll.  A page of the
    gateway that fails only loses its metrics: the poll has no error. *)
Theorem platform_measured p w :
  pc_GatewayURL p ≠ "" →
  ∃ t, let p' := (Platform_Poll p w).1.2 in
  (Platform_Poll p w).1.1 = None ∧ pc_scraped p' = Some t
  ∧ (∀ m m', metric_name m = metric_name m' → m = m')
  ∧ (∀ m, pc_metrics p' !! metric_name m = measured p m)
  ∧ ∀ line, line ∈ platform_text p' ↔
      line = "# Platform metrics aggregated from control-plane state."
      ∨ line = "mlaiops_platform_last_scrape_timestamp_seconds " ++ pretty (unix (Some t))
      ∨ ∃ m v, measured p m = Some v ∧ line = metric_name m ++ " " ++ format_g v.
Proof using Hanswer.
  intros Hp. destruct (Poll_collected p w Hp) as [t Ht]. exists t. rewrite Ht. cbn [fst snd]. split_and!; [done|done|..].
  - intros m m'. apply (inj metric_name).
  - intros m. apply collected_sample.
  - intros line. rewrite (elem_of_platform_text _ t) by done. do 2 f_equiv. split.
    + intros (key&v&Hv&->). destruct (collected_named p key v Hv) as [m ->]. exists m, v.
      by rewrite <-collected_sample.
    + intros (m&v&Hm&->). exists (metric_name m), v. split; [|done]. by rewrite <-collected_sample in Hm.
Qed.
End poll.

(** ** Component health *)

Section health.
Context `{Host} `{Net} `{MapOrder}.

Definition checked_once (c : Collector) (w w' : world) (c' : Collector) (name : string) : Prop :=
  ∃ k, (w_tick w ≤ k < w_tick w')%nat
  ∧ co_up c' !! name
    = Some (up_of (http_do k (mkHttpRequest "GET" (default "" (co_targets c !! name)) [] None)))
  ∧ co_checked c' !! name = Some (clock (S k)).

Lemma poll_targets_checked names c w :
  NoDup names →
  let '(c', w') := poll_targets c names w in
  co_targets c' = co_targets c ∧ (w_tick w ≤ w_tick w')%nat
  ∧ (∀ name, name ∈ names → checked_once c w w' c' name)
  ∧ ∀ name, name ∉ names → co_up c' !! name = co_up c !! name ∧ co_checked c' !! name = co_checked c !! name.
Proof.
  intros Hnd. revert c w. induction Hnd as [|name names Hn Hnd IH]; intros c w.
  { cbn. split_and!; [done|lia|by intros name ?%not_elem_of_nil|done]. }
  cbn [poll_targets]. unfold mbind at 1, M_bind at 1.
  destruct (poll_target c name (default "" (co_targets c !! name)) w) as [c1 w1] eqn:E.
  unfold poll_target, now, ask, mbind, M_bind, mret, M_ret in E. injection E as <- <-.
  match goal with |- context [poll_targets ?c1 names ?w1] => specialize (IH c1 w1); destruct (poll_targets c1 names w1) as [c' w'] end.
  cbn in IH. destruct IH as (Ht&Hw&Hin&Hout). split_and!; [done|lia|..].
  - intros name' [->|Hname]%elem_of_cons.
    + exists (w_tick w). split; [lia|]. destruct (Hout _ Hn) as [-> ->].
      by rewrite !(lookup_insert_eq (M := gmap string)).
    + destruct (Hin name' Hname) as (k&Hk&Hup&Hc). exists k. split; [cbn in Hk; lia|done].
  - intros name' [Hne Hname]%not_elem_of_cons. destruct (Hout _ Hname) as [-> ->].
    by rewrite !(lookup_insert_ne (M := gmap string)).
Qed.

(** After a poll, each target is up exactly when it answered a request of this
    poll with a success, at the time it shows. *)
Theorem component_up c w name endpoint :
  co_targets c !! name = Some endpoint →
  let '(c', w') := Collector_Poll c w in
  ∃ k, (w_tick w ≤ k < w_tick w')%nat
  ∧ let up := up_of (http_do k (mkHttpRequest "GET" endpoint [] None)) in
    component_line name (format_g up) ∈ collector_text c'
    ∧ checked_line name (pretty (unix (Some (clock (S k))))) ∈ collector_text c'.
Proof.
  intros He. unfold Collector_Poll.
  assert (NoDup (map_order (co_targets c))) as Hnd by (rewrite map_order_perm; apply NoDup_fst_map_to_list).
  pose proof (poll_targets_checked _ c w Hnd) as Hp. destruct (poll_targets _ _ w) as [c' w'].
  destruct Hp as (Ht&_&Hin&_). destruct (Hin name) as (k&Hk&Hup&Hc); [by apply map_order_elem; eexists|].
  rewrite He in Hup. cbn [default] in Hup. exists k. split; [done|]. cbn zeta. unfold collector_text. rewrite Ht.
  assert (name ∈ sort_Strings (elements (dom (co_targets c)))) as Hname.
  { rewrite elem_of_sort_Strings, elem_of_elements. apply elem_of_dom. by eexists. }
  split; do 2 right; apply elem_of_app; [left|right; do 2 right]; apply list_elem_of_fmap;
    exists name; by rewrite ?Hup, ?Hc.
Qed.
End health.

(** ** The gateway of the tests *)

Definition test_json : MetricsJson := {|
  decode_agents := λ _, Ok ["agt-1"];
  decode_usage := λ _, Ok (mkUsage 4 1 (float_of_int 1200) (float_of_int 600) (S754_finite false 7566047373982433 (-54)));
  decode_runs := λ _, Ok ["succeeded"; "succeeded"; "failed"];
  decode_demos := λ _, Ok {["fraud" := {["events" := AFloat (float_of_int 10); "flagged" := AFloat (float_of_int 2)]}]};
  status_line := λ n, pretty n
|}.

Definition test_answer (r : http_request) : result http_response :=
  if decide (hr_URL r ∈ ["http://gw/api/v1/agents"; "http://gw/api/v1/agents/agt-1/usage";
                         "http://gw/api/v1/pipelines/runs"; "http://gw/api/v1/realtime"])
  then Ok (mkHttpResponse 200 "{}" "") else Ok (mkHttpResponse 404 "" "").

Definition test_net : Net := {|
  http_do := λ _, test_answer;
  json_value := λ _, None;
  json_id := λ _, Err ErrNotFound;
  json_any := λ _, None;
  json_functions := λ _, Err ErrNotFound;
  basic_auth := λ _ _, ""
|}.

Lemma platform_measured_witness :
  let p' := (Platform_Poll (H := quiet_host) (H0 := test_net) (H1 := test_json) (H2 := listed_order)
               (NewPlatformCollector "http://gw/" "") (booting "" ∅)).1.2 in
  (runs_total "succeeded" ++ " 2") ∈ platform_text p' ∧ (cost_total "agt-1" ++ " 0.42") ∈ platform_text p'
  ∧ pc_metrics p' !! latency "fraud" = None.
Proof.
  destruct (platform_measured (H := quiet_host) (H0 := test_net) (H1 := test_json) (H2 := listed_order)
    test_answer (λ _ _, eq_refl) (NewPlatformCollector "http://gw/" "") (booting "" ∅)
    ltac:(discriminate)) as (t&_&_&_&Hm&Hl). cbv zeta. split_and!.
  - apply Hl. right; right. exists (RunsTotal "succeeded"), (float_of_int 2). split; vm_compute; reflexivity.
  - apply Hl. right; right. exists (CostTotal "agt-1"), (S754_finite false 7566047373982433 (-54)).
    split; vm_compute; reflexivity.
  - etrans; [apply (Hm (Latency "fraud"))|]. vm_compute. reflexivity.
Defined.
