(* ===== verification/TraceProxy.v ===== *)
(** * The trace proxy (internal/traceproxy, cmd/trace-proxy)

    A reverse proxy in front of a model provider that names the agent in every
    request it forwards and reports each call to a sink.  Headers are a map by
    their canonical names; what net/http and net/http/httputil do to the request
    and the answer on the way is written out, upgrades of the protocol aside. *)

From Stdlib Require Import Ascii.
From S2P Require Import Prelude GoStrings Urls Types World Integrations.

Open Scope string_scope.

(** ** Headers *)

Abbreviation header := (gmap string (list string)).

(** [textproto.CanonicalMIMEHeaderKey]: each word capitalised; a name that is not
    a token stays as it is. *)
Definition token_byte (a : ascii) : bool :=
  is_lower a || is_upper a || is_digit a || contains_byte a "!#$%&'*+-.^_`|~".

Fixpoint capitalised (start : bool) (s : string) : string :=
  match s with
  | EmptyString => ""
  | String a s => String (if start then upper_byte a else lower_byte a) (capitalised (Ascii.eqb a "-") s)
  end.

Definition CanonicalHeaderKey (s : string) : string :=
  if all_bytes token_byte s then capitalised true s else s.

Definition header_Set (name value : string) (h : header) : header := <[CanonicalHeaderKey name := [value]]> h.
Definition header_Del (name : string) (h : header) : header := delete (CanonicalHeaderKey name) h.
Definition header_Get (name : string) (h : header) : string :=
  default "" (head (default [] (h !! CanonicalHeaderKey name))).

(** ** The reverse proxy *)

Record proxied := mkProxied {
  px_Method : string;
  px_URL : url;
  px_Header : header;
  px_Body : string;
  (** The client's address, if it can be told from its port. *)
  px_ClientIP : option string
}.
#[export] Instance eta_proxied : Eta proxied := λ r,
  mkProxied (px_Method r) (px_URL r) (px_Header r) (px_Body r) (px_ClientIP r).

Definition after_slash (s : string) : string := match s with String _ s => s | EmptyString => "" end.

(** [singleJoiningSlash], [joinURLPath] *)
Definition joining_slash (a b : string) (a' b' : string) : string :=
  match HasSuffix a "/", HasPrefix b "/" with
  | true, true => a' ++ after_slash b'
  | false, false => a' ++ "/" ++ b'
  | _, _ => a' ++ b'
  end.

Definition joinURLPath (a b : url) : string * string :=
  if decide (u_RawPath a = "" ∧ u_RawPath b = "")
  then (joining_slash (u_Path a) (u_Path b) (u_Path a) (u_Path b), "") else
  let ap := EscapedPath a in let bp := EscapedPath b in
  (joining_slash ap bp (u_Path a) (u_Path b), joining_slash ap bp ap bp).

(** [rewriteRequestURL] *)
Definition rewriteRequestURL (target : url) (u : url) : url :=
  let '(path, raw) := joinURLPath target u in
  let query := if decide (u_RawQuery target = "" ∨ u_RawQuery u = "")
               then u_RawQuery target ++ u_RawQuery u else u_RawQuery target ++ "&" ++ u_RawQuery u in
  mkUrl (u_Scheme target) (u_Opaque u) (u_User u) (u_Host target) path raw (u_OmitHost u)
    (u_ForceQuery u) query (u_Fragment u) (u_RawFragment u).

Definition hopHeaders : list string := [
  "Connection"; "Proxy-Connection"; "Keep-Alive"; "Proxy-Authenticate"; "Proxy-Authorization"; "Te";
  "Trailer"; "Transfer-Encoding"; "Upgrade"].

(** The names listed in the [Connection] headers. *)
Definition connection_names (h : header) : list string :=
  filter (λ s, s ≠ "") (TrimSpace <$> mjoin ((λ value, Split value ",") <$> default [] (h !! "Connection"))).

(** [removeHopByHopHeaders] *)
Definition removeHopByHopHeaders (h : header) : header :=
  foldl (λ h name, header_Del name h) h (connection_names h ++ hopHeaders)%list.

Definition forwarded_for (r : proxied) (h : header) : header :=
  match px_ClientIP r with
  | None => h
  | Some ip =>
      match h !! "X-Forwarded-For" with
      | Some [] => h
      | Some prior => <["X-Forwarded-For" := [Join prior ", " ++ ", " ++ ip]]> h
      | None => <["X-Forwarded-For" := [ip]]> h
      end
  end.

Definition with_user_agent (h : header) : header :=
  match h !! "User-Agent" with Some _ => h | None => <["User-Agent" := [""]]> h end.

(** [ReverseProxy.ServeHTTP]: the request sent on, [director] applied first. *)
Definition outgoing (director : proxied → proxied) (r : proxied) : proxied :=
  let out := director r in
  let h := removeHopByHopHeaders (px_Header out) in
  out <|px_Header := with_user_agent (forwarded_for r h)|>.

(** ** Events and sinks *)

Record Event := mkEvent {
  ev_Agent : string;
  ev_Version : string;
  ev_SessionID : string;
  ev_Model : string;
  ev_StatusCode : Z;
  ev_DurationMS : Z;
  ev_CreatedAt : Time
}.

(** The event's JSON. *)
Definition event_json (e : Event) : any := AObj (app
  [("agent", AStr (ev_Agent e)); ("version", AStr (ev_Version e)); ("session_id", AStr (ev_SessionID e))]
  (app (if decide (ev_Model e = "") then [] else [("model", AStr (ev_Model e))])
     [("status_code", AInt (ev_StatusCode e)); ("duration_ms", AInt (ev_DurationMS e));
      ("created_at", ATime (ev_CreatedAt e))])).

Inductive Sink : Type :=
  | HTTPSink (url token : string)
  | KafkaRESTSink (url : string).

Section sinks.
Context `{Net}.

(** [Emit]: what comes of the request is not looked at. *)
Definition emit_to (url : string) (headers : list (string * string)) (body : any) : M unit :=
  if decide (url = "") then mret tt else
  _ ← ask (λ k, http_do k (mkHttpRequest "POST" url headers (Some (default "" (json_value body))))); mret tt.

Definition Emit (sink : Sink) (event : Event) : M unit :=
  match sink with
  | HTTPSink url token =>
      emit_to url (("Content-Type", "application/json")
        :: if decide (token = "") then [] else [("Authorization", "Bearer " ++ token)]) (event_json event)
  | KafkaRESTSink url =>
      emit_to url [("Content-Type", "application/vnd.kafka.json.v2+json")]
        (AObj [("records", AList [AObj [("value", event_json event)]])])
  end.
End sinks.

(** ** The handler *)

(** The provider's answer: none, or its status, and whether its body came to its
    end. *)
Inductive upstream : Type :=
  | Unreachable
  | Responded (status : Z) (complete : bool).

(** What the client got: the proxy's own page, an answer, or a connection that
    broke off. *)
Inductive delivery : Type :=
  | Healthy
  | Delivered (status : Z)
  | Aborted (status : Z).

Section proxy.
Context `{Host}.
(** The provider. *)
Variable transport : nat → proxied → upstream.

Definition director (target : url) (agent version : string) (r : proxied) : proxied :=
  r <|px_URL := rewriteRequestURL target (px_URL r)|>
    <|px_Header := header_Set "X-MLAIOps-Agent-Version" version
                     (header_Set "X-MLAIOps-Agent" agent (px_Header r))|>.

(** [New]: the client's delivery, and the event for the sink.  A body that breaks
    off makes the reverse proxy panic, and nothing is reported. *)
Definition trace_handler (target : url) (agent version : string) (r : proxied) : M (delivery * option Event) :=
  if decide (u_Path (px_URL r) = "/healthz") then mret (Healthy, None) else
  start ← now;
  response ← ask (λ k, transport k (outgoing (director target agent version) r));
  match response with
  | Responded status false => mret (Aborted status, None)
  | _ =>
      let status := match response with Responded status _ => status | Unreachable => 502%Z end in
      stop ← now;
      created ← now;
      mret (Delivered status, Some (mkEvent agent version (header_Get "X-Session-ID" (px_Header r)) "" status
                                      (Z.quot (stop - start) 1000000) created))
  end.

(** [main]: the provider's address and the sink of the environment. *)
Definition trace_main (raw sink_url sink_token sink_format : string) : option (url * Sink) :=
  target ← Parse (if decide (raw = "") then "http://localhost:8000" else raw);
  Some (target, if decide (sink_format = "kafka-rest") then KafkaRESTSink sink_url
                else HTTPSink sink_url sink_token).

(** One request, and the report that a goroutine sends after it. *)
Definition traced `{Net} (target : url) (agent version : string) (sink : Sink) (r : proxied) : M delivery :=
  x ← trace_handler target agent version r;
  match x.2 with
  | Some event => _ ← Emit sink event; mret x.1
  | None => mret x.1
  end.
End proxy.

(** ** Properties *)

Lemma lookup_headers_deleted (names : list string) (h : header) key :
  foldl (λ h name, header_Del name h) h names !! key
  = if decide (key ∈ CanonicalHeaderKey <$> names) then None else h !! key.
Proof.
  revert h. induction names as [|name names IH]; intros h; [done|]. cbn [foldl]. rewrite IH. unfold header_Del.
  rewrite fmap_cons. destruct (decide (key = CanonicalHeaderKey name)) as [->|Hne].
  - rewrite (decide_True (P := _ ∈ _ :: _)) by left. case_decide; [done|]. apply lookup_delete_eq.
  - rewrite lookup_delete_ne by done. rewrite (decide_ext (key ∈ _ :: _) (key ∈ CanonicalHeaderKey <$> names)); [done|].
    rewrite elem_of_cons. tauto.
Qed.

Lemma outgoing_header dir r key :
  key ≠ "X-Forwarded-For" → key ≠ "User-Agent" →
  px_Header (outgoing dir r) !! key = removeHopByHopHeaders (px_Header (dir r)) !! key.
Proof.
  intros Hf Hu. change (with_user_agent (forwarded_for r (removeHopByHopHeaders (px_Header (dir r)))) !! key
                        = removeHopByHopHeaders (px_Header (dir r)) !! key).
  unfold with_user_agent, forwarded_for. repeat case_match; rewrite ?lookup_insert_ne by congruence; done.
Qed.

Lemma agent_key : CanonicalHeaderKey "X-MLAIOps-Agent" = "X-Mlaiops-Agent".
Proof. reflexivity. Qed.
Lemma version_key : CanonicalHeaderKey "X-MLAIOps-Agent-Version" = "X-Mlaiops-Agent-Version".
Proof. reflexivity. Qed.

Lemma director_header target agent version r key :
  px_Header (director target agent version r) !! key
  = if decide (key = "X-Mlaiops-Agent-Version") then Some [version] else
    if decide (key = "X-Mlaiops-Agent") then Some [agent] else px_Header r !! key.
Proof.
  change (<[CanonicalHeaderKey "X-MLAIOps-Agent-Version" := [version]]>
            (<[CanonicalHeaderKey "X-MLAIOps-Agent" := [agent]]> (px_Header r)) !! key
          = if decide (key = "X-Mlaiops-Agent-Version") then Some [version] else
            if decide (key = "X-Mlaiops-Agent") then Some [agent] else px_Header r !! key).
  rewrite agent_key, version_key.
  case_decide; [subst; apply lookup_insert_eq|]. rewrite lookup_insert_ne by congruence.
  case_decide; [subst; apply lookup_insert_eq|]. by rewrite lookup_insert_ne by congruence.
Qed.

(** What is left of a header the director sets or the client sent. *)
Lemma sent_header target agent version r key :
  key ≠ "X-Forwarded-For" → key ≠ "User-Agent" →
  px_Header (outgoing (director target agent version) r) !! key
  = if decide (key ∈ CanonicalHeaderKey <$> connection_names (px_Header r) ∨ key ∈ hopHeaders) then None
    else px_Header (director target agent version r) !! key.
Proof.
  intros Hf Hu. rewrite outgoing_header by done. unfold removeHopByHopHeaders.
  assert (connection_names (px_Header (director target agent version r)) = connection_names (px_Header r)) as ->.
  { unfold connection_names. by rewrite director_header. }
  rewrite lookup_headers_deleted, fmap_app. change (CanonicalHeaderKey <$> hopHeaders) with hopHeaders.
  apply decide_ext. by rewrite elem_of_app.
Qed.

Section properties.
Context `{Host}.
Variable transport : nat → proxied → upstream.

(** The header the provider sees for one of the agent's names. *)
Definition named_or_stripped (r : proxied) (key value : string) : option (list string) :=
  if decide (key ∈ CanonicalHeaderKey <$> connection_names (px_Header r)) then None else Some [value].

(** What the trace proxy sends and reports.  A request for the provider is sent
    on under the agent's name and version, whatever the client put in their place,
    unless the client's own [Connection] header lists them, which strips them;
    headers of one hop go no further; and the call is reported exactly when the
    provider's answer came to its end (or none came, a 502 of the proxy), once,
    with the status the client got, the session the client named and no model. *)
Theorem proxied_call target agent version r w :
  u_Path (px_URL r) ≠ "/healthz" →
  let out := outgoing (director target agent version) r in
  px_Header out !! "X-Mlaiops-Agent" = named_or_stripped r "X-Mlaiops-Agent" agent
  ∧ px_Header out !! "X-Mlaiops-Agent-Version" = named_or_stripped r "X-Mlaiops-Agent-Version" version
  ∧ (∀ name, name ∈ hopHeaders → px_Header out !! name = None)
  ∧ u_Host (px_URL out) = u_Host target ∧ u_Scheme (px_URL out) = u_Scheme target
  ∧ px_Method out = px_Method r ∧ px_Body out = px_Body r
  ∧ match (trace_handler transport target agent version r w).1 with
    | (Delivered status, Some event) =>
        transport (S (w_tick w)) out = Responded status true ∨ transport (S (w_tick w)) out = Unreachable ∧ status = 502%Z
    | (Aborted status, None) => transport (S (w_tick w)) out = Responded status false
    | _ => False
    end
  ∧ ∀ status event, (trace_handler transport target agent version r w).1 = (Delivered status, Some event) →
      ev_Agent event = agent ∧ ev_Version event = version ∧ ev_StatusCode event = status
      ∧ ev_SessionID event = header_Get "X-Session-ID" (px_Header r) ∧ ev_Model event = "".
Proof.
  intros Hpath out.
  assert (∀ key value, key ∉ hopHeaders → key ≠ "X-Forwarded-For" → key ≠ "User-Agent" →
    px_Header (director target agent version r) !! key = Some [value] →
    px_Header out !! key = named_or_stripped r key value) as Hkey.
  { intros key value Hh Hf Hu Hv. unfold out, named_or_stripped. rewrite sent_header, Hv by done.
    apply decide_ext. tauto. }
  assert (u_Host (px_URL out) = u_Host target ∧ u_Scheme (px_URL out) = u_Scheme target) as [Hhost Hscheme].
  { unfold out, outgoing, director, rewriteRequestURL. cbn. by destruct (joinURLPath _ _). }
  split_and!; try done.
  - apply Hkey; [compute_done|done..|]. by rewrite director_header.
  - apply Hkey; [compute_done|done..|]. by rewrite director_header.
  - intros name Hname. unfold out. rewrite sent_header, decide_True; [done|by right|..].
    + intros ->. revert Hname. compute_done.
    + intros ->. revert Hname. compute_done.
  - unfold trace_handler. rewrite decide_False by done. unfold now, ask. run_M. fold out.
    destruct (transport _ out) as [|status []]; simpl; auto.
  - intros status event. unfold trace_handler. rewrite decide_False by done. unfold now, ask. run_M. fold out.
    destruct (transport _ out) as [|status' []]; simpl; intros [= <- <-]; done.
Qed.
End properties.

Definition chat_url : url := mkUrl "" "" None "" "/v1/chat/completions" "" false false "" "" "".
Definition provider_url : url := mkUrl "https" "" None "llm.example.com" "/api/" "" false false "" "" "".

(** A client that asks for the agent's name to be dropped, and names itself. *)
Definition stripped_call : proxied :=
  mkProxied "POST" chat_url
    {["Connection" := ["close, x-mlaiops-agent"]; "X-Mlaiops-Agent" := ["someone-else"];
      "X-Session-Id" := ["session-1"]]} "{}" (Some "10.0.0.7").

Lemma proxied_call_witness :
  let out := outgoing (director provider_url "support" "2") stripped_call in
  px_Header out !! "X-Mlaiops-Agent" = None ∧ px_Header out !! "X-Mlaiops-Agent-Version" = Some ["2"]
  ∧ u_Host (px_URL out) = "llm.example.com" ∧ u_Path (px_URL out) = "/api/v1/chat/completions"
  ∧ ∀ status event,
      (trace_handler (H := quiet_host) (λ _ _, Responded 201 true) provider_url "support" "2" stripped_call
         (booting "" ∅)).1 = (Delivered status, Some event) → ev_SessionID event = "session-1".
Proof.
  destruct (proxied_call (H := quiet_host) (λ _ _, Responded 201 true) provider_url "support" "2" stripped_call
    (booting "" ∅) ltac:(vm_compute; discriminate)) as (Ha&Hv&_&Hhost&_&_&_&_&Hevent).
  split_and!.
  - etrans; [exact Ha|]. vm_compute. reflexivity.
  - etrans; [exact Hv|]. vm_compute. reflexivity.
  - etrans; [exact Hhost|]. reflexivity.
  - vm_compute. reflexivity.
  - intros status event He. destruct (Hevent status event He) as (_&_&_&->&_). vm_compute. reflexivity.
Defined.
