(* ===== verification/Console.v ===== *)
(** * The console's handlers (internal/httpapi/server.go, seed_blog.go)

    What the web console asks of the gateway beside the repository's resources:
    the caller's own profile, the live gauges of the realtime consumers, the
    stream of state digests, the prompt library, and test requests to a served
    model and to the agent runtime, which are forwarded; and the CORS headers
    every answer carries. *)

From Stdlib Require Import Ascii.
From S2P Require Import Prelude GoStrings Urls Types Dates World Access Tokens Blog Projects Pipelines.
From S2P Require Import Runs Models Agents Registry Store Auth HttpAccess Integrations Dispatch Handlers.

Open Scope string_scope.

(** The addresses and keys of the process environment; empty when unset. *)
Class ConsoleEnv := {
  AGENT_RUNTIME_URL : string;
  LANGFUSE_URL : string;
  LANGFUSE_PUBLIC_KEY : string;
  LANGFUSE_SECRET_KEY : string;
  OIDC_ISSUER : string;
  MLAIOPS_ALLOWED_ORIGIN : string;
  (** [json.Decode] of an object's [data]. *)
  json_prompts : string → result (list (gmap string any));
  (** A response's status line. *)
  status_text : Z → string
}.

(** ** The caller *)

Record Me := mkMe {
  me_Subject : string;
  me_Email : string;
  me_Roles : list string;
  me_Mode : string;
  me_Permissions : gmap string bool;
  me_Services : list string;
  me_ProjectIDs : list string;
  me_Provisioned : bool;
  me_Entitlements : option UserAccess
}.

Section pages.
Context `{ConsoleEnv}.
Implicit Types r : request.

Definition me r : M (reply Me) :=
  match rq_principal r with
  | None => mret (APIErr 401 "unauthenticated" "no principal resolved")
  | Some p =>
      d ← data;
      mret (JSON 200 (mkMe (pr_Subject p) (pr_Email p) (pr_Roles p)
        (if decide (OIDC_ISSUER = "") then "local" else "oidc") (Permissions p) (pr_Services p)
        (pr_ProjectIDs p) (pr_Provisioned p) (accessFor d p)))
  end.

Definition health : M (reply (gmap string string)) :=
  mret (JSON 200 {["status" := "ok"; "service" := "mlaiops-gateway"; "version" := "0.1.0"]}).

Definition userAccess : M (reply (list UserAccess)) :=
  items ← UserAccess_all; mret (JSON 200 items).

Definition resourceProfiles : M (reply (list ResourceProfile)) := mret (JSON 200 ResourceProfiles).

Definition accessRequests : M (reply (list AccessRequest)) :=
  d ← data; mret (JSON 200 (st_AccessRequests d)).

Definition adminBlogPosts : M (reply (list BlogPost)) := d ← data; mret (JSON 200 (st_BlogPosts d)).
End pages.

(** ** Realtime gauges

    A map of the process, by the name of a demo. *)
Definition gauges : Type := gmap string (gmap string any).

Definition realtimeStats (realtime : gauges) : reply gauges := JSON 200 realtime.

(** What became of a request: an answer, or a handler that panicked, which
    net/http turns into a closed connection. *)
Inductive outcome (A : Type) : Type :=
  | Answered (a : A)
  | Panicked.
Arguments Answered {A}.
Arguments Panicked {A}.

(** [reportRealtime]; the body decodes to a map, or to the nil map for [null],
    to which the handler may not assign. *)
Definition reportRealtime (demo : string) (body : result (option (gmap string any))) (t : Time)
    (realtime : gauges) : outcome (reply (gmap string bool)) * gauges :=
  match body with
  | Err e => (Answered (APIErr 400 "invalid_request" (error_text e)), realtime)
  | Ok None => (Panicked, realtime)
  | Ok (Some payload) =>
      (Answered (JSON 200 {["ok" := true]}),
       <[demo := <["updated_at" := AStr (RFC3339 t)]> payload]> realtime)
  end.

(** ** The digest of the state *)

Record digest := mkDigest {
  dg_Runs : Z;
  dg_ActiveRuns : Z;
  dg_LatestRun : string;
  dg_Sessions : Z;
  dg_LatestSession : string;
  dg_Models : Z;
  dg_Agents : Z;
  dg_Connections : Z;
  dg_Features : Z;
  dg_RealtimeEvents : float64
}.

(** The loops' [if updated > latest { latest = updated }], on formatted times. *)
Definition later (latest : string) (t : Time) : string :=
  if decide (string_le (RFC3339Nano t) latest) then latest else RFC3339Nano t.

Definition latest_of (times : list Time) : string := foldl later "" times.

Definition running_or_queued (run : PipelineRun) : Prop :=
  run_Status run = "running" ∨ run_Status run = "queued".
#[export] Instance running_or_queued_dec run : Decision (running_or_queued run).
Proof. unfold running_or_queued. apply _. Defined.

Section digest.
Context `{MapOrder}.

(** The sum of the gauges' [events], in the map's order. *)
Definition realtime_events (realtime : gauges) : float64 :=
  foldl (λ total demo,
    match realtime !! demo ≫= lookup "events" with
    | Some (AFloat events) => float_add total events
    | _ => total
    end) (zero : float64) (map_order realtime).

Definition digest_of (d : state) (realtime : gauges) : digest :=
  mkDigest (Z.of_nat (length (st_Runs d))) (count running_or_queued (st_Runs d))
    (latest_of (run_UpdatedAt <$> st_Runs d))
    (Z.of_nat (length (st_Sessions d))) (latest_of (ses_UpdatedAt <$> st_Sessions d))
    (Z.of_nat (length (st_Models d))) (Z.of_nat (length (st_Agents d)))
    (Z.of_nat (length (st_Connections d))) (Z.of_nat (length (st_Features d)))
    (realtime_events realtime).

(** [events]: the messages written, one at once and one per tick, while the
    digests encode and the writes succeed.  A wake-up is a tick, with what the
    process holds then and whether the write will succeed, or the end of the
    request. *)
Inductive wakeup : Type :=
  | Tick (d : state) (realtime : gauges) (writable : bool)
  | Done.

Fixpoint events_loop (encode : digest → option string) (wakeups : list wakeup) : list string :=
  match wakeups with
  | Tick d realtime true :: wakeups =>
      match encode (digest_of d realtime) with
      | Some raw => ("data: " ++ raw ++ String (ascii_of_N 10) (String (ascii_of_N 10) ""))
                    :: events_loop encode wakeups
      | None => []
      end
  | _ => []
  end.

(** The first digest is sent without waiting. *)
Definition events (flusher : bool) (encode : digest → option string) (start : wakeup)
    (ticks : list wakeup) : reply (list string) :=
  if flusher then JSON 200 (events_loop encode (start :: ticks))
  else APIErr 500 "streaming_unsupported" "response writer cannot stream".
End digest.

(** ** Forwarded requests *)

(** An error, or the answer of another service as it came. *)
Inductive forwarded : Type :=
  | ForwardError (status : Z) (code message : string)
  | ForwardCopy (status : Z) (body : string).

Definition request_limit : N := 1048576.

Section forwarding.
Context `{Net} `{ConsoleEnv}.
Implicit Types r : request.

Definition forward (code : string) (target : http_request) : M forwarded :=
  response ← ask (λ k, http_do k target);
  mret (match response with
        | Err e => ForwardError 502 code (error_text e)
        | Ok response => ForwardCopy (hp_StatusCode response) (hp_Body response)
        end).

(** [predictModel]; [body] is the request's body, or the error of reading it. *)
Definition predictModel r (id : string) (body : result string) : M forwarded :=
  d ← data;
  if negb (modelAllowed d (principal r) id)
  then mret (ForwardError 404 "not_found" "model not found") else
  match list_find (λ m, mdl_ID m = id) (st_Models d) with
  | None => mret (ForwardError 404 "not_found" "model not found")
  | Some (_, model) =>
      if decide (mdl_EndpointURL model = "" ∨ HasPrefix (mdl_EndpointURL model) "http" = false)
      then mret (ForwardError 409 "not_serving" "model has no live serving endpoint") else
      match body with
      | Err e => mret (ForwardError 400 "invalid_request" (error_text e))
      | Ok body =>
          forward "endpoint_unreachable" (mkHttpRequest "POST"
            (TrimRightByte "/" (mdl_EndpointURL model) ++ "/invocations")
            [("Content-Type", "application/json")] (Some (first_bytes request_limit body)))
      end
  end.

(** The body of the request to the runtime. *)
Definition invoke_body (req : InvokeAgentRequest) : any :=
  let optional key value : list (string * any) :=
    if decide (value = "") then [] else [(key, AStr value)] in
  AObj (("message", AStr (iar_Message req))
        :: app (optional "session_id" (iar_SessionID req)) (optional "user_id" (iar_UserID req))).

Definition invokeAgent r (agentID : string) (body : result InvokeAgentRequest) : M forwarded :=
  d ← data;
  if negb (agentAllowed d (principal r) agentID)
  then mret (ForwardError 404 "not_found" "agent not found") else
  match list_find (λ a, agt_ID a = agentID) (st_Agents d) with
  | None => mret (ForwardError 404 "not_found" "agent not found")
  | Some (_, agent) =>
      match body with
      | Err e => mret (ForwardError 400 "invalid_request" (error_text e))
      | Ok req =>
          if decide (TrimSpace (iar_Message req) = "")
          then mret (ForwardError 422 "validation_error" "message is required") else
          let runtime := if decide (AGENT_RUNTIME_URL = "") then "http://localhost:9000"
                         else AGENT_RUNTIME_URL in
          forward "runtime_unreachable" (mkHttpRequest "POST" (TrimRightByte "/" runtime ++ "/invoke")
            [("Content-Type", "application/json"); ("X-MLAIOps-Agent-ID", agt_ID agent);
             ("X-MLAIOps-Agent-Name", agt_Name agent)]
            (Some (default "" (json_value (invoke_body req)))))
      end
  end.

(** [prompts]: whether the library is configured, and its items. *)
Definition prompts : M (reply (bool * list (gmap string any))) :=
  if decide (LANGFUSE_URL = "" ∨ LANGFUSE_PUBLIC_KEY = "" ∨ LANGFUSE_SECRET_KEY = "")
  then mret (JSON 200 (false, [])) else
  response ← ask (λ k, http_do k (mkHttpRequest "GET"
    (TrimRightByte "/" LANGFUSE_URL ++ "/api/public/v2/prompts")
    [("Authorization", "Basic " ++ basic_auth LANGFUSE_PUBLIC_KEY LANGFUSE_SECRET_KEY)] None));
  mret (match response with
        | Err e => APIErr 502 "langfuse_unreachable" (error_text e)
        | Ok response =>
            if decide (hp_StatusCode response ≠ 200)%Z
            then APIErr 502 "langfuse_error" (status_text (hp_StatusCode response)) else
            match json_prompts (hp_Body response) with
            | Err e => APIErr 502 "langfuse_error" (error_text e)
            | Ok items => JSON 200 (true, items)
            end
        end).

(** ** CORS *)

Definition cors_headers : list (string * string) :=
  let origin := if decide (MLAIOPS_ALLOWED_ORIGIN = "") then "*" else MLAIOPS_ALLOWED_ORIGIN in
  ("Access-Control-Allow-Origin", origin)
  :: ("Access-Control-Allow-Headers", "Content-Type, Authorization")
  :: (if decide (origin = "*") then [] else [("Vary", "Origin")]).

(** The headers, and the answer of the next handler; a preflight request has
    none, and is answered without content. *)
Definition cors {A} (next : request → A) r : list (string * string) * option A :=
  (cors_headers, if decide (rq_method r = "OPTIONS") then None else Some (next r)).
End forwarding.

(** ** The seeded blog post *)

Definition seed_slug : string := "mounting-s3-as-a-filesystem-in-jupyter".

Section seed.
Context `{Host}.
(** The post's text. *)
Variable content : string.

Definition seed_post : UpsertBlogPostRequest :=
  zero <|ubr_Slug := seed_slug|> <|ubr_Title := "Mounting S3 as a filesystem inside Jupyter"|>
       <|ubr_Summary := "A production-minded guide to making object storage feel local in notebooks with S3FS, FUSE, containers, permissions, health checks, and honest operational trade-offs."|>
       <|ubr_Author := "Nexus Engineering"|> <|ubr_Tags := ["Jupyter"; "S3"; "Infrastructure"; "MLOps"]|>
       <|ubr_Status := "published"|> <|ubr_Content := content|>.

Definition ensureSeedBlog : M unit :=
  d ← data;
  if decide (Exists (λ post, bp_Slug post = seed_slug) (st_BlogPosts d)) then mret tt else
  _ ← UpsertBlogPost "" seed_post "system"; mret tt.
End seed.

(** ** Times compared as text

    RFC 3339 drops the zeros that end a fraction, so a later time can come before
    an earlier one in the order of strings, and the digest keeps the earlier: a run
    updated at 0.12 seconds leaves no trace after one updated at 0.1. *)
Lemma digest_misses_update :
  let early := 100000000%Z in let late := 120000000%Z in
  (early < late)%Z ∧ latest_of [early] = latest_of [early; late].
Proof. split; [lia|]. vm_compute. reflexivity. Qed.
