(* ===== verification/Router.v ===== *)
(** * The gateway's routes (internal/httpapi/server.go, [New])

    The table the gateway registers with [http.ServeMux], how the multiplexer
    reads a request's escaped path against it, and the chain in front of it.  An
    API pattern is a method and segments, some of them wildcards that match one
    segment each; every other path is a static file's. *)

From Stdlib Require Import Ascii.
From S2P Require Import Prelude GoStrings Urls Types World Access Tokens Auth HttpAccess Integrations.
From S2P Require Import Dispatch Handlers Console.

Open Scope string_scope.

Record route := mkRoute {
  rt_method : string;
  rt_pattern : string;
  rt_handler : string
}.
#[export] Instance route_eq_dec : EqDecision route.
Proof. solve_decision. Defined.

Definition routes : list route := [
  mkRoute "GET" "/api/v1/health" "health";
  mkRoute "GET" "/api/v1/me" "me";
  mkRoute "GET" "/api/v1/admin/users" "userAccess";
  mkRoute "GET" "/api/v1/admin/resource-profiles" "resourceProfiles";
  mkRoute "PUT" "/api/v1/admin/users/{subject}" "upsertUserAccess";
  mkRoute "DELETE" "/api/v1/admin/users/{subject}" "deleteUserAccess";
  mkRoute "GET" "/api/v1/access-requests" "myAccessRequests";
  mkRoute "POST" "/api/v1/access-requests" "createAccessRequest";
  mkRoute "GET" "/api/v1/admin/access-requests" "accessRequests";
  mkRoute "PATCH" "/api/v1/admin/access-requests/{id}" "reviewAccessRequest";
  mkRoute "GET" "/api/v1/settings/tokens" "apiTokens";
  mkRoute "POST" "/api/v1/settings/tokens" "createAPIToken";
  mkRoute "DELETE" "/api/v1/settings/tokens/{id}" "revokeAPIToken";
  mkRoute "GET" "/api/v1/blogs" "blogPosts";
  mkRoute "GET" "/api/v1/blogs/{slug}" "blogPost";
  mkRoute "GET" "/api/v1/admin/blogs" "adminBlogPosts";
  mkRoute "POST" "/api/v1/admin/blogs" "createBlogPost";
  mkRoute "PUT" "/api/v1/admin/blogs/{id}" "updateBlogPost";
  mkRoute "DELETE" "/api/v1/admin/blogs/{id}" "deleteBlogPost";
  mkRoute "GET" "/api/v1/dashboard" "dashboard";
  mkRoute "GET" "/api/v1/onboarding/readiness" "readiness";
  mkRoute "GET" "/api/v1/projects" "projects";
  mkRoute "POST" "/api/v1/projects" "createProject";
  mkRoute "GET" "/api/v1/projects/{id}" "project";
  mkRoute "PUT" "/api/v1/projects/{id}/repository" "setProjectRepository";
  mkRoute "GET" "/api/v1/pipelines/definitions" "pipelineDefinitions";
  mkRoute "POST" "/api/v1/pipelines/definitions" "upsertPipelineDefinition";
  mkRoute "GET" "/api/v1/pipelines/definitions/{id}" "pipelineDefinition";
  mkRoute "PUT" "/api/v1/pipelines/definitions/{id}" "upsertPipelineDefinition";
  mkRoute "GET" "/api/v1/pipelines/runs" "runs";
  mkRoute "POST" "/api/v1/pipelines/submit" "submitPipeline";
  mkRoute "GET" "/api/v1/pipelines/runs/{id}" "run";
  mkRoute "POST" "/api/v1/pipelines/runs/{id}/cancel" "cancelRun";
  mkRoute "POST" "/api/v1/pipelines/runs/{id}/retry" "retryRun";
  mkRoute "POST" "/api/v1/pipelines/runs/{id}/steps" "updateRunStep";
  mkRoute "GET" "/api/v1/components" "components";
  mkRoute "GET" "/api/v1/catalog" "catalog";
  mkRoute "GET" "/api/v1/features" "features";
  mkRoute "POST" "/api/v1/features" "applyFeatureView";
  mkRoute "POST" "/api/v1/features/{name}/materialized" "reportMaterialization";
  mkRoute "GET" "/api/v1/storage/buckets" "storageProxy";
  mkRoute "GET" "/api/v1/storage/objects" "storageProxy";
  mkRoute "GET" "/api/v1/storage/object" "storageProxy";
  mkRoute "GET" "/api/v1/prompts" "prompts";
  mkRoute "GET" "/api/v1/events" "events";
  mkRoute "GET" "/api/v1/realtime" "realtimeStats";
  mkRoute "POST" "/api/v1/realtime/{demo}" "reportRealtime";
  mkRoute "GET" "/api/v1/functions" "functions";
  mkRoute "POST" "/api/v1/functions" "deployFunction";
  mkRoute "DELETE" "/api/v1/functions/{name}" "deleteFunction";
  mkRoute "POST" "/api/v1/functions/{name}/invoke" "invokeFunction";
  mkRoute "POST" "/api/v1/functions/{name}/invoke-async" "invokeFunctionAsync";
  mkRoute "GET" "/api/v1/models" "models";
  mkRoute "POST" "/api/v1/models" "registerModel";
  mkRoute "POST" "/api/v1/models/{id}/promote" "promoteModel";
  mkRoute "POST" "/api/v1/models/{id}/deploy" "deployModel";
  mkRoute "POST" "/api/v1/models/{id}/rollback" "rollbackModel";
  mkRoute "POST" "/api/v1/models/{id}/predict" "predictModel";
  mkRoute "GET" "/api/v1/agents" "agents";
  mkRoute "POST" "/api/v1/agents" "deployAgent";
  mkRoute "PUT" "/api/v1/agents/{id}/traffic" "agentTraffic";
  mkRoute "POST" "/api/v1/agents/{id}/invoke" "invokeAgent";
  mkRoute "GET" "/api/v1/agents/{id}/sessions" "agentSessions";
  mkRoute "GET" "/api/v1/agents/{id}/traces" "agentTraces";
  mkRoute "GET" "/api/v1/agents/{id}/usage" "agentUsage";
  mkRoute "POST" "/api/v1/traces" "recordTrace";
  mkRoute "GET" "/api/v1/tools" "tools";
  mkRoute "POST" "/api/v1/tools" "registerTool";
  mkRoute "GET" "/api/v1/connections" "connections";
  mkRoute "POST" "/api/v1/connections" "createConnection";
  mkRoute "POST" "/api/v1/connections/{id}/test" "testConnection";
  mkRoute "GET" "/api/v1/audit" "audit";
  mkRoute "GET" "/api/openapi.json" "openapi"
].

(** ** Matching *)

Definition is_wildcard (segment : string) : bool := HasPrefix segment "{".

(** [pathUnescape]: what cannot be decoded stays as it is. *)
Definition pathUnescape (segment : string) : string := default segment (unescape_path segment).

(** A segment of the request's escaped path, against one of a pattern.  A wildcard
    matches neither the empty segment after a final slash nor a lone slash. *)
Definition segment_matches (pattern segment : string) : bool :=
  if is_wildcard pattern
  then bool_decide (segment ≠ "" ∧ pathUnescape segment ≠ "/")
  else bool_decide (pathUnescape segment = pattern).

Fixpoint segments_match (pattern segments : list string) : bool :=
  match pattern, segments with
  | [], [] => true
  | p :: pattern, s :: segments => segment_matches p s && segments_match pattern segments
  | _, _ => false
  end.

(** The values of a pattern's wildcards. *)
Fixpoint path_values (pattern segments : list string) : list (string * string) :=
  match pattern, segments with
  | p :: pattern, s :: segments =>
      if is_wildcard p then (TrimByte "}" (TrimByte "{" p), pathUnescape s) :: path_values pattern segments
      else path_values pattern segments
  | _, _ => []
  end.

(** A pattern for GET is one for HEAD too. *)
Definition method_matches (r : route) (method : string) : bool :=
  bool_decide (rt_method r = method) || bool_decide (rt_method r = "GET" ∧ method = "HEAD").

Definition route_matches (method escaped : string) (r : route) : bool :=
  method_matches r method && segments_match (Split (rt_pattern r) "/") (Split escaped "/").

(** [cleanPath]: a final slash stays. *)
Definition cleanPath (p : string) : string :=
  let cleaned := "/" ++ Join (clean_segments p) "/" in
  if HasSuffix p "/" && bool_decide (cleaned ≠ "/") then cleaned ++ "/" else cleaned.

Inductive dispatched_to : Type :=
  | ToClean (path : string)
  | ToHandler (r : route) (values : list (string * string))
  | ToStatic.

(** [ServeMux]: a path that is not clean is redirected to the one that is. *)
Definition mux (method escaped : string) : dispatched_to :=
  if decide (cleanPath escaped ≠ escaped) then ToClean (cleanPath escaped) else
  match find (route_matches method escaped) routes with
  | Some r => ToHandler r (path_values (Split (rt_pattern r) "/") (Split escaped "/"))
  | None => ToStatic
  end.

(** ** The chain *)

(** The resolver of [New]: a subject's grant. *)
Definition grant_resolver {D} `{Repository D} (repository : D) : AccessResolver :=
  λ subject, (λ access, ([ua_Role access], ua_Services access, ua_ProjectIDs access, ua_Disabled access))
             <$> repo_AccessFor repository subject.

(** What the gateway answers an authenticated request: CORS, the role rules, then
    the multiplexer. *)
Definition gateway `{AuthEnv} `{ConsoleEnv} {D} `{Repository D} (repository : D) (escaped : string)
    (r : request) : list (string * string) * option (response (request * dispatched_to)) :=
  cors (RBACWithResolver (Some (grant_resolver repository))
          (λ r, Served (r, mux (rq_method r) escaped))) r.
