(* ===== verification/RouterProps.v ===== *)
(** * What the routes promise

    A request has one route at most, the role rules judge it by its route and not
    by the identifiers in its path, and what each route asks of a user. *)

From Stdlib Require Import Ascii.
From S2P Require Import Prelude GoStrings Urls Types World Access Tokens Auth HttpAccess Integrations.
From S2P Require Import Dispatch Handlers Console Router.

Open Scope string_scope.

(** ** One route at most *)

Definition may_overlap (p q : string) : bool :=
  is_wildcard p || is_wildcard q || bool_decide (p = q).

Fixpoint patterns_overlap (ps qs : list string) : bool :=
  match ps, qs with
  | [], [] => true
  | p :: ps, q :: qs => may_overlap p q && patterns_overlap ps qs
  | _, _ => false
  end.

Lemma segments_match_overlap ps qs segments :
  segments_match ps segments = true → segments_match qs segments = true → patterns_overlap ps qs = true.
Proof.
  revert qs segments. induction ps as [|p ps IH]; intros [|q qs] [|s segments]; try done.
  cbn [segments_match patterns_overlap]. intros [Hp Hps]%andb_true_iff [Hq Hqs]%andb_true_iff.
  apply andb_true_iff. split; [|by eapply IH].
  unfold segment_matches, may_overlap in *. destruct (is_wildcard p), (is_wildcard q); try done.
  apply bool_decide_eq_true in Hp, Hq. apply bool_decide_eq_true. congruence.
Qed.

Definition distinct_routes (r1 r2 : route) : bool :=
  bool_decide (r1 = r2) || bool_decide (rt_method r1 ≠ rt_method r2)
  || negb (patterns_overlap (Split (rt_pattern r1) "/") (Split (rt_pattern r2) "/")).

Lemma routes_distinct : forallb (λ r1, forallb (distinct_routes r1) routes) routes = true.
Proof. vm_compute. reflexivity. Qed.

Lemma routes_methods : forallb (λ r, bool_decide (rt_method r ≠ "HEAD")) routes = true.
Proof. vm_compute. reflexivity. Qed.

Lemma forallb_elem {A} (f : A → bool) l x : forallb f l = true → x ∈ l → f x = true.
Proof. rewrite forallb_forall. intros Hf Hx. apply Hf. by apply list_elem_of_In. Qed.

Lemma method_matches_same r1 r2 m :
  r1 ∈ routes → r2 ∈ routes → method_matches r1 m = true → method_matches r2 m = true →
  rt_method r1 = rt_method r2.
Proof.
  intros H1 H2. pose proof (forallb_elem _ _ _ routes_methods H1) as M1.
  pose proof (forallb_elem _ _ _ routes_methods H2) as M2. cbn beta in M1, M2.
  apply bool_decide_eq_true in M1, M2. unfold method_matches.
  rewrite !orb_true_iff, !bool_decide_eq_true. clear -M1 M2.
  intros [<-|[-> ->]] [?|[? ?]]; congruence.
Qed.

Lemma routes_unambiguous m escaped r1 r2 :
  r1 ∈ routes → r2 ∈ routes → route_matches m escaped r1 = true → route_matches m escaped r2 = true →
  r1 = r2.
Proof.
  unfold route_matches. intros H1 H2 [M1 S1]%andb_true_iff [M2 S2]%andb_true_iff.
  pose proof (forallb_elem _ _ _ (forallb_elem _ _ _ routes_distinct H1) H2) as Hd.
  unfold distinct_routes in Hd.
  rewrite (segments_match_overlap _ _ _ S1 S2), orb_false_r, orb_true_iff, !bool_decide_eq_true in Hd.
  destruct Hd as [Hd|Hd]; [done|]. exfalso. by apply Hd, (method_matches_same r1 r2 m).
Qed.

(** The multiplexer serves the one route a clean path matches. *)
Lemma mux_route m escaped r :
  r ∈ routes → route_matches m escaped r = true → cleanPath escaped = escaped →
  mux m escaped = ToHandler r (path_values (Split (rt_pattern r) "/") (Split escaped "/")).
Proof.
  intros Hr Hm Hc. unfold mux. rewrite decide_False by (intros E; by apply E).
  destruct (find (route_matches m escaped) routes) as [r'|] eqn:E.
  - apply find_some in E as [Hr' Hm']. apply list_elem_of_In in Hr'.
    by rewrite (routes_unambiguous m escaped r' r Hr' Hr Hm' Hm).
  - apply list_elem_of_In in Hr. by rewrite (find_none _ _ E r Hr) in Hm.
Qed.

(** ** A path against its pattern *)

Definition instance_of (p d : string) : Prop := is_wildcard p = false → d = p.

(** The segments before the first wildcard, and the slash before it. *)
Fixpoint literal_part (ps : list string) : string :=
  match ps with
  | [] => ""
  | p :: ps => if is_wildcard p then "" else
               match ps with [] => p | _ => p ++ "/" ++ literal_part ps end
  end.

Lemma literal_part_prefix ps ds :
  Forall2 instance_of ps ds → ∃ rest, Join ds "/" = literal_part ps ++ rest.
Proof.
  intros H. induction H as [|p d ps ds Hp H IH]; [by exists ""|]. cbn [literal_part].
  destruct (is_wildcard p) eqn:E; [by eexists|]. rewrite (Hp E).
  inversion H as [|p' d' ps' ds' Hp' H']; subst; [by exists ""; rewrite str_app_nil_r|].
  destruct IH as [rest IH]. exists rest.
  change (Join (p :: d' :: ds') "/") with (p ++ "/" ++ Join (d' :: ds') "/").
  by rewrite IH, !str_app_assoc.
Qed.

(** Decoding keeps the slashes where they are. *)
Lemma unescape_slash s t r :
  unescape_path (s ++ String "/" t) = Some r →
  ∃ s' t', unescape_path s = Some s' ∧ unescape_path t = Some t' ∧ r = s' ++ String "/" t'.
Proof.
  revert r. induction s as [s IH] using string_lt_ind.
  intros r. destruct s as [|a s].
  - rewrite str_app_nil_l. cbn. destruct (unescape_path t) as [t'|]; [|done]. intros [= <-]. by exists "", t'.
  - rewrite str_app_cons. cbn [unescape_path]. destruct (byte_is 37 a).
    + destruct s as [|h s].
      { rewrite str_app_nil_l. by destruct t. }
      destruct s as [|l s].
      { rewrite str_app_cons, str_app_nil_l. cbn. by destruct (hex_digit h). }
      rewrite !str_app_cons. destruct (hex_digit h) as [h'|]; [|done]. destruct (hex_digit l) as [l'|]; [|done].
      cbn [mbind option_bind]. destruct (unescape_path (s ++ String "/" t)) as [r'|] eqn:E; [|done].
      intros [= <-]. destruct (IH s ltac:(cbn; lia) r' E) as (s'&t'&->&->&->). eauto.
    + destruct (unescape_path (s ++ String "/" t)) as [r'|] eqn:E; [|done].
      intros [= <-]. destruct (IH s ltac:(cbn; lia) r' E) as (s'&t'&->&->&->). cbn. eauto.
Qed.

Lemma unescape_segments segs r :
  segs ≠ [] → unescape_path (Join segs "/") = Some r → r = Join (pathUnescape <$> segs) "/".
Proof.
  intros Hne. revert r. induction segs as [|s [|s2 segs] IH]; [done|..]; intros r.
  - cbn. unfold pathUnescape. by intros ->.
  - change (Join (s :: s2 :: segs) "/") with (s ++ String "/" (Join (s2 :: segs) "/")).
    intros (s'&t'&Hs&Ht&->)%unescape_slash. apply IH in Ht as ->; [|done].
    assert (pathUnescape s = s') as <- by (unfold pathUnescape; by rewrite Hs). done.
Qed.

Lemma segments_match_instance ps segs :
  segments_match ps segs = true → Forall2 instance_of ps (pathUnescape <$> segs).
Proof.
  revert segs. induction ps as [|p ps IH]; intros [|s segs]; try done.
  cbn. intros [Hp Hps]%andb_true_iff. constructor; [|by apply IH].
  unfold segment_matches, instance_of in *. destruct (is_wildcard p); [done|].
  by apply bool_decide_eq_true in Hp.
Qed.

(** ** What the role rules read of a path *)

Definition read_prefixes : list string := [
  "/api/"; "/api/v1/admin/"; "/api/v1/blogs/"; "/api/v1/settings/"; "/api/v1/pipelines/runs/";
  "/api/v1/features/"; "/api/v1/realtime/"; "/api/v1/projects/"; "/api/v1/projects"; "/api/v1/pipelines";
  "/api/v1/models"; "/api/v1/agents"; "/api/v1/traces"; "/api/v1/features"; "/api/v1/storage";
  "/api/v1/realtime"; "/api/v1/catalog"; "/api/v1/tools"; "/api/v1/prompts"; "/api/v1/components";
  "/api/v1/connections"; "/api/v1/functions"; "/api/v1/pipelines/runs"].

Definition read_paths : list string := [
  "/api/v1/blogs"; "/api/v1/access-requests"; "/api/v1/me"; "/api/v1/dashboard";
  "/api/v1/onboarding/readiness"; "/api/v1/events"; "/api/v1/traces"; "/api/v1/health";
  "/api/openapi.json"].

Definition read_suffixes : list string := ["steps"; "materialized"; "repository"].

(** Two paths no role rule tells apart. *)
Record same_view (p q : string) : Prop := {
  view_prefix : ∀ x, x ∈ read_prefixes → HasPrefix p x = HasPrefix q x;
  view_path : ∀ x, x ∈ read_paths → p = x ↔ q = x;
  view_suffix : ∀ x, x ∈ read_suffixes → HasSuffix p ("/" ++ x) = HasSuffix q ("/" ++ x)
}.

Ltac read := solve [compute_done].

Section view.
Context (p q : string) (Hv : same_view p q).

Lemma serviceForPath_view : serviceForPath p = serviceForPath q.
Proof using Hv.
  unfold serviceForPath. destruct Hv as [Hp He Hs].
  assert (p ∈ ["/api/v1/dashboard"; "/api/v1/onboarding/readiness"; "/api/v1/events"]
          ↔ q ∈ ["/api/v1/dashboard"; "/api/v1/onboarding/readiness"; "/api/v1/events"]) as Hpages.
  { rewrite !elem_of_cons, (He "/api/v1/dashboard"), (He "/api/v1/onboarding/readiness"),
      (He "/api/v1/events"), !elem_of_nil by read. done. }
  rewrite (decide_ext _ _ _ _ Hpages).
  change "/repository" with ("/" ++ "repository"). rewrite (Hs "repository") by read.
  repeat match goal with |- context [HasPrefix p ?x] => rewrite (Hp x) by read end.
  done.
Qed.

Lemma machineReportingPath_view : machineReportingPath p = machineReportingPath q.
Proof using Hv.
  unfold machineReportingPath. destruct Hv as [Hp He Hs].
  rewrite (bool_decide_ext (p = "/api/v1/traces") (q = "/api/v1/traces")) by (apply He; read).
  change "/steps" with ("/" ++ "steps"). change "/materialized" with ("/" ++ "materialized").
  rewrite (Hs "steps"), (Hs "materialized") by read.
  repeat match goal with |- context [HasPrefix p ?x] => rewrite (Hp x) by read end.
  done.
Qed.

Lemma hasAnyPrefix_view prefixes :
  (∀ x, x ∈ prefixes → x ∈ read_prefixes) → hasAnyPrefix p prefixes = hasAnyPrefix q prefixes.
Proof using Hv.
  intros Hin. unfold hasAnyPrefix. induction prefixes as [|x prefixes IH]; [done|]. cbn [existsb].
  rewrite (view_prefix p q Hv) by (apply Hin; left). rewrite IH; [done|]. intros y Hy. apply Hin. by right.
Qed.

Lemma roles_allowed_view principal m roles :
  roles_allowed principal m p roles = roles_allowed principal m q roles.
Proof using Hv.
  assert (hasAnyPrefix p userWrite = hasAnyPrefix q userWrite) as Hu.
  { apply hasAnyPrefix_view. intros x Hx. repeat (apply elem_of_cons in Hx as [->|Hx]; [read|]). set_solver. }
  assert (hasAnyPrefix p engineerWrite = hasAnyPrefix q engineerWrite) as He.
  { apply hasAnyPrefix_view. intros x Hx. repeat (apply elem_of_cons in Hx as [->|Hx]; [read|]). set_solver. }
  assert (hasAnyPrefix p serviceWrite = hasAnyPrefix q serviceWrite) as Hs.
  { apply hasAnyPrefix_view. intros x Hx. repeat (apply elem_of_cons in Hx as [->|Hx]; [read|]). set_solver. }
  induction roles as [|role roles IH]; [done|]. cbn [roles_allowed].
  rewrite IH, He, Hs. unfold user_allowed. rewrite Hu, serviceForPath_view, machineReportingPath_view.
  assert (p = "/api/v1/me" ↔ q = "/api/v1/me") as Hme by (apply (view_path p q Hv); read).
  by rewrite (decide_ext _ _ _ _ Hme).
Qed.

(** The role rules answer the same for both. *)
Lemma Allowed_view principal m : Allowed principal m p = Allowed principal m q.
Proof using Hv.
  unfold Allowed. rewrite roles_allowed_view. destruct Hv as [Hp He Hs].
  rewrite (Hp "/api/v1/admin/"), (Hp "/api/v1/settings/") by read.
  assert (blog_read m p ↔ blog_read m q) as Hblog.
  { unfold blog_read. rewrite (He "/api/v1/blogs"), (Hp "/api/v1/blogs/") by read. done. }
  rewrite (decide_ext _ _ _ _ Hblog).
  assert (p = "/api/v1/access-requests" ∧ (m = "GET" ∨ m = "POST")
          ↔ q = "/api/v1/access-requests" ∧ (m = "GET" ∨ m = "POST")) as Hrequests.
  { rewrite (He "/api/v1/access-requests") by read. done. }
  by rewrite (decide_ext _ _ _ _ Hrequests).
Qed.

Lemma unguarded_view : unguarded p ↔ unguarded q.
Proof using Hv.
  unfold unguarded. destruct Hv as [Hp He Hs].
  rewrite (Hp "/api/"), (He "/api/v1/health"), (He "/api/openapi.json") by read. done.
Qed.
End view.

(** ** A path and its pattern look the same *)

(** What follows [c] does not decide whether [c ++ rest] starts with [x]. *)
Definition decides (c x : string) : bool := HasPrefix c x || negb (HasPrefix x c).

Lemma decides_spec c x rest :
  decides c x = true → HasPrefix (c ++ rest) x = HasPrefix c x.
Proof.
  unfold decides, HasPrefix. revert x. induction c as [|a c IH]; intros x.
  - rewrite str_app_nil_l. destruct x; [by destruct rest|done].
  - destruct x as [|b x]; [done|]. rewrite str_app_cons. cbn [String.prefix].
    destruct (ascii_dec b a), (ascii_dec a b); try congruence. apply IH.
Qed.

Lemma app_not_shorter c x rest : HasPrefix x c = false → c ++ rest ≠ x.
Proof. intros Hx <-. by rewrite HasPrefix_app in Hx. Qed.

Lemma prefix_before_slash w y x :
  contains_byte "/" w = false →
  String.prefix (w ++ "/") (y ++ String "/" x) = String.prefix (w ++ "/") (y ++ "/").
Proof.
  revert y. induction w as [|c w IH]; intros y Hw.
  - rewrite str_app_nil_l. destruct y as [|a y]; [by destruct x|].
    rewrite !str_app_cons. cbn [String.prefix]. destruct (ascii_dec "/" a); [|done].
    by destruct y.
  - cbn [contains_byte] in Hw. apply orb_false_iff in Hw as [Hc Hw].
    destruct y as [|a y].
    + rewrite !str_app_nil_l, str_app_cons. cbn [String.prefix].
      destruct (ascii_dec c "/") as [->|]; [done|done].
    + rewrite !str_app_cons. cbn [String.prefix]. destruct (ascii_dec c a); [by apply IH|done].
Qed.

Lemma no_byte_rev c s : contains_byte c s = false → contains_byte c (String.rev s) = false.
Proof.
  induction s as [|a s IH]; [done|]. cbn [contains_byte]. intros [Ha Hs]%orb_false_iff.
  rewrite str_rev_cons. specialize (IH Hs). induction (String.rev s) as [|b t IHt].
  - rewrite str_app_nil_l. cbn. by rewrite Ha.
  - rewrite str_app_cons. cbn [contains_byte] in *. apply orb_false_iff in IH as [-> ?]. auto.
Qed.

(** A final segment is all that a suffix of one segment sees. *)
Lemma HasSuffix_segment x y w :
  contains_byte "/" w = false →
  HasSuffix (x ++ "/" ++ y) ("/" ++ w) = HasSuffix ("/" ++ y) ("/" ++ w).
Proof.
  intros Hw. unfold HasSuffix. rewrite !str_rev_app.
  change (String.rev "/") with "/". rewrite <-!str_app_assoc.
  change ("/" ++ String.rev x) with (String "/" (String.rev x)).
  apply prefix_before_slash. by apply no_byte_rev.
Qed.

Lemma Join_snoc l s : l ≠ [] → Join (l ++ [s]) "/" = Join l "/" ++ "/" ++ s.
Proof.
  intros Hl. induction l as [|x [|y l] IH]; [done|done|].
  change (Join ((x :: y :: l) ++ [s])%list "/") with (x ++ "/" ++ Join ((y :: l) ++ [s])%list "/").
  rewrite IH by done. change (Join (x :: y :: l) "/") with (x ++ "/" ++ Join (y :: l) "/").
  by rewrite !str_app_assoc.
Qed.

(** An identifier that no role rule takes for a word of the API. *)
Definition plain_value (v : string) : Prop :=
  Forall (λ w, HasSuffix ("/" ++ v) ("/" ++ w) = false) read_suffixes.

(** What the table is checked for: a pattern with wildcards is decided by its
    literal part, and its own names are plain. *)
Definition has_wildcard (r : route) : bool := existsb is_wildcard (Split (rt_pattern r) "/").

Definition pattern_decides (r : route) : bool :=
  let c := literal_part (Split (rt_pattern r) "/") in
  forallb (decides c) read_prefixes && forallb (λ x, negb (HasPrefix x c)) read_paths
  && bool_decide (2 ≤ length (Split (rt_pattern r) "/"))%nat
  && forallb (λ p, negb (is_wildcard p)
                   || forallb (λ w, negb (HasSuffix ("/" ++ p) ("/" ++ w))) read_suffixes)
       (Split (rt_pattern r) "/").

Lemma routes_decided : forallb (λ r, negb (has_wildcard r) || pattern_decides r) routes = true.
Proof. vm_compute. reflexivity. Qed.

Lemma read_suffixes_plain w : w ∈ read_suffixes → contains_byte "/" w = false.
Proof. intros Hw. repeat (apply elem_of_cons in Hw as [->|Hw]; [done|]). by apply not_elem_of_nil in Hw. Qed.

Lemma instance_suffix ps ds w :
  (2 ≤ length ps)%nat → Forall2 instance_of ps ds → w ∈ read_suffixes →
  Forall2 (λ p d, is_wildcard p = true → HasSuffix ("/" ++ p) ("/" ++ w) = false
                                         ∧ HasSuffix ("/" ++ d) ("/" ++ w) = false) ps ds →
  HasSuffix (Join ds "/") ("/" ++ w) = HasSuffix (Join ps "/") ("/" ++ w).
Proof.
  intros Hlen H Hw Hplain. destruct ps as [|p ps _] using rev_ind; [cbn in Hlen; lia|].
  apply Forall2_app_inv_l in H as (ds'&dl&H&Hl&->). apply Forall2_app_inv_l in Hplain as (ds2&dl2&_&Hp&Heq).
  apply Forall2_cons_inv_l in Hl as (d&rest&Hd&->%Forall2_nil_inv_l&->).
  apply Forall2_cons_inv_l in Hp as (d2&rest&Hp&->%Forall2_nil_inv_l&->).
  apply app_inj_tail in Heq as [<- <-].
  rewrite length_app in Hlen. cbn in Hlen. apply Forall2_length in H as Hl.
  rewrite !Join_snoc by (by intros ->; cbn in *; lia).
  rewrite !HasSuffix_segment by (by apply read_suffixes_plain).
  destruct (is_wildcard p) eqn:E; [by destruct (Hp eq_refl) as [-> ->]|]. by rewrite (Hd E).
Qed.

Lemma no_wildcard_same ps ds :
  existsb is_wildcard ps = false → Forall2 instance_of ps ds → ds = ps.
Proof.
  intros Hps H. induction H as [|p d ps ds Hp _ IH]; [done|]. cbn in Hps.
  apply orb_false_iff in Hps as [Hw Hps]. by rewrite (Hp Hw), IH.
Qed.

Lemma instance_self ps : Forall2 instance_of ps ps.
Proof. induction ps; constructor; [by intros _|done]. Qed.

Lemma values_plain ps segs w :
  segments_match ps segs = true → w ∈ read_suffixes →
  forallb (λ p, negb (is_wildcard p)
                || forallb (λ w, negb (HasSuffix ("/" ++ p) ("/" ++ w))) read_suffixes) ps = true →
  Forall plain_value (snd <$> path_values ps segs) →
  Forall2 (λ p d, is_wildcard p = true → HasSuffix ("/" ++ p) ("/" ++ w) = false
                                         ∧ HasSuffix ("/" ++ d) ("/" ++ w) = false)
    ps (pathUnescape <$> segs).
Proof.
  intros Hm Hw. revert segs Hm. induction ps as [|p ps IH]; intros [|s segs]; try done.
  cbn [segments_match path_values forallb]. intros [_ Hm]%andb_true_iff [Hp Hps]%andb_true_iff Hv.
  destruct (is_wildcard p) eqn:E; cbn [fmap list_fmap] in Hv |- *.
  - apply Forall_cons in Hv as [Hv1 Hv]. constructor; [|by apply IH].
    intros _. split.
    + cbn [negb orb] in Hp. by apply negb_true_iff, (forallb_elem _ _ w Hp).
    + unfold plain_value in Hv1. rewrite Forall_forall in Hv1. by apply (Hv1 w).
  - constructor; [by rewrite E|by apply IH].
Qed.

(** A request that matches a route looks to the role rules as its pattern does. *)
Lemma route_view r escaped path :
  r ∈ routes → segments_match (Split (rt_pattern r) "/") (Split escaped "/") = true →
  unescape_path escaped = Some path →
  Forall plain_value (snd <$> path_values (Split (rt_pattern r) "/") (Split escaped "/")) →
  same_view path (rt_pattern r).
Proof.
  intros Hr Hm Hpath Hv. pose proof (forallb_elem _ _ _ routes_decided Hr) as Hd. cbn beta in Hd.
  pose proof (segments_match_instance _ _ Hm) as Hi.
  rewrite <-(Join_Split "/" escaped) in Hpath. apply unescape_segments in Hpath as ->.
  2: { destruct (split_acc_cons "/" "" escaped) as (x&l&E). unfold Split. by rewrite E. }
  unfold has_wildcard in Hd. destruct (existsb is_wildcard (Split (rt_pattern r) "/")) eqn:E.
  2: { rewrite (no_wildcard_same _ _ E Hi), (Join_Split "/" (rt_pattern r)).
       by split; intros; reflexivity. }
  cbn in Hd. unfold pattern_decides in Hd. rewrite !andb_true_iff in Hd. destruct Hd as (((Hpre&Heq)&Hlen)&Hown).
  apply bool_decide_eq_true in Hlen.
  destruct (literal_part_prefix _ _ Hi) as [rest Hrest].
  destruct (literal_part_prefix _ _ (instance_self (Split (rt_pattern r) "/"))) as [rest' Hrest'].
  rewrite (Join_Split "/" (rt_pattern r)) in Hrest'.
  cbv zeta in Hpre, Heq. set (c := literal_part _) in *.
  split; intros x Hx; [clearbody c|clearbody c|].
  - pose proof (forallb_elem _ _ _ Hpre Hx) as Hx'.
    by rewrite Hrest, (decides_spec _ _ rest Hx'), Hrest', (decides_spec _ _ rest' Hx').
  - pose proof (forallb_elem _ _ _ Heq Hx) as Hx'. apply negb_true_iff in Hx'.
    rewrite Hrest, Hrest'. split; intros Hc; by apply app_not_shorter in Hc.
  - rewrite <-(Join_Split "/" (rt_pattern r)) at 1.
    apply instance_suffix; [done|done|done|]. by apply values_plain.
Qed.

(** ** What a route asks of a user *)

Inductive need : Type :=
  (** nothing, not even a name *)
  | Open
  (** to be signed in *)
  | SignedIn
  (** to be signed in, in person: no API token *)
  | InPerson
  (** a service of the user's grant *)
  | Assigned (service : string)
  (** no user may *)
  | StaffOnly.

(** By the area of the API, the word after [/api/v1/], and the last word. *)
Definition need_of (r : route) : need :=
  let words := Split (rt_pattern r) "/" in
  let area := default "" (words !! 3%nat) in
  let last := default "" (last words) in
  let reads := bool_decide (rt_method r = "GET") in
  if decide (area ∈ ["health"; ""]) then Open else
  if decide (area ∈ ["me"; "blogs"; "access-requests"]) then SignedIn else
  if decide (area = "settings") then InPerson else
  if decide (area ∈ ["admin"; "audit"]) then StaffOnly else
  if decide (area ∈ ["dashboard"; "onboarding"; "events"]) then Assigned "overview" else
  if decide (area = "projects") then Assigned (if decide (last = "repository") then "git" else "projects") else
  if decide (area ∈ ["tools"; "catalog"; "prompts"]) then Assigned "catalog" else
  if decide (area ∈ ["components"; "connections"]) then if reads then Assigned "platform" else StaffOnly else
  if decide (area = "traces" ∨ last ∈ ["steps"; "materialized"]) then StaffOnly else
  if decide (area = "realtime") then if reads then Assigned "realtime" else StaffOnly else
  Assigned area.

(** A provisioned user meets it. *)
Definition meets (principal : Principal) (n : need) : Prop :=
  match n with
  | Open | SignedIn => True
  | InPerson => pr_Credential principal ≠ "api_token"
  | Assigned service => service ∈ pr_Services principal
  | StaffOnly => False
  end.

Definition provisioned_user (principal : Principal) : Prop :=
  pr_Roles principal = [RoleUser] ∧ pr_Disabled principal = false ∧ pr_Provisioned principal = true.

(** What [Allowed] comes to for a user, on the paths that are not [Open]. *)
Definition user_answer (method path : string) : need :=
  if HasPrefix path "/api/v1/admin/" then StaffOnly else
  if decide (blog_read method path) then SignedIn else
  if HasPrefix path "/api/v1/settings/" then InPerson else
  if decide (path = "/api/v1/access-requests" ∧ (method = "GET" ∨ method = "POST")) then SignedIn else
  if decide (path = "/api/v1/me") then SignedIn else
  if negb (bool_decide (is_read method)) && machineReportingPath path then StaffOnly else
  if decide (serviceForPath path = "") then StaffOnly else
  if bool_decide (is_read method) || hasAnyPrefix path userWrite then Assigned (serviceForPath path)
  else StaffOnly.

Lemma Allowed_user principal m path :
  provisioned_user principal →
  Allowed principal m path = true ↔ meets principal (user_answer m path).
Proof.
  intros (Hroles&Hd&Hp). unfold Allowed, user_answer. rewrite Hd, Hroles.
  unfold hasRole. rewrite Hroles. destruct (HasPrefix path "/api/v1/admin/"); [done|].
  case_decide; [done|]. destruct (HasPrefix path "/api/v1/settings/").
  { cbn [meets]. change (bool_decide (RoleService ∈ [RoleUser])) with false. cbn [negb andb].
    rewrite andb_true_r by done. apply bool_decide_eq_true. }
  case_decide; [done|]. unfold roles_allowed.
  rewrite decide_False by (by intros [?|?]). rewrite decide_True by done.
  unfold user_allowed. case_decide; [done|]. rewrite Hp.
  destruct (negb (bool_decide (is_read m)) && machineReportingPath path); [done|].
  unfold hasService. case_decide; [done|]. cbn [andb].
  destruct (bool_decide (is_read m) || hasAnyPrefix path userWrite); cbn [meets].
  - rewrite andb_true_r. apply bool_decide_eq_true.
  - by rewrite andb_false_r.
Qed.

Definition need_eq_dec : EqDecision need.
Proof. solve_decision. Defined.
#[export] Existing Instance need_eq_dec.

Lemma needs_decided :
  forallb (λ r, bool_decide (need_of r = if decide (unguarded (rt_pattern r)) then Open
                                         else user_answer (rt_method r) (rt_pattern r))) routes = true.
Proof. vm_compute. reflexivity. Qed.

(** Routing and the role rules, together.  A request matches one route at
    most; whoever asks, the rules decide on its path as they do on the pattern of
    its route, whatever identifiers stand for the wildcards (other than the three
    words the rules look for at the end of a path), escaped as they may be; and a
    provisioned user reaches a route exactly when it meets what the route asks:
    nothing for the health page and the API document, a session for its own page,
    the public blog and access requests, the area's service for the resources, and
    never the administration, the audit log, the connections' changes and the
    reports of machines. *)
Theorem route_access r escaped path :
  r ∈ routes → route_matches (rt_method r) escaped r = true → unescape_path escaped = Some path →
  Forall plain_value (snd <$> path_values (Split (rt_pattern r) "/") (Split escaped "/")) →
  (∀ r', r' ∈ routes → route_matches (rt_method r) escaped r' = true → r' = r)
  ∧ (unguarded path ↔ unguarded (rt_pattern r))
  ∧ (∀ principal m, Allowed principal m path = Allowed principal m (rt_pattern r))
  ∧ (∀ principal, provisioned_user principal →
       (unguarded path ∨ Allowed principal (rt_method r) path = true) ↔ meets principal (need_of r)).
Proof.
  intros Hr Hm Hpath Hv. pose proof Hm as [_ Hs]%andb_true_iff.
  pose proof (route_view r escaped path Hr Hs Hpath Hv) as Hview. split_and!.
  - intros r' Hr' Hm'. by eapply routes_unambiguous.
  - by apply unguarded_view.
  - intros principal m. by apply Allowed_view.
  - intros principal Hp. rewrite (unguarded_view _ _ Hview), (Allowed_view _ _ Hview), Allowed_user by done.
    pose proof (forallb_elem _ _ _ needs_decided Hr) as Hn. cbn beta in Hn.
    apply bool_decide_eq_true in Hn. rewrite Hn. case_decide as Hu; [|tauto]. cbn. tauto.
Qed.


Definition project_route : route := mkRoute "GET" "/api/v1/projects/{id}" "project".

Lemma route_access_witness :
  (∀ r', r' ∈ routes → route_matches "GET" "/api/v1/projects/p%2F1" r' = true → r' = project_route)
  ∧ (unguarded "/api/v1/projects/p/1" ↔ unguarded "/api/v1/projects/{id}")
  ∧ (∀ principal m, Allowed principal m "/api/v1/projects/p/1" = Allowed principal m "/api/v1/projects/{id}")
  ∧ (∀ principal, provisioned_user principal →
       (unguarded "/api/v1/projects/p/1" ∨ Allowed principal "GET" "/api/v1/projects/p/1" = true)
       ↔ "projects" ∈ pr_Services principal).
Proof.
  apply (route_access project_route "/api/v1/projects/p%2F1" "/api/v1/projects/p/1").
  - compute_done.
  - vm_compute. reflexivity.
  - vm_compute. reflexivity.
  - compute_done.
Defined.
