(* ===== verification/Cli.v ===== *)
(** * The command line (cmd/cli)

    One request to the gateway per command: which one, what it carries, and what
    the process prints and exits with; and that every command finds its route. *)

From Stdlib Require Import Ascii.
From S2P Require Import Prelude GoStrings Urls Types World Auth Integrations Router RouterProps.

Open Scope string_scope.

(** The environment of the process, empty when unset, and [encoding/json] on raw
    messages and answers. *)
Class CliEnv := {
  cli_MLAIOPS_URL : string;
  cli_MLAIOPS_TOKEN : string;
  cli_USER : string;
  cli_FUNCTION_PAYLOAD : string;
  (** [json.Marshal(json.RawMessage(s))]; [json.Unmarshal] then [MarshalIndent]. *)
  raw_json : string → option string;
  indented_json : string → option string
}.

(** [env] *)
Definition env (value fallback : string) : string := if decide (value = "") then fallback else value.

(** The body of a request: an object of strings, or raw text. *)
Inductive cli_body : Type :=
  | Fields (fields : list (string * string))
  | RawMessage (text : string).

Definition command : Type := string * string * option cli_body.

(** The commands that list, by the arguments joined. *)
Definition list_commands : list (string * string) := [
  ("project list", "/api/v1/projects");
  ("pipeline list", "/api/v1/pipelines/runs");
  ("pipeline definitions", "/api/v1/pipelines/definitions");
  ("function list", "/api/v1/functions");
  ("model list", "/api/v1/models");
  ("agent list", "/api/v1/agents");
  ("tool list", "/api/v1/tools");
  ("connection list", "/api/v1/connections");
  ("audit list", "/api/v1/audit")
].

(** The arguments after the program's name, by their index; the first two. *)
Definition arg (args : list string) (i : nat) : string := default "" (args !! i).
Definition verb (args : list string) : list string := take 2 args.

Section cli.
Context `{CliEnv}.

Definition payload : cli_body := RawMessage (env cli_FUNCTION_PAYLOAD "{}").

(** The command of the arguments after the program's name; [None] for the usage. *)
Definition command_of (args : list string) : option command :=
  match list_find (λ c, c.1 = Join args " ") list_commands with
  | Some (_, (_, path)) => Some ("GET", path, None)
  | None =>
      if decide (length args = 3%nat ∧ verb args = ["pipeline"; "submit"]) then
        Some ("POST", "/api/v1/pipelines/submit",
              Some (Fields [("project_id", arg args 2); ("name", "training-pipeline")])) else
      if decide (length args = 4%nat ∧ verb args = ["pipeline"; "submit"]) then
        Some ("POST", "/api/v1/pipelines/submit",
              Some (Fields [("project_id", arg args 2); ("definition_id", arg args 3)])) else
      if decide (5 ≤ length args ∧ verb args = ["function"; "deploy"])%nat then
        Some ("POST", "/api/v1/functions",
              Some (Fields [("project_id", arg args 2); ("name", arg args 3); ("image", arg args 4)])) else
      if decide (3 ≤ length args ∧ verb args = ["function"; "invoke"])%nat then
        Some ("POST", "/api/v1/functions/" ++ PathEscape (arg args 2) ++ "/invoke", Some payload) else
      if decide (3 ≤ length args ∧ verb args = ["function"; "invoke-async"])%nat then
        Some ("POST", "/api/v1/functions/" ++ PathEscape (arg args 2) ++ "/invoke-async", Some payload) else
      if decide (4 ≤ length args ∧ verb args = ["project"; "connect"])%nat then
        let branch := if decide (4 < length args)%nat then arg args 4 else "main" in
        Some ("PUT", "/api/v1/projects/" ++ PathEscape (arg args 2) ++ "/repository",
              Some (Fields [("url", arg args 3); ("default_branch", branch)]))
      else None
  end.

(** What a run of the program comes to: its exit status, and its two outputs. *)
Record run_result := mkRunResult { rr_status : Z; rr_stdout : string; rr_stderr : string }.

(** [fmt.Fprintln] *)
Definition println (s : string) : string := s ++ String "010" "".

Definition usage_text : string :=
  println "usage: mlaiops <project|pipeline|function|model|agent|tool|connection|audit> list"
  ++ println "       mlaiops pipeline definitions | pipeline submit <project-id> [definition-id]"
  ++ println "       mlaiops function deploy <project-id> <name> <image> | function <invoke|invoke-async> <name>"
  ++ println "       mlaiops project connect <project-id> <repository-url> [branch]".

Definition fatal (e : gerror) : run_result := mkRunResult 1 "" (println (error_text e)).

Definition marshal `{Net} (body : cli_body) : option string :=
  match body with
  | Fields fields => json_value (AObj ((λ '(key, value), (key, AStr value)) <$> fields))
  | RawMessage text => raw_json text
  end.

(** [main], for the arguments after the program's name. *)
Definition cli_main `{Net} (args : list string) : M run_result :=
  match command_of args with
  | None => mret (mkRunResult 2 "" usage_text)
  | Some (method, path, body) =>
      match match body with None => Some None | Some body => Some <$> marshal body end with
      | None => mret (fatal (ErrIO "json"))
      | Some raw =>
          response ← ask (λ k, http_do k (mkHttpRequest method
            (env cli_MLAIOPS_URL "http://localhost:8080" ++ path)
            (("Content-Type", "application/json") :: ("X-MLAIOps-Actor", env cli_USER "cli")
             :: (if decide (cli_MLAIOPS_TOKEN = "") then []
                 else [("Authorization", "Bearer " ++ cli_MLAIOPS_TOKEN)])) raw));
          mret (match response with
                | Err e => fatal e
                | Ok response =>
                    if decide (300 ≤ hp_StatusCode response)%Z
                    then mkRunResult 1 "" (println (hp_Body response))
                    else mkRunResult 0 (println (default (hp_Body response) (indented_json (hp_Body response)))) ""
                end)
      end
  end.
End cli.

(** ** Every command finds its route *)

Lemma plain_not_percent : forallb (λ a, negb (plain_byte a && byte_is 37 a)) (ascii_of_nat <$> seq 0 256) = true.
Proof. vm_compute. reflexivity. Qed.

Lemma unescape_escape_byte a s : unescape_path (escape_byte a ++ s) = String a <$> unescape_path s.
Proof.
  unfold escape_byte. destruct (plain_byte a) eqn:E; [|apply unescape_percent].
  rewrite str_app_cons, str_app_nil_l. cbn [unescape_path].
  pose proof (forall_bytes _ plain_not_percent a) as Ha. cbn beta in Ha. rewrite E in Ha. cbn [andb] in Ha.
  by apply negb_true_iff in Ha as ->.
Qed.

Lemma unescape_path_PathEscape s : unescape_path (PathEscape s) = Some s.
Proof. induction s as [|a s IH]; [done|]. cbn [PathEscape]. by rewrite unescape_escape_byte, IH. Qed.

Lemma pathUnescape_PathEscape s : pathUnescape (PathEscape s) = s.
Proof. unfold pathUnescape. by rewrite unescape_path_PathEscape. Qed.

Lemma PathEscape_plain s t : unescape_path t = Some t → PathEscape s = t → s = t.
Proof. intros Ht E. pose proof (unescape_path_PathEscape s) as Hs. rewrite E, Ht in Hs. by injection Hs. Qed.

(** A name that can be a segment of a path. *)
Definition nameable (name : string) : Prop := name ∉ [""; "."; ".."; "/"].

(** A clean path around one named segment. *)
Lemma named_path before name after p :
  nameable name → p = Join (before ++ PathEscape name :: after) "/" →
  head before = Some "" → Forall (λ s, contains_byte "/" s = false) (before ++ after) →
  Forall (λ s, s ≠ "" ∧ s ≠ "." ∧ s ≠ "..") (tail before ++ after) →
  HasSuffix p "/" = false →
  Split p "/" = (before ++ PathEscape name :: after)%list ∧ cleanPath p = p.
Proof.
  intros Hname -> Hhead Hslash Hkept Hsuffix. destruct before as [|h before]; [done|]. injection Hhead as ->.
  cbn [tail] in Hkept. apply Forall_app in Hslash as [Hs1 Hs2].
  assert (contains_byte "/" (PathEscape name) = false) as Hn.
  { apply (all_bytes_contains segment_byte); [done|apply PathEscape_segment]. }
  assert (Split (Join (("" :: before) ++ PathEscape name :: after)%list "/") "/"
          = (("" :: before) ++ PathEscape name :: after)%list) as Hsplit.
  { apply Split_Join; [done|]. apply Forall_app. split; [done|]. by constructor. }
  split; [done|]. unfold cleanPath, clean_segments. rewrite Hsuffix, Hsplit. cbn [andb app].
  assert (∀ l acc, Forall (λ s, s ≠ "" ∧ s ≠ "." ∧ s ≠ "..") l → foldl clean_step acc l = (acc ++ l)%list) as Hfold.
  { induction l as [|x l IH]; intros acc Hl; [by rewrite app_nil_r|]. apply Forall_cons in Hl as [Hx Hl].
    cbn [foldl]. rewrite IH by done. unfold clean_step. rewrite !decide_False by tauto. by rewrite <-app_assoc. }
  cbn [foldl]. change (clean_step [] "") with (@nil string). rewrite Hfold.
  - by destruct before.
  - apply Forall_app in Hkept as [Hb Ha]. apply Forall_app. split; [done|]. constructor; [|done].
    unfold nameable in Hname. split_and!; intros E; apply PathEscape_plain in E; try done; subst name; set_solver.
Qed.

Definition named_routes : list (string * string * string * string) := [
  ("POST", "functions", "invoke", "invokeFunction");
  ("POST", "functions", "invoke-async", "invokeFunctionAsync");
  ("PUT", "projects", "repository", "setProjectRepository")
].

Lemma named_route method area last handler name :
  (method, area, last, handler) ∈ named_routes → nameable name →
  ∃ r values, mux method (("/api/v1/" ++ area ++ "/") ++ PathEscape name ++ "/" ++ last) = ToHandler r values
  ∧ r ∈ routes ∧ rt_method r = method ∧ rt_handler r = handler ∧ snd <$> values = [name].
Proof.
  intros Hin Hname. set (p := (_ ++ PathEscape name ++ _)).
  assert (∃ key, mkRoute method ("/api/v1/" ++ area ++ "/{" ++ key ++ "}/" ++ last) handler ∈ routes
          ∧ Split ("/api/v1/" ++ area ++ "/{" ++ key ++ "}/" ++ last) "/"
            = [""; "api"; "v1"; area; "{" ++ key ++ "}"; last]
          ∧ TrimByte "}" (TrimByte "{" ("{" ++ key ++ "}")) = key) as (key&Hr&Hsplit&Hkey).
  { repeat (apply elem_of_cons in Hin as [[= -> -> -> ->]|Hin]; [|]); [exists "name"|exists "name"|exists "id"|
      by apply not_elem_of_nil in Hin]; (split_and!; [compute_done|reflexivity|reflexivity]). }
  set (r := mkRoute _ _ _) in *. exists r, [(key, name)]. split_and!; try done.
  assert (Split p "/" = [""; "api"; "v1"; area; PathEscape name; last] ∧ cleanPath p = p) as [Hp Hclean].
  { apply (named_path [""; "api"; "v1"; area] name [last]); try done.
    - unfold p. cbn [app Join]. by rewrite <-!str_app_assoc.
    - cbn [app]. repeat (apply elem_of_cons in Hin as [[= -> -> -> ->]|Hin]; [|]); [..|by apply not_elem_of_nil in Hin];
        repeat constructor.
    - cbn [app tail]. repeat (apply elem_of_cons in Hin as [[= -> -> -> ->]|Hin]; [|]);
        [..|by apply not_elem_of_nil in Hin]; repeat constructor; done.
    - unfold p, HasSuffix. rewrite !str_rev_app.
      repeat (apply elem_of_cons in Hin as [[= -> -> -> ->]|Hin]; [reflexivity|]). by apply not_elem_of_nil in Hin. }
  assert (is_wildcard ("{" ++ key ++ "}") = true) as Hw by apply HasPrefix_app.
  assert (is_wildcard area = false ∧ is_wildcard last = false ∧ pathUnescape area = area ∧ pathUnescape last = last)
    as (Ha&Hl&Hua&Hul).
  { repeat (apply elem_of_cons in Hin as [[= -> -> -> ->]|Hin]; [by split_and!|]). by apply not_elem_of_nil in Hin. }
  rewrite (mux_route method p r Hr); [|..|done].
  - unfold r. cbn [rt_pattern]. rewrite Hsplit, Hp. cbn [path_values]. rewrite Hw, Ha, Hl, Hkey, pathUnescape_PathEscape. done.
  - unfold route_matches, r. cbn [rt_pattern]. rewrite Hsplit, Hp. apply andb_true_iff. split.
    + unfold method_matches. cbn [rt_method]. by rewrite bool_decide_eq_true_2.
    + cbn [segments_match]. unfold segment_matches.
      change (is_wildcard "") with false. change (is_wildcard "api") with false. change (is_wildcard "v1") with false.
      rewrite Hw, Ha, Hl, pathUnescape_PathEscape, Hua, Hul.
      assert (PathEscape name ≠ "" ∧ name ≠ "/") as Hne.
      { unfold nameable in Hname. split; [intros E; apply PathEscape_plain in E; [subst|done]|intros ->]; set_solver. }
      rewrite (bool_decide_eq_true_2 _ Hne), !bool_decide_eq_true_2; done.
Qed.

(** The names a command puts in its path, and the handler it asks for. *)
Definition names_of (args : list string) : list string :=
  if decide (verb args ∈ [["function"; "invoke"]; ["function"; "invoke-async"]; ["project"; "connect"]])
  then [arg args 2] else [].

Definition verb_handlers : list (list string * string) := [
  (["pipeline"; "submit"], "submitPipeline");
  (["function"; "deploy"], "deployFunction");
  (["function"; "invoke"], "invokeFunction");
  (["function"; "invoke-async"], "invokeFunctionAsync");
  (["project"; "connect"], "setProjectRepository")
].

(** A line that lists has none of these verbs. *)
Lemma list_command_verb args path :
  (Join args " ", path) ∈ list_commands → verb args ∉ verb_handlers.*1.
Proof.
  intros Hl Hv. unfold verb in Hv. destruct args as [|a [|b args]]; try (revert Hv; compute_done).
  { cbn in Hv. repeat (apply elem_of_cons in Hv as [[=]|Hv]). by apply not_elem_of_nil in Hv. }
  cbn [take] in Hv.
  repeat (apply elem_of_cons in Hv as [[= -> ->]|Hv];
    [repeat (apply elem_of_cons in Hl as [E|Hl]; [by destruct args; discriminate E|]); by apply not_elem_of_nil in Hl|]).
  by apply not_elem_of_nil in Hv.
Qed.

Lemma named_verbs v :
  v ∈ [["function"; "invoke"]; ["function"; "invoke-async"]; ["project"; "connect"]] → v ∈ verb_handlers.*1.
Proof.
  intros Hin. repeat (apply elem_of_cons in Hin as [->|Hin]; [compute_done|]). by apply not_elem_of_nil in Hin.
Qed.

Lemma verb_handler_unique v h h' : (v, h) ∈ verb_handlers → (v, h') ∈ verb_handlers → h = h'.
Proof.
  intros Hh Hh'.
  repeat (apply elem_of_cons in Hh as [[= -> ->]|Hh];
    [repeat (apply elem_of_cons in Hh' as [E|Hh']; [by simplify_eq|]); by apply not_elem_of_nil in Hh'|]).
  by apply not_elem_of_nil in Hh.
Qed.

(** What a command with a verb comes to, once its route is found. *)
Lemma verb_routed args v handler method path {B} (body : option B) names :
  verb args = v → (v, handler) ∈ verb_handlers →
  (∃ r values, mux method path = ToHandler r values ∧ r ∈ routes ∧ rt_method r = method ∧ rt_handler r = handler
   ∧ snd <$> values = names) →
  ∃ r values, mux method path = ToHandler r values ∧ r ∈ routes ∧ rt_method r = method
  ∧ snd <$> values = names
  ∧ (∀ handler, (verb args, handler) ∈ verb_handlers → rt_handler r = handler)
  ∧ (verb args ∉ verb_handlers.*1 → method = "GET" ∧ body = None).
Proof.
  intros -> Hv (r&values&Hmux&Hr&Hm&Hh&Hvalues). exists r, values. split_and!; try done.
  - intros h Hh'. rewrite Hh. by eapply verb_handler_unique.
  - intros Hn. destruct Hn. apply list_elem_of_fmap. by eexists (_, _).
Qed.

Lemma list_command_routed path :
  path ∈ list_commands.*2 → ∃ r, r ∈ routes ∧ rt_method r = "GET" ∧ mux "GET" path = ToHandler r [].
Proof.
  intros Hp. apply list_elem_of_fmap in Hp as ([name p]&->&Hp). cbn.
  repeat (apply elem_of_cons in Hp as [[= -> ->]|Hp];
    [eexists; split_and!; [| |vm_compute; reflexivity]; compute_done|]).
  by apply not_elem_of_nil in Hp.
Qed.

Ltac literal_route :=
  eexists _, []; split_and!;
    [vm_compute; reflexivity|compute_done|reflexivity..].
Ltac by_verb handler names :=
  match goal with
  | H : verb ?args = ?v |- _ =>
      assert (names_of args = names) as Hnames by (unfold names_of; rewrite H; reflexivity); rewrite Hnames in *;
      apply (verb_routed args v handler); [exact H|compute_done|]
  end.
Ltac by_name area last :=
  match goal with
  | H : Forall nameable _ |- _ =>
      apply Forall_cons_1 in H as [H _]; eapply (named_route _ area last); [compute_done|exact H]
  end.


#[local] Instance plain_cli : CliEnv := {|
  cli_MLAIOPS_URL := ""; cli_MLAIOPS_TOKEN := ""; cli_USER := ""; cli_FUNCTION_PAYLOAD := "";
  raw_json := Some; indented_json := λ _, None
|}.

