(* ===== verification/Gateway.v ===== *)
(** * The gateway process (cmd/gateway)

    What [main] puts together from its environment: the repository, the outbox
    worker, and the handlers in their order: personal API tokens first, then the
    OIDC middleware and the sign-in pages, or the local sessions; inside, CORS,
    the role rules and the multiplexer.  And what that order guarantees. *)

From Stdlib Require Import Ascii.
From S2P Require Import Prelude GoStrings Urls Types World Access Tokens Auth HttpAccess Integrations.
From S2P Require Import Dispatch Handlers Sessions Console Router RouterProps.

Open Scope string_scope.

(** The variables [main] reads; empty when unset. *)
Record variables := mkVariables {
  env_DATABASE_URL : string;
  env_MLAIOPS_TENANT : string;
  env_KAFKA_REST_URL : string;
  env_KAFKA_REST_TOKEN : string;
  env_MLAIOPS_DATA_PATH : string;
  env_OIDC_ISSUER : string;
  env_OIDC_AUDIENCE : string;
  env_OIDC_JWKS_URL : string;
  env_session : SessionConfig;
  env_LOCAL_USERNAME : string;
  env_LOCAL_PASSWORD : string
}.

(** The repository: a database and tenant, with the Kafka client of its outbox
    worker, or a file. *)
Inductive repository_choice : Type :=
  | OnPostgres (databaseURL tenant : string) (outbox : option Client)
  | OnFile (path : string).

Definition repository_of (e : variables) : repository_choice :=
  if decide (env_DATABASE_URL e = "")
  then OnFile (if decide (env_MLAIOPS_DATA_PATH e = "") then "data/platform.json" else env_MLAIOPS_DATA_PATH e)
  else OnPostgres (env_DATABASE_URL e) (env_MLAIOPS_TENANT e)
         (if decide (env_KAFKA_REST_URL e = "") then None
          else Some (new_client (env_KAFKA_REST_URL e) (env_KAFKA_REST_TOKEN e))).

(** Who signs in: through an identity provider, with the sessions of a manager, or
    nobody can, and the process ends with a message. *)
Inductive authentication : Type :=
  | WithOIDC (config : SessionConfig)
  | WithLocal (manager : LocalSessionManager) (sessions : session_map)
  | Fatal (message : string).

Definition browser_config (e : variables) : SessionConfig :=
  let c := env_session e in
  mkSessionConfig (sc_ClientID c) (sc_ClientSecret c) (sc_AuthURL c) (sc_TokenURL c) (sc_RedirectURL c) true.

Definition authentication_of (e : variables) : authentication :=
  if decide (env_OIDC_ISSUER e = "") then
    let '(manager, sessions) := NewLocalSessionManager
      (if decide (env_LOCAL_USERNAME e = "") then "admin" else env_LOCAL_USERNAME e)
      (if decide (env_LOCAL_PASSWORD e = "") then "mlaiops-local" else env_LOCAL_PASSWORD e) in
    WithLocal manager sessions
  else if decide (env_OIDC_JWKS_URL e = "")
  then Fatal "OIDC_JWKS_URL is required when OIDC_ISSUER is configured" else
  match NewSessionManager (browser_config e) with
  | Err err => Fatal ("configure OIDC browser login: " ++ error_text err)
  | Ok config => WithOIDC config
  end.

(** The answer of [httpapi.New]'s handler: the CORS headers, and nothing more for a
    preflight request, or where the request went. *)
Definition inner : Type := list (string * string) * option (response (request * dispatched_to)).

Section stack.
Context `{Host} `{AuthEnv} `{OAuth} `{ConsoleEnv} {D} `{Repository D}.
Variable repository : D.
(** The repository's [ResolveAPIToken], at the time of the request. *)
Variable resolve : APITokenResolver.

Definition page (escaped : string) (v : visit) : M (reply inner) :=
  mret (mkReply [] (Served (gateway repository escaped (v_request v)))).

Definition with_request (v : visit) (r : request) : visit := mkVisit r (v_query v) (v_form v).

(** [auth.APITokenMiddleware(repository.ResolveAPIToken, verifier.Middleware(session.Handler(handler)))] *)
Definition oidc_handler (config : SessionConfig) (escaped : string) (v : visit) : response (M (reply inner)) :=
  APITokenMiddleware resolve
    (Middleware (λ r, Served (session_Handler (page escaped) config (with_request v r)))) (v_request v).

(** [auth.APITokenMiddleware(repository.ResolveAPIToken, NewLocalSessionManager(...).Handler(handler))] *)
Definition local_handler (manager : LocalSessionManager) (escaped : string) (v : visit) (sessions : session_map)
    : response (M (reply inner * session_map)) :=
  APITokenMiddleware resolve
    (λ r, Served (local_Handler (page escaped) manager (with_request v r) sessions)) (v_request v).

(** A visit ends at a route's handler, which is given the request [r]. *)
Definition reaches (answer : response (M (reply inner))) (w : world) (r : request) (rt : route)
    (values : list (string * string)) : Prop :=
  ∃ m headers, answer = Served m
  ∧ rp_response (m w).1 = Served (headers, Some (Served (r, ToHandler rt values))).

(** Who a request may speak for: the owner of the API token it carries, or of the
    bearer token or session cookie, which is the service's secret or verified, in
    the role of the owner's grant. *)
Definition authentic (r : request) (principal : Principal) : Prop :=
  let bearer := bearer_of r in
  if HasPrefix bearer "nxs_"
  then ∃ token, resolve bearer = Ok token ∧ principal = token_principal token
  else ∃ secret, secret ≠ ""
       ∧ (secret = bearer ∨ bearer = "" ∧ rq_cookies r !! SessionCookieName = Some secret)
       ∧ (servicePrincipal secret = Some principal
          ∨ servicePrincipal secret = None
            ∧ ∃ p, Verify secret = Some p ∧ principal = resolved (Some (grant_resolver repository)) p).
End stack.

(** ** What reaches a handler *)

Lemma mux_handler m escaped r values :
  mux m escaped = ToHandler r values →
  r ∈ routes ∧ route_matches m escaped r = true
  ∧ values = path_values (Split (rt_pattern r) "/") (Split escaped "/").
Proof.
  unfold mux. case_decide; [done|]. destruct (find _ routes) as [r'|] eqn:E; [|done].
  intros [= <- <-]. apply find_some in E as [Hr Hm]. by apply list_elem_of_In in Hr.
Qed.

Section reached.
Context `{Host} `{AuthEnv} `{OAuth} `{ConsoleEnv} {D} `{Repository D}.
Variables (repository : D) (resolve : APITokenResolver).

Lemma session_pages_end escaped config v w x :
  rp_response (session_Handler (page repository escaped) config v w).1 = Served x →
  x = gateway repository escaped (v_request v).
Proof.
  unfold session_Handler. repeat case_decide.
  - unfold login, randomToken. run_M.
    destruct (rand_read (w_tick w) 32); unfold setCookie, now, ask, denied; run_M; discriminate.
  - unfold callback, denied, setCookie, now, ask. run_M. repeat case_match; simpl; discriminate.
  - unfold logout. run_M. discriminate.
  - unfold page. run_M. by intros [= <-].
Qed.

Lemma gateway_route escaped r0 headers r rt values :
  gateway repository escaped r0 = (headers, Some (Served (r, ToHandler rt values))) →
  let principal := resolved (Some (grant_resolver repository)) (default (default_principal r0) (rq_principal r0)) in
  mux (rq_method r0) escaped = ToHandler rt values
  ∧ (unguarded (rq_path r0)
     ∨ Allowed principal (rq_method r0) (rq_path r0) = true ∧ r = WithPrincipal principal r0).
Proof.
  unfold gateway, cors. case_decide; [done|]. intros [= _ E]. revert E. unfold RBACWithResolver.
  case_decide as Hu; [intros [= _ E]; by auto|]. cbv zeta.
  destruct (Allowed _ _ _); cbn [negb]; [|done]. intros [= <- E]. auto.
Qed.

(** A path that looks like a route's pattern is public as the pattern is: the
    health page, the API document, and the blog to read. *)
Lemma publicPath_view p rt m :
  rt ∈ routes → same_view p (rt_pattern rt) → publicPath m p = true →
  need_of rt = Open ∨ blog_read m (rt_pattern rt).
Proof.
  intros Hrt Hv. unfold publicPath.
  assert (HasPrefix (rt_pattern rt) "/api/" = true) as Hapi.
  { apply (forallb_elem (λ rt, HasPrefix (rt_pattern rt) "/api/") routes); [vm_compute; reflexivity|done]. }
  pose proof (view_prefix _ _ Hv "/api/" ltac:(compute_done)) as Hp. rewrite Hapi in Hp.
  case_decide as Hb.
  { intros _. right. unfold blog_read in *.
    by rewrite <-(view_path _ _ Hv "/api/v1/blogs"), <-(view_prefix _ _ Hv "/api/v1/blogs/") by compute_done. }
  case_decide as Hpage.
  - intros _. left.
    assert (p = "/api/v1/health" ∨ p = "/api/openapi.json") as Hopen.
    { clear -Hp Hpage. unfold public_pages in Hpage.
      repeat (apply elem_of_cons in Hpage as [->|Hpage]; [first [discriminate Hp|by auto]|]).
      by apply not_elem_of_nil in Hpage. }
    assert (unguarded (rt_pattern rt)) as Hu.
    { apply (unguarded_view _ _ Hv). unfold unguarded. tauto. }
    pose proof (forallb_elem _ _ _ needs_decided Hrt) as Hn. cbn beta in Hn. apply bool_decide_eq_true in Hn.
    by rewrite Hn, decide_True.
  - apply HasPrefix_spec in Hp as [rest ->]. discriminate.
Qed.

(** A HEAD request is allowed what the GET it stands for asks. *)
Lemma head_needs :
  forallb (λ rt, bool_decide (rt_method rt ≠ "GET") || bool_decide (unguarded (rt_pattern rt))
                 || bool_decide (user_answer "HEAD" (rt_pattern rt) = StaffOnly)
                 || bool_decide (user_answer "HEAD" (rt_pattern rt) = need_of rt)) routes = true.
Proof. vm_compute. reflexivity. Qed.

Lemma allowed_meets principal m rt :
  rt ∈ routes → method_matches rt m = true → ¬ unguarded (rt_pattern rt) →
  Allowed principal m (rt_pattern rt) = true → provisioned_user principal → meets principal (need_of rt).
Proof.
  intros Hrt Hm Hu Hallowed Hp. apply Allowed_user in Hallowed; [|done].
  pose proof (forallb_elem _ _ _ needs_decided Hrt) as Hn. cbn beta in Hn. apply bool_decide_eq_true in Hn.
  rewrite decide_False in Hn by done. unfold method_matches in Hm.
  rewrite orb_true_iff, !bool_decide_eq_true in Hm. destruct Hm as [<-|[Hget ->]]; [by rewrite Hn|].
  pose proof (forallb_elem _ _ _ head_needs Hrt) as Hh. cbn beta in Hh.
  rewrite !orb_true_iff, !bool_decide_eq_true in Hh. destruct Hh as [[[?|?]|Hh]|Hh]; try done.
  - by rewrite Hh in Hallowed.
  - by rewrite Hh in Hallowed.
Qed.

(** The request the sign-in pages are given, past the token and OIDC layers. *)
Lemma oidc_handler_request config escaped v m :
  rq_principal (v_request v) = None →
  oidc_handler repository resolve config escaped v = Served m →
  ∃ r, m = session_Handler (page repository escaped) config (with_request v r)
  ∧ rq_method r = rq_method (v_request v) ∧ rq_path r = rq_path (v_request v)
  ∧ (publicPath (rq_method r) (rq_path r) = true
     ∨ ∃ p, rq_principal r = Some p
       ∧ authentic repository resolve (v_request v) (resolved (Some (grant_resolver repository)) p)).
Proof.
  intros Hnone. unfold oidc_handler, APITokenMiddleware, authentic. cbv zeta.
  destruct (HasPrefix (bearer_of (v_request v)) "nxs_"); cbn [negb].
  - destruct (resolve _) as [token|]; [|done]. intros Hm.
    exists (WithPrincipal (token_principal token) (v_request v)). split_and!; try done.
    + revert Hm. unfold Middleware. cbn. destruct (publicPath _ _); by intros [= <-].
    + right. exists (token_principal token). split; [done|]. exists token. split; [done|].
      unfold resolved. by rewrite decide_False by (intros (_&_&Hc); by apply Hc).
  - unfold Middleware. destruct (publicPath _ _) eqn:Hpublic.
    { intros [= <-]. exists (v_request v). split_and!; try done. by left. }
    rewrite Hnone. cbv zeta.
    set (secret := if decide (bearer_of (v_request v) = "") then _ else _).
    destruct (decide (secret = "")) as [|Hs]; [by destruct (HasPrefix _ _)|].
    assert (secret = bearer_of (v_request v) ∨ bearer_of (v_request v) = ""
            ∧ rq_cookies (v_request v) !! SessionCookieName = Some secret) as Hfrom.
    { revert Hs. unfold secret. case_decide; [|by left]. intros Hs. right. split; [done|].
      by destruct (rq_cookies _ !! _). }
    destruct (servicePrincipal secret) as [service|] eqn:Es.
    + intros [= <-]. exists (WithPrincipal service (v_request v)). split_and!; try done. right.
      exists service. split; [done|]. exists secret. split_and!; try done. left. rewrite Es. f_equal.
      unfold servicePrincipal in Es. case_decide; [done|]. injection Es as <-.
      unfold resolved. by rewrite decide_False by (intros (_&Hr&_); by vm_compute in Hr).
    + destruct (Verify secret) as [p|] eqn:Ev; [|done]. intros [= <-].
      exists (WithPrincipal p (v_request v)). split_and!; try done. right. exists p. split; [done|].
      exists secret. split_and!; try done. right. split; [done|]. by exists p.
Qed.

End reached.

#[local] Instance plain_console : ConsoleEnv := {|
  AGENT_RUNTIME_URL := ""; LANGFUSE_URL := ""; LANGFUSE_PUBLIC_KEY := ""; LANGFUSE_SECRET_KEY := "";
  OIDC_ISSUER := "https://id.example.com"; MLAIOPS_ALLOWED_ORIGIN := "https://app.example.com";
  json_prompts := λ _, Err ErrNotFound; status_text := λ n, pretty n
|}.
#[local] Instance closed_provider : OAuth := {|
  auth_code_url := λ _ _ _, ""; oauth_exchange := λ _ _ _, Err ErrNotFound
|}.

Definition no_session : SessionConfig := mkSessionConfig "id" "secret" "" "" "" true.
Definition runs_visit : visit := mkVisit list_runs ∅ None.

Definition answered : response (M (reply inner)) :=
  oidc_handler (H := quiet_host) (H0 := plain_env) (zero : state) token_store no_session
    "/api/v1/pipelines/runs" runs_visit.

Definition runs_request : request :=
  WithPrincipal (token_principal runs_token) (WithPrincipal (token_principal runs_token) list_runs).


(** ** Preflight requests

    The CORS headers are inside the OIDC middleware: with an identity provider, a
    browser's preflight request, which carries neither a token nor a cookie, is
    refused without them, so that a console on another origin cannot call the API. *)
Lemma preflight_refused `{Host} `{AuthEnv} `{OAuth} `{ConsoleEnv} {D} `{Repository D} (repository : D) resolve
    config escaped v :
  rq_method (v_request v) = "OPTIONS" → HasPrefix (rq_path (v_request v)) "/api/v1/projects" = true →
  rq_authorization (v_request v) = "" → rq_cookies (v_request v) = ∅ → rq_principal (v_request v) = None →
  oidc_handler repository resolve config escaped v = Denied 401 "missing bearer token".
Proof.
  destruct v as [[method path authorization cookies uri principal] query form]. cbn. intros -> Hpath -> -> ->.
  unfold oidc_handler, APITokenMiddleware. cbn [v_request].
  change (bearer_of _) with "". change (HasPrefix "" "nxs_") with false. cbn [negb].
  apply HasPrefix_spec in Hpath as [rest ->]. unfold Middleware. cbn [rq_method rq_path rq_principal].
  assert (publicPath "OPTIONS" ("/api/v1/projects" ++ rest) = false) as ->.
  { unfold publicPath. rewrite decide_False by (by intros [? _]).
    rewrite decide_False; [done|]. unfold public_pages. rewrite !not_elem_of_cons. split_and!; try done.
    by apply not_elem_of_nil. }
  change (bearer_of _) with "". done.
Qed.
