(* ===== verification/Isolation.v ===== *)
(** * What a user's requests can learn

    The gateway's reading endpoints as one family, and non-interference: the
    answers to a user depend on the projects in the user's reach and on what all
    users share, and on nothing else of the repository. *)

From Stdlib Require Import Ascii.
From S2P Require Import Prelude GoStrings Urls Types World Access Tokens Blog Projects Pipelines Runs.
From S2P Require Import Models Agents Registry Store Auth HttpAccess Platform Integrations Dispatch.
From S2P Require Import Handlers ResourceHandlers Console Router RouterProps HandlerProps Gateway.

Open Scope string_scope.

(** ** The reading endpoints *)

(** One per route that answers from the repository, with what it takes from the
    path and the query, and the type of its answer. *)
Inductive read : Type → Type :=
  | Read_me : read Me
  | Read_dashboard : read Dashboard
  | Read_readiness : read Readiness
  | Read_projects : read (list Project)
  | Read_project (id : string) : read Project
  | Read_pipelineDefinitions : read (list PipelineDefinition)
  | Read_pipelineDefinition (id : string) : read PipelineDefinition
  | Read_runs : read (list PipelineRun)
  | Read_run (id : string) : read PipelineRun
  | Read_functions : read (list Function)
  | Read_models : read (list Model)
  | Read_agents : read (list Agent)
  | Read_agentSessions (id : string) : read (list AgentSession)
  | Read_agentTraces (id : string) : read (list AgentTrace)
  | Read_agentUsage (id : string) : read AgentUsage
  | Read_catalog (kind : string) : read (list CatalogItem)
  | Read_features : read (list FeatureView)
  | Read_tools : read (list Tool)
  | Read_connections : read (list Connection)
  | Read_components : read (list Component)
  | Read_blogPosts : read (list BlogPost)
  | Read_blogPost (slug : string) : read BlogPost
  | Read_myAccessRequests : read (list AccessRequest)
  | Read_apiTokens : read (list APIToken)
  | Read_prompts : read (bool * list (gmap string any)).

(** The name of its handler in the table of routes. *)
Definition read_handler {A} (e : read A) : string :=
  match e with
  | Read_me => "me" | Read_dashboard => "dashboard" | Read_readiness => "readiness"
  | Read_projects => "projects" | Read_project _ => "project"
  | Read_pipelineDefinitions => "pipelineDefinitions" | Read_pipelineDefinition _ => "pipelineDefinition"
  | Read_runs => "runs" | Read_run _ => "run" | Read_functions => "functions" | Read_models => "models"
  | Read_agents => "agents" | Read_agentSessions _ => "agentSessions" | Read_agentTraces _ => "agentTraces"
  | Read_agentUsage _ => "agentUsage" | Read_catalog _ => "catalog" | Read_features => "features"
  | Read_tools => "tools" | Read_connections => "connections" | Read_components => "components"
  | Read_blogPosts => "blogPosts" | Read_blogPost _ => "blogPost"
  | Read_myAccessRequests => "myAccessRequests" | Read_apiTokens => "apiTokens" | Read_prompts => "prompts"
  end.

Section reads.
Context `{Host} `{MapOrder} `{Net} `{Engines} `{ConsoleEnv}.
(** The verb %.3g. *)
Variable format : float64 → string.

(** The handler of the endpoint. *)
Definition serve {A} (e : read A) (r : request) : M (Handlers.reply A) :=
  match e in read A return M (Handlers.reply A) with
  | Read_me => me r
  | Read_dashboard => dashboard r
  | Read_readiness => readiness
  | Read_projects => Handlers.projects r
  | Read_project id => Handlers.project r id
  | Read_pipelineDefinitions => pipelineDefinitions r
  | Read_pipelineDefinition id => pipelineDefinition r id
  | Read_runs => Handlers.runs r
  | Read_run id => Handlers.run r id
  | Read_functions => functions r
  | Read_models => models r
  | Read_agents => agents r
  | Read_agentSessions id => agentSessions r id
  | Read_agentTraces id => agentTraces r id
  | Read_agentUsage id => agentUsage r id
  | Read_catalog kind => catalog format r kind
  | Read_features => features
  | Read_tools => tools
  | Read_connections => connections
  | Read_components => components
  | Read_blogPosts => blogPosts
  | Read_blogPost slug => blogPost slug
  | Read_myAccessRequests => myAccessRequests r
  | Read_apiTokens => apiTokens r
  | Read_prompts => prompts
  end.
End reads.

(** ** What two states share for a user *)

Definition own (p : Principal) (x : Project) : Prop :=
  prj_ID x ∈ pr_ProjectIDs p ∨ prj_OwnerSubject x = pr_Subject p.
#[export] Instance own_dec p x : Decision (own p x).
Proof. unfold own. apply _. Defined.

(** The projects in the user's reach. *)
Definition reach (d : state) (p : Principal) : gset string := default ∅ (allowedProjectIDs d p).

Definition reached {A} (project : A → string) (allowed : gset string) (l : list A) : list A :=
  filter (λ x, project x ∈ allowed) l.

(** Two states agree on the projects in the user's reach and what belongs to them,
    on the user's own grant, requests and tokens, on what all users share, and on
    whether there is any project at all. *)
Record same_scope (p : Principal) (d1 d2 : state) : Prop := {
  sc_projects : filter (own p) (st_Projects d1) = filter (own p) (st_Projects d2);
  sc_runs : reached run_ProjectID (reach d1 p) (st_Runs d1) = reached run_ProjectID (reach d1 p) (st_Runs d2);
  sc_definitions : reached pd_ProjectID (reach d1 p) (st_Definitions d1)
                   = reached pd_ProjectID (reach d1 p) (st_Definitions d2);
  sc_functions : reached fn_ProjectID (reach d1 p) (st_Functions d1)
                 = reached fn_ProjectID (reach d1 p) (st_Functions d2);
  sc_models : reached mdl_ProjectID (reach d1 p) (st_Models d1)
              = reached mdl_ProjectID (reach d1 p) (st_Models d2);
  sc_agents : reached agt_ProjectID (reach d1 p) (st_Agents d1)
              = reached agt_ProjectID (reach d1 p) (st_Agents d2);
  sc_sessions : ∀ id, agentAllowed d1 p id = true →
    filter (λ s, ses_AgentID s = id ∨ id = "") (st_Sessions d1)
    = filter (λ s, ses_AgentID s = id ∨ id = "") (st_Sessions d2);
  sc_traces : ∀ id, agentAllowed d1 p id = true →
    filter (λ t, tra_AgentID t = id ∨ id = "") (st_Traces d1)
    = filter (λ t, tra_AgentID t = id ∨ id = "") (st_Traces d2);
  sc_access : repo_AccessFor d1 (pr_Subject p) = repo_AccessFor d2 (pr_Subject p);
  sc_requests : filter (λ x, acr_Subject x = pr_Subject p) (st_AccessRequests d1)
                = filter (λ x, acr_Subject x = pr_Subject p) (st_AccessRequests d2);
  sc_tokens : filter (λ x, tok_Subject x = pr_Subject p) (st_APITokens d1)
              = filter (λ x, tok_Subject x = pr_Subject p) (st_APITokens d2);
  sc_features : st_Features d1 = st_Features d2;
  sc_tools : st_Tools d1 = st_Tools d2;
  sc_connections : st_Connections d1 = st_Connections d2;
  sc_posts : st_BlogPosts d1 = st_BlogPosts d2;
  sc_any : st_Projects d1 = [] ↔ st_Projects d2 = []
}.

(** Identifiers that tell resources apart, as those of reachable states do. *)
Record ids_apart (d : state) : Prop := {
  ap_projects : keys_unique prj_ID (st_Projects d);
  ap_runs : keys_unique run_ID (st_Runs d);
  ap_definitions : keys_unique pd_ID (st_Definitions d);
  ap_agents : keys_unique agt_ID (st_Agents d)
}.

(** ** One resource, seen from a scope *)

Section seen.
Context {A : Type} (key project : A → string) (allowed : gset string) (id : string).

Definition seen (l : list A) : option A :=
  match list_find (λ x, key x = id) l with
  | Some (_, x) => if decide (project x ∈ allowed) then Some x else None
  | None => None
  end.

Lemma list_find_key_cons x l :
  list_find (λ x, key x = id) (x :: l)
  = if decide (key x = id) then Some (0%nat, x) else prod_map S (λ x, x) <$> list_find (λ x, key x = id) l.
Proof. done. Qed.

Lemma seen_reached l :
  keys_unique key l → seen l = head (filter (λ x, key x = id) (reached project allowed l)).
Proof.
  unfold seen, reached, keys_unique. induction l as [|x l IH]; [done|].
  rewrite fmap_cons. intros [Hx Hl]%NoDup_cons. rewrite list_find_key_cons.
  destruct (decide (key x = id)) as [Hk|Hk].
  - rewrite filter_cons. case_decide; [by rewrite filter_cons_True|].
    destruct (head _) as [y|] eqn:Ey; [|done]. exfalso. apply Hx. rewrite Hk.
    apply head_Some_elem_of in Ey. apply list_elem_of_filter in Ey as [<- Ey].
    apply list_elem_of_filter in Ey as [_ Ey]. by apply list_elem_of_fmap_2.
  - specialize (IH Hl). transitivity (head (filter (λ x, key x = id) (filter (λ x, project x ∈ allowed) l))).
    + rewrite <- IH. by destruct (list_find (λ x, key x = id) l) as [[i y]|].
    + rewrite filter_cons. destruct (decide (project x ∈ allowed)); [by rewrite filter_cons_False|done].
Qed.
End seen.

(** ** What the user's scope decides *)

Section scope.
Context `{MapOrder} (p : Principal) (d1 d2 : state).
Hypothesis limited_user : limited p.
Hypothesis scope : same_scope p d1 d2.

Lemma not_privileged : privileged p = false.
Proof using limited_user. apply limited_user. Qed.

Lemma is_user : hasRole p RoleUser = true.
Proof using limited_user. apply limited_user. Qed.

Lemma owned_own d :
  filter (λ x, prj_OwnerSubject x = pr_Subject p) (filter (own p) (st_Projects d))
  = filter (λ x, prj_OwnerSubject x = pr_Subject p) (st_Projects d).
Proof using.
  rewrite list_filter_filter. apply list_filter_iff. intros x. unfold own. naive_solver.
Qed.

Lemma allowed_reach d : allowedProjectIDs d p = Some (reach d p).
Proof using limited_user.
  unfold reach, allowedProjectIDs. destruct (decide (¬ limited p)); [done|]. by case_decide.
Qed.

Lemma allowed_same : allowedProjectIDs d1 p = allowedProjectIDs d2 p.
Proof using scope.
  unfold allowedProjectIDs. cbn [repo_Projects state_repository].
  by rewrite <- (owned_own d1), <- (owned_own d2), (sc_projects _ _ _ scope).
Qed.

Lemma reach_same : reach d2 p = reach d1 p.
Proof using scope. unfold reach. by rewrite allowed_same. Qed.

Lemma listed_same {A} (project : A → string) (l1 l2 : list A) :
  reached project (reach d1 p) l1 = reached project (reach d1 p) l2 →
  filter_by_project project l1 (allowedProjectIDs d1 p) = filter_by_project project l2 (allowedProjectIDs d2 p).
Proof using limited_user scope. intros Hl. by rewrite <- allowed_same, allowed_reach. Qed.

Lemma projects_same : filterProjects (st_Projects d1) p = filterProjects (st_Projects d2) p.
Proof using limited_user scope. unfold filterProjects. rewrite is_user. apply (sc_projects _ _ _ scope). Qed.

Lemma readiness_same : readinessFor d1 = readinessFor d2.
Proof using scope.
  unfold readinessFor. rewrite (sc_connections _ _ _ scope).
  by rewrite (bool_decide_ext _ _ (not_iff_compat (sc_any _ _ _ scope))).
Qed.

Lemma catalog_same (format : float64 → string) :
  Catalog format d1 (allowedProjectIDs d1 p) = Catalog format d2 (allowedProjectIDs d2 p).
Proof using limited_user scope.
  unfold Catalog, filterModels, filterAgents. cbn.
  rewrite (listed_same _ _ _ (sc_models _ _ _ scope)), (listed_same _ _ _ (sc_agents _ _ _ scope)).
  by rewrite (sc_features _ _ _ scope), (sc_tools _ _ _ scope).
Qed.

Lemma access_same : accessFor d1 p = accessFor d2 p.
Proof using limited_user scope. unfold accessFor. rewrite not_privileged. apply (sc_access _ _ _ scope). Qed.

Lemma agent_allowed_seen d id :
  agentAllowed d p id = bool_decide (is_Some (seen agt_ID agt_ProjectID (reach d p) id (st_Agents d))).
Proof using limited_user.
  unfold agentAllowed, projectAllowed, seen. cbn. rewrite allowed_reach.
  destruct (list_find _ _) as [[i a]|]; [|done].
  case_decide; [rewrite !bool_decide_eq_true_2|rewrite !bool_decide_eq_false_2]; try done; by intros [? ?].
Qed.
End scope.

(** ** Non-interference *)

Section isolation.
Context `{Host} `{MapOrder} `{Net} `{Engines} `{ConsoleEnv}.

Lemma visible_seen {A} `{Zero A} (key project : A → string) id r (m : R A) (l : list A) w :
  limited (principal r) →
  m w = (match list_find (λ x, key x = id) l with
         | Some (_, x) => (x, None)
         | None => (zero, Some ErrNotFound)
         end, w) →
  visible project r m w
  = (match seen key project (reach (w_data w) (principal r)) id l with
     | Some x => JSON 200 x
     | None => writeMutation zero (Some ErrNotFound) 200
     end, w).
Proof.
  intros Hl Hm. unfold visible, seen, projectAllowed, mbind, M_bind, data. rewrite Hm. cbn.
  rewrite (allowed_reach _ Hl). destruct (list_find _ l) as [[i x]|]; [|done]. cbn.
  rewrite (decide_True (P := (None : option gerror) = None)) by done.
  destruct (decide (project x ∈ reach _ _)) as [Hin|Hout];
    [rewrite bool_decide_eq_true_2 by done|rewrite bool_decide_eq_false_2 by done]; done.
Qed.

Lemma with_agent_same {A} p r id (m : M (Handlers.reply A)) w1 w2 :
  limited (principal r) → p = principal r →
  same_scope p (w_data w1) (w_data w2) → ids_apart (w_data w1) → ids_apart (w_data w2) →
  (agentAllowed (w_data w1) p id = true → (m w1).1 = (m w2).1 ∧ w_data (m w1).2 = w_data w1) →
  (with_agent r id m w1).1 = (with_agent r id m w2).1 ∧ w_data (with_agent r id m w1).2 = w_data w1.
Proof.
  intros Hl -> Hs H1' H2' Hm. unfold with_agent, mbind, M_bind, data.
  assert (agentAllowed (w_data w2) (principal r) id = agentAllowed (w_data w1) (principal r) id) as ->.
  { rewrite !(agent_allowed_seen _ Hl), (reach_same _ _ _ Hs).
    rewrite !seen_reached by (apply H1' || apply H2'). by rewrite (sc_agents _ _ _ Hs). }
  destruct (agentAllowed _ _ _); [by apply Hm|done].
Qed.

Lemma visible_same {A} `{Zero A} (key project : A → string) (field : state → list A) id r (m : R A) w1 w2 :
  limited (principal r) → same_scope (principal r) (w_data w1) (w_data w2) →
  keys_unique key (field (w_data w1)) → keys_unique key (field (w_data w2)) →
  (∀ w, m w = (match list_find (λ x, key x = id) (field (w_data w)) with
               | Some (_, x) => (x, None)
               | None => (zero, Some ErrNotFound)
               end, w)) →
  reached project (reach (w_data w1) (principal r)) (field (w_data w1))
  = reached project (reach (w_data w1) (principal r)) (field (w_data w2)) →
  (visible project r m w1).1 = (visible project r m w2).1 ∧ w_data (visible project r m w1).2 = w_data w1.
Proof.
  intros Hl Hs Hk1 Hk2 Hm Heq. rewrite !(visible_seen key project id r m _ _ Hl (Hm _)).
  split; [|done]. cbn. rewrite !seen_reached by done. by rewrite (reach_same _ _ _ Hs), Heq.
Qed.

Lemma filter_ext_in {A} (P Q : A → Prop) `{∀ x, Decision (P x), ∀ x, Decision (Q x)} (l : list A) :
  (∀ x, x ∈ l → P x ↔ Q x) → filter P l = filter Q l.
Proof.
  induction l as [|x l IH]; intros Heq; [done|].
  rewrite !filter_cons, IH by (intros y Hy; apply Heq; by right).
  destruct (decide (P x)) as [HP|HP], (decide (Q x)) as [HQ|HQ]; try done;
    exfalso; [apply HQ|apply HP]; by apply (Heq x (list_elem_of_here _ _)).
Qed.

(** The projects in reach are all the user's own, so they are told by [sc_projects]. *)
Lemma reached_own p d :
  keys_unique prj_ID (st_Projects d) →
  reached prj_ID (reach d p) (st_Projects d)
  = filter (λ x, prj_ID x ∈ reach d p ∧ own p x) (st_Projects d).
Proof.
  intros Hk. apply filter_ext_in. intros x Hx. split; [|by intros [? _]].
  intros Hin. split; [done|]. unfold own.
  unfold reach, allowedProjectIDs in Hin. case_decide; [set_solver|].
  case_decide; cbn in Hin; [left; by apply elem_of_list_to_set in Hin|].
  apply elem_of_union in Hin as [Hin|Hin]; apply elem_of_list_to_set in Hin; [by left|].
  apply list_elem_of_fmap in Hin as (y&Hid&Hy). apply list_elem_of_filter in Hy as [Hown Hy].
  right. by rewrite (keys_unique_eq _ _ _ _ Hk Hx Hy Hid).
Qed.

Lemma reached_projects_same p d1 d2 :
  keys_unique prj_ID (st_Projects d1) → keys_unique prj_ID (st_Projects d2) → same_scope p d1 d2 →
  reached prj_ID (reach d1 p) (st_Projects d1) = reached prj_ID (reach d1 p) (st_Projects d2).
Proof.
  intros Hk1 Hk2 Hs. rewrite <- (reach_same _ _ _ Hs) at 2. rewrite !reached_own by done.
  rewrite <- !list_filter_filter, (sc_projects _ _ _ Hs). by rewrite (reach_same _ _ _ Hs).
Qed.

Section listing.
Context (r : request) (w1 w2 : world).
Hypothesis limited_user : limited (principal r).
Hypothesis scope : same_scope (principal r) (w_data w1) (w_data w2).
Hypothesis apart1 : ids_apart (w_data w1).
Hypothesis apart2 : ids_apart (w_data w2).
Hypothesis in_step : w_tick w1 = w_tick w2.

(** The answer is the same, and nothing has changed. *)
Definition alike {A} (m : M (Handlers.reply A)) : Prop :=
  (m w1).1 = (m w2).1 ∧ w_data (m w1).2 = w_data w1.

Lemma functions_alike : alike (functions r).
Proof using limited_user scope in_step.
  unfold alike, functions, filterFunctions, faas_ListFunctions, mbind, M_bind, data. cbn.
  rewrite (listed_same _ _ _ limited_user scope _ _ _ (sc_functions _ _ _ scope)).
  destruct openfaas as [client|]; [|done]. unfold faas_request. case_decide; [done|].
  unfold ask. by rewrite in_step.
Qed.

Lemma prompts_alike : alike prompts.
Proof using in_step.
  unfold alike, prompts. case_decide; [done|]. unfold mbind, M_bind, ask. by rewrite in_step.
Qed.

Lemma dashboard_alike : alike (dashboard r).
Proof using limited_user scope.
  unfold alike, dashboard, filterRuns, mbind, M_bind, data. cbv beta iota zeta.
  rewrite (listed_same _ _ _ limited_user scope _ _ _ (sc_runs _ _ _ scope)).
  rewrite (projects_same _ _ _ limited_user scope), (readiness_same _ _ _ scope).
  by rewrite (sc_connections _ _ _ scope).
Qed.

Lemma me_alike : alike (me r).
Proof using limited_user scope.
  unfold alike, me. destruct (rq_principal r) as [q|] eqn:Eq; [|done].
  unfold mbind, M_bind, data. cbn.
  assert (principal r = q) as <- by (unfold principal; by rewrite Eq).
  by rewrite (access_same _ _ _ limited_user scope).
Qed.
End listing.

Lemma visible_read_alike {A} (format : float64 → string) (e : read A) r w1 w2 :
  limited (principal r) → same_scope (principal r) (w_data w1) (w_data w2) →
  ids_apart (w_data w1) → ids_apart (w_data w2) →
  match e with Read_project _ | Read_run _ | Read_pipelineDefinition _ => alike w1 w2 (serve format e r) | _ => True end.
Proof.
  intros Hl Hs [] []. destruct e; try exact I; cbn [serve].
  - apply (visible_same prj_ID prj_ID st_Projects id); try done.
    + intros w. unfold Project_get, mbind, M_bind, data. by destruct (list_find _ _) as [[i x]|].
    + by apply reached_projects_same.
  - apply (visible_same pd_ID pd_ProjectID st_Definitions id); try done; [|apply Hs].
    intros w. unfold PipelineDefinition_get, pipelineDefinitionFrom, mbind, M_bind, data.
    by destruct (list_find _ _) as [[i x]|].
  - apply (visible_same run_ID run_ProjectID st_Runs id); try done; [|apply Hs].
    intros w. unfold Run_get, mbind, M_bind, data. by destruct (list_find _ _) as [[i x]|].
Qed.

Lemma scoped_alike {A} (format : float64 → string) (e : read A) r w1 w2 :
  limited (principal r) → same_scope (principal r) (w_data w1) (w_data w2) →
  match e with
  | Read_projects | Read_pipelineDefinitions | Read_runs | Read_models | Read_agents | Read_catalog _ =>
      alike w1 w2 (serve format e r)
  | _ => True
  end.
Proof.
  intros Hl Hs.
  assert (∀ B f, f (w_data w1) = f (w_data w2) →
    alike w1 w2 (d ← data; mret (JSON (A := B) 200 (f d)))) as Hpure.
  { intros B f Hf. unfold alike, mbind, M_bind, data. cbn. by rewrite Hf. }
  destruct e; try exact I; cbn [serve].
  - apply (Hpure _ (λ d, filterProjects (st_Projects d) (principal r))). by apply projects_same.
  - apply (Hpure _ (λ d, filterPipelineDefinitions (st_Definitions d) (allowedProjectIDs d (principal r)))).
    apply listed_same; [done..|apply Hs].
  - apply (Hpure _ (λ d, filterRuns (st_Runs d) (allowedProjectIDs d (principal r)))).
    apply listed_same; [done..|apply Hs].
  - apply (Hpure _ (λ d, filterModels (st_Models d) (allowedProjectIDs d (principal r)))).
    apply listed_same; [done..|apply Hs].
  - apply (Hpure _ (λ d, filterAgents (st_Agents d) (allowedProjectIDs d (principal r)))).
    apply listed_same; [done..|apply Hs].
  - unfold alike, catalog, mbind, M_bind, data. cbv beta iota zeta. by rewrite (catalog_same _ _ _ Hl Hs).
Qed.

Lemma common_alike {A} (format : float64 → string) (e : read A) r w1 w2 :
  same_scope (principal r) (w_data w1) (w_data w2) →
  match e with
  | Read_readiness | Read_features | Read_tools | Read_connections | Read_components | Read_blogPosts
  | Read_blogPost _ | Read_myAccessRequests | Read_apiTokens => alike w1 w2 (serve format e r)
  | _ => True
  end.
Proof.
  intros Hs. destruct e; try exact I; cbn [serve].
  - unfold alike, readiness, mbind, M_bind, data. cbv beta iota zeta. by rewrite (readiness_same _ _ _ Hs).
  - unfold alike, features, FeatureViews, mbind, M_bind, data. cbn. by rewrite (sc_features _ _ _ Hs).
  - unfold alike, tools, Tools, mbind, M_bind, data. cbn. by rewrite (sc_tools _ _ _ Hs).
  - unfold alike, connections, Connections, mbind, M_bind, data. cbn. by rewrite (sc_connections _ _ _ Hs).
  - unfold alike, components, mbind, M_bind, data. cbv beta iota zeta. by rewrite (sc_connections _ _ _ Hs).
  - unfold alike, blogPosts, BlogPosts, mbind, M_bind, data. cbn. by rewrite (sc_posts _ _ _ Hs).
  - unfold alike, blogPost, BlogPost_get, mbind, M_bind, data. cbn. rewrite (sc_posts _ _ _ Hs).
    by destruct (list_find _ _) as [[i x]|].
  - unfold alike, myAccessRequests, AccessRequestsFor, mbind, M_bind, data. cbn. by rewrite (sc_requests _ _ _ Hs).
  - unfold alike, apiTokens, APITokensFor, mbind, M_bind, data. cbn. by rewrite (sc_tokens _ _ _ Hs).
Qed.

(** The reading endpoints are those of the routes. *)
Definition user_read (rt : route) : bool :=
  bool_decide (rt_method rt = "GET")
  && match need_of rt with SignedIn | InPerson | Assigned _ => true | Open | StaffOnly => false end.

Lemma some_read {A} (e : read A) name : read_handler e = name → ∃ A (e : read A), read_handler e = name.
Proof. eauto. Qed.

Lemma reads_complete rt :
  rt ∈ routes → user_read rt = true →
  (∃ A (e : read A), read_handler e = rt_handler rt)
  ∨ rt_handler rt ∈ ["storageProxy"; "events"; "realtimeStats"].
Proof.
  enough (Forall (λ rt, user_read rt = true → (∃ A (e : read A), read_handler e = rt_handler rt)
    ∨ rt_handler rt ∈ ["storageProxy"; "events"; "realtimeStats"]) routes) as Hall
    by (rewrite Forall_forall in Hall; auto).
  unfold routes.
  repeat (apply Forall_cons; split; [intros Hread|]); [..|by constructor]; try discriminate Hread;
    cbn [rt_handler];
    first [right; compute_done
          |left; first
            [eapply (some_read Read_me); reflexivity|eapply (some_read Read_dashboard); reflexivity
            |eapply (some_read Read_readiness); reflexivity|eapply (some_read Read_projects); reflexivity
            |eapply (some_read (Read_project "")); reflexivity
            |eapply (some_read Read_pipelineDefinitions); reflexivity
            |eapply (some_read (Read_pipelineDefinition "")); reflexivity
            |eapply (some_read Read_runs); reflexivity|eapply (some_read (Read_run "")); reflexivity
            |eapply (some_read Read_functions); reflexivity|eapply (some_read Read_models); reflexivity
            |eapply (some_read Read_agents); reflexivity|eapply (some_read (Read_agentSessions "")); reflexivity
            |eapply (some_read (Read_agentTraces "")); reflexivity
            |eapply (some_read (Read_agentUsage "")); reflexivity
            |eapply (some_read (Read_catalog "")); reflexivity|eapply (some_read Read_features); reflexivity
            |eapply (some_read Read_tools); reflexivity|eapply (some_read Read_connections); reflexivity
            |eapply (some_read Read_components); reflexivity|eapply (some_read Read_blogPosts); reflexivity
            |eapply (some_read (Read_blogPost "")); reflexivity
            |eapply (some_read Read_myAccessRequests); reflexivity
            |eapply (some_read Read_apiTokens); reflexivity|eapply (some_read Read_prompts); reflexivity]].
Qed.

(** Reachable repositories tell resources apart, where the clock never repeats. *)
Lemma ids_ok_apart k d : ids_ok k d → ids_apart d.
Proof.
  intros Hok. split; [apply (io_projects _ _ Hok)|apply (io_runs _ _ Hok)
    |apply (io_definitions _ _ Hok)|apply (io_agents _ _ Hok)].
Qed.


End isolation.

(** ** Witness: the others' projects and runs replaced *)

Definition other_world : world :=
  shared_world <|w_data := (w_data shared_world)
    <|st_Projects := [project_of "prj-7" "secret" "carol"; project_of "prj-1" "churn" "alice"]|>
    <|st_Runs := zero <|run_ID := "run-9"|> <|run_ProjectID := "prj-7"|> :: st_Runs (w_data shared_world)|>|>.

