(* ===== verification/Controllers.v ===== *)
(** * The operator process (cmd/operator, and the registration of
    internal/operator and pkg/kube/v1alpha1)

    The controllers [main] makes of its environment and registers with the manager,
    each for one kind of custom resource, and the kinds the manager knows. *)

From S2P Require Import Prelude GoStrings Types World Integrations Kube Dispatcher Operator Workspace KubeProps.

Open Scope string_scope.

(** ** What is registered *)

(** [AddToScheme]: the group, its version, and the types of resources and lists. *)
Definition GroupVersion : string * string := ("mlaiops.io", "v1alpha1").
Definition known_types : list string := [
  "NexusAgent"; "NexusAgentList"; "NexusPipelineRun"; "NexusPipelineRunList"; "NexusModelPromotion";
  "NexusModelPromotionList"; "NexusWorkspace"; "NexusWorkspaceList"].

(** A controller: the type it reconciles, the plural of its resource, the types whose
    changes it follows back to their owner ([Owns]), and its method. *)
Record controller := mkController {
  ctl_For : string;
  ctl_resource : string;
  ctl_Owns : list string;
  ctl_Reconcile : string → string → K outcome
}.

(** [os.Getenv] *)
Class OperatorVariables := { operator_Getenv : string → string }.

Section main.
Context `{Host} `{KubeAPI} `{OperatorEnv} `{Net} `{OperatorVariables}.

Definition env (key fallback : string) : string :=
  let value := operator_Getenv key in if decide (value ≠ "") then value else fallback.

(** [SetupWithManager] of each reconciler. *)
Definition agent_controller : controller :=
  mkController "NexusAgent" "nexusagents" ["Deployment"; "Service"] agent_Reconcile.
Definition workspace_controller (r : WorkspaceReconciler) : controller :=
  mkController "NexusWorkspace" "nexusworkspaces" ["Deployment"; "Service"; "PersistentVolumeClaim"; "Secret"]
    (workspace_Reconcile r).
Definition pipeline_controller (kfp : Client) (experimentID : string) : controller :=
  mkController "NexusPipelineRun" "nexuspipelineruns" [] (pipeline_Reconcile kfp experimentID).
Definition promotion_controller (mlflow : Client) : controller :=
  mkController "NexusModelPromotion" "nexusmodelpromotions" [] (promotion_Reconcile mlflow).

Definition configured_workspaces : WorkspaceReconciler :=
  mkWorkspaceReconciler
    (env "WORKBENCH_IMAGE" "ghcr.io/ml-ai-ops/jupyter:latest") (env "IDE_IMAGE" "ghcr.io/ml-ai-ops/ide:latest")
    (env "MLAIOPS_URL" "http://mlaiops-gateway.mlaiops-system:8080")
    (env "WORKSPACE_FEATURE_URL" "http://mlaiops-feature-gateway.mlaiops-system:8083")
    (env "WORKSPACE_STORAGE_URL" "http://mlaiops-storage-proxy.mlaiops-system:8084")
    (env "WORKSPACE_MLFLOW_URL" "http://mlflow.mlaiops-system:5000")
    (env "WORKSPACE_PREFECT_URL" "http://prefect-server.mlaiops-system:4200/api")
    (env "WORKSPACE_LANGFUSE_URL" "http://langfuse.mlaiops-system:3000")
    (env "WORKSPACE_KAFKA_REST_URL" "http://kafka-rest.mlaiops-system:8082")
    (operator_Getenv "WORKSPACE_STORAGE_CLASS").

(** [main]: the controllers, in the order of their registration. *)
Definition controllers : list controller := [
  agent_controller;
  workspace_controller configured_workspaces;
  pipeline_controller (new_client (operator_Getenv "KFP_URL") (operator_Getenv "KFP_TOKEN"))
    (operator_Getenv "KFP_EXPERIMENT_ID");
  promotion_controller (new_client (operator_Getenv "MLFLOW_URL") (operator_Getenv "MLFLOW_TOKEN"))].

(** The manager hands a changed object to the controller of its resource. *)
Definition controller_of (resource : string) : option controller :=
  snd <$> list_find (λ c, ctl_resource c = resource) controllers.
Definition reconcile_object (n : key) : K outcome :=
  let '(resource, namespace, name) := n in
  match controller_of resource with
  | Some c => ctl_Reconcile c namespace name
  | None => mret done_
  end.

(** ** What follows *)

(** Every controller is for a type the scheme knows, and no two for one resource. *)
Lemma controllers_known :
  Forall (λ c, ctl_For c ∈ known_types ∧ (ctl_For c ++ "List") ∈ known_types) controllers
  ∧ NoDup (ctl_resource <$> controllers).
Proof using.
  split; [|apply (bool_decide_unpack _); vm_compute; exact I].
  repeat constructor; unfold known_types; cbn; rewrite !elem_of_cons; tauto.
Qed.

(** What the operator does to an object is what [lifecycle_once] speaks of: an
    action, or nothing. *)
Lemma reconcile_object_act `{CommandJson} n s :
  (∃ a, (reconcile_object n s).2 = (act a s).2) ∨ reconcile_object n = mret done_.
Proof using.
  destruct n as [[resource namespace] name]. unfold reconcile_object, controller_of, controllers. cbn.
  repeat case_decide; cbn; [left..|by right].
  - exists (ReconcileAgentObject namespace name). cbn. unfold mbind, K_bind. by destruct (agent_Reconcile _ _ s).
  - exists (ReconcileWorkspace configured_workspaces namespace name). cbn. unfold mbind, K_bind.
    by destruct (workspace_Reconcile _ _ _ s).
  - exists (ReconcileRun (new_client (operator_Getenv "KFP_URL") (operator_Getenv "KFP_TOKEN"))
      (operator_Getenv "KFP_EXPERIMENT_ID") namespace name). cbn. unfold mbind, K_bind.
    by destruct (pipeline_Reconcile _ _ _ _ s).
  - exists (ReconcilePromotion (new_client (operator_Getenv "MLFLOW_URL") (operator_Getenv "MLFLOW_TOKEN"))
      namespace name). cbn. unfold mbind, K_bind.
    by destruct (promotion_Reconcile _ _ _ s).
Qed.

(** Of the commands the worker turns into objects, those for tools and connections
    make objects no controller reconciles. *)
Lemma uncontrolled_commands `{CommandJson} command resource plural name spec :
  target_of command resource = Resource plural name spec →
  controller_of plural = None ↔ lc_Kind command = "tool" ∨ lc_Kind command = "connection".
Proof using.
  unfold target_of. repeat case_decide; try done; intros [= <- _ _]; split; try done;
    try (intros [?|?]; congruence); auto; unfold controller_of, controllers; by vm_compute.
Qed.
End main.
