(* ===== verification/Integrity.v ===== *)
(** * What a user's requests can change

    The writing endpoints a user may take as one family, and what they leave alone:
    the projects outside the user's reach and everything in them, the grants, requests
    and tokens of other users, and what only staff or machines write. *)

From Stdlib Require Import Ascii.
From S2P Require Import Prelude GoStrings Urls Types World Access Tokens Blog Projects Pipelines Runs.
From S2P Require Import Models Agents Registry Store Auth HttpAccess Platform Integrations Dispatch DispatchProps.
From S2P Require Import Handlers ResourceHandlers Console Router RouterProps HandlerProps Gateway Isolation.

Open Scope string_scope.

(** ** What is left alone *)

(** What of a list belongs to projects outside [S]. *)
Definition outside {A} (project : A → string) (S : gset string) (l : list A) : list A :=
  filter (λ x, project x ∉ S) l.

(** From [d] to [d'] nothing changed that is not the user's: [S] is the user's reach. *)
Record untouched (p : Principal) (S : gset string) (d d' : state) : Prop := {
  un_projects : filter (λ x, ¬ own p x) (st_Projects d') = filter (λ x, ¬ own p x) (st_Projects d);
  un_runs : outside run_ProjectID S (st_Runs d') = outside run_ProjectID S (st_Runs d);
  un_definitions : outside pd_ProjectID S (st_Definitions d') = outside pd_ProjectID S (st_Definitions d);
  un_functions : outside fn_ProjectID S (st_Functions d') = outside fn_ProjectID S (st_Functions d);
  un_models : outside mdl_ProjectID S (st_Models d') = outside mdl_ProjectID S (st_Models d);
  un_agents : outside agt_ProjectID S (st_Agents d') = outside agt_ProjectID S (st_Agents d);
  un_requests : filter (λ x, acr_Subject x ≠ pr_Subject p) (st_AccessRequests d')
                = filter (λ x, acr_Subject x ≠ pr_Subject p) (st_AccessRequests d);
  un_tokens : filter (λ x, tok_Subject x ≠ pr_Subject p) (st_APITokens d')
              = filter (λ x, tok_Subject x ≠ pr_Subject p) (st_APITokens d);
  un_access : st_UserAccess d' = st_UserAccess d;
  un_posts : st_BlogPosts d' = st_BlogPosts d;
  un_connections : st_Connections d' = st_Connections d;
  un_sessions : st_Sessions d' = st_Sessions d;
  un_traces : st_Traces d' = st_Traces d;
  un_audit : st_Audit d `suffix_of` st_Audit d'
}.

#[export] Instance untouched_refl p S : Reflexive (untouched p S).
Proof. by intros d. Qed.
#[export] Instance untouched_trans p S : Transitive (untouched p S).
Proof. intros d1 d2 d3 [] []. split; try congruence. by etrans. Qed.

(** One change of a list, in a place the filter leaves out. *)
Section places.
Context {A : Type} (P : A → Prop) `{!∀ x, Decision (P x)}.

Lemma filter_place (l : list A) i x y : l !! i = Some x → ¬ P x → ¬ P y → filter P (<[i := y]> l) = filter P l.
Proof using.
  revert i. induction l as [|z l IH]; intros [|i] Hi Hx Hy; try done; cbn in Hi.
  - injection Hi as ->. change (<[0%nat := y]> (x :: l)) with (y :: l). by rewrite !filter_cons_False.
  - change (<[S i := y]> (z :: l)) with (z :: <[i := y]> l). rewrite !filter_cons. by rewrite (IH i).
Qed.

Lemma filter_head (l : list A) x : ¬ P x → filter P (x :: l) = filter P l.
Proof using. apply filter_cons_False. Qed.

Lemma filter_dropped (l : list A) i x : l !! i = Some x → ¬ P x → filter P (remove_at i l) = filter P l.
Proof using.
  revert i. induction l as [|z l IH]; intros [|i] Hi Hx; try done; cbn in Hi.
  - injection Hi as ->. change (remove_at 0 (x :: l)) with l. by rewrite filter_cons_False.
  - change (remove_at (S i) (z :: l)) with (z :: remove_at i l). rewrite !filter_cons. by rewrite (IH i).
Qed.
End places.

(** ** The store's operations *)

(** What a search finds belongs to [S]. *)
Definition found_in {A} (key project : A → string) (S : gset string) (id : string) (l : list A) : Prop :=
  ∀ i x, list_find (λ x, key x = id) l = Some (i, x) → project x ∈ S.

(** An operation aimed at what is the user's. *)
Definition aimed (p : Principal) (S : gset string) (d : state) (o : op) : Prop :=
  match o with
  | OpCreateAccessRequest subject _ _ | OpCreateAPIToken subject _ | OpRevokeAPIToken subject _ =>
      subject = pr_Subject p
  | OpCreateProject req _ => cpr_OwnerSubject req = pr_Subject p
  | OpSetProjectRepository id _ _ => ∀ i x, list_find (λ x, prj_ID x = id) (st_Projects d) = Some (i, x) → own p x
  | OpUpsertPipelineDefinition id req _ =>
      upd_ProjectID req ∈ S ∧ found_in pd_ID pd_ProjectID S id (st_Definitions d)
  | OpSubmitPipeline req _ => sub_ProjectID req ∈ S
  | OpCancelRun id _ | OpRetryRun id _ | OpSetRunEngine id _ | OpUpdateRunStep id _ _ =>
      found_in run_ID run_ProjectID S id (st_Runs d)
  | OpRegisterModel req _ => rmr_ProjectID req ∈ S
  | OpPromoteModel id _ _ | OpDeployModel id _ _ | OpSetModelEndpoint id _ _ | OpRollbackModel id _ =>
      found_in mdl_ID mdl_ProjectID S id (st_Models d)
  | OpDeployAgent req _ => dar_ProjectID req ∈ S
  | OpSetAgentTraffic id _ _ => found_in agt_ID agt_ProjectID S id (st_Agents d)
  | OpUpsertFunction req _ _ => dfr_ProjectID req ∈ S
  | OpDeleteFunction name _ => found_in fn_Name fn_ProjectID S name (st_Functions d)
  | OpRegisterTool _ _ | OpApplyFeatureView _ _ => True
  | _ => False
  end.

Section operations.
Context `{Host} `{MapOrder}.

Lemma list_find_narrow {A} (P Q : A → Prop) `{∀ x, Decision (P x), ∀ x, Decision (Q x)} (l : list A) i x :
  list_find P l = Some (i, x) → (∀ y, Q y → P y) → Q x → list_find Q l = Some (i, x).
Proof using.
  intros Hf HQ Hx. apply list_find_Some in Hf as (Hi&_&Hmiss). apply list_find_Some.
  split; [done|]. split; [done|]. intros j y Hj Hlt Hy. apply (Hmiss j y Hj Hlt). by apply HQ.
Qed.

(** The definition an update changes is the user's. *)
Lemma definition_in (S : gset string) id req d i v :
  upd_ProjectID req ∈ S → found_in pd_ID pd_ProjectID S id (st_Definitions d) →
  list_find (updates_definition id req) (st_Definitions d) = Some (i, v) → pd_ProjectID v ∈ S.
Proof using.
  intros Hreq Hid Hf. pose proof Hf as Hv. apply list_find_Some in Hv as (_&[Hv|(_&->&_)]&_); [|done].
  apply (Hid i). eapply list_find_narrow; [exact Hf| |exact Hv]. intros y Hy. by left.
Qed.

(** The leaves of [op_cases]: everything is as it was but for one list, changed in a
    place that is the user's, and the audit log. *)
Ltac one_place :=
  split; simpl; try done; try (by apply suffix_cons_r); unfold outside;
  lazymatch goal with
  | |- filter _ (_ :: _) = _ => apply filter_head; simpl
  | H : ?l !! ?i = Some _ |- filter _ (<[?i := _]> ?l) = _ => eapply filter_place; [exact H|simpl..]
  | H : ?l !! ?i = Some _ |- filter _ (remove_at ?i ?l) = _ => eapply filter_dropped; [exact H|simpl]
  end.

Lemma run_op_untouched p S o w :
  aimed p S (w_data w) o → wp (run_op o) w (λ _ w', untouched p S (w_data w) (w_data w')).
Proof.
  intros Ha. op_cases o; cbn in Ha; try done.
  all: try match goal with H : persisted _ _ _ |- _ => destruct H as [-> _ _ _ _ _] end; simpl; try done.
  all: try match goal with H : validatePipelineDefinition _ = Ok _ |- _ =>
    apply validate_Ok_normalized in H as [_ ->] end.
  all: try match type of Ha with _ ∧ found_in _ _ _ _ _ => destruct Ha as [Hreq Ha] end.
  all: try match goal with
    | H : list_find (updates_definition _ _) _ = Some (_, _) |- _ =>
        pose proof (definition_in S _ (normalized _) _ _ _ Hreq Ha H) as Hin; apply list_find_hit in H as [? _]
    | H : list_find _ _ = Some (_, _) |- _ =>
        try pose proof (Ha _ _ H) as Hin; apply list_find_hit in H as [? ?]
    end.
  all: one_place.
  all: try (rewrite (proj2 (report_run_same _ _ _))); try (unfold own in *; simpl; tauto).
  all: try (intros Hout; apply Hout; (exact Hin || exact Hreq || exact Ha)).
  all: intros Hout; apply Hout;
    match goal with
    | H : _ ∧ tok_Subject _ = _ |- _ => by rewrite (proj2 H)
    | H : ¬ fn_ProjectID _ ≠ _ |- _ => apply dec_stable in H; by rewrite H
    end.
Qed.
End operations.

(** ** The writing endpoints *)

(** One per writing route a user may take, with what it takes from the path and its
    decoded body. *)
Inductive write : Type :=
  | Write_createAccessRequest (body : result CreateAccessRequest)
  | Write_createAPIToken (body : result CreateAPITokenRequest)
  | Write_revokeAPIToken (id : string)
  | Write_createProject (body : result CreateProjectRequest)
  | Write_setProjectRepository (id : string) (body : result SetProjectRepositoryRequest)
  | Write_upsertPipelineDefinition (id : string) (body : result UpsertPipelineDefinitionRequest)
  | Write_submitPipeline (body : result SubmitPipelineRequest)
  | Write_cancelRun (id : string)
  | Write_retryRun (id : string)
  | Write_applyFeatureView (body : result ApplyFeatureViewRequest)
  | Write_deployFunction (body : result DeployFunctionRequest)
  | Write_deleteFunction (name : string)
  | Write_invokeFunction (name : string) (body : result string)
  | Write_invokeFunctionAsync (name : string) (body : result string)
  | Write_registerModel (body : result RegisterModelRequest)
  | Write_promoteModel (id : string) (body : result PromoteModelRequest)
  | Write_deployModel (id : string) (body : result DeployModelRequest)
  | Write_rollbackModel (id : string)
  | Write_predictModel (id : string) (body : result string)
  | Write_deployAgent (body : result DeployAgentRequest)
  | Write_agentTraffic (id : string) (body : result TrafficRequest)
  | Write_invokeAgent (id : string) (body : result InvokeAgentRequest)
  | Write_registerTool (body : result RegisterToolRequest).

Definition write_handler (e : write) : string :=
  match e with
  | Write_createAccessRequest _ => "createAccessRequest" | Write_createAPIToken _ => "createAPIToken"
  | Write_revokeAPIToken _ => "revokeAPIToken" | Write_createProject _ => "createProject"
  | Write_setProjectRepository _ _ => "setProjectRepository"
  | Write_upsertPipelineDefinition _ _ => "upsertPipelineDefinition"
  | Write_submitPipeline _ => "submitPipeline" | Write_cancelRun _ => "cancelRun"
  | Write_retryRun _ => "retryRun" | Write_applyFeatureView _ => "applyFeatureView"
  | Write_deployFunction _ => "deployFunction" | Write_deleteFunction _ => "deleteFunction"
  | Write_invokeFunction _ _ => "invokeFunction" | Write_invokeFunctionAsync _ _ => "invokeFunctionAsync"
  | Write_registerModel _ => "registerModel" | Write_promoteModel _ _ => "promoteModel"
  | Write_deployModel _ _ => "deployModel" | Write_rollbackModel _ => "rollbackModel"
  | Write_predictModel _ _ => "predictModel" | Write_deployAgent _ => "deployAgent"
  | Write_agentTraffic _ _ => "agentTraffic" | Write_invokeAgent _ _ => "invokeAgent"
  | Write_registerTool _ => "registerTool"
  end.

(** A computation for its effect. *)
Definition effect {A} (m : M A) : M unit := _ ← m; mret tt.

Section endpoints.
Context `{Host} `{MapOrder} `{Net} `{Engines} `{Serving} `{ConsoleEnv}.

(** The handler of the endpoint; [header] is the [X-MLAIOps-Actor] header. *)
Definition perform (e : write) (header : string) (r : request) : M unit :=
  match e with
  | Write_createAccessRequest body => effect (createAccessRequest r body)
  | Write_createAPIToken body => effect (createAPIToken r body)
  | Write_revokeAPIToken id => effect (revokeAPIToken r id)
  | Write_createProject body => effect (createProject header r body)
  | Write_setProjectRepository id body => effect (setProjectRepository header r id body)
  | Write_upsertPipelineDefinition id body => effect (upsertPipelineDefinition header r id body)
  | Write_submitPipeline body => effect (submitPipeline header r body)
  | Write_cancelRun id => effect (cancelRun header r id)
  | Write_retryRun id => effect (retryRun header r id)
  | Write_applyFeatureView body => effect (applyFeatureView header r body)
  | Write_deployFunction body => effect (deployFunction header r body)
  | Write_deleteFunction name => effect (deleteFunction header r name)
  | Write_invokeFunction name body => effect (invokeFunction r name body)
  | Write_invokeFunctionAsync name body => effect (invokeFunctionAsync r name body)
  | Write_registerModel body => effect (registerModel header r body)
  | Write_promoteModel id body => effect (promoteModel header r id body)
  | Write_deployModel id body => effect (deployModel header r id body)
  | Write_rollbackModel id => effect (rollbackModel header r id)
  | Write_predictModel id body => effect (predictModel r id body)
  | Write_deployAgent body => effect (deployAgent header r body)
  | Write_agentTraffic id body => effect (agentTraffic header r id body)
  | Write_invokeAgent id body => effect (invokeAgent r id body)
  | Write_registerTool body => effect (registerTool header r body)
  end.

(** ** Calls that leave the repository alone *)

Definition quiet {A} (m : M A) : Prop := ∀ w, w_data (m w).2 = w_data w.

Lemma quiet_ret {A} (a : A) : quiet (mret a).
Proof using. done. Qed.
Lemma quiet_ask {A} (f : nat → A) : quiet (ask f).
Proof using. done. Qed.
Lemma quiet_data : quiet data.
Proof using. done. Qed.
Lemma quiet_bind {A B} (m : M A) (f : A → M B) : quiet m → (∀ a, quiet (f a)) → quiet (m ≫= f).
Proof using. intros Hm Hf w. unfold mbind, M_bind. specialize (Hm w). destruct (m w) as [a w']. by rewrite Hf. Qed.

Ltac silence := repeat first
  [apply quiet_ret | apply quiet_ask | apply quiet_data | apply quiet_bind; [|intros ?] | progress case_decide | progress case_match].

Lemma quiet_JSON {A} `{Zero A} c method path input (decode : option (string → result A)) :
  quiet (client_JSON c method path input decode).
Proof using. unfold client_JSON. silence. Qed.
Lemma quiet_faas o method path body : quiet (faas_request o method path body).
Proof using. unfold faas_request. silence. Qed.
Lemma quiet_CreateFlowRun c flow deployment name parameters :
  quiet (CreateFlowRun c flow deployment name parameters).
Proof using.
  unfold CreateFlowRun. apply quiet_bind; [apply quiet_JSON|]. intros [|]; silence. apply quiet_JSON.
Qed.
Lemma quiet_DeployFunction o spec : quiet (faas_DeployFunction o spec).
Proof using. unfold faas_DeployFunction. silence. apply quiet_faas. Qed.
Lemma quiet_DeleteFunction o name : quiet (faas_DeleteFunction o name).
Proof using. unfold faas_DeleteFunction. silence. apply quiet_faas. Qed.
Lemma quiet_Invoke o name payload : quiet (Invoke o name payload).
Proof using. unfold Invoke. silence. apply quiet_faas. Qed.
Lemma quiet_InvokeAsync o name payload : quiet (InvokeAsync o name payload).
Proof using. unfold InvokeAsync. silence. apply quiet_faas. Qed.
Lemma quiet_serving url model : quiet (requestServing url model).
Proof using. unfold requestServing. silence. Qed.
Lemma quiet_CancelFlowRun c id : quiet (CancelFlowRun c id).
Proof using. apply quiet_JSON. Qed.
Lemma quiet_forward code target : quiet (forward code target).
Proof using. unfold forward. silence. Qed.

(** ** Operations within a handler *)

Lemma wp_quiet {A} (m : M A) w (Q : A → world → Prop) :
  quiet m → (∀ a w', w_data w' = w_data w → Q a w') → wp m w Q.
Proof using. intros Hm HQ. apply HQ, Hm. Qed.

Lemma wp_quiet_after {A B} (m : M A) (f : A → M B) w (Q : state → Prop) :
  wp m w (λ _ w', Q (w_data w')) → (∀ a, quiet (f a)) → wp (m ≫= f) w (λ _ w', Q (w_data w')).
Proof using.
  intros Hm Hf. apply wp_bind. eapply wp_mono; [exact Hm|]. cbn. intros a w' Hw. unfold wp. by rewrite Hf.
Qed.

Lemma wp_both {A} (m : M A) w (Q1 Q2 : A → world → Prop) :
  wp m w Q1 → wp m w Q2 → wp m w (λ a w', Q1 a w' ∧ Q2 a w').
Proof using. by split. Qed.

(** An operation aimed at what is the user's, after changes of what is. *)
Lemma wp_aimed {A} p S d0 o (m : R A) w :
  run_op o = Store.outcome m → aimed p S (w_data w) o → untouched p S d0 (w_data w) →
  wp m w (λ _ w', untouched p S d0 (w_data w')).
Proof using.
  intros Ho Ha Hd. pose proof (run_op_untouched p S o w Ha) as Hw. rewrite Ho in Hw.
  unfold wp, Store.outcome, mbind, M_bind in Hw. unfold wp. destruct (m w) as [[v e] w']. by etrans.
Qed.

Lemma wp_effect {A} (m : M A) w (Q : world → Prop) : wp m w (λ _ w', Q w') → wp (effect m) w (λ _ w', Q w').
Proof using. intros Hm. apply wp_bind. eapply wp_mono; [exact Hm|]. by intros a w' HQ. Qed.

Lemma wp_mutate {A} status (m : R A) w (Q : world → Prop) :
  wp m w (λ _ w', Q w') → wp (mutate status m) w (λ _ w', Q w').
Proof using. intros Hm. apply wp_bind. eapply wp_mono; [exact Hm|]. by intros a w' HQ. Qed.

Lemma wp_decoded {B A} (body : result B) (handle : B → M (Handlers.reply A)) w (Q : Handlers.reply A → world → Prop) :
  (∀ e, Q e w) → (∀ req, wp (handle req) w Q) → wp (decoded body handle) w Q.
Proof using. intros He Hh. destruct body; [apply Hh|apply wp_ret, He]. Qed.

Lemma found_head {A} (key project : A → string) S id x l :
  key x = id → project x ∈ S → found_in key project S id (x :: l).
Proof using. intros Hk Hp i y. cbn. rewrite decide_True by done. by intros [= _ <-]. Qed.

Lemma submitted_found S req actor w :
  sub_ProjectID req ∈ S →
  wp (SubmitPipeline req actor) w
    (λ x w', x.2 = None → found_in run_ID run_ProjectID S (run_ID x.1) (st_Runs (w_data w'))).
Proof using.
  intros Hp. unfold SubmitPipeline. wp_run; try done.
  match goal with H : persisted _ _ _ |- _ => destruct H as [-> _ _ _ _ _] end. intros _. by apply found_head.
Qed.

Lemma retried_found S id actor w :
  found_in run_ID run_ProjectID S id (st_Runs (w_data w)) →
  wp (RetryRun id actor) w
    (λ x w', x.2 = None → found_in run_ID run_ProjectID S (run_ID x.1) (st_Runs (w_data w'))).
Proof using.
  intros Hid. unfold RetryRun. wp_run; try done.
  match goal with H : persisted _ _ _ |- _ => destruct H as [-> _ _ _ _ _] end. intros _. apply found_head; [done|].
  simpl. eauto.
Qed.

Lemma deployed_found S id weight actor w :
  found_in mdl_ID mdl_ProjectID S id (st_Models (w_data w)) →
  wp (DeployModel id weight actor) w
    (λ x w', x.2 = None → found_in mdl_ID mdl_ProjectID S (mdl_ID x.1) (st_Models (w_data w'))).
Proof using.
  intros Hid. unfold DeployModel. wp_run; try done.
  match goal with H : persisted _ _ _ |- _ => destruct H as [-> _ _ _ _ _] end. intros _. simpl.
  match goal with Hf : list_find _ _ = Some (?i, ?m) |- _ =>
    pose proof (Hid i m Hf) as Hin; pose proof (proj1 (proj2 (proj1 (list_find_Some _ _ _ _) Hf))) as Hk end.
  simpl in Hk. intros j y. rewrite Hk. erewrite list_find_insert_hit; [|eassumption|done].
  by intros [= _ <-].
Qed.

Lemma dispatch_untouched p S d0 run w :
  found_in run_ID run_ProjectID S (run_ID run) (st_Runs (w_data w)) → untouched p S d0 (w_data w) →
  wp (dispatchPipeline run) w (λ _ w', untouched p S d0 (w_data w')).
Proof using H0.
  intros Hf Hd.
  assert (∀ step status message w, found_in run_ID run_ProjectID S (run_ID run) (st_Runs (w_data w)) →
    untouched p S d0 (w_data w) →
    wp (UpdateRunStep (run_ID run) (mkUpdateRunStepRequest step status message) "system")
      w (λ _ w', untouched p S d0 (w_data w'))) as Hreport.
  { intros step status message w1 Hf1 Hd1.
    apply (wp_aimed p S d0 (OpUpdateRunStep (run_ID run) (mkUpdateRunStepRequest step status message) "system"));
      done. }
  unfold dispatchPipeline. case_decide as Hmode.
  - apply wp_bind. unfold PipelineDefinition_get. wp_run; try done;
      (eapply wp_mono; [by apply Hreport|done]).
  - case_decide; [|done]. apply wp_bind.
    apply wp_quiet; [unfold PipelineDefinition_get; destruct (decide _); silence|].
    intros [definition err] w1 Hw1. apply wp_bind, wp_quiet; [apply quiet_CreateFlowRun|].
    intros [engine|e] w2 Hw2; rewrite Hw1 in Hw2; 
      [|by apply wp_bind; eapply wp_mono; [apply Hreport; by rewrite Hw2|]].
    apply wp_bind. eapply wp_mono.
    + apply (wp_aimed p S d0 (OpSetRunEngine (run_ID run) engine)); [done|by rewrite Hw2|by rewrite Hw2].
    + by intros [linked e] w3 H3'.
Qed.

(** ** Each endpoint *)

Section caller.
Context (header : string) (r : request) (w : world).
Hypothesis limited_user : limited (principal r).
Hypothesis apart : keys_unique prj_ID (st_Projects (w_data w)).
Let S := reach (w_data w) (principal r).

Definition leaves_alone {A} (m : M A) : Prop :=
  wp m w (λ _ w', untouched (principal r) S (w_data w) (w_data w')).

Lemma alone_aimed {A} o (m : R A) :
  run_op o = Store.outcome m → aimed (principal r) S (w_data w) o → leaves_alone m.
Proof using. intros Ho Ha. by apply (wp_aimed _ _ _ o). Qed.

Lemma alone_mutate {A} status (m : R A) : leaves_alone m → leaves_alone (mutate status m).
Proof using. apply wp_mutate. Qed.

(** An operation, and then what leaves the repository alone. *)
Lemma alone_quiet {A B} (m : M A) (f : A → M B) :
  leaves_alone m → (∀ a, quiet (f a)) → leaves_alone (m ≫= f).
Proof using. apply (wp_quiet_after m f w (untouched (principal r) S (w_data w))). Qed.

Lemma alone_silent {A} (m : M A) : quiet m → leaves_alone m.
Proof using. intros Hm. unfold leaves_alone, wp. by rewrite Hm. Qed.

Lemma alone_decoded {A B} (body : result B) (handle : B → M (Handlers.reply A)) :
  (∀ req, body = Ok req → leaves_alone (handle req)) → leaves_alone (decoded body handle).
Proof using. intros Hh. destruct body; [by apply Hh|done]. Qed.

Lemma projectAllowed_in id : projectAllowed (w_data w) (principal r) id = true → id ∈ S.
Proof using limited_user.
  unfold projectAllowed. rewrite (allowed_reach _ limited_user). apply bool_decide_eq_true.
Qed.

Lemma alone_run {A} id (handle : M (Handlers.reply A)) :
  (found_in run_ID run_ProjectID S id (st_Runs (w_data w)) → leaves_alone handle) →
  leaves_alone (with_run r id handle).
Proof using limited_user.
  intros Hh. unfold leaves_alone, with_run, Run_get. do 2 apply wp_bind. apply wp_data.
  destruct (list_find _ _) as [[i run]|] eqn:Hf; apply wp_bind, wp_data; cbn.
  - case_decide as Hd; [done|]. apply Hh. intros j x Hx. rewrite Hf in Hx. injection Hx as <- <-.
    apply projectAllowed_in. apply not_false_is_true. tauto.
  - by rewrite decide_True by (by left).
Qed.

Lemma alone_guarded {A} (m : M A) (allowed : bool) (refused : A) :
  (allowed = true → leaves_alone m) → leaves_alone (if allowed then m else mret refused).
Proof using. intros Hm. destruct allowed; [by apply Hm|done]. Qed.

(** A guard by the project a search finds. *)
Lemma allowed_found {A} (key project : A → string) id l (missing : bool) :
  missing = false →
  match list_find (λ x, key x = id) l with
  | Some (_, x) => projectAllowed (w_data w) (principal r) (project x)
  | None => missing
  end = true → found_in key project S id l.
Proof using limited_user.
  intros Hm. destruct (list_find _ l) as [[i x]|] eqn:Hf; [|congruence].
  intros Ha j y Hy. rewrite Hf in Hy. injection Hy as <- <-. by apply projectAllowed_in.
Qed.

Lemma modelAllowed_found id :
  modelAllowed (w_data w) (principal r) id = true → found_in mdl_ID mdl_ProjectID S id (st_Models (w_data w)).
Proof using limited_user. by apply allowed_found. Qed.
Lemma agentAllowed_found id :
  agentAllowed (w_data w) (principal r) id = true → found_in agt_ID agt_ProjectID S id (st_Agents (w_data w)).
Proof using limited_user. by apply allowed_found. Qed.
Lemma functionAllowed_found name :
  functionAllowed (w_data w) (principal r) name = true →
  found_in fn_Name fn_ProjectID S name (st_Functions (w_data w)).
Proof using limited_user. apply allowed_found, limited_user. Qed.

(** A project in reach is the user's own. *)
Lemma reached_project id i x :
  id ∈ S → list_find (λ x, prj_ID x = id) (st_Projects (w_data w)) = Some (i, x) → own (principal r) x.
Proof using limited_user apart.
  intros Hin Hf. apply list_find_hit in Hf as [Hi <-]. apply list_elem_of_lookup_2 in Hi.
  pose proof (reached_own (principal r) (w_data w) apart) as Heq.
  assert (x ∈ reached prj_ID S (st_Projects (w_data w))) as Hx by (by apply list_elem_of_filter).
  unfold S in Hx. rewrite Heq in Hx. apply list_elem_of_filter in Hx. tauto.
Qed.

Lemma account_alone :
  (∀ body, leaves_alone (createAccessRequest r body)) ∧ (∀ body, leaves_alone (createAPIToken r body))
  ∧ (∀ id, leaves_alone (revokeAPIToken r id)).
Proof using H0.
  split_and!.
  - intros body. apply alone_decoded. intros req _. apply alone_mutate.
    by apply (alone_aimed (OpCreateAccessRequest (pr_Subject (principal r)) (pr_Email (principal r)) req)).
  - intros body. apply alone_decoded. intros req _. apply wp_bind, wp_data. case_match; [done|].
    apply alone_quiet; [|intros [created e]; silence].
    by apply (alone_aimed (OpCreateAPIToken (pr_Subject (principal r)) req)).
  - intros id. apply alone_quiet; [|intros [u e]; silence].
    by apply (alone_aimed (OpRevokeAPIToken (pr_Subject (principal r)) id)).
Qed.

Lemma project_alone :
  (∀ body, leaves_alone (createProject header r body))
  ∧ (∀ id body, leaves_alone (setProjectRepository header r id body)).
Proof using limited_user apart H0.
  split.
  - intros body. apply wp_bind, wp_data. destruct (enforceProjectQuota _ _); [done|].
    apply alone_decoded. intros req _. case_decide; [done|].
    apply alone_quiet; [|intros [item e]; silence].
    by eapply (alone_aimed (OpCreateProject _ [actor header r])).
  - intros id body. apply wp_bind, wp_data. destruct (projectAllowed _ _ id) eqn:Ha; [|done]. cbn [negb].
    apply alone_decoded. intros req _. apply alone_mutate.
    apply (alone_aimed (OpSetProjectRepository id req (actor header r))); [done|]. cbn. intros i x.
    apply reached_project. by apply projectAllowed_in.
Qed.

Lemma definition_alone id body :
  found_in pd_ID pd_ProjectID S id (st_Definitions (w_data w)) →
  leaves_alone (upsertPipelineDefinition header r id body).
Proof using limited_user H0.
  intros Hid. apply alone_decoded. intros req _. apply wp_bind, wp_data.
  destruct (projectAllowed _ _ (upd_ProjectID req)) eqn:Ha; [|done]. cbn [negb].
  destruct (undeployed _ _); [done|]. apply alone_mutate.
  apply (alone_aimed (OpUpsertPipelineDefinition id req (actor header r))); [done|].
  split; [by apply projectAllowed_in|done].
Qed.

Lemma alone_quota {A} (handle : M (Handlers.reply A)) : leaves_alone handle → leaves_alone (quota_checked r handle).
Proof using. intros Hh. apply wp_bind, wp_data. by destruct (enforceRunQuota _ _). Qed.

(** An operation that makes a run, which is then dispatched. *)
Lemma alone_dispatched {A} (m : R PipelineRun) (refused : gerror → PipelineRun → A) (started : PipelineRun * option exec → A) :
  leaves_alone m →
  wp m w (λ x w', x.2 = None → found_in run_ID run_ProjectID S (run_ID x.1) (st_Runs (w_data w'))) →
  leaves_alone (x ← m; let '(item, err) := x in
                match err with
                | Some e => mret (refused e item)
                | None => s ← dispatchPipeline item; mret (started s)
                end).
Proof using H0.
  unfold leaves_alone. intros Hm Hf. apply wp_bind. eapply wp_mono; [exact (wp_both _ _ _ _ Hm Hf)|]. cbn.
  intros [item [e|]] w' [Hw Hi]; [done|]. apply wp_bind. eapply wp_mono; [|intros a w'' Hw''; exact Hw''].
  apply dispatch_untouched; [exact (Hi eq_refl)|exact Hw].
Qed.

Lemma run_alone :
  (∀ body, leaves_alone (submitPipeline header r body)) ∧ (∀ id, leaves_alone (cancelRun header r id))
  ∧ (∀ id, leaves_alone (retryRun header r id)).
Proof using limited_user H0.
  split_and!.
  - intros body. apply alone_decoded. intros req _. apply wp_bind, wp_data.
    destruct (projectAllowed _ _ _) eqn:Ha; [|done]. cbn [negb]. apply projectAllowed_in in Ha.
    apply alone_quota. apply (alone_dispatched _ (λ e item, _) (λ s, JSON 202 s.1)).
    + by apply (alone_aimed (OpSubmitPipeline req [actor header r])).
    + by apply submitted_found.
  - intros id. apply alone_run. intros Hf. apply alone_quiet.
    + by apply (alone_aimed (OpCancelRun id (actor header r))).
    + intros [item e]. silence. apply quiet_CancelFlowRun.
  - intros id. apply alone_run. intros Hf. apply alone_quota.
    apply (alone_dispatched _ (λ e item, _) (λ s, writeMutation s.1 None 202)).
    + by apply (alone_aimed (OpRetryRun id (actor header r))).
    + by apply retried_found.
Qed.

Lemma alone_openfaas {A} (handle : OpenFaaS → M (Handlers.reply A)) :
  (∀ client, leaves_alone (handle client)) → leaves_alone (with_openfaas handle).
Proof using. intros Hh. unfold with_openfaas. destruct openfaas; [apply Hh|done]. Qed.

Lemma alone_function {A} name (handle : M (Handlers.reply A)) :
  (found_in fn_Name fn_ProjectID S name (st_Functions (w_data w)) → leaves_alone handle) →
  leaves_alone (with_function r name handle).
Proof using limited_user.
  intros Hh. apply wp_bind, wp_data, alone_guarded. intros Ha. by apply Hh, functionAllowed_found.
Qed.

Lemma alone_after {A B} (m : M A) (f : A → M B) :
  quiet m → (∀ a w', w_data w' = w_data w →
    wp (f a) w' (λ _ w', untouched (principal r) S (w_data w) (w_data w'))) → leaves_alone (m ≫= f).
Proof using. intros Hm Hf. apply wp_bind, wp_quiet; [done|]. intros a w' Hw. by apply Hf. Qed.

Lemma function_alone :
  (∀ body, leaves_alone (deployFunction header r body)) ∧ (∀ name, leaves_alone (deleteFunction header r name))
  ∧ (∀ name body, leaves_alone (invokeFunction r name body))
  ∧ (∀ name body, leaves_alone (invokeFunctionAsync r name body)).
Proof using limited_user H0.
  split_and!.
  - intros body. unfold deployFunction. destruct openfaas as [client|]; [|done].
    apply alone_decoded. intros req _. apply wp_bind, wp_data. cbv zeta.
    rewrite decide_False by (intros [_ Hp]; by rewrite (not_privileged _ limited_user) in Hp).
    destruct (projectAllowed _ _ _) eqn:Ha; [|done]. cbn [negb]. apply projectAllowed_in in Ha.
    destruct (ValidateFunctionRequest req); [done|]. case_match; [done|].
    apply alone_after; [apply quiet_DeployFunction|]. intros [x|e] w' Hw; [|by rewrite <-Hw].
    apply wp_mutate, (wp_aimed _ _ _ (OpUpsertFunction req (pr_Subject (principal r)) (actor header r)));
      [done|exact Ha|by rewrite Hw].
  - intros name. apply alone_function. intros Hf. apply alone_openfaas. intros client.
    apply alone_after; [apply quiet_DeleteFunction|]. intros [x|e] w' Hw; [|by rewrite <-Hw].
    apply (wp_quiet_after _ _ _ (untouched (principal r) S (w_data w))); [|intros [u e]; silence].
    apply (wp_aimed _ _ _ (OpDeleteFunction name (actor header r))); [done|by rewrite Hw|by rewrite Hw].
  - intros name body. apply alone_openfaas. intros client. apply alone_function. intros _.
    apply alone_decoded. intros payload _. apply alone_after; [apply quiet_Invoke|]. intros x w' Hw. by rewrite <-Hw.
  - intros name body. apply alone_openfaas. intros client. apply alone_function. intros _.
    apply alone_decoded. intros payload _. apply alone_after; [apply quiet_InvokeAsync|].
    intros x w' Hw. by rewrite <-Hw.
Qed.

Lemma alone_model {A} id (handle : M (Handlers.reply A)) :
  (found_in mdl_ID mdl_ProjectID S id (st_Models (w_data w)) → leaves_alone handle) →
  leaves_alone (with_model r id handle).
Proof using limited_user.
  intros Hh. apply wp_bind, wp_data, alone_guarded. intros Ha. by apply Hh, modelAllowed_found.
Qed.

Lemma deploy_alone id body : leaves_alone (deployModel header r id body).
Proof using limited_user H0.
  apply alone_model. intros Hf. apply alone_decoded. intros req _. apply wp_bind. eapply wp_mono.
  { apply wp_both; [|by apply (deployed_found S)].
    by apply (wp_aimed (principal r) S (w_data w) (OpDeployModel id (dmr_CanaryWeight req) (actor header r))). }
  intros [item err] w1 [Hw1 Hi]. cbn in Hi. case_decide as He; [exact Hw1|].
  specialize (Hi He). case_decide; [exact Hw1|].
  apply wp_bind, wp_quiet; [apply quiet_serving|]. intros [endpoint|e] w2 Hw2;
    (apply (wp_quiet_after _ _ _ (untouched (principal r) S (w_data w))); [|intros [? ?]; silence]).
  - apply (wp_aimed _ _ _ (OpSetModelEndpoint (mdl_ID item) endpoint "serving")); [done|by rewrite Hw2..].
  - apply (wp_aimed _ _ _ (OpSetModelEndpoint (mdl_ID item) "" "failed")); [done|by rewrite Hw2..].
Qed.

Lemma model_alone :
  (∀ body, leaves_alone (registerModel header r body)) ∧ (∀ id body, leaves_alone (promoteModel header r id body))
  ∧ (∀ id, leaves_alone (rollbackModel header r id)) ∧ (∀ id body, leaves_alone (predictModel r id body)).
Proof using limited_user H0.
  split_and!.
  - intros body. apply alone_decoded. intros req _. apply wp_bind, wp_data.
    destruct (projectAllowed _ _ _) eqn:Ha; [|done]. cbn [negb]. apply alone_mutate.
    apply (alone_aimed (OpRegisterModel req (actor header r))); [done|by apply projectAllowed_in].
  - intros id body. apply alone_model. intros Hf. apply alone_decoded. intros req _. apply alone_mutate.
    by apply (alone_aimed (OpPromoteModel id (pmr_Stage req) (actor header r))).
  - intros id. apply alone_model. intros Hf. apply alone_quiet.
    + by apply (alone_aimed (OpRollbackModel id (actor header r))).
    + intros [item e]. silence.
  - intros id body. apply alone_silent. unfold predictModel, forward. silence.
Qed.

Lemma alone_agent {A} id (handle : M (Handlers.reply A)) :
  (found_in agt_ID agt_ProjectID S id (st_Agents (w_data w)) → leaves_alone handle) →
  leaves_alone (with_agent r id handle).
Proof using limited_user.
  intros Hh. apply wp_bind, wp_data, alone_guarded. intros Ha. by apply Hh, agentAllowed_found.
Qed.

Lemma agent_alone :
  (∀ body, leaves_alone (deployAgent header r body)) ∧ (∀ id body, leaves_alone (agentTraffic header r id body))
  ∧ (∀ id body, leaves_alone (invokeAgent r id body)).
Proof using limited_user H0.
  split_and!.
  - intros body. apply alone_decoded. intros req _. apply wp_bind, wp_data.
    destruct (projectAllowed _ _ _) eqn:Ha; [|done]. cbn [negb]. apply alone_mutate.
    apply (alone_aimed (OpDeployAgent req (actor header r))); [done|by apply projectAllowed_in].
  - intros id body. apply alone_agent. intros Hf. apply alone_decoded. intros req _. apply alone_mutate.
    by apply (alone_aimed (OpSetAgentTraffic id (tr_CanaryWeight req) (actor header r))).
  - intros id body. apply alone_silent. unfold invokeAgent, forward. silence.
Qed.

Lemma shared_alone :
  (∀ body, leaves_alone (applyFeatureView header r body)) ∧ (∀ body, leaves_alone (registerTool header r body)).
Proof using H0.
  split; intros body; apply alone_decoded; intros req _; apply alone_mutate.
  - by apply (alone_aimed (OpApplyFeatureView req (actor header r))).
  - by apply (alone_aimed (OpRegisterTool req (actor header r))).
Qed.
End caller.

(** The writing routes a user may take are the endpoints above. *)
Definition user_write (rt : route) : bool :=
  bool_decide (rt_method rt ≠ "GET")
  && match need_of rt with SignedIn | InPerson | Assigned _ => true | Open | StaffOnly => false end.

Lemma writes_complete rt : rt ∈ routes → user_write rt = true → ∃ e, write_handler e = rt_handler rt.
Proof using.
  set (all := [Write_createAccessRequest (Err ErrNotFound); Write_createAPIToken (Err ErrNotFound);
    Write_revokeAPIToken ""; Write_createProject (Err ErrNotFound); Write_setProjectRepository ""
    (Err ErrNotFound); Write_upsertPipelineDefinition "" (Err ErrNotFound); Write_submitPipeline
    (Err ErrNotFound); Write_cancelRun ""; Write_retryRun ""; Write_applyFeatureView (Err
    ErrNotFound); Write_deployFunction (Err ErrNotFound); Write_deleteFunction "";
    Write_invokeFunction "" (Err ErrNotFound); Write_invokeFunctionAsync "" (Err ErrNotFound);
    Write_registerModel (Err ErrNotFound); Write_promoteModel "" (Err ErrNotFound);
    Write_deployModel "" (Err ErrNotFound); Write_rollbackModel ""; Write_predictModel "" (Err
    ErrNotFound); Write_deployAgent (Err ErrNotFound); Write_agentTraffic "" (Err ErrNotFound);
    Write_invokeAgent "" (Err ErrNotFound); Write_registerTool (Err ErrNotFound)]).
  assert (Forall (λ rt, user_write rt = true → rt_handler rt ∈ write_handler <$> all) routes) as Hall
    by (apply (bool_decide_unpack _); vm_compute; exact I).
  rewrite Forall_forall in Hall. intros Hrt Hw. apply (Hall rt Hrt), list_elem_of_fmap in Hw as (e&He&_).
  by exists e.
Qed.

(** C15: Integrity of the writing endpoints.  Whatever a limited user sends to the
    writing routes, of which these are all, the projects that are not the user's own
    stay as they are, with the runs, definitions, functions, models and agents
    outside the user's reach, the requests and tokens of other users, all grants,
    posts, connections, sessions and traces; and of the audit log nothing is lost.
    The one exception is the update of a pipeline definition by an identifier that
    is another project's (see [definition_overwrite]). *)
Theorem project_integrity e header r w :
  limited (principal r) → keys_unique prj_ID (st_Projects (w_data w)) →
  match e with
  | Write_upsertPipelineDefinition id _ =>
      found_in pd_ID pd_ProjectID (reach (w_data w) (principal r)) id (st_Definitions (w_data w))
  | _ => True
  end →
  untouched (principal r) (reach (w_data w) (principal r)) (w_data w) (w_data (perform e header r w).2)
  ∧ (∀ rt, rt ∈ routes → user_write rt = true → ∃ e, write_handler e = rt_handler rt).
Proof using.
  intros Hl Hk He. split; [|exact writes_complete].
  destruct (account_alone r w) as (Ha1&Ha2&Ha3). destruct (project_alone header r w Hl Hk) as [Hp1 Hp2].
  destruct (run_alone header r w Hl) as (Hr1&Hr2&Hr3). destruct (function_alone header r w Hl) as (Hf1&Hf2&Hf3&Hf4).
  destruct (model_alone header r w Hl) as (Hm1&Hm2&Hm3&Hm4). destruct (agent_alone header r w Hl) as (Hg1&Hg2&Hg3).
  destruct (shared_alone header r w) as [Hs1 Hs2]. pose proof (deploy_alone header r w Hl) as Hd.
  assert (∀ A (m : M A), leaves_alone r w m →
    untouched (principal r) (reach (w_data w) (principal r)) (w_data w) (w_data (effect m w).2)) as Heffect.
  { intros A m Hm. exact (wp_quiet_after m (λ _, mret tt) w _ Hm (λ _, quiet_ret tt)). }
  destruct e; cbn [perform]; apply Heffect; try done. by apply definition_alone.
Qed.
End endpoints.

(** ** Witness: an agent deployed beside another user's run *)

#[local] Instance no_serving : Serving := {|
  SERVING_MANAGER_URL := ""; INTERNAL_TOKEN := ""; json_endpoint := λ _, Err ErrNotFound
|}.

Definition one_agent : result DeployAgentRequest :=
  Ok (mkDeployAgentRequest "prj-1" "helper" "1" "helper:1" "helper.graph" "" 1 []).

Lemma project_integrity_witness :
  ∃ w', (perform (H := quiet_host) (H0 := listed_order) (H1 := silent_net) (H2 := no_engines)
           (H4 := plain_console) (Write_deployAgent one_agent) "" (by_ alice) shared_world).2 = w'
  ∧ length (st_Agents (w_data w')) = 1%nat
  ∧ outside run_ProjectID {["prj-1"]} (st_Runs (w_data w')) = st_Runs (w_data shared_world).
Proof.
  eexists. split; [reflexivity|]. split; [vm_compute; reflexivity|].
  destruct (project_integrity (H := quiet_host) (H0 := listed_order) (H1 := silent_net) (H2 := no_engines)
    (H4 := plain_console) (Write_deployAgent one_agent) "" (by_ alice) shared_world) as [Hu _].
  - by split.
  - compute_done.
  - done.
  - transitivity (outside run_ProjectID (reach (w_data shared_world) (principal (by_ alice))) (st_Runs (w_data shared_world)));
      [|vm_compute; reflexivity].
    rewrite <-(un_runs _ _ _ _ Hu). vm_compute. reflexivity.
Defined.
