(* ===== verification/OpenApi.v ===== *)
(** * The OpenAPI document (internal/httpapi/openapi.go)

    The document the gateway serves about itself, and how it agrees with the
    routes the gateway registers and with what the role rules decide. *)

From Stdlib Require Import Ascii.
From S2P Require Import Prelude GoStrings Urls Types World Access Tokens Auth HttpAccess Integrations.
From S2P Require Import Dispatch Handlers Console Router RouterProps.

Open Scope string_scope.

(** ** The document *)

(** A method of a path, in lower case, with its summary. *)
Definition operation : Type := string * string.

Record document := mkDocument {
  doc_openapi : string;
  doc_title : string;
  doc_version : string;
  doc_paths : list (string * list operation)
}.

Definition paths : list (string * list operation) := [
  ("/api/v1/health", [("get", "Gateway health")]);
  ("/api/v1/me", [("get", "Caller identity, roles and effective permissions")]);
  ("/api/v1/admin/users", [("get", "List user access profiles (admin only)")]);
  ("/api/v1/admin/resource-profiles", [("get", "List canonical compute and memory profiles (admin only)")]);
  ("/api/v1/admin/users/{subject}", [("put", "Provision user access and quotas (admin only)"); ("delete", "Revoke user access (admin only)")]);
  ("/api/v1/access-requests", [("get", "List caller access requests"); ("post", "Request platform access")]);
  ("/api/v1/admin/access-requests", [("get", "List access requests (admin only)")]);
  ("/api/v1/admin/access-requests/{id}", [("patch", "Approve or reject an access request (admin only)")]);
  ("/api/v1/settings/tokens", [("get", "List personal API keys"); ("post", "Create a scoped personal API key")]);
  ("/api/v1/settings/tokens/{id}", [("delete", "Revoke a personal API key")]);
  ("/api/v1/blogs", [("get", "List published engineering blog posts")]);
  ("/api/v1/blogs/{slug}", [("get", "Read a published engineering blog post")]);
  ("/api/v1/admin/blogs", [("get", "List all blog drafts and posts"); ("post", "Create a blog post")]);
  ("/api/v1/admin/blogs/{id}", [("put", "Update or publish a blog post"); ("delete", "Delete a blog post")]);
  ("/api/v1/dashboard", [("get", "Workspace summary")]);
  ("/api/v1/onboarding/readiness", [("get", "Onboarding readiness")]);
  ("/api/v1/projects", [("get", "List projects"); ("post", "Create project")]);
  ("/api/v1/projects/{id}", [("get", "Get project metadata")]);
  ("/api/v1/projects/{id}/repository", [("put", "Connect a Git repository to a project")]);
  ("/api/v1/pipelines/definitions", [("get", "List reusable pipeline definitions"); ("post", "Create a pipeline definition")]);
  ("/api/v1/pipelines/definitions/{id}", [("get", "Get pipeline definition"); ("put", "Update pipeline definition")]);
  ("/api/v1/pipelines/runs", [("get", "List pipeline runs")]);
  ("/api/v1/pipelines/submit", [("post", "Submit pipeline")]);
  ("/api/v1/pipelines/runs/{id}", [("get", "Pipeline steps and logs")]);
  ("/api/v1/pipelines/runs/{id}/cancel", [("post", "Cancel a pipeline run")]);
  ("/api/v1/pipelines/runs/{id}/retry", [("post", "Retry a pipeline run")]);
  ("/api/v1/pipelines/runs/{id}/steps", [("post", "Report pipeline step state")]);
  ("/api/v1/components", [("get", "List platform component health")]);
  ("/api/v1/catalog", [("get", "Browse models, features, agents and tools")]);
  ("/api/v1/features", [("get", "List feature views"); ("post", "Apply a feature view")]);
  ("/api/v1/features/{name}/materialized", [("post", "Report feature materialization")]);
  ("/api/v1/storage/buckets", [("get", "List object-store buckets")]);
  ("/api/v1/storage/objects", [("get", "List objects and prefixes")]);
  ("/api/v1/storage/object", [("get", "Preview an object")]);
  ("/api/v1/prompts", [("get", "List Langfuse prompts")]);
  ("/api/v1/events", [("get", "Stream platform updates using server-sent events")]);
  ("/api/v1/realtime", [("get", "Read real-time processing statistics")]);
  ("/api/v1/realtime/{demo}", [("post", "Report real-time demo statistics")]);
  ("/api/v1/functions", [("get", "List serverless functions"); ("post", "Deploy a serverless function")]);
  ("/api/v1/functions/{name}", [("delete", "Remove a serverless function")]);
  ("/api/v1/functions/{name}/invoke", [("post", "Invoke a serverless function")]);
  ("/api/v1/functions/{name}/invoke-async", [("post", "Queue an asynchronous serverless invocation")]);
  ("/api/v1/models", [("get", "List registered models"); ("post", "Register a model")]);
  ("/api/v1/models/{id}/promote", [("post", "Promote a model")]);
  ("/api/v1/models/{id}/deploy", [("post", "Deploy a model")]);
  ("/api/v1/models/{id}/rollback", [("post", "Roll back a model deployment")]);
  ("/api/v1/models/{id}/predict", [("post", "Send a prediction request")]);
  ("/api/v1/agents", [("get", "List agents"); ("post", "Deploy an agent")]);
  ("/api/v1/agents/{id}/traffic", [("put", "Update agent canary traffic")]);
  ("/api/v1/agents/{id}/invoke", [("post", "Invoke an agent")]);
  ("/api/v1/agents/{id}/sessions", [("get", "List agent sessions")]);
  ("/api/v1/agents/{id}/traces", [("get", "List agent traces")]);
  ("/api/v1/agents/{id}/usage", [("get", "Read agent token and cost usage")]);
  ("/api/v1/tools", [("get", "List tools"); ("post", "Register a tool")]);
  ("/api/v1/connections", [("get", "List connections"); ("post", "Create a secret-backed connection")]);
  ("/api/v1/connections/{id}/test", [("post", "Test a platform connection")]);
  ("/api/v1/audit", [("get", "List audit events")]);
  ("/api/v1/traces", [("post", "Record an agent trace")])].

Section openapi.
Context `{Host}.

Definition openapi : M (reply document) :=
  mret (JSON 200 (mkDocument "3.0.3" "ml-ai-ops-platform API" "0.1.0" paths)).
End openapi.

(** ** The document and the routes *)

(** The routes a document describes: a method in the lower case of OpenAPI. *)
Definition described (doc : document) : list (string * string) :=
  '(path, operations) ← doc_paths doc; (λ o, (o.1, path)) <$> operations.

Definition route_operation (rt : route) : string * string := (ToLower (rt_method rt), rt_pattern rt).

(** The operations the document calls "(admin only)". *)
Definition admin_only (doc : document) : list (string * string) :=
  '(path, operations) ← doc_paths doc;
  (λ o, (o.1, path)) <$> filter (λ o, HasSuffix o.2 "(admin only)" = true) operations.

Lemma described_routes `{Host} :
  described (mkDocument "3.0.3" "ml-ai-ops-platform API" "0.1.0" paths)
  ≡ₚ route_operation <$> filter (λ rt, rt_pattern rt ≠ "/api/openapi.json") routes.
Proof. apply (bool_decide_unpack _). vm_compute. exact I. Qed.

Lemma admin_only_area :
  Forall (λ o, HasPrefix o.2 "/api/v1/admin/" = true)
    (admin_only (mkDocument "3.0.3" "ml-ai-ops-platform API" "0.1.0" paths)).
Proof. apply (bool_decide_unpack _). vm_compute. exact I. Qed.

Lemma Allowed_admin_area principal method path :
  HasPrefix path "/api/v1/admin/" = true →
  Allowed principal method path = true
  ↔ pr_Disabled principal = false ∧ (RoleAdmin ∈ pr_Roles principal ∨ RoleOperator ∈ pr_Roles principal).
Proof.
  intros Hp. unfold Allowed. rewrite Hp. destruct (pr_Disabled principal); [by split; [|intros []]|].
  rewrite orb_true_iff, !hasRole_spec. tauto.
Qed.

(** The document the gateway serves describes its own routes: every operation
    once, each one a registered route, and every route but the document's own.  An
    operation it calls "(admin only)" is open, under every path the route takes,
    exactly to enabled principals with the role of an administrator or, which the
    document does not say, of an operator. *)
Theorem openapi_describes `{Host} w :
  ∃ doc, openapi w = (JSON 200 doc, w)
  ∧ NoDup (doc_paths doc).*1 ∧ NoDup (described doc)
  ∧ described doc ≡ₚ route_operation <$> filter (λ rt, rt_pattern rt ≠ "/api/openapi.json") routes
  ∧ (∀ rt escaped path principal, rt ∈ routes → route_operation rt ∈ admin_only doc →
       route_matches (rt_method rt) escaped rt = true → unescape_path escaped = Some path →
       Forall plain_value (snd <$> path_values (Split (rt_pattern rt) "/") (Split escaped "/")) →
       Allowed principal (rt_method rt) path = true
       ↔ pr_Disabled principal = false
         ∧ (RoleAdmin ∈ pr_Roles principal ∨ RoleOperator ∈ pr_Roles principal)).
Proof.
  eexists. split; [done|]. split; [apply (bool_decide_unpack _); vm_compute; exact I|].
  split; [apply (bool_decide_unpack _); vm_compute; exact I|]. split; [exact described_routes|].
  intros rt escaped path principal Hrt Hadmin [_ Hm]%andb_true_iff Hpath Hplain.
  rewrite (Allowed_view _ _ (route_view rt escaped path Hrt Hm Hpath Hplain)).
  apply Allowed_admin_area. pose proof admin_only_area as Harea. rewrite Forall_forall in Harea.
  exact (Harea _ Hadmin).
Qed.

(** What the document leaves open: an operator, who is no administrator, may change
    the access of users. *)
Lemma operator_administers :
  ("put", "/api/v1/admin/users/{subject}")
  ∈ admin_only (mkDocument "3.0.3" "ml-ai-ops-platform API" "0.1.0" paths)
  ∧ Allowed (mkPrincipal "olga" "" "" [RoleOperator] [] [] [] false true "") "PUT" "/api/v1/admin/users/olga" = true.
Proof. split; [apply (bool_decide_unpack _)|]; vm_compute; done. Qed.
