(* ===== verification/Copies.v ===== *)
(** * Copies of custom resources (pkg/kube/v1alpha1/types.go, [DeepCopyObject])

    The custom resources as they lie in memory: structs whose slices, maps and
    pointers refer to blocks that other structs may share.  The controllers and
    their cache pass objects around by reference and rely on [DeepCopyObject] for a
    copy of their own; the rest of the library treats an object as a value, and
    this file says when it may. *)

From S2P Require Import Prelude GoStrings Types World Pipelines Kube.

Open Scope string_scope.

(** ** Memory *)

Definition loc : Type := positive.

(** The structs of k8s.io/apimachinery that the resources embed, and the blocks
    only that library reads. *)
Class MetaTypes := {
  TypeMeta : Type;
  ObjectMeta : Type;
  ListMeta : Type;
  Condition : Type;
  meta_block : Type
}.

(** A slice: nothing, or a part of an array. *)
Inductive slice : Type :=
  | nil_slice
  | Slice (array : loc) (offset length : nat).

(** Maps and pointers: nil, or what they refer to. *)
Definition reference : Type := option loc.

Section structs.
Context `{MetaTypes}.

Record AgentMemSpec := mkAgentMemSpec {
  sas_Version : string;
  sas_Image : string;
  sas_GraphModule : string;
  sas_Replicas : ReplicaSpec;
  sas_LLM : LLMSpec;
  sas_Tools : slice;
  sas_LangfuseProject : string;
  sas_TrafficPolicy : TrafficPolicy
}.
Record AgentMemStatus := mkAgentMemStatus {
  sat_Phase : string;
  sat_ReadyReplicas : Z;
  sat_ObservedGeneration : Z;
  sat_Conditions : slice
}.
Record NexusAgent := mkNexusAgent {
  na_TypeMeta : TypeMeta;
  na_ObjectMeta : ObjectMeta;
  na_Spec : AgentMemSpec;
  na_Status : AgentMemStatus
}.

Record RunMemSpec := mkRunMemSpec {
  sps_PipelineRef : string;
  sps_Parameters : reference;
  sps_ServiceAccountName : string
}.
Record RunMemStatus := mkRunMemStatus {
  spt_Phase : string;
  spt_WorkflowRef : string;
  spt_StartedAt : reference;
  spt_FinishedAt : reference;
  spt_Message : string
}.
Record NexusPipelineRun := mkNexusPipelineRun {
  npr_TypeMeta : TypeMeta;
  npr_ObjectMeta : ObjectMeta;
  npr_Spec : RunMemSpec;
  npr_Status : RunMemStatus
}.

Record PromotionMemSpec := mkPromotionMemSpec {
  sms_ModelName : string;
  sms_Version : string;
  sms_TargetStage : string;
  sms_Gates : slice
}.
Record NexusModelPromotion := mkNexusModelPromotion {
  nmp_TypeMeta : TypeMeta;
  nmp_ObjectMeta : ObjectMeta;
  nmp_Spec : PromotionMemSpec;
  nmp_Status : NexusModelPromotionStatus
}.

Record WorkspaceMemSpec := mkWorkspaceMemSpec {
  sws_Subject : string;
  sws_Services : slice;
  sws_Compute : WorkspaceComputeSpec;
  sws_StorageGB : Z;
  sws_Disabled : bool
}.
Record WorkspaceMemStatus := mkWorkspaceMemStatus {
  swt_Phase : string;
  swt_ReadyReplicas : Z;
  swt_WorkbenchURL : string;
  swt_IDEURL : string;
  swt_ObservedGeneration : Z;
  swt_Conditions : slice
}.
Record NexusWorkspace := mkNexusWorkspace {
  nw_TypeMeta : TypeMeta;
  nw_ObjectMeta : ObjectMeta;
  nw_Spec : WorkspaceMemSpec;
  nw_Status : WorkspaceMemStatus
}.

(** [NexusAgentList], [NexusPipelineRunList], [NexusModelPromotionList] and
    [NexusWorkspaceList]. *)
Record NexusList := mkNexusList {
  nl_TypeMeta : TypeMeta;
  nl_ListMeta : ListMeta;
  nl_Items : slice
}.

(** What a reference can lead to: the array of a slice, a map, a time. *)
Inductive block : Type :=
  | ToolArray (items : list ToolReference)
  | ConditionArray (items : list Condition)
  | StringArray (items : list string)
  | GateArray (items : list PromotionGate)
  | AgentArray (items : list NexusAgent)
  | PipelineRunArray (items : list NexusPipelineRun)
  | ModelPromotionArray (items : list NexusModelPromotion)
  | WorkspaceArray (items : list NexusWorkspace)
  | StringMap (m : gmap string string)
  | TimeValue (t : Time)
  | MetaBlock (b : meta_block).
End structs.

Abbreviation heap := (gmap loc block).

(** ** Computations on memory

    [None] is an access that no Go program of these types can make: to a block
    that is not there or is of another type.  [DeepCopyObject] is shown never to
    make one. *)
Definition H `{MetaTypes} (A : Type) : Type := heap → option (A * heap).
#[export] Instance H_ret `{MetaTypes} : MRet H := λ A a h, Some (a, h).
#[export] Instance H_bind `{MetaTypes} : MBind H := λ A B f m h, '(a, h') ← m h; f a h'.

Section memory.
Context `{MetaTypes}.

(** [new], [make]: a block nobody else has. *)
Definition allocate (b : block) : H loc :=
  λ h, let l := fresh (dom h) in Some (l, <[l := b]> h).
Definition read (l : loc) : H block := λ h, (λ b, (b, h)) <$> h !! l.
Definition write (l : loc) (b : block) : H unit := λ h, Some (tt, <[l := b]> h).
(** An access that cannot be made. *)
Definition stuck {A} : H A := λ _, None.
Definition expect {A} (x : option A) : H A := λ h, (λ a, (a, h)) <$> x.
End memory.

(** The types an array can hold. *)
Class Element `{MetaTypes} (A : Type) := {
  array_of : list A → block;
  items_of : block → option (list A);
  items_array l : items_of (array_of l) = Some l
}.
#[export] Instance tool_element `{MetaTypes} : Element ToolReference :=
  {| array_of := ToolArray; items_of b := match b with ToolArray l => Some l | _ => None end;
     items_array _ := eq_refl |}.
#[export] Instance condition_element `{MetaTypes} : Element Condition :=
  {| array_of := ConditionArray; items_of b := match b with ConditionArray l => Some l | _ => None end;
     items_array _ := eq_refl |}.
#[export] Instance string_element `{MetaTypes} : Element string :=
  {| array_of := StringArray; items_of b := match b with StringArray l => Some l | _ => None end;
     items_array _ := eq_refl |}.
#[export] Instance gate_element `{MetaTypes} : Element PromotionGate :=
  {| array_of := GateArray; items_of b := match b with GateArray l => Some l | _ => None end;
     items_array _ := eq_refl |}.
#[export] Instance agent_element `{MetaTypes} : Element NexusAgent :=
  {| array_of := AgentArray; items_of b := match b with AgentArray l => Some l | _ => None end;
     items_array _ := eq_refl |}.
#[export] Instance run_element `{MetaTypes} : Element NexusPipelineRun :=
  {| array_of := PipelineRunArray; items_of b := match b with PipelineRunArray l => Some l | _ => None end;
     items_array _ := eq_refl |}.
#[export] Instance promotion_element `{MetaTypes} : Element NexusModelPromotion :=
  {| array_of := ModelPromotionArray;
     items_of b := match b with ModelPromotionArray l => Some l | _ => None end;
     items_array _ := eq_refl |}.
#[export] Instance workspace_element `{MetaTypes} : Element NexusWorkspace :=
  {| array_of := WorkspaceArray; items_of b := match b with WorkspaceArray l => Some l | _ => None end;
     items_array _ := eq_refl |}.

(** ** What a struct stands for, and what it can reach *)

(** [value h x]: the content of [x], references followed; nil slices and maps are
    empty.  [refs h x]: the blocks it leads to. *)
Class Layout `{MetaTypes} (T V : Type) := {
  value : heap → T → option V;
  refs : heap → T → gset loc
}.
(** Both depend on these blocks only, which are all there. *)
Class LayoutOk `{MetaTypes} (T V : Type) `{!Layout T V} : Prop := {
  value_local h h' x v :
    value h x = Some v → (∀ l, l ∈ refs h x → h' !! l = h !! l) → value h' x = Some v ∧ refs h' x = refs h x;
  refs_there h x v : value h x = Some v → refs h x ⊆ dom h
}.

(** A copy with the same content, of which every block is new. *)
Definition deep `{MetaTypes} {T V} `{!Layout T V} (copy : T → H T) : Prop := ∀ h x v,
  value h x = Some v →
  ∃ y h', copy x h = Some (y, h') ∧ h ⊆ h' ∧ value h' y = Some v ∧ refs h' y ## dom h.

Section slices.
Context `{MetaTypes} {A : Type} `{!Element A}.

(** The elements of a slice. *)
Definition elements (s : slice) : H (list A) :=
  match s with
  | nil_slice => mret []
  | Slice l offset length =>
      b ← read l;
      items ← expect (items_of b);
      if decide (offset + length ≤ List.length items)%nat then mret (take length (drop offset items))
      else stuck
  end.

(** [append([]A(nil), s...)] *)
Definition append_copy (s : slice) : H slice :=
  items ← elements s;
  if decide (items = []) then mret nil_slice else
  l ← allocate (array_of items);
  mret (Slice l 0 (length items)).

#[export] Instance slice_layout : Layout slice (list A) := {|
  value h s := fst <$> elements s h;
  refs _ s := match s with nil_slice => ∅ | Slice l _ _ => {[l]} end
|}.
End slices.

(** A pointer to a time, and a map of strings; nil pointers stand for no time. *)
Definition time_at `{MetaTypes} (l : loc) : H Time :=
  b ← read l; match b with TimeValue t => mret t | _ => stuck end.
#[export] Instance time_layout `{MetaTypes} : Layout loc Time := {|
  value h l := fst <$> time_at l h;
  refs _ l := {[l]}
|}.
Definition entries `{MetaTypes} (r : reference) : H (gmap string string) :=
  match r with
  | None => mret ∅
  | Some l => b ← read l; match b with StringMap m => mret m | _ => stuck end
  end.
Definition map_layout `{MetaTypes} : Layout reference (gmap string string) := {|
  value h r := fst <$> entries r h;
  refs _ r := match r with Some l => {[l]} | None => ∅ end
|}.

(** ** The copying methods *)

(** k8s.io/apimachinery: [ObjectMeta.DeepCopyInto] and [Time.DeepCopy]. *)
Class MetaV1 `{MetaTypes} := {
  object_meta : Type;
  list_meta : Type;
  object_meta_layout :: Layout ObjectMeta object_meta;
  list_meta_layout :: Layout ListMeta list_meta;
  meta_DeepCopy : ObjectMeta → H ObjectMeta;
  time_DeepCopy : loc → H loc
}.
(** What it documents: copies that share nothing. *)
Class MetaV1Ok `{MetaV1} : Prop := {
  object_meta_ok :: LayoutOk ObjectMeta object_meta;
  list_meta_ok :: LayoutOk ListMeta list_meta;
  meta_DeepCopy_deep : deep meta_DeepCopy;
  time_DeepCopy_deep : deep time_DeepCopy
}.

(** The methods have a pointer for a receiver, and nil is its own copy.  A struct
    made by [new] is nobody else's, so a pointer to one is the struct it points to. *)
Definition DeepCopyObject `{MetaTypes} {T} (copy : T → H T) (x : option T) : H (option T) :=
  match x with None => mret None | Some x => y ← copy x; mret (Some y) end.

Section methods.
Context `{MetaV1} `{MapOrder}.

Definition agent_DeepCopyObject (x : NexusAgent) : H NexusAgent :=
  meta ← meta_DeepCopy (na_ObjectMeta x);
  tools ← append_copy (A := ToolReference) (sas_Tools (na_Spec x));
  conditions ← append_copy (A := Condition) (sat_Conditions (na_Status x));
  let spec := na_Spec x in let status := na_Status x in
  mret (mkNexusAgent (na_TypeMeta x) meta
    (mkAgentMemSpec (sas_Version spec) (sas_Image spec) (sas_GraphModule spec) (sas_Replicas spec)
       (sas_LLM spec) tools (sas_LangfuseProject spec) (sas_TrafficPolicy spec))
    (mkAgentMemStatus (sat_Phase status) (sat_ReadyReplicas status) (sat_ObservedGeneration status) conditions)).

(** [for key, value := range in { out[key] = value }] *)
Definition copied_entries (m : gmap string string) : gmap string string :=
  foldl (λ out key, match m !! key with Some v => <[key := v]> out | None => out end) ∅ (map_order m).

Definition map_copy (r : reference) : H reference :=
  l ← allocate (StringMap ∅);
  m ← entries r;
  _ ← write l (StringMap (copied_entries m));
  mret (Some l).

(** [if in != nil { value := in.DeepCopy(); out = value }] *)
Definition time_copy (r : reference) : H reference :=
  match r with None => mret None | Some l => l ← time_DeepCopy l; mret (Some l) end.

Definition run_DeepCopyObject (x : NexusPipelineRun) : H NexusPipelineRun :=
  meta ← meta_DeepCopy (npr_ObjectMeta x);
  parameters ← map_copy (sps_Parameters (npr_Spec x));
  started ← time_copy (spt_StartedAt (npr_Status x));
  finished ← time_copy (spt_FinishedAt (npr_Status x));
  let spec := npr_Spec x in let status := npr_Status x in
  mret (mkNexusPipelineRun (npr_TypeMeta x) meta
    (mkRunMemSpec (sps_PipelineRef spec) parameters (sps_ServiceAccountName spec))
    (mkRunMemStatus (spt_Phase status) (spt_WorkflowRef status) started finished (spt_Message status))).

Definition promotion_DeepCopyObject (x : NexusModelPromotion) : H NexusModelPromotion :=
  meta ← meta_DeepCopy (nmp_ObjectMeta x);
  gates ← append_copy (A := PromotionGate) (sms_Gates (nmp_Spec x));
  let spec := nmp_Spec x in
  mret (mkNexusModelPromotion (nmp_TypeMeta x) meta
    (mkPromotionMemSpec (sms_ModelName spec) (sms_Version spec) (sms_TargetStage spec) gates)
    (nmp_Status x)).

Definition workspace_DeepCopyObject (x : NexusWorkspace) : H NexusWorkspace :=
  meta ← meta_DeepCopy (nw_ObjectMeta x);
  services ← append_copy (A := string) (sws_Services (nw_Spec x));
  conditions ← append_copy (A := Condition) (swt_Conditions (nw_Status x));
  let spec := nw_Spec x in let status := nw_Status x in
  mret (mkNexusWorkspace (nw_TypeMeta x) meta
    (mkWorkspaceMemSpec (sws_Subject spec) services (sws_Compute spec) (sws_StorageGB spec) (sws_Disabled spec))
    (mkWorkspaceMemStatus (swt_Phase status) (swt_ReadyReplicas status) (swt_WorkbenchURL status)
       (swt_IDEURL status) (swt_ObservedGeneration status) conditions)).

(** [for i := range in.Items { out.Items[i] = *in.Items[i].DeepCopyObject() }] *)
Definition set_item {A} `{!Element A} (array : loc) (i : nat) (x : A) : H unit :=
  b ← read array;
  items ← expect (items_of b);
  if decide (i < length items)%nat then write array (array_of (<[i := x]> items)) else stuck.

Fixpoint copy_items {A} `{!Element A} (copy : A → H A) (array : loc) (i : nat) (items : list A) : H unit :=
  match items with
  | [] => mret tt
  | x :: items =>
      y ← DeepCopyObject copy (Some x);
      y ← expect y;
      _ ← set_item array i y;
      copy_items copy array (S i) items
  end.

(** The lists' methods, alike: [zero] is the zero value of an item.  [*out = *in]
    keeps the list's metadata as they are. *)
Definition list_DeepCopyObject {A} `{!Element A} (zero : A) (copy : A → H A) (x : NexusList) : H NexusList :=
  items ← elements (nl_Items x);
  array ← allocate (array_of (replicate (length items) zero));
  _ ← copy_items copy array 0 items;
  mret (mkNexusList (nl_TypeMeta x) (nl_ListMeta x) (Slice array 0 (length items))).

Definition agent_list_DeepCopyObject (zero : NexusAgent) := list_DeepCopyObject zero agent_DeepCopyObject.
Definition run_list_DeepCopyObject (zero : NexusPipelineRun) := list_DeepCopyObject zero run_DeepCopyObject.
Definition promotion_list_DeepCopyObject (zero : NexusModelPromotion) :=
  list_DeepCopyObject zero promotion_DeepCopyObject.
Definition workspace_list_DeepCopyObject (zero : NexusWorkspace) :=
  list_DeepCopyObject zero workspace_DeepCopyObject.
End methods.
