(* ===== verification/CopiesProps.v ===== *)
(** * What copies of custom resources promise

    A copied resource has the content of the original and no block in common with
    it; a copied list shares its metadata. *)

From S2P Require Import Prelude GoStrings Types World Pipelines Kube Copies.

Open Scope string_scope.

#[local] Arguments allocate {_} _ _ : simpl never.
#[local] Arguments read {_} _ _ : simpl never.

(** ** Layouts made of layouts *)

Section layouts.
Context `{MetaTypes}.

#[export] Instance pair_layout {A B V W} `{!Layout A V} `{!Layout B W} : Layout (A * B) (V * W) := {|
  value h x := a ← value h x.1; b ← value h x.2; Some (a, b);
  refs h x := refs h x.1 ∪ refs h x.2
|}.

(** A struct, by the parts of it that hold references. *)
Definition struct_layout {T P V W} `{!Layout P V} (parts : T → P) (content : T → V → W) : Layout T W := {|
  value h x := content x <$> value h (parts x);
  refs h x := refs h (parts x)
|}.

(** A pointer that may be nil. *)
#[export] Instance option_layout {V} `{!Layout loc V} : Layout reference (option V) := {|
  value h r := match r with None => Some None | Some l => Some <$> value h l end;
  refs h r := match r with None => ∅ | Some l => refs h l end
|}.

(** A slice of structs with references of their own. *)
Definition items_layout {A V} `{!Element A} `{!Layout A V} : Layout slice (list V) := {|
  value h s := items ← fst <$> elements s h; mapM (value h) items;
  refs h s := refs (Layout := slice_layout (A := A)) h s ∪ match fst <$> elements s h with
    | Some items => ⋃ (refs h <$> items)
    | None => ∅
    end
|}.

Lemma value_mono {T V} `{!Layout T V} `{!LayoutOk T V} h h' x v :
  value h x = Some v → h ⊆ h' → value h' x = Some v ∧ refs h' x = refs h x.
Proof.
  intros Hv Hsub. apply (value_local h h' x v Hv). intros l Hl.
  apply (refs_there h x v Hv) in Hl. apply elem_of_dom in Hl as [b Hb].
  rewrite Hb. by apply (lookup_weaken h h').
Qed.

#[export] Instance pair_ok {A B V W} `{!Layout A V, !Layout B W, !LayoutOk A V, !LayoutOk B W} :
  LayoutOk (A * B) (V * W).
Proof.
  split.
  - intros h h' [a b] v Hv Hl. cbn in *. apply bind_Some in Hv as (va&Ha&Hv).
    apply bind_Some in Hv as (vb&Hb&[= <-]).
    destruct (value_local h h' a va Ha) as [-> ->]; [set_solver|].
    destruct (value_local h h' b vb Hb) as [-> ->]; [set_solver|]. done.
  - intros h [a b] v Hv. cbn in *. apply bind_Some in Hv as (va&Ha&Hv).
    apply bind_Some in Hv as (vb&Hb&_).
    pose proof (refs_there h a va Ha). pose proof (refs_there h b vb Hb). set_solver.
Qed.

Lemma struct_ok {T P V W} `{!Layout P V} `{!LayoutOk P V} (parts : T → P) (content : T → V → W) :
  LayoutOk T W (Layout0 := struct_layout parts content).
Proof.
  split.
  - intros h h' x w Hv Hl. cbn in *. apply fmap_Some in Hv as (v&Hv&->).
    by destruct (value_local h h' (parts x) v Hv Hl) as [-> ->].
  - intros h x w Hv. cbn in *. apply fmap_Some in Hv as (v&Hv&->). exact (refs_there h (parts x) v Hv).
Qed.

#[export] Instance option_ok {V} `{!Layout loc V} `{!LayoutOk loc V} : LayoutOk reference (option V).
Proof.
  split.
  - intros h h' [l|] v Hv Hl; cbn in *; [|done]. apply fmap_Some in Hv as (w&Hw&->).
    by destruct (value_local h h' l w Hw Hl) as [-> ->].
  - intros h [l|] v Hv; cbn in *; [|set_solver]. apply fmap_Some in Hv as (w&Hw&->).
    exact (refs_there h l w Hw).
Qed.

Lemma read_same (h h' : heap) l : h' !! l = h !! l → fst <$> read l h' = fst <$> read l h.
Proof. intros Hl. unfold read. rewrite Hl. by destruct (h !! l). Qed.

Lemma elements_local {A} `{!Element A} s (h h' : heap) (items : list A) :
  fst <$> elements s h = Some items → (∀ l, l ∈ refs (Layout := slice_layout (A := A)) h s → h' !! l = h !! l) →
  fst <$> elements s h' = Some items.
Proof.
  destruct s as [|l off len]; [done|]. cbn. intros Hs Hl. specialize (Hl l (elem_of_singleton_2 _ _ eq_refl)).
  revert Hs. unfold mbind, H_bind, read. rewrite Hl. destruct (h !! l) as [b|]; [|done]. cbn.
  unfold expect. destruct (items_of b); [|done]. cbn. by case_decide.
Qed.

Lemma elements_there {A} `{!Element A} s h (items : list A) :
  fst <$> elements s h = Some items → refs (Layout := slice_layout (A := A)) h s ⊆ dom h.
Proof.
  destruct s as [|l off len]; cbn; [set_solver|]. unfold mbind, H_bind, read.
  destruct (h !! l) as [b|] eqn:Hb; [|done]. intros _. apply elem_of_dom_2 in Hb. set_solver.
Qed.

Lemma elements_keep {A} `{!Element A} s h (items : list A) h' : elements s h = Some (items, h') → h' = h.
Proof.
  destruct s as [|l off len]; cbn; [by intros [= _ ->]|]. unfold mbind, H_bind, read.
  destruct (h !! l) as [b|]; [|done]. cbn. unfold expect. destruct (items_of b); [|done]. cbn.
  case_decide; [|done]. by intros [= _ ->].
Qed.

#[export] Instance slice_ok {A} `{!Element A} : LayoutOk slice (list A).
Proof.
  split; [|intros h s v; apply elements_there]. intros h h' s v Hv Hl. split; [|done]. exact (elements_local s h h' v Hv Hl).
Qed.

#[export] Instance time_ok : LayoutOk loc Time.
Proof.
  split.
  - intros h h' l v Hv Hl. cbn in *. split; [|done]. revert Hv. unfold time_at, mbind, H_bind, read.
    rewrite (Hl l) by set_solver. by destruct (h !! l) as [[]|].
  - intros h l v. cbn. unfold time_at, mbind, H_bind, read. destruct (h !! l) as [b|] eqn:Hb; [|done].
    intros _. apply elem_of_dom_2 in Hb. set_solver.
Qed.

#[export] Instance map_ok : LayoutOk (Layout0 := map_layout) reference (gmap string string).
Proof.
  split.
  - intros h h' [l|] v Hv Hl; cbn in *; [|done]. split; [|done]. revert Hv. unfold mbind, H_bind, read.
    rewrite (Hl l) by set_solver. by destruct (h !! l) as [[]|].
  - intros h [l|] v; cbn; [|set_solver]. unfold mbind, H_bind, read.
    destruct (h !! l) as [b|] eqn:Hb; [|done]. intros _. apply elem_of_dom_2 in Hb. set_solver.
Qed.
End layouts.

Section items.
Context `{MetaTypes} {A V : Type} `{!Element A} `{!Layout A V} `{!LayoutOk A V}.

Lemma mapM_value_local h h' (items : list A) vs :
  mapM (value h) items = Some vs →
  (∀ l, l ∈ ⋃ (refs h <$> items) → h' !! l = h !! l) →
  mapM (value h') items = Some vs ∧ refs h' <$> items = refs h <$> items.
Proof using LayoutOk0.
  revert vs. induction items as [|x items IH]; intros vs Hv Hl; [done|]. cbn in *.
  apply bind_Some in Hv as (v&Hx&Hv). apply bind_Some in Hv as (vs'&Hvs&[= <-]).
  destruct (value_local h h' x v Hx) as [-> ->]; [set_solver|].
  destruct (IH vs' Hvs) as [-> ->]; [set_solver|]. done.
Qed.

Lemma mapM_refs_there h (items : list A) vs :
  mapM (value h) items = Some vs → ⋃ (refs h <$> items) ⊆ dom h.
Proof using LayoutOk0.
  revert vs. induction items as [|x items IH]; intros vs Hv; [set_solver|]. cbn in *.
  apply bind_Some in Hv as (v&Hx&Hv). apply bind_Some in Hv as (vs'&Hvs&_).
  pose proof (refs_there h x v Hx). pose proof (IH vs' Hvs). set_solver.
Qed.

Lemma items_ok : LayoutOk (Layout0 := items_layout) slice (list V).
Proof using LayoutOk0.
  split.
  - intros h h' s vs Hv Hl. cbn in *. apply bind_Some in Hv as (items&Hs&Hv). rewrite Hs in *.
    rewrite (elements_local s h h' items Hs) by set_solver. cbn.
    destruct (mapM_value_local h h' items vs Hv) as [-> ->]; [set_solver|]. done.
  - intros h s vs Hv. cbn in *. apply bind_Some in Hv as (items&Hs&Hv). rewrite Hs.
    pose proof (elements_there s h items Hs). pose proof (mapM_refs_there h items vs Hv). set_solver.
Qed.
End items.

(** ** Deep copies *)

Section deep.
Context `{MetaTypes}.

Lemma allocate_fresh (b : block) h :
  ∃ l, allocate b h = Some (l, <[l := b]> h) ∧ l ∉ dom h ∧ h ⊆ <[l := b]> h.
Proof.
  exists (fresh (dom h)). pose proof (is_fresh (dom h)) as Hf. split_and!; [done|done|].
  apply insert_subseteq, not_elem_of_dom, Hf.
Qed.

Lemma append_copy_deep {A} `{!Element A} : deep (V := list A) append_copy.
Proof.
  intros h s items Hs. cbn in Hs. destruct (elements s h) as [[items' h0]|] eqn:He; [|done].
  injection Hs as ->. apply elements_keep in He as Hh. subst h0.
  unfold append_copy, mbind, H_bind. rewrite He. cbn. case_decide as Hn.
  - subst. exists nil_slice, h. split_and!; [done|done|done|]. cbn. set_solver.
  - destruct (allocate_fresh (array_of items) h) as (l&Ha&Hl&Hsub). unfold mbind, H_bind in *. rewrite Ha.
    eexists _, _. split; [done|]. split; [done|]. cbn. unfold mbind, H_bind, read. rewrite lookup_insert_eq. cbn.
    unfold expect. rewrite items_array. cbn. rewrite decide_True by lia. rewrite drop_0, firstn_all.
    split; [done|]. set_solver.
Qed.

Lemma map_copied `{MapOrder} (m : gmap string string) : copied_entries m = m.
Proof.
  unfold copied_entries. apply map_eq. intros k.
  assert (∀ keys (out : gmap string string), foldl (λ out key, match m !! key with Some v => <[key := v]> out | None => out end) out keys !! k
    = if decide (k ∈ keys ∧ is_Some (m !! k)) then m !! k else out !! k) as Hfold.
  { induction keys as [|key keys IH]; intros out; cbn.
    - rewrite decide_False; [done|]. by intros [?%elem_of_nil _].
    - rewrite IH. destruct (m !! k) as [v|] eqn:Hk.
      + destruct (decide (k ∈ keys)) as [Hin|Hin].
        * rewrite !decide_True; [done|by split; [right|]|by split].
        * destruct (decide (k = key)) as [->|Hne].
          -- rewrite decide_False by (by intros [? _]). rewrite decide_True by (split; [left|]; done).
             rewrite Hk. by rewrite lookup_insert_eq.
          -- rewrite !decide_False by (intros [Hk' _]; set_solver).
             destruct (m !! key); [by rewrite lookup_insert_ne|done].
      + rewrite !decide_False by (intros [_ [? ?]]; done).
        destruct (m !! key) eqn:Hkey; [|done]. rewrite lookup_insert_ne; [done|]. congruence. }
  rewrite Hfold. destruct (m !! k) as [v|] eqn:Hk.
  - rewrite decide_True; [done|]. split; [|done]. apply elem_of_map_order, elem_of_dom. by exists v.
  - rewrite decide_False by (by intros [_ [? ?]]). by rewrite lookup_empty.
Qed.

Lemma map_copy_deep `{MapOrder} : deep (Layout0 := map_layout) map_copy.
Proof.
  intros h r m Hr. destruct (allocate_fresh (StringMap ∅) h) as (l&Ha&Hl&Hsub).
  destruct (value_mono (Layout0 := map_layout) h _ r m Hr Hsub) as [Hr' _]. cbn in Hr'.
  destruct (entries r (<[l := StringMap ∅]> h)) as [[m' h1]|] eqn:He; [|done]. injection Hr' as ->.
  assert (h1 = <[l := StringMap ∅]> h) as ->.
  { revert He. destruct r as [l'|]; cbn; [|by intros [= _ ->]]. unfold mbind, H_bind, read.
    destruct (_ !! l') as [[]|]; try done. by intros [= _ ->]. }
  unfold map_copy, mbind, H_bind in *. rewrite Ha. cbn [mbind option_bind]. rewrite He. cbn. rewrite map_copied.
  eexists _, _. split; [done|]. rewrite insert_insert_eq. split; [|split].
  - apply insert_subseteq, not_elem_of_dom, Hl.
  - cbn. unfold mbind, H_bind, read. by rewrite lookup_insert_eq.
  - cbn. set_solver.
Qed.

Definition pair_copy {A B} (copyA : A → H A) (copyB : B → H B) (x : A * B) : H (A * B) :=
  a ← copyA x.1; b ← copyB x.2; mret (a, b).

Lemma pair_deep {A B V W} `{!Layout A V, !Layout B W, !LayoutOk A V, !LayoutOk B W} copyA copyB :
  deep (T := A) copyA → deep (T := B) copyB → deep (pair_copy copyA copyB).
Proof.
  intros HA HB h [a b] v Hv. cbn in Hv. apply bind_Some in Hv as (va&Hva&Hv). apply bind_Some in Hv as (vb&Hvb&[= <-]).
  destruct (HA h a va Hva) as (a'&h1&Ea&Hsub1&Ha'&Hfa).
  destruct (value_mono h h1 b vb Hvb Hsub1) as [Hvb1 _].
  destruct (HB h1 b vb Hvb1) as (b'&h2&Eb&Hsub2&Hb'&Hfb).
  destruct (value_mono h1 h2 a' va Ha' Hsub2) as [Ha2 Hra].
  exists (a', b'), h2. unfold pair_copy, mbind, H_bind. cbn. rewrite Ea. cbn. rewrite Eb. cbn.
  split; [done|]. split; [by trans h1|]. rewrite Ha2. cbn. rewrite Hb'. split; [done|].
  rewrite Hra. apply subseteq_dom in Hsub1. set_solver.
Qed.

(** A struct is copied part by part. *)
Lemma struct_deep {T P V W} `{!Layout P V} (parts : T → P) (content : T → V → W) copy (copy_struct : T → H T)
    (rebuild : T → P → T) :
  deep copy → (∀ x h, copy_struct x h = (p ← copy (parts x); mret (rebuild x p)) h) →
  (∀ x p, parts (rebuild x p) = p) → (∀ x p v, content (rebuild x p) v = content x v) →
  deep (Layout0 := struct_layout parts content) copy_struct.
Proof.
  intros Hc Hcopy Hparts Hcontent h x w Hw. cbn in Hw. apply fmap_Some in Hw as (v&Hv&->).
  destruct (Hc h (parts x) v Hv) as (p&h'&Ep&Hsub&Hp&Hf). exists (rebuild x p), h'.
  rewrite Hcopy. unfold mbind, H_bind. rewrite Ep. split; [done|]. split; [done|]. cbn.
  rewrite Hparts, Hp. cbn. by rewrite Hcontent.
Qed.
End deep.

(** ** The four resources *)

Section resources.
Context `{MetaV1} `{MapOrder} {Hok : MetaV1Ok}.

(** A resource stands for the specification the controllers work on ([Kube]), the
    status with its conditions, and the metadata. *)
Definition agent_parts (x : NexusAgent) : ObjectMeta * (slice * slice) :=
  (na_ObjectMeta x, (sas_Tools (na_Spec x), sat_Conditions (na_Status x))).
Definition agent_content (x : NexusAgent) (v : object_meta * (list ToolReference * list Condition)) :
    TypeMeta * object_meta * NexusAgentSpec * (string * Z * Z * list Condition) :=
  let spec := na_Spec x in let status := na_Status x in let '(meta, (tools, conditions)) := v in
  (na_TypeMeta x, meta,
   mkNexusAgentSpec (sas_Version spec) (sas_Image spec) (sas_GraphModule spec) (sas_Replicas spec)
     (sas_LLM spec) tools (sas_LangfuseProject spec) (sas_TrafficPolicy spec),
   (sat_Phase status, sat_ReadyReplicas status, sat_ObservedGeneration status, conditions)).
#[export] Instance agent_layout :
  Layout NexusAgent (TypeMeta * object_meta * NexusAgentSpec * (string * Z * Z * list Condition)) :=
  struct_layout agent_parts agent_content.

#[local] Existing Instance map_layout.
Definition run_parts (x : NexusPipelineRun) : ObjectMeta * (reference * (reference * reference)) :=
  (npr_ObjectMeta x, (sps_Parameters (npr_Spec x),
    (spt_StartedAt (npr_Status x), spt_FinishedAt (npr_Status x)))).
Definition run_content (x : NexusPipelineRun)
    (v : object_meta * (gmap string string * (option Time * option Time))) :
    TypeMeta * object_meta * NexusPipelineRunSpec * NexusPipelineRunStatus :=
  let spec := npr_Spec x in let status := npr_Status x in
  let '(meta, (parameters, (started, finished))) := v in
  (npr_TypeMeta x, meta,
   mkNexusPipelineRunSpec (sps_PipelineRef spec) (map_to_list parameters) (sps_ServiceAccountName spec),
   mkNexusPipelineRunStatus (spt_Phase status) (spt_WorkflowRef status) started finished (spt_Message status)).
#[export] Instance run_layout :
  Layout NexusPipelineRun (TypeMeta * object_meta * NexusPipelineRunSpec * NexusPipelineRunStatus) :=
  struct_layout run_parts run_content.

Definition promotion_parts (x : NexusModelPromotion) : ObjectMeta * slice :=
  (nmp_ObjectMeta x, sms_Gates (nmp_Spec x)).
Definition promotion_content (x : NexusModelPromotion) (v : object_meta * list PromotionGate) :
    TypeMeta * object_meta * NexusModelPromotionSpec * NexusModelPromotionStatus :=
  let spec := nmp_Spec x in let '(meta, gates) := v in
  (nmp_TypeMeta x, meta,
   mkNexusModelPromotionSpec (sms_ModelName spec) (sms_Version spec) (sms_TargetStage spec) gates,
   nmp_Status x).
#[export] Instance promotion_layout :
  Layout NexusModelPromotion (TypeMeta * object_meta * NexusModelPromotionSpec * NexusModelPromotionStatus) :=
  struct_layout promotion_parts promotion_content.

Definition workspace_parts (x : NexusWorkspace) : ObjectMeta * (slice * slice) :=
  (nw_ObjectMeta x, (sws_Services (nw_Spec x), swt_Conditions (nw_Status x))).
Definition workspace_content (x : NexusWorkspace) (v : object_meta * (list string * list Condition)) :
    TypeMeta * object_meta * NexusWorkspaceSpec * (string * Z * string * string * Z * list Condition) :=
  let spec := nw_Spec x in let status := nw_Status x in let '(meta, (services, conditions)) := v in
  (nw_TypeMeta x, meta,
   mkNexusWorkspaceSpec (sws_Subject spec) services (sws_Compute spec) (sws_StorageGB spec) (sws_Disabled spec),
   (swt_Phase status, swt_ReadyReplicas status, swt_WorkbenchURL status, swt_IDEURL status,
    swt_ObservedGeneration status, conditions)).
#[export] Instance workspace_layout :
  Layout NexusWorkspace (TypeMeta * object_meta * NexusWorkspaceSpec
                         * (string * Z * string * string * Z * list Condition)) :=
  struct_layout workspace_parts workspace_content.

#[export] Instance agent_ok : LayoutOk NexusAgent _ := struct_ok agent_parts agent_content.
#[export] Instance run_ok : LayoutOk NexusPipelineRun _ := struct_ok run_parts run_content.
#[export] Instance promotion_ok : LayoutOk NexusModelPromotion _ := struct_ok promotion_parts promotion_content.
#[export] Instance workspace_ok : LayoutOk NexusWorkspace _ := struct_ok workspace_parts workspace_content.

Lemma time_copy_deep : deep (V := option Time) time_copy.
Proof using Hok.
  intros h [l|] v Hv; cbn in *.
  - apply fmap_Some in Hv as (t&Ht&->). destruct (time_DeepCopy_deep h l t Ht) as (l'&h'&E&Hsub&Hv'&Hf).
    exists (Some l'), h'. unfold mbind, H_bind. rewrite E. cbn in *. by rewrite Hv'.
  - injection Hv as <-. exists None, h. split_and!; [done|done|done|]. cbn. set_solver.
Qed.

(** A struct's method against the copy of its parts. *)
Ltac by_parts :=
  intros x h; cbv [agent_DeepCopyObject run_DeepCopyObject promotion_DeepCopyObject workspace_DeepCopyObject
                   agent_parts run_parts promotion_parts workspace_parts pair_copy mbind H_bind]; cbn;
  repeat match goal with
  | |- context [option_bind _ _ _ (?copy ?part ?h)] => destruct (copy part h) as [[? ?]|]; [cbn|done]
  end; try done.

Lemma agent_deep : deep agent_DeepCopyObject.
Proof using Hok.
  apply (struct_deep agent_parts agent_content 
    (pair_copy meta_DeepCopy (pair_copy (append_copy (A := ToolReference)) (append_copy (A := Condition)))) _
    (λ x p, let spec := na_Spec x in let status := na_Status x in
      mkNexusAgent (na_TypeMeta x) p.1
        (mkAgentMemSpec (sas_Version spec) (sas_Image spec) (sas_GraphModule spec) (sas_Replicas spec)
           (sas_LLM spec) p.2.1 (sas_LangfuseProject spec) (sas_TrafficPolicy spec))
        (mkAgentMemStatus (sat_Phase status) (sat_ReadyReplicas status) (sat_ObservedGeneration status) p.2.2))).
  - apply pair_deep; [apply meta_DeepCopy_deep|]. apply pair_deep; apply append_copy_deep.
  - by_parts.
  - by intros x [a [t c]].
  - by intros x [a [t c]] [m [v w]].
Qed.

Lemma run_deep : deep run_DeepCopyObject.
Proof using Hok.
  apply (struct_deep run_parts run_content
    (pair_copy meta_DeepCopy (pair_copy map_copy (pair_copy time_copy time_copy))) _
    (λ x p, let spec := npr_Spec x in let status := npr_Status x in
      mkNexusPipelineRun (npr_TypeMeta x) p.1
        (mkRunMemSpec (sps_PipelineRef spec) p.2.1 (sps_ServiceAccountName spec))
        (mkRunMemStatus (spt_Phase status) (spt_WorkflowRef status) p.2.2.1 p.2.2.2 (spt_Message status)))).
  - apply pair_deep; [apply meta_DeepCopy_deep|]. apply pair_deep; [apply map_copy_deep|].
    apply pair_deep; apply time_copy_deep.
  - by_parts.
  - by intros x [a [m [t t']]].
  - by intros x [a [m [t t']]] [v [w [u u']]].
Qed.

Lemma promotion_deep : deep promotion_DeepCopyObject.
Proof using Hok.
  apply (struct_deep promotion_parts promotion_content
    (pair_copy meta_DeepCopy (append_copy (A := PromotionGate))) _
    (λ x p, let spec := nmp_Spec x in
      mkNexusModelPromotion (nmp_TypeMeta x) p.1
        (mkPromotionMemSpec (sms_ModelName spec) (sms_Version spec) (sms_TargetStage spec) p.2) (nmp_Status x))).
  - apply pair_deep; [apply meta_DeepCopy_deep|apply append_copy_deep].
  - by_parts.
  - by intros x [a g].
  - by intros x [a g] [v w].
Qed.

Lemma workspace_deep : deep workspace_DeepCopyObject.
Proof using Hok.
  apply (struct_deep workspace_parts workspace_content
    (pair_copy meta_DeepCopy (pair_copy (append_copy (A := string)) (append_copy (A := Condition)))) _
    (λ x p, let spec := nw_Spec x in let status := nw_Status x in
      mkNexusWorkspace (nw_TypeMeta x) p.1
        (mkWorkspaceMemSpec (sws_Subject spec) p.2.1 (sws_Compute spec) (sws_StorageGB spec) (sws_Disabled spec))
        (mkWorkspaceMemStatus (swt_Phase status) (swt_ReadyReplicas status) (swt_WorkbenchURL status)
           (swt_IDEURL status) (swt_ObservedGeneration status) p.2.2))).
  - apply pair_deep; [apply meta_DeepCopy_deep|]. apply pair_deep; apply append_copy_deep.
  - by_parts.
  - by intros x [a [t c]].
  - by intros x [a [t c]] [m [v w]].
Qed.
End resources.

(** ** Lists *)

Section filling.
Context `{MetaTypes} {A V : Type} `{!Element A} `{!Layout A V} {Helements : LayoutOk A V}.

(** Items copied so far: their contents, and none of their blocks known before. *)
Definition copied (h0 : heap) (array : loc) (h : heap) (ys : list A) (vs : list V) : Prop :=
  Forall2 (λ y v, value h y = Some v ∧ refs h y ## dom h0 ∪ {[array]}) ys vs.

Lemma copied_mono h0 array h h' ys vs :
  copied h0 array h ys vs → (∀ l, l ≠ array → l ∈ dom h → h' !! l = h !! l) → copied h0 array h' ys vs.
Proof using Helements.
  intros Hc Hl. eapply Forall2_impl; [exact Hc|]. intros y v [Hv Hf]. cbn.
  destruct (value_local h h' y v Hv) as [Hv' Hr'].
  - intros l Hin. apply Hl; [set_solver|]. by apply (refs_there h y v Hv).
  - by rewrite Hr'.
Qed.

Lemma set_item_step (array : loc) i (y : A) (h : heap) cur :
  h !! array = Some (array_of cur) → (i < length cur)%nat →
  set_item array i y h = Some (tt, <[array := array_of (<[i := y]> cur)]> h).
Proof using.
  intros Ha Hi. unfold set_item, mbind, H_bind, read. rewrite Ha. cbn. unfold expect. rewrite items_array. cbn.
  by rewrite decide_True.
Qed.

Context (copy : A → H A).
Hypothesis copy_deep : deep copy.

Lemma copy_items_copied h0 array todo : ∀ vs h i cur done_,
  mapM (value h0) todo = Some vs → h0 ⊆ h → array ∉ dom h0 →
  h !! array = Some (array_of cur) → (i + length todo = length cur)%nat →
  copied h0 array h (take i cur) done_ →
  ∃ h' cur', copy_items copy array i todo h = Some (tt, h') ∧ h0 ⊆ h' ∧ h' !! array = Some (array_of cur')
  ∧ length cur' = length cur ∧ copied h0 array h' cur' (app done_ vs).
Proof using copy_deep Helements.
  induction todo as [|x todo IH]; intros vs h i cur done_ Hvs Hsub Hnew Ha Hlen Hc.
  - injection Hvs as <-. exists h, cur. rewrite (app_nil_r done_). rewrite take_ge in Hc by (cbn in Hlen; lia). done.
  - cbn in Hvs, Hlen. apply bind_Some in Hvs as (v&Hx&Hvs). apply bind_Some in Hvs as (vs'&Hvs&[= <-]).
    destruct (value_mono h0 h x v Hx Hsub) as [Hxh _].
    destruct (copy_deep h x v Hxh) as (y&h1&E&Hsub1&Hy&Hfy).
    assert (h1 !! array = Some (array_of cur)) as Ha1 by (by eapply lookup_weaken).
    assert (array ∈ dom h) as Hah by (by apply elem_of_dom_2 in Ha).
    assert (dom h0 ⊆ dom h) as Hd by (by apply subseteq_dom).
    set (h2 := <[array := array_of (<[i := y]> cur)]> h1).
    destruct (value_local h1 h2 y v Hy) as [Hy2 Hr2].
    { intros l Hl. unfold h2. rewrite lookup_insert_ne; [done|]. set_solver. }
    destruct (IH vs' h2 (S i) (<[i := y]> cur) (app done_ [v])) as (h'&cur'&E'&Hsub'&Ha'&Hlen'&Hc').
    + done.
    + apply insert_subseteq_r; [by apply not_elem_of_dom|]. by trans h.
    + done.
    + unfold h2. by rewrite lookup_insert_eq.
    + rewrite length_insert. lia.
    + rewrite (take_S_r _ _ y) by (apply list_lookup_insert_eq; lia).
      rewrite take_insert_ge by lia. apply Forall2_app; [|apply Forall2_cons; split; [split; [done|]|constructor]].
      * apply (copied_mono _ _ h); [done|]. intros l Hne Hl. unfold h2. rewrite lookup_insert_ne by done.
        apply elem_of_dom in Hl as [b Hb]. rewrite Hb. by eapply lookup_weaken.
      * rewrite Hr2. set_solver.
    + exists h', cur'. cbn. unfold mbind, H_bind. rewrite E. cbn.
      rewrite (set_item_step _ _ _ _ cur) by (done || lia). cbn. split; [exact E'|]. split; [done|].
      split; [done|]. rewrite length_insert in Hlen'. split; [done|]. by rewrite <-(assoc_L app) in Hc'.
Qed.
End filling.

Section lists.
Context `{MetaV1} {A V : Type} `{!Element A} `{!Layout A V} {Helements : LayoutOk A V} {Hok : MetaV1Ok}.
Definition list_parts (x : NexusList) : ListMeta * slice := (nl_ListMeta x, nl_Items x).
Definition list_content (x : NexusList) (v : list_meta * list V) : TypeMeta * list_meta * list V :=
  (nl_TypeMeta x, v.1, v.2).
#[local] Existing Instance items_layout | 0.
#[local] Existing Instance items_ok | 0.
Definition list_layout : Layout NexusList (TypeMeta * list_meta * list V) :=
  struct_layout (Layout0 := pair_layout (Layout1 := items_layout (A := A))) list_parts list_content.


Lemma copied_fresh h0 array h (ys : list A) (vs : list V) :
  copied h0 array h ys vs → ⋃ (refs h <$> ys) ## dom h0 ∪ {[array]}.
Proof using. clear Hok Helements. induction 1 as [|y v ys vs [_ Hf] _ IH]; cbn; set_solver. Qed.

(** A list's copy: the content of the original, the same metadata, and otherwise
    new blocks only. *)
Lemma list_copied (zero : A) (copy : A → H A) h x c :
  deep copy → value (Layout := list_layout) h x = Some c →
  ∃ y h', list_DeepCopyObject zero copy x h = Some (y, h') ∧ h ⊆ h'
  ∧ value (Layout := list_layout) h' y = Some c
  ∧ nl_ListMeta y = nl_ListMeta x
  ∧ refs (Layout := list_layout) h' y ∖ refs (Layout := list_meta_layout) h' (nl_ListMeta x) ## dom h.
Proof using Helements Hok.
  intros Hcopy Hx. cbn in Hx. apply fmap_Some in Hx as ([meta vs]&Hx&->).
  apply bind_Some in Hx as (meta'&Hmeta&Hx). apply bind_Some in Hx as (vs'&Hitems&[= -> ->]).
  apply bind_Some in Hitems as (items&Hs&Hvs).
  destruct (elements (nl_Items x) h) as [[items' h0]|] eqn:He; [|done]. injection Hs as ->.
  apply elements_keep in He as Hh. subst h0.
  destruct (allocate_fresh (array_of (replicate (length items) zero)) h) as (l&Ha&Hl&Hsub).
  destruct (copy_items_copied copy Hcopy h l items vs (<[l := array_of (replicate (length items) zero)]> h) 0
    (replicate (length items) zero) []) as (h'&ys&E&Hsub'&Hys&Hlen&Hc);
    [done|done|done|by rewrite lookup_insert_eq|by rewrite length_replicate|by constructor|].
  rewrite length_replicate in Hlen.
  exists (mkNexusList (nl_TypeMeta x) (nl_ListMeta x) (Slice l 0 (length items))), h'.
  destruct (value_mono h h' (nl_ListMeta x) meta Hmeta Hsub') as [Hm' _].
  assert (elements (Slice l 0 (length items)) h' = Some (ys, h')) as Hel.
  { cbn. unfold mbind, H_bind, read. rewrite Hys. cbn. unfold expect. rewrite items_array. cbn.
    rewrite decide_True by lia. rewrite drop_0, <-Hlen, firstn_all. done. }
  split.
  { unfold list_DeepCopyObject, mbind, H_bind. rewrite He. cbn [option_bind mbind]. rewrite Ha.
    cbn [option_bind mbind]. by rewrite E. }
  split; [done|]. cbn -[elements]. rewrite Hm'. cbn -[elements]. rewrite Hel. cbn -[elements].
  assert (mapM (value h') ys = Some vs) as ->.
  { apply mapM_Some. eapply Forall2_impl; [exact Hc|]. by intros ? ? [? _]. }
  split; [done|]. split; [done|]. apply copied_fresh in Hc. set_solver.
Qed.
End lists.

(** ** Properties *)

(** Whatever is written through one of them, the other keeps its content. *)
Definition independent `{MetaTypes} {T V} `{!Layout T V} (h : heap) (x y : T) (v : V) : Prop :=
  (∀ h', (∀ l, l ∉ refs h y → h' !! l = h !! l) → value h' x = Some v)
  ∧ (∀ h', (∀ l, l ∉ refs h x → h' !! l = h !! l) → value h' y = Some v).

Definition own_copy `{MetaTypes} {T V} `{!Layout T V} (copy : T → H T) : Prop :=
  (∀ h, DeepCopyObject copy None h = Some (None, h))
  ∧ ∀ h x v, value h x = Some v →
    ∃ y h', DeepCopyObject copy (Some x) h = Some (Some y, h')
    ∧ value h' x = Some v ∧ value h' y = Some v ∧ independent h' x y v.

(** The copy of a list: its blocks are new but for those of the list's metadata. *)
Definition list_copy `{MetaV1} {A V} `{!Element A} `{!Layout A V} (copy : NexusList → H NexusList) : Prop :=
  (∀ h, DeepCopyObject copy None h = Some (None, h))
  ∧ ∀ h x c, value (Layout := list_layout (A := A) (V := V)) h x = Some c →
  ∃ y h', DeepCopyObject copy (Some x) h = Some (Some y, h')
  ∧ value (Layout := list_layout (A := A)) h' x = Some c ∧ value (Layout := list_layout (A := A)) h' y = Some c
  ∧ refs (Layout := list_meta_layout) h' (nl_ListMeta y) = refs (Layout := list_meta_layout) h' (nl_ListMeta x)
  ∧ refs (Layout := list_layout (A := A)) h' y ∖ refs (Layout := list_meta_layout) h' (nl_ListMeta x) ## dom h.

Lemma DeepCopyObject_Some `{MetaTypes} {T} (copy : T → H T) x h y h' :
  copy x h = Some (y, h') → DeepCopyObject copy (Some x) h = Some (Some y, h').
Proof. intros E. unfold DeepCopyObject, mbind, H_bind. by rewrite E. Qed.

Lemma deep_own `{MetaTypes} {T V} `{!Layout T V} `{!LayoutOk T V} (copy : T → H T) : deep copy → own_copy copy.
Proof.
  intros Hdeep. split; [done|]. intros h x v Hv. destruct (Hdeep h x v Hv) as (y&h'&E&Hsub&Hy&Hf). exists y, h'.
  destruct (value_mono h h' x v Hv Hsub) as [Hx Hr]. pose proof (refs_there h x v Hv) as Hd.
  split; [by rewrite (DeepCopyObject_Some _ _ _ _ _ E)|]. split_and!; [done..|]. split; intros h'' Hl.
  - apply (value_local h' h'' x v Hx). intros l Hin. apply Hl. rewrite Hr in Hin. set_solver.
  - apply (value_local h' h'' y v Hy). intros l Hin. apply Hl. rewrite Hr. set_solver.
Qed.

Lemma list_copy_ok `{MetaV1} `{!MetaV1Ok} {A V} `{!Element A} `{!Layout A V} `{!LayoutOk A V} zero (copy : A → H A) :
  deep copy → list_copy (list_DeepCopyObject zero copy).
Proof.
  intros Hdeep. split; [done|]. intros h x c Hv. destruct (list_copied zero copy h x c Hdeep Hv) as (y&h'&E&Hsub&Hy&Hm&Hf).
  exists y, h'. split; [by rewrite (DeepCopyObject_Some _ _ _ _ _ E)|].
  assert (LayoutOk NexusList _ (Layout0 := list_layout (A := A) (V := V))) as Hlist.
  { refine (@struct_ok _ _ _ _ _ _ (@pair_ok _ _ _ _ _ _ _ list_meta_ok items_ok) list_parts list_content). }
  destruct (value_mono h h' x c Hv Hsub) as [Hx _]. rewrite Hm. done.
Qed.

(** C33: the copying methods of the custom resources, over a memory of shared slices,
    maps and pointers.  They always return, and a copied agent, run, promotion or
    workspace has the content of the original and is independent of it: whatever is
    written through one, the other keeps its content.  A copied list has the content of the
    original and new items, but the blocks of its metadata are the original's. *)
Theorem resource_copies `{MetaV1} `{MapOrder} `{!MetaV1Ok} :
  own_copy agent_DeepCopyObject ∧ own_copy run_DeepCopyObject
  ∧ own_copy promotion_DeepCopyObject ∧ own_copy workspace_DeepCopyObject
  ∧ (∀ zero, list_copy (A := NexusAgent) (agent_list_DeepCopyObject zero))
  ∧ (∀ zero, list_copy (A := NexusPipelineRun) (run_list_DeepCopyObject zero))
  ∧ (∀ zero, list_copy (A := NexusModelPromotion) (promotion_list_DeepCopyObject zero))
  ∧ (∀ zero, list_copy (A := NexusWorkspace) (workspace_list_DeepCopyObject zero)).
Proof.
  split; [apply deep_own, agent_deep|]. split; [apply deep_own, run_deep|].
  split; [apply deep_own, promotion_deep|]. split; [apply deep_own, workspace_deep|].
  split; [intros zero; apply list_copy_ok, agent_deep|]. split; [intros zero; apply list_copy_ok, run_deep|].
  split; [intros zero; apply list_copy_ok, promotion_deep|]. intros zero. apply list_copy_ok, workspace_deep.
Qed.

(** ** Witness

    Metadata as the library has them: of an object a name and a map of labels; of a
    list a version and the pointer [RemainingItemCount]. *)

Definition plain_layout `{MetaTypes} {T : Type} : Layout T T := {| value _ x := Some x; refs _ _ := ∅ |}.
Lemma plain_ok `{MetaTypes} {T} : LayoutOk T T (Layout0 := plain_layout).
Proof. split; [by intros|]. intros h x v _. cbn. set_solver. Qed.

#[local] Instance name_types : MetaTypes := {|
  TypeMeta := string; ObjectMeta := string * reference; ListMeta := string * reference;
  Condition := string; meta_block := Z
|}.
#[local] Existing Instance listed_order.

Definition count_layout : Layout loc Z := {|
  value h l := match h !! l with Some (MetaBlock n) => Some n | _ => None end;
  refs _ l := {[l]}
|}.

#[local] Instance name_meta : MetaV1 := {|
  object_meta := string * gmap string string;
  list_meta := string * option Z;
  object_meta_layout := pair_layout (Layout0 := plain_layout) (Layout1 := map_layout);
  list_meta_layout := pair_layout (Layout0 := plain_layout) (Layout1 := option_layout (Layout0 := count_layout));
  meta_DeepCopy := pair_copy mret map_copy;
  time_DeepCopy l := t ← time_at l; allocate (TimeValue t)
|}.

Lemma count_ok : LayoutOk loc Z (Layout0 := count_layout).
Proof.
  split.
  - intros h h' l v Hv Hl. cbn in *. by rewrite (Hl l) by set_solver.
  - intros h l v. cbn. destruct (h !! l) as [b|] eqn:Hb; [|done]. intros _. apply elem_of_dom_2 in Hb. set_solver.
Qed.

Lemma name_meta_ok : MetaV1Ok.
Proof.
  split.
  - exact (@pair_ok _ _ _ _ _ _ _ plain_ok map_ok).
  - exact (@pair_ok _ _ _ _ _ _ _ plain_ok (@option_ok _ _ _ count_ok)).
  - apply (@pair_deep _ _ _ _ _ _ _ plain_ok map_ok); [|apply map_copy_deep].
    intros h x v Hv. exists x, h. split; [reflexivity|]. split; [done|]. split; [exact Hv|]. cbn. set_solver.
  - intros h l t Ht. cbn in Ht. destruct (time_at l h) as [[t' h0]|] eqn:E; [|done]. injection Ht as ->.
    assert (h0 = h) as ->.
    { revert E. unfold time_at, mbind, H_bind, read. destruct (h !! l) as [[]|]; try done. by intros [= _ ->]. }
    destruct (allocate_fresh (TimeValue t) h) as (l'&Ha&Hl'&Hsub). cbn [time_DeepCopy name_meta].
    unfold mbind, H_bind. rewrite E. cbn [mbind option_bind]. rewrite Ha. exists l', (<[l' := TimeValue t]> h). split; [reflexivity|]. split; [exact Hsub|].
    cbn. unfold time_at, mbind, H_bind, read. rewrite lookup_insert_eq. cbn. split; [done|]. set_solver.
Qed.

(** Two versions of a workspace's services share an array. *)
Definition some_memory : heap := {[ 1%positive := StringArray ["workbench"; "ide"]; 2%positive := MetaBlock 7%Z ]}.
Definition some_workspace : NexusWorkspace :=
  mkNexusWorkspace "NexusWorkspace" ("access-alice", None)
    (mkWorkspaceMemSpec "alice" (Slice 1%positive 0 1) (mkWorkspaceComputeSpec 2 4 0 "" 1) 10 false)
    (mkWorkspaceMemStatus "Ready" 1 "" "" 1 nil_slice).

Definition some_content : TypeMeta * object_meta * NexusWorkspaceSpec
    * (string * Z * string * string * Z * list Condition) :=
  ("NexusWorkspace", ("access-alice", ∅ : gmap string string),
   mkNexusWorkspaceSpec "alice" ["workbench"] (mkWorkspaceComputeSpec 2 4 0 "" 1) 10 false,
   ("Ready", 1%Z, "", "", 1%Z, [])).

Lemma resource_copies_witness :
  ∃ x' h', DeepCopyObject workspace_DeepCopyObject (Some some_workspace) some_memory = Some (Some x', h')
  ∧ value h' x' = Some some_content
  ∧ value (<[1%positive := StringArray []]> h') x' = Some some_content
  ∧ value (<[1%positive := StringArray []]> h') some_workspace = None.
Proof.
  destruct (resource_copies (H0 := name_types) (H1 := name_meta) (H3 := name_meta_ok))
    as (_&_&_&[_ Hw]&_).
  destruct (Hw some_memory some_workspace some_content eq_refl) as (x'&h'&E&Hx&Hx'&_&Hi).
  exists x', h'. split; [exact E|]. split; [exact Hx'|]. split.
  - apply Hi. intros l Hl. apply lookup_insert_ne. intros <-. apply Hl. vm_compute. done.
  - injection E as _ <-. vm_compute. reflexivity.
Defined.

(** The metadata of a list and its copy: clearing the count through the copy clears
    the original's. *)
Definition some_list : NexusList := mkNexusList "NexusWorkspaceList" ("12", Some 2%positive) nil_slice.

Lemma list_metadata_shared :
  ∃ y h', workspace_list_DeepCopyObject some_workspace some_list some_memory = Some (y, h')
  ∧ refs (Layout := list_meta_layout) h' (nl_ListMeta y) = refs (Layout := list_meta_layout) h' (nl_ListMeta some_list)
  ∧ value (Layout := list_meta_layout) h' (nl_ListMeta some_list) = Some ("12", Some 7%Z)
  ∧ value (Layout := list_meta_layout) (<[2%positive := MetaBlock 0%Z]> h') (nl_ListMeta some_list) = Some ("12", Some 0%Z).
Proof. eexists _, _. split; [vm_compute; reflexivity|]. split_and!; vm_compute; reflexivity. Qed.
